(* ===== verification/_CoqProject ===== *)
-Q . S2P
Prelude.v
Machine.v
BitStruct.v
Ps2Types.v
Ps2Controller.v
Ps2Setup.v
Sim8042.v
Ps2ControllerFacts.v
Pic.v
Idt.v
Keyboard.v
KeyboardFacts.v
Scancodes.v
KeyboardHandler.v
KeyboardHandlerFacts.v
Bits.v
Multicore.v
StringHelper.v
Terminal.v
TerminalFacts.v
BitHex.v
BitHexFacts.v
FloatText.v
Printf.v
PrintfFacts.v
Paging.v
PagingFacts.v
SegmentDescriptor.v
SegmentDescriptorFacts.v
CString.v
CStringFacts.v
Symbols.v
SymbolsFacts.v
Real16.v
Framebuffer.v
FramebufferFacts.v
Mouse.v
MouseFacts.v
Ps2.v
Phys.v
Multiboot.v
MultibootFacts.v
Acpi.v
AcpiFacts.v
Elf.v
ElfFacts.v
KeyCodes.v
KeyCodesFacts.v
Lapic.v
Pit.v
PitSplitFacts.v
PitFacts.v
Processor.v
Cpuid.v
CpuidFacts.v
ControlRegisters.v
ControlRegistersFacts.v
Apic.v
ApicFacts.v
ApicIo.v
ApicIoFacts.v
ApicTimer.v
ApicTimerFacts.v
MulticoreGdt.v
MulticoreGdtFacts.v
EventLoop.v
EventLoopFacts.v
KernelCpp.v
CoreStages.v
KernelCppFacts.v
SpinLock.v
SpinLockFacts.v
Tss.v
MadtLayout.v
KernelMain.v
