(* ===== verification/Prelude.v ===== *)
(** * MapleKernel: a verification library

    MapleKernel is a 32-bit x86 kernel in C, C++ and assembly.  This library models the part of
    it that computes and decides, the code below [src/src/ProtectedMode] (all paths here are
    relative to it), and proves what that code does.  Functions keep their names; what a file
    models, its header says.  [XFacts], where there is one, has the theorems about [X].

    ** How code is modelled

    [Machine] holds the monad of the C functions: a function takes the hardware behind the I/O ports (a
    type of the class [PortDevice], arbitrary in the theorems) and the globals of its component,
    and ends in an outcome: the two after the run, the events in their order (port accesses,
    [kprintf] calls, calls out of the model) and an exit.  The exits are a result, [Aborted] (a
    failed assertion halts the processor), [Undefined] (undefined behaviour of C: an index out of
    bounds, an indeterminate value read, an oversized shift) and [Spinning] (a loop whose end
    depends on hardware or memory has used up its fuel).  Pure C functions that may be undefined
    return an [option].  Integers are in [Z], every conversion is written out with [u8], [u16],
    [u32], [i16]; floats are [spec_float].  Registers in memory are a class of their own
    ([RegisterDevice]), as are the interrupts that a processor sees ([Interrupts]), the answers of
    its special instructions ([Processor]) and the other processors ([OtherCores], [CoreMains]).
    [Machine] also has the rules: [total] (a function returns), [monitored] (an order of events is
    kept), [yields] (a run with one result and exactly these events), [ensures] and [returning]
    (what holds after every run, after every run that returns), [emits] (all events are of a kind).

    ** Parts and files

    - PS/2: [Ps2Types] (bytes, codes and structs of [drivers/ps2/controller/ps2_controller.h]),
      [Ps2Controller] and [Ps2Setup] ([ps2_controller.c]: port functions, and the ten steps of
      the set-up), [Sim8042] (a simulated controller for examples), [Ps2ControllerFacts],
      [Keyboard] and [KeyboardFacts] ([ps2_keyboard.c]), [Scancodes] (the tables), [KeyboardHandler]
      and [KeyboardHandlerFacts] ([ps2_keyboard_handler.c]: one interrupt per byte), [Mouse] and
      [MouseFacts] ([drivers/ps2/mouse]), [Ps2] ([ps2.c] and [kernel/kernel_helper.c]: the
      bring-up, which calls all of these on the globals of the two drivers), [KeyCodes] and [KeyCodesFacts]
      ([drivers/ps2/keyboard/cpp]: keys and characters of the scan codes).
    - Interrupts: [Pic] ([cpu/pic/pic.c]), [Idt] ([cpu/idt]), [Tss] ([cpu/idt/tss.h]: task state
      segments and the frames of interrupts), [Lapic], [Apic] and [ApicFacts] ([cpu/apic/apic.cpp]
      and its registers: commands between processors, waking them, waiting for them), [ApicIo] and
      [ApicIoFacts] ([cpu/apic_io]: the routes of the interrupts).
    - Time: [Pit] and [PitFacts] ([timers/pit]: waits, timeouts and the interrupt handler),
      [PitSplitFacts] (the [float] arithmetic of a wait against exact numbers),
      [ApicTimer] and [ApicTimerFacts] ([cpu/apic/apic_timers.cpp]: the timer of the APIC, measured
      against the other).
    - The processor: [Processor] (its special instructions as an interface), [Cpuid] and [CpuidFacts]
      ([cpu/cpuid]), [BitStruct] (structs of bit fields), [ControlRegisters] and
      [ControlRegistersFacts] ([cpu/control_registers], [cpu/fpu]).
    - Several processors: [Multicore] ([cpu/multicore/multicore.c], the reentrant lock), [SpinLock]
      and [SpinLockFacts] ([stdlib/atomic.h], the simple one), [MulticoreGdt] and
      [MulticoreGdtFacts] ([cpu/gdt/multicore_gdt.cpp]: segments of their own), [KernelCpp] and
      [KernelCppFacts] ([kernel/cpp/kernel_cpp.cpp], [cpu/multicore/multicore.cpp]: from the tables
      of the firmware to the main loops), [CoreStages] (what the start of the processors relies on), [EventLoop] and [EventLoopFacts] (the pointer that the
      main loop draws).
    - Output: [StringHelper] ([stdio/string_helper.c]), [FloatText] (its [ftoa] and the float
      printers), [Terminal] and [TerminalFacts] ([stdio/vga_terminal.c]), [BitHex] and [BitHexFacts]
      ([stdio/bit_hex_string.c]), [Printf] and [PrintfFacts] ([stdio/stdio.c]: [kprintf]), on the
      lock of [Multicore]; [Framebuffer] and [FramebufferFacts]
      ([framebuffer]), which the mouse draws on.
    - Memory: [Paging] and [PagingFacts] ([other/virtual_memory.c]), [Bits]
      ([cpu/gdt/f1_binary_operation.c]), [SegmentDescriptor] and [SegmentDescriptorFacts]
      ([cpu/gdt/f3_segment_descriptor_internals.c], [gdt.h]), [CString] and [CStringFacts]
      ([stdlib/string.c], [find_string_offset]).
    - Tables in memory, read through [Phys] (physical memory as a function from addresses to
      bytes): [Multiboot] and [MultibootFacts] ([firmware/multiboot/multiboot.cpp]), [Acpi] and
      [AcpiFacts] ([firmware/acpi], [madt]), [MadtLayout] (where the compiler puts the fields of
      [madt.hpp]), [Elf] and [ElfFacts]
      ([firmware/multiboot/multiboot_module.c]), [Symbols] and [SymbolsFacts]
      ([kernel/symbols.c]); [KernelMain] ([kernel/kernel.c]: what is made of them at the start).
    - [Real16] ([real16_wrappers], [realmode_functions]): calls into real mode.

    The parts meet in three ways.  A caller's function runs a callee's on its part of the globals
    ([zoom]): the keyboard on the interrupt table, the mouse on the framebuffer, the APIC on the
    interval timer, the start of the processors on all of these.  Where the callee
    is exchangeable, its promise is a class: [PortDevice], [Pic8259] (the mask registers the
    interrupt controllers keep), the terminal that the keyboard handler acts on, [SerialReady] (a
    serial line that accepts characters), [CoresObey] (other processors that do as they are told,
    and whose flags are false before).  Calls that leave the model are events, which the
    theorems count.

    ** What is shown

    - Refinement: the keyboard handler implements an abstract keyboard, and with the key codes the
      strokes on the printed keys report every key, or in the typing mode, which the program does
      not enter, print the text on them; the mouse handler implements an abstract pointer, which
      the main loop draws without a trace; [vkprintf] the rendering of a format tree, the terminal a page of lines,
      the locks an owner (and a depth) under every interleaving, the page bitmap first fit on a set.
    - Safety and termination on all hardware: the set-up of the controller returns, and so does the
      bring-up but for a mouse that gives no answer, which aborts it; every write to the controller follows a fresh look at its status; waking a processor sends
      it the prescribed commands and no others, however the machine answers.
    - Equivalence: generic and typed commands, the functions on descriptor words and the
      bit-field struct, the integer line algorithm and the rounded line, the one-step locks of a
      processor that runs alone and the interleaved one.
    - Round trips: numbers and their text, fields of words, and lists of tags and of MADT entries
      through their bytes; symbols and segments of a module are read from theirs.
    - Functional behaviour and bounds of the rest: waits (whose rest is counted in 1/65536 seconds
      instead of ticks), masks, interrupt table, printers,
      strings, symbols, shapes, real-mode calls, cpuid, the FPU, interrupts between processors,
      routes, the measured timer and the wait that measures it.
    - Errors and liveness: what is out of bounds, undefined or never ends, that a free lock is
      acquired and that waking the processors ends with all of them in their main function.  Where
      the code does not do what it means to do, the theorem states what it does, and the doc comment
      says so.

    ** Fuel and bounds

    [MAX_PS2_WAIT_LOOP] is the 1000 rounds of the code's own waits, three the retries of the keyboard.
    The polls of the serial line ([serial_polls], 1000) end in [Spinning] on a line that is never
    ready; the theorems on the terminal assume a ready one.  [digit_rounds] (10) is enough for
    32-bit numbers.  The parser of formats and the text buffers have one round per character, the
    page loops one per page, the line algorithm one per column or row, whichever are more
    ([draw_line_quick_exact] shows that this is enough).  The walks over tags and MADT entries take
    their fuel as an argument: one more than there are tags or entries is enough, and none is with
    a record of size 0.  The waits for the timer take the number of interrupts they see
    ([wakeups]); the theorems assume that the timer is among them ([ticks_within]).  Waits are bounded
    for times below 64 seconds.  The million
    looks at the command register are the code's own.

    ** Not modelled

    Assembly (boot, interrupt stubs, mode switches); the rest of [kernel.c] and the tests of
    [kernel_helper.c], straight lines of calls and prints; the compiler built-ins of [atomic.h]
    besides the lock, and the templates of [std.hpp] and [pairs.hpp]; [draw_line] of the
    framebuffer, which needs the processor's square root on doubles; [print_stack_trace], which
    reads the frames of the running code; [ps2_errors_overkill.c], which the build leaves out; the
    host tool [load_sym.c]; the exercises in the directories [Tutorials] and
    [zzz_other_src_quick_try_root] of the repository.  The memory model is sequentially consistent; caches
    and timing are not represented; interrupts in the middle of a function are where the file says
    so ([Pit], [EventLoop]). *)

From stdpp Require Export base list list_numbers option strings numbers.
From Stdlib Require Export ZArith Lia ZifyBool.

#[global] Open Scope Z_scope.

(** ** Machine integers

    The C code computes in [uint8_t], [uint16_t] and [uint32_t].  A value of
    one of these types is an integer of [Z]; a conversion to the type is the
    reduction modulo the width written out below. *)

Definition u8 (x : Z) : Z := x mod 2 ^ 8.
Definition u16 (x : Z) : Z := x mod 2 ^ 16.
Definition u32 (x : Z) : Z := x mod 2 ^ 32.

(** Conversion to [int16_t], which the compiler defines as reduction modulo 2^16. *)
Definition i16 (x : Z) : Z := (x + 2 ^ 15) mod 2 ^ 16 - 2 ^ 15.

Definition is_u8 (x : Z) : Prop := 0 <= x < 2 ^ 8.
Definition is_u16 (x : Z) : Prop := 0 <= x < 2 ^ 16.
Definition is_u32 (x : Z) : Prop := 0 <= x < 2 ^ 32.

#[export] Instance is_u8_dec x : Decision (is_u8 x).
Proof. unfold is_u8. apply _. Defined.
#[export] Instance is_u16_dec x : Decision (is_u16 x).
Proof. unfold is_u16. apply _. Defined.
#[export] Instance is_u32_dec x : Decision (is_u32 x).
Proof. unfold is_u32. apply _. Defined.

(** C's bit operators [&] and [|]; the shifts are stdpp's [≪] and [≫]. *)
Infix ".&" := Z.land (at level 40, left associativity) : Z_scope.
Infix ".|" := Z.lor (at level 50, left associativity) : Z_scope.

(** The value of a one-bit field at position [n]. *)
Definition field (b : bool) (n : Z) : Z := Z.shiftl (Z.b2z b) n.

(** ** Automation *)

Create HintDb kernel discriminated.
#[export] Hint Constants Opaque : kernel.
Create Rewrite HintDb cint.
Create Rewrite HintDb kbits.

Lemma u8_range x : is_u8 (u8 x).
Proof. unfold is_u8, u8. apply Z.mod_pos_bound. lia. Qed.
Lemma u16_range x : is_u16 (u16 x).
Proof. unfold is_u16, u16. apply Z.mod_pos_bound. lia. Qed.
Lemma u32_range x : is_u32 (u32 x).
Proof. unfold is_u32, u32. apply Z.mod_pos_bound. lia. Qed.

Lemma u8_small x : is_u8 x -> u8 x = x.
Proof. unfold is_u8, u8. intros. apply Z.mod_small. lia. Qed.
Lemma u16_small x : is_u16 x -> u16 x = x.
Proof. unfold is_u16, u16. intros. apply Z.mod_small. lia. Qed.
Lemma u32_small x : is_u32 x -> u32 x = x.
Proof. unfold is_u32, u32. intros. apply Z.mod_small. lia. Qed.

#[export] Hint Resolve u8_range u16_range u32_range : kernel.
#[export] Hint Rewrite u8_small u16_small u32_small using (unfold is_u8, is_u16, is_u32; lia) : cint.

(** Unfold the width predicates and finish with linear arithmetic. *)
Ltac width := unfold is_u8, is_u16, is_u32, u8, u16, u32 in *; lia.

(** A boolean property of bytes holds of every byte when it computes to
    [true] on the 256 of them. *)
Lemma byte_forall (P : Z -> bool) :
  forallb P (seqZ 0 256) = true -> forall x, is_u8 x -> P x = true.
Proof.
  intros H x Hx. rewrite forallb_forall in H. apply H.
  apply list_elem_of_In, elem_of_seqZ. unfold is_u8 in Hx. lia.
Qed.

(** Two functions agree on a range when their tables do. *)
Lemma table_eq {A} (f h : Z -> A) n :
  map f (seqZ 0 n) = map h (seqZ 0 n) -> forall v, 0 <= v < n -> f v = h v.
Proof.
  intros He v Hv. apply (proj1 map_ext_in_iff He), list_elem_of_In, elem_of_seqZ. lia.
Qed.

(** Bits of a bounded number. *)
Lemma testbit_high (w x i : Z) : 0 <= x < 2 ^ w -> 0 <= w <= i -> Z.testbit x i = false.
Proof.
  intros Hx Hi. rewrite <- (Z.mod_small x (2 ^ w)) by lia.
  apply Z.mod_pow2_bits_high. lia.
Qed.

Lemma testbit_u32 (x i : Z) : is_u32 x -> 32 <= i -> Z.testbit x i = false.
Proof. intros. apply (testbit_high 32); [done|lia]. Qed.

Lemma bounded_of_testbit (w x : Z) :
  0 <= w -> 0 <= x -> (forall i, w <= i -> Z.testbit x i = false) -> 0 <= x < 2 ^ w.
Proof.
  intros Hw Hx Hb. split; [done|].
  destruct (decide (x = 0)) as [->|Hx0]; [apply Z.pow_pos_nonneg; lia|].
  destruct (decide (x < 2 ^ w)) as [|Hge]; [done|exfalso].
  assert (Hl : w <= Z.log2 x) by (apply Z.log2_le_pow2; lia).
  pose proof (Z.bit_log2 x ltac:(lia)) as Hbit.
  by rewrite Hb in Hbit.
Qed.

(** Bit-by-bit equality: the rewriting set pushes [Z.testbit] to the leaves. *)
#[export] Hint Rewrite Z.land_spec Z.lor_spec Z.lxor_spec Z.ldiff_spec : kbits.
#[export] Hint Rewrite Z.lnot_spec Z.shiftl_spec Z.shiftr_spec Z.bits_0 using lia : kbits.
#[export] Hint Rewrite Z.ones_spec_low Z.ones_spec_high using lia : kbits.
#[export] Hint Rewrite Z.testbit_neg_r using lia : kbits.
#[export] Hint Rewrite Z.mod_pow2_bits_low Z.mod_pow2_bits_high using lia : kbits.
#[export] Hint Rewrite andb_true_r andb_false_r andb_true_l andb_false_l
  orb_true_r orb_false_r orb_true_l orb_false_l negb_involutive : kbits.

Ltac bits := autorewrite with kbits.
