(* ===== verification/Machine.v ===== *)
(** * The machine the drivers run on

    Port I/O, the kernel's diagnostics and calls that leave the modelled C code
    are events; C's globals are the state of a component; the device behind the
    ports is a parameter.  The file holds the monad in which every stateful C
    function of the development is written, the total-correctness rules for it,
    and trace monitors, with which ordering properties of port accesses are
    stated and proved. *)

From S2P Require Import Prelude.

(** ** Events and exits *)

(** An argument of a [kprintf] call. *)
Inductive parg :=
| PNum (z : Z)
| PStr (s : string).

(** What a run does to the outside world, in order.
    [EIn]/[EOut] are the [__inb]/[__outb] of [stdlib/intrinsics.h]; [ERead]/[EWrite] the
    accesses of [std::mmio_ptr] ([stdlib/special_pointers.hpp]); [EPrint] is one call of
    [kprintf]; [ECall] is a call of a function outside the model or an instruction such as
    [sti]. *)
Inductive event :=
| EIn (port val : Z)
| EOut (port val : Z)
| ERead (addr val : Z)
| EWrite (addr val : Z)
| EPrint (fmt : string) (args : list parg)
| ECall (name : string) (args : list Z).

(** How a call ends.  [Aborted]: [_abort()] of [stdlib/assert.h] was reached and the
    CPU halts for ever.  [Undefined]: the C code has undefined behaviour (an index out
    of bounds, an object read before it is written, an oversized shift).
    [Spinning]: an unbounded polling loop did not finish within its fuel. *)
Inductive exit (A : Type) :=
| Done (a : A)
| Aborted
| Undefined
| Spinning.
Arguments Done {A} a.
Arguments Aborted {A}.
Arguments Undefined {A}.
Arguments Spinning {A}.

Record outcome (D G A : Type) := Outcome {
  o_dev : D;
  o_glob : G;
  o_events : list event;
  o_exit : exit A;
}.
Arguments Outcome {D G A}.
Arguments o_dev {D G A}.
Arguments o_glob {D G A}.
Arguments o_events {D G A}.
Arguments o_exit {D G A}.

(** A C function that returns an [A]: from the state of the hardware and of the
    component's globals to an outcome. *)
Definition M (D G A : Type) : Type := D -> G -> outcome D G A.

(** The hardware behind the I/O ports. *)
Class PortDevice (D : Type) := {
  port_in : Z -> D -> Z * D;
  port_out : Z -> Z -> D -> D;
}.

(** The hardware behind memory-mapped registers of 32 bits. *)
Class RegisterDevice (D : Type) := {
  register_in : Z -> D -> Z * D;
  register_out : Z -> Z -> D -> D;
}.

Section monad.
Context {D G : Type}.

#[export] Instance M_ret : MRet (M D G) := fun A a d g => Outcome d g [] (Done a).

#[export] Instance M_bind : MBind (M D G) := fun A B k m d g =>
  let r := m d g in
  match o_exit r with
  | Done a =>
      let r' := k a (o_dev r) (o_glob r) in
      Outcome (o_dev r') (o_glob r') (o_events r ++ o_events r') (o_exit r')
  | Aborted => Outcome (o_dev r) (o_glob r) (o_events r) Aborted
  | Undefined => Outcome (o_dev r) (o_glob r) (o_events r) Undefined
  | Spinning => Outcome (o_dev r) (o_glob r) (o_events r) Spinning
  end.

Definition stop {A} (e : exit A) : M D G A := fun d g => Outcome d g [] e.
Definition emit (e : event) : M D G unit := fun d g => Outcome d g [e] (Done tt).
Definition get : M D G G := fun d g => Outcome d g [] (Done g).
Definition put (g : G) : M D G unit := fun d _ => Outcome d g [] (Done tt).
Definition gets {A} (f : G -> A) : M D G A := fun d g => Outcome d g [] (Done (f g)).
Definition modify (f : G -> G) : M D G unit := fun d g => Outcome d (f g) [] (Done tt).

(** [kprintf] *)
Definition kprintf (fmt : string) (args : list parg) : M D G unit := emit (EPrint fmt args).

(** Reading an object that may not have been written: [None] is indeterminate. *)
Definition read_cell {A} (c : option A) : M D G A :=
  match c with Some a => mret a | None => stop Undefined end.

(** [_2abort_msg_fmt] and [_abort] of [stdlib/assert.h]; the location arguments (file,
    function and line) are left out of the fourth call.  [_abort] writes its line with
    [terminal_writestring]. *)
Definition abort_msg {A} (fmt : string) (args : list parg) : M D G A :=
  kprintf "Assertion Failed\n" [];; kprintf fmt args;; kprintf "\n" [];;
  kprintf "File: %s, Function: %s, Line: %d\n" [];; emit (ECall "terminal_writestring: ABORTED\n" []);;
  stop Aborted.

(** [assert_handler_fmt] of [stdlib/assert.h] *)
Definition assert_handler_fmt (cond : bool) (fmt : string) (args : list parg) : M D G unit :=
  if negb cond then abort_msg fmt args else mret tt.

Context `{PortDevice D}.

(** [__inb]: the register [al] holds a byte. *)
Definition inb (port : Z) : M D G Z := fun d g =>
  let '(v, d') := port_in port d in
  Outcome d' g [EIn port (u8 v)] (Done (u8 v)).

(** [__outb] *)
Definition outb (port val : Z) : M D G unit := fun d g =>
  Outcome (port_out port (u8 val) d) g [EOut port (u8 val)] (Done tt).
Context `{RegisterDevice D}.

(** [std::mmio_ptr::read] and [write]: one access of 32 bits. *)
Definition mmio_read (addr : Z) : M D G Z := fun d g =>
  let '(v, d') := register_in addr d in
  Outcome d' g [ERead addr (u32 v)] (Done (u32 v)).
Definition mmio_write (addr val : Z) : M D G unit := fun d g =>
  Outcome (register_out addr (u32 val) d) g [EWrite addr (u32 val)] (Done tt).
End monad.

(** Running a component's function inside a larger one: the globals of the component
    are a part of those of the caller. *)
Definition zoom {D G G' A} (view : G' -> G) (over : G -> G' -> G') (m : M D G A) : M D G' A :=
  fun d g =>
    let r := m d (view g) in
    Outcome (o_dev r) (over (o_glob r) g) (o_events r) (o_exit r).

(** ** Early return

    C's [return] from the middle of a function: a step either returns the function's
    result or falls through with what the rest of the function needs. *)

Abbreviation Early D G R A := (M D G (R + A)%type).
Definition fall {D G R A} (a : A) : Early D G R A := mret (inr a).
Definition leave {D G R A} (r : R) : Early D G R A := mret (inl r).
Definition ebind {D G R A B} (m : Early D G R A) (k : A -> Early D G R B) : Early D G R B :=
  x ← m; match x with inl r => leave r | inr a => k a end.
Definition lift {D G R A} (m : M D G A) : Early D G R A := a ← m; fall a.
Definition function_body {D G R} (m : Early D G R R) : M D G R :=
  x ← m; match x with inl r => mret r | inr r => mret r end.

Notation "'let!' x ':=' m 'in' k" := (ebind m (fun x => k))
  (at level 10, x binder, m at level 100, k at level 200).
Notation "'do!' m 'in' k" := (ebind m (fun _ => k))
  (at level 10, m at level 100, k at level 200).

(** [for (i = start; i < start + n; i++)] *)
Fixpoint for_range {D G} (n : nat) (i : Z) (body : Z -> M D G unit) : M D G unit :=
  match n with
  | O => mret tt
  | S n' => body i;; for_range n' (i + 1) body
  end.

(** ** Equations of the monad *)

Lemma bind_done {D G A B} (m : M D G A) (k : A -> M D G B) d g d' g' es a :
  m d g = Outcome d' g' es (Done a) ->
  (m ≫= k) d g =
    let r := k a d' g' in Outcome (o_dev r) (o_glob r) (es ++ o_events r) (o_exit r).
Proof. intros Hm. unfold mbind, M_bind. by rewrite Hm. Qed.

Lemma ret_bind {D G A B} (a : A) (k : A -> M D G B) d g : (mret a ≫= k) d g = k a d g.
Proof. unfold mbind, M_bind, mret, M_ret. simpl. by destruct (k a d g). Qed.

(** ** Equality of runs

    Two functions are equivalent when they have the same outcome from every state.
    Binding respects the equivalence, so programs are rewritten inside one another. *)

Section run_equiv.
Context {D G : Type}.

#[export] Instance M_equiv A : Equiv (M D G A) := fun m m' => forall d g, m d g = m' d g.

#[export] Instance M_equivalence A : Equivalence (≡@{M D G A}).
Proof.
  split; [intros m d g; done|intros m m' H d g; by rewrite H|].
  intros m1 m2 m3 H12 H23 d g. by rewrite H12, H23.
Qed.

#[export] Instance bind_proper A B :
  Proper (pointwise_relation A (≡) ==> (≡) ==> (≡)) (mbind (M:=M D G) (A:=A) (B:=B)).
Proof.
  intros k k' Hk m m' Hm d g. unfold mbind, M_bind. rewrite Hm.
  destruct (o_exit (m' d g)); [|done..]. by rewrite Hk.
Qed.

Lemma bind_ret_l {A B} (a : A) (k : A -> M D G B) : mret a ≫= k ≡ k a.
Proof. intros d g. apply ret_bind. Qed.

Lemma bind_bind {A B C} (m : M D G A) (k : A -> M D G B) (h : B -> M D G C) :
  (m ≫= k) ≫= h ≡ x ← m; k x ≫= h.
Proof.
  intros d g. unfold mbind, M_bind. destruct (m d g) as [d1 g1 es1 [a| | |]]; simpl; try done.
  destruct (k a d1 g1) as [d2 g2 es2 [b| | |]]; simpl; try done. by rewrite (assoc_L (++)).
Qed.

(** Branching on a condition commutes with what follows. *)
Lemma if_bind {A B} (b : bool) (m m' : M D G A) (k : A -> M D G B) :
  (if b then m else m') ≫= k ≡ if b then m ≫= k else m' ≫= k.
Proof. by destruct b. Qed.

Lemma assert_holds {A} b fmt args (k : unit -> M D G A) :
  b = true -> assert_handler_fmt b fmt args ≫= k ≡ k tt.
Proof. intros ->. apply bind_ret_l. Qed.
End run_equiv.

(** ** Total correctness

    [total m Q]: from every state [m] returns, and its value satisfies [Q]. *)

Definition total {D G A} (m : M D G A) (Q : A -> Prop) : Prop :=
  forall d g, exists a, o_exit (m d g) = Done a /\ Q a.

Section total.
Context {D G : Type} `{PortDevice D}.

Lemma total_ret {A} (a : A) (Q : A -> Prop) : Q a -> total (D:=D) (G:=G) (mret a) Q.
Proof. intros HQ d g. by exists a. Qed.

Lemma total_bind {A B} (m : M D G A) (k : A -> M D G B) Q R :
  total m Q -> (forall a, Q a -> total (k a) R) -> total (m ≫= k) R.
Proof.
  intros Hm Hk d g. destruct (Hm d g) as (a & Ha & HQ).
  destruct (Hk a HQ (o_dev (m d g)) (o_glob (m d g))) as (b & Hb & HR).
  exists b. unfold mbind, M_bind. by rewrite Ha.
Qed.

Lemma total_weaken {A} (m : M D G A) (Q R : A -> Prop) :
  total m Q -> (forall a, Q a -> R a) -> total m R.
Proof. intros Hm HQ d g. destruct (Hm d g) as (a & ? & ?). eauto. Qed.

Lemma total_inb p : total (G:=G) (inb p) is_u8.
Proof.
  intros d g. unfold inb. destruct (port_in p d) as [v d'].
  exists (u8 v). split; [done|apply u8_range].
Qed.

Lemma total_outb p v : total (G:=G) (outb p v) (fun _ => True).
Proof. intros d g. by exists tt. Qed.

Lemma total_emit e : total (D:=D) (G:=G) (emit e) (fun _ => True).
Proof. intros d g. by exists tt. Qed.

Lemma total_kprintf fmt args : total (D:=D) (G:=G) (kprintf fmt args) (fun _ => True).
Proof. apply total_emit. Qed.

Lemma total_gets {A} (f : G -> A) : total (D:=D) (gets f) (fun _ => True).
Proof. intros d g. by exists (f g). Qed.

Lemma total_modify f : total (D:=D) (G:=G) (modify f) (fun _ => True).
Proof. intros d g. by exists tt. Qed.

Lemma total_cell {A} (a : A) (Q : A -> Prop) :
  Q a -> total (D:=D) (G:=G) (read_cell (Some a)) Q.
Proof. apply total_ret. Qed.

Lemma total_body {R} (m : Early D G R R) (Q : R -> Prop) :
  total m (fun x => match x with inl r => Q r | inr r => Q r end) -> total (function_body m) Q.
Proof.
  intros Hm. eapply total_bind; [done|]. intros [r|r] HQ; by apply total_ret.
Qed.

Lemma total_ebind {R A B} (m : Early D G R A) (k : A -> Early D G R B) Q S :
  total m (fun x => match x with inl r => S (inl r) | inr a => Q a end) ->
  (forall a, Q a -> total (k a) S) -> total (ebind m k) S.
Proof.
  intros Hm Hk. eapply total_bind; [done|]. intros [r|a] Hx; [by apply total_ret|by apply Hk].
Qed.

Lemma total_lift_bind {R A B} (m : M D G A) (k : A -> Early D G R B) Q S :
  total m Q -> (forall a, Q a -> total (k a) S) -> total (ebind (lift m) k) S.
Proof.
  intros Hm Hk. eapply total_bind; [eapply total_bind; [exact Hm|]|].
  - intros a HQ. apply (total_ret _ (fun x => exists a, x = inr a /\ Q a)). eauto.
  - intros x (a & -> & HQ). by apply Hk.
Qed.

Lemma total_for n i body :
  (forall j, i <= j < i + Z.of_nat n -> total (D:=D) (G:=G) (body j) (fun _ => True)) ->
  total (D:=D) (G:=G) (for_range n i body) (fun _ => True).
Proof.
  revert i. induction n as [|n IH]; intros i Hb; simpl; [by apply total_ret|].
  eapply total_bind; [apply Hb; lia|]. intros _ _. apply IH. intros j Hj. apply Hb. lia.
Qed.
End total.

(** ** Runs with one result

    [yields m s a s' es]: whatever the device, [m] returns [a] from [s], leaves [s'] and does
    exactly [es]; [returns] is a run without events. *)

Definition yields {D G A} (m : M D G A) (s : G) (a : A) (s' : G) (es : list event) : Prop :=
  forall d, o_exit (m d s) = Done a /\ o_glob (m d s) = s' /\ o_events (m d s) = es.
Abbreviation returns m s a s' := (yields m s a s' []).

Section yields.
Context {D G : Type}.

Lemma returns_ret {A} (a : A) s : returns (mret a : M D G A) s a s.
Proof. by intros d. Qed.

Lemma yields_bind {A B} (m : M D G A) (k : A -> M D G B) s a s1 c s2 es es' :
  yields m s a s1 es -> yields (k a) s1 c s2 es' -> yields (m ≫= k) s c s2 (es ++ es').
Proof.
  intros Hm Hk d. destruct (Hm d) as (He & <- & <-). destruct (Hk (o_dev (m d s))) as (He' & <- & <-).
  unfold mbind, M_bind. by rewrite He.
Qed.

(** A step without events. *)
Lemma returns_bind {A B} (m : M D G A) (k : A -> M D G B) s a s1 c s2 es :
  returns m s a s1 -> yields (k a) s1 c s2 es -> yields (m ≫= k) s c s2 es.
Proof. apply yields_bind. Qed.

Lemma returns_get {B} (k : G -> M D G B) s c s' es : yields (k s) s c s' es -> yields (get ≫= k) s c s' es.
Proof. apply returns_bind. by intros d. Qed.

Lemma returns_modify f s : returns (modify f : M D G unit) s tt (f s).
Proof. by intros d. Qed.

Lemma returns_cell {A B} (o : option A) v (k : A -> M D G B) s c s' es :
  o = Some v -> yields (k v) s c s' es -> yields (read_cell o ≫= k) s c s' es.
Proof. intros ->. apply returns_bind, returns_ret. Qed.

Lemma yields_emit e s : yields (emit e : M D G unit) s tt s [e].
Proof. by intros d. Qed.

Lemma yields_kprintf fmt args s : yields (kprintf fmt args : M D G unit) s tt s [EPrint fmt args].
Proof. apply yields_emit. Qed.

Lemma returns_gets {A B} (f : G -> A) (k : A -> M D G B) s c s' es :
  yields (k (f s)) s c s' es -> yields (gets f ≫= k) s c s' es.
Proof. apply returns_bind. by intros d. Qed.

Lemma yields_outb `{PortDevice D} p v s : yields (outb p v : M D G unit) s tt s [EOut p (u8 v)].
Proof. by intros d. Qed.

Lemma yields_mmio_write `{RegisterDevice D} a v s :
  yields (mmio_write a v : M D G unit) s tt s [EWrite a (u32 v)].
Proof. by intros d. Qed.

Lemma yields_zoom {G' A} (view : G' -> G) over (m : M D G A) s a s1 es :
  yields m (view s) a s1 es -> yields (zoom view over m) s a (over s1 s) es.
Proof. intros Hm d. destruct (Hm d) as (He & Hg & Hes). unfold zoom. cbn. by rewrite He, Hg, Hes. Qed.
End yields.

(** [ensures m s Q]: whatever the device, [m] returns from [s], and its result, the state it
    leaves and its events satisfy [Q]. *)
Definition ensures {D G A} (m : M D G A) (s : G) (Q : A -> G -> list event -> Prop) : Prop :=
  forall d, exists a, o_exit (m d s) = Done a /\ Q a (o_glob (m d s)) (o_events (m d s)).

Section ensures.
Context {D G : Type}.

Lemma ensures_yields {A} (m : M D G A) s a s' es (Q : A -> G -> list event -> Prop) :
  yields m s a s' es -> Q a s' es -> ensures m s Q.
Proof. intros Hm HQ d. destruct (Hm d) as (He & Hg & Hes). exists a. by rewrite Hg, Hes. Qed.

Lemma ensures_ret {A} (a : A) s (Q : A -> G -> list event -> Prop) :
  Q a s [] -> ensures (mret a : M D G A) s Q.
Proof. apply ensures_yields, returns_ret. Qed.

Lemma ensures_bind {A B} (m : M D G A) (k : A -> M D G B) s R (Q : B -> G -> list event -> Prop) :
  ensures m s R ->
  (forall a s1 es, R a s1 es -> ensures (k a) s1 (fun b s2 es' => Q b s2 (es ++ es'))) ->
  ensures (m ≫= k) s Q.
Proof.
  intros Hm Hk d. destruct (Hm d) as (a & He & HR).
  destruct (Hk a _ _ HR (o_dev (m d s))) as (b & He' & HQ).
  exists b. unfold mbind, M_bind. by rewrite He.
Qed.

(** A step with one result. *)
Lemma ensures_step {A B} (m : M D G A) (k : A -> M D G B) s a s1 es (Q : B -> G -> list event -> Prop) :
  yields m s a s1 es -> ensures (k a) s1 (fun b s2 es' => Q b s2 (es ++ es')) -> ensures (m ≫= k) s Q.
Proof.
  intros Hm Hk. apply (ensures_bind _ _ _ (fun a' s' es' => a' = a /\ s' = s1 /\ es' = es)).
  - by apply (ensures_yields _ _ a s1 es).
  - by intros ? ? ? (-> & -> & ->).
Qed.

Lemma ensures_get {B} (k : G -> M D G B) s Q : ensures (k s) s Q -> ensures (get ≫= k) s Q.
Proof. apply (ensures_step get k s s s []). by intros d. Qed.
Lemma ensures_gets {A B} (f : G -> A) (k : A -> M D G B) s Q :
  ensures (k (f s)) s Q -> ensures (gets f ≫= k) s Q.
Proof. apply (ensures_step (gets f) k s (f s) s []). by intros d. Qed.
Lemma ensures_modify {B} f (k : unit -> M D G B) s Q : ensures (k tt) (f s) Q -> ensures (modify f ≫= k) s Q.
Proof. apply (ensures_step (modify f) k s tt (f s) []). by intros d. Qed.
Lemma ensures_cell {A B} (o : option A) v (k : A -> M D G B) s Q :
  o = Some v -> ensures (k v) s Q -> ensures (read_cell o ≫= k) s Q.
Proof. intros ->. apply (ensures_step (read_cell (Some v)) k s v s []). by intros d. Qed.

Lemma ensures_weaken {A} (m : M D G A) s (Q Q' : A -> G -> list event -> Prop) :
  ensures m s Q -> (forall a s' es, Q a s' es -> Q' a s' es) -> ensures m s Q'.
Proof. intros Hm HQ d. destruct (Hm d) as (a & He & Ha). exists a. auto. Qed.

Lemma ensures_zoom {G' A} (view : G' -> G) over (m : M D G A) s (Q : A -> G' -> list event -> Prop) :
  ensures m (view s) (fun a s1 es => Q a (over s1 s) es) -> ensures (zoom view over m) s Q.
Proof. intros Hm d. destruct (Hm d) as (a & He & Ha). exists a. unfold zoom. cbn. by rewrite He. Qed.

Lemma ensures_inb `{PortDevice D} p s :
  ensures (inb p : M D G Z) s (fun v s' es => is_u8 v /\ s' = s /\ es = [EIn p v]).
Proof.
  intros d. unfold inb. destruct (port_in p d) as [v d']. exists (u8 v).
  split; [done|]. split; [apply u8_range|done].
Qed.

Lemma ensures_mmio_read `{RegisterDevice D} a s :
  ensures (mmio_read a : M D G Z) s (fun v s' es => is_u32 v /\ s' = s /\ es = [ERead a v]).
Proof.
  intros d. unfold mmio_read. destruct (register_in a d) as [v d']. exists (u32 v).
  split; [done|]. split; [apply u32_range|done].
Qed.

(** A loop that keeps [I] and whose rounds do [E]. *)
Lemma ensures_for n i body (I : G -> Prop) (E : nat -> list event -> Prop) s :
  E O [] -> (forall k es es', E k es -> E 1%nat es' -> E (S k) (es' ++ es)) -> I s ->
  (forall j s1, I s1 -> ensures (body j) s1 (fun _ s2 es => I s2 /\ E 1%nat es)) ->
  ensures (for_range (D:=D) n i body) s (fun _ s' es => I s' /\ E n es).
Proof.
  intros E0 ES HI Hb. revert i s HI. induction n as [|n IH]; intros i s HI; cbn.
  - by apply ensures_ret.
  - apply (ensures_bind _ _ _ (fun _ s2 es => I s2 /\ E 1%nat es)); [by apply Hb|].
    intros _ s1 es [HI1 HE1]. eapply ensures_weaken; [by apply IH|].
    intros _ s2 es' [HI2 HE2]. split; [done|]. by apply ES.
Qed.
End ensures.

(** [returning m s Q]: whatever the device, if [m] returns from [s], its result and the state it
    leaves satisfy [Q]. *)
Definition returning {D G A} (m : M D G A) (s : G) (Q : A -> G -> Prop) : Prop :=
  forall d a, o_exit (m d s) = Done a -> Q a (o_glob (m d s)).

Section returning.
Context {D G : Type}.

Lemma returning_ret {A} (a : A) s (Q : A -> G -> Prop) : Q a s -> returning (mret a : M D G A) s Q.
Proof. intros HQ d a' [= <-]. exact HQ. Qed.
Lemma returning_stop {A} (e : exit A) s Q : (forall a, e <> Done a) -> returning (stop e : M D G A) s Q.
Proof. intros He d a Ha. by destruct (He a). Qed.
Lemma returning_bind {A B} (m : M D G A) (k : A -> M D G B) s R (Q : B -> G -> Prop) :
  returning m s R -> (forall a s', R a s' -> returning (k a) s' Q) -> returning (m ≫= k) s Q.
Proof.
  intros Hm Hk d b. unfold mbind, M_bind. destruct (o_exit (m d s)) as [a| | |] eqn:E; try discriminate.
  cbn. apply (Hk a _ (Hm d a E)).
Qed.
Lemma returning_weaken {A} (m : M D G A) s (Q Q' : A -> G -> Prop) :
  returning m s Q -> (forall a s', Q a s' -> Q' a s') -> returning m s Q'.
Proof. intros Hm HQ d a Ha. apply HQ, Hm, Ha. Qed.
Lemma returning_get s : returning (get : M D G G) s (fun a s' => a = s /\ s' = s).
Proof. by intros d a [= <-]. Qed.
Lemma returning_gets {A} (f : G -> A) s : returning (gets f : M D G A) s (fun a s' => a = f s /\ s' = s).
Proof. by intros d a [= <-]. Qed.
Lemma returning_modify f s : returning (modify f : M D G unit) s (fun _ s' => s' = f s).
Proof. by intros d a _. Qed.
Lemma returning_cell {A} (c : option A) s : returning (read_cell c : M D G A) s (fun a s' => c = Some a /\ s' = s).
Proof. by destruct c; intros d a' [= <-]. Qed.
(** Steps that leave the state alone. *)
Lemma returning_emit e s : returning (emit e : M D G unit) s (fun _ s' => s' = s).
Proof. by intros d a _. Qed.
Lemma returning_assert b fmt args s :
  returning (assert_handler_fmt b fmt args : M D G unit) s (fun _ s' => b = true /\ s' = s).
Proof. by destruct b; intros d a Ha. Qed.
Lemma returning_outb `{PortDevice D} p v s : returning (outb p v : M D G unit) s (fun _ s' => s' = s).
Proof. by intros d a _. Qed.
Lemma returning_mmio_read `{RegisterDevice D} p s : returning (mmio_read p : M D G Z) s (fun _ s' => s' = s).
Proof. intros d a. unfold mmio_read. by destruct (register_in p d). Qed.
Lemma returning_mmio_write `{RegisterDevice D} p v s : returning (mmio_write p v : M D G unit) s (fun _ s' => s' = s).
Proof. by intros d a _. Qed.
Lemma returning_zoom {G' A} (view : G' -> G) over (m : M D G A) s (Q : A -> G' -> Prop) :
  returning m (view s) (fun a s1 => Q a (over s1 s)) -> returning (zoom view over m) s Q.
Proof. intros Hm d a Ha. exact (Hm d a Ha). Qed.
End returning.

(** [prints_and m v]: [m] returns [v], prints something and leaves the state alone. *)
Definition prints_and {D G A} (m : M D G A) (v : A) : Prop := forall g, exists es, yields m g v g es.

Section prints_and.
Context {D G : Type}.

Lemma prints_and_ret {A} (a : A) : prints_and (mret a : M D G A) a.
Proof. intros g. exists []. apply returns_ret. Qed.

Lemma prints_and_bind {A B} (m : M D G A) (k : A -> M D G B) a b :
  prints_and m a -> prints_and (k a) b -> prints_and (m ≫= k) b.
Proof.
  intros Hm Hk g. destruct (Hm g) as [es He]. destruct (Hk g) as [es' He']. exists (es ++ es').
  by eapply yields_bind.
Qed.

Lemma prints_and_kprintf {A} fmt args (k : unit -> M D G A) a :
  prints_and (k tt) a -> prints_and (kprintf fmt args ≫= k) a.
Proof. apply prints_and_bind. intros g. eexists. apply yields_kprintf. Qed.

Lemma prints_and_exit {A} (m : M D G A) a d g : prints_and m a -> o_exit (m d g) = Done a.
Proof. intros Hm. destruct (Hm g) as [es He]. apply He. Qed.
End prints_and.

(** ** Trace monitors

    A monitor reads the events of a run one by one and rejects a forbidden order.
    [monitored mo pre m post]: started in a monitor state that satisfies [pre], no
    event of [m] is rejected, and where [m] returns [a] the final monitor state
    satisfies [post a]. *)

Record monitor := Monitor {
  mo_state : Type;
  mo_step : event -> mo_state -> option mo_state;
}.

Fixpoint mo_run (mo : monitor) (es : list event) (s : mo_state mo) : option (mo_state mo) :=
  match es with
  | [] => Some s
  | e :: es => s' ← mo_step mo e s; mo_run mo es s'
  end.

Lemma mo_run_app mo es es' s : mo_run mo (es ++ es') s = s' ← mo_run mo es s; mo_run mo es' s'.
Proof.
  revert s. induction es as [|e es IH]; intros s; simpl; [done|].
  destruct (mo_step mo e s); simpl; auto.
Qed.

Definition accepts (mo : monitor) (es : list event) (s : mo_state mo) : Prop :=
  is_Some (mo_run mo es s).

Definition monitored {D G A} (mo : monitor) (pre : mo_state mo -> Prop) (m : M D G A)
    (post : A -> mo_state mo -> Prop) : Prop :=
  forall d g s, pre s ->
    exists s', mo_run mo (o_events (m d g)) s = Some s' /\
      (forall a, o_exit (m d g) = Done a -> post a s').

Section monitored.
Context {D G : Type} (mo : monitor).
Implicit Types pre : mo_state mo -> Prop.

Lemma monitored_ret {A} (a : A) pre (post : A -> mo_state mo -> Prop) :
  (forall s, pre s -> post a s) -> monitored (D:=D) (G:=G) mo pre (mret a) post.
Proof. intros Hp d g s Hs. exists s. split; [done|]. intros a' [= <-]. auto. Qed.

Lemma monitored_bind {A B} (m : M D G A) (k : A -> M D G B) pre mid post :
  monitored mo pre m mid -> (forall a, monitored mo (mid a) (k a) post) ->
  monitored mo pre (m ≫= k) post.
Proof.
  intros Hm Hk d g s Hs. destruct (Hm d g s Hs) as (s1 & Hr1 & Hp1).
  unfold mbind, M_bind. destruct (o_exit (m d g)) as [a| | |] eqn:E; simpl;
    try (exists s1; split; [done|discriminate]).
  destruct (Hk a (o_dev (m d g)) (o_glob (m d g)) s1 (Hp1 a eq_refl)) as (s2 & Hr2 & Hp2).
  exists s2. split; [|done]. by rewrite mo_run_app, Hr1.
Qed.

Lemma monitored_weaken {A} (m : M D G A) pre pre' (post post' : A -> mo_state mo -> Prop) :
  monitored mo pre m post -> (forall s, pre' s -> pre s) ->
  (forall a s, post a s -> post' a s) -> monitored mo pre' m post'.
Proof.
  intros Hm Hpre Hpost d g s Hs. destruct (Hm d g s (Hpre s Hs)) as (s' & ? & ?). eauto.
Qed.

Lemma monitored_stop {A} (e : exit A) pre (post : A -> mo_state mo -> Prop) :
  (forall a, e <> Done a) -> monitored (D:=D) (G:=G) mo pre (stop e) post.
Proof. intros He d g s Hs. exists s. split; [done|]. intros a Ha. by destruct (He a). Qed.

Lemma monitored_emit e pre (post : unit -> mo_state mo -> Prop) :
  (forall s, pre s -> exists s', mo_step mo e s = Some s' /\ post tt s') ->
  monitored (D:=D) (G:=G) mo pre (emit e) post.
Proof.
  intros He d g s Hs. destruct (He s Hs) as (s' & Hst & Hp).
  exists s'. simpl. rewrite Hst. split; [done|]. by intros [] _.
Qed.

Lemma monitored_gets {A} (f : G -> A) pre :
  monitored (D:=D) mo pre (gets f) (fun _ => pre).
Proof. intros d g s Hs. by exists s. Qed.

Lemma monitored_modify (f : G -> G) pre : monitored (D:=D) mo pre (modify f) (fun _ => pre).
Proof. intros d g s Hs. by exists s. Qed.

Lemma monitored_cell {A} (c : option A) pre :
  monitored (D:=D) (G:=G) mo pre (read_cell c) (fun _ => pre).
Proof. destruct c; simpl; [by apply monitored_ret|by apply monitored_stop]. Qed.

Context `{PortDevice D}.

Lemma monitored_inb p pre (post : Z -> mo_state mo -> Prop) :
  (forall v s, is_u8 v -> pre s -> exists s', mo_step mo (EIn p v) s = Some s' /\ post v s') ->
  monitored (G:=G) mo pre (inb p) post.
Proof.
  intros Hv d g s Hs. unfold inb. destruct (port_in p d) as [v d'].
  destruct (Hv (u8 v) s (u8_range v) Hs) as (s' & Hst & Hp).
  exists s'. simpl. rewrite Hst. split; [done|]. by intros a [= <-].
Qed.

Lemma monitored_outb p v pre (post : unit -> mo_state mo -> Prop) :
  (forall s, pre s -> exists s', mo_step mo (EOut p (u8 v)) s = Some s' /\ post tt s') ->
  monitored (G:=G) mo pre (outb p v) post.
Proof.
  intros He d g s Hs. destruct (He s Hs) as (s' & Hst & Hp).
  exists s'. simpl. rewrite Hst. split; [done|]. by intros [] _.
Qed.
End monitored.

(** ** Runs confined to some events

    [emits P m]: whatever the machine and however the run ends, every event of [m] satisfies [P]. *)

Definition emits {D G A} (P : event -> Prop) (m : M D G A) : Prop :=
  forall d g, Forall P (o_events (m d g)).

Section emits.
Context {D G : Type} (P : event -> Prop).

Lemma emits_ret {A} (a : A) : emits (D:=D) (G:=G) P (mret a).
Proof. constructor. Qed.
Lemma emits_stop {A} (e : exit A) : emits (D:=D) (G:=G) P (stop e).
Proof. constructor. Qed.
Lemma emits_get : emits (D:=D) (G:=G) P get.
Proof. constructor. Qed.
Lemma emits_put (g : G) : emits (D:=D) P (put g).
Proof. constructor. Qed.
Lemma emits_gets {A} (f : G -> A) : emits (D:=D) P (gets f).
Proof. constructor. Qed.
Lemma emits_modify f : emits (D:=D) (G:=G) P (modify f).
Proof. constructor. Qed.
Lemma emits_cell {A} (c : option A) : emits (D:=D) (G:=G) P (read_cell c).
Proof. destruct c; constructor. Qed.
Lemma emits_emit e : P e -> emits (D:=D) (G:=G) P (emit e).
Proof. intros He d g. by constructor. Qed.
Lemma emits_bind {A B} (m : M D G A) (k : A -> M D G B) :
  emits P m -> (forall a, emits P (k a)) -> emits P (m ≫= k).
Proof.
  intros Hm Hk d g. unfold mbind, M_bind.
  destruct (o_exit (m d g)) as [a| | |]; [|exact (Hm d g)..]. cbn. apply Forall_app. split; [apply Hm|apply Hk].
Qed.
Lemma emits_if {A} (b : bool) (m m' : M D G A) : emits P m -> emits P m' -> emits P (if b then m else m').
Proof. by destruct b. Qed.
Lemma emits_for n i body : (forall j, emits (D:=D) (G:=G) P (body j)) -> emits P (for_range n i body).
Proof.
  intros Hb. revert i. induction n as [|n IH]; intros i; cbn; [apply emits_ret|].
  apply emits_bind; [apply Hb|]. intros _. apply IH.
Qed.
Lemma emits_zoom {G' A} (view : G' -> G) over (m : M D G A) : emits P m -> emits P (zoom view over m).
Proof. intros Hm d g. exact (Hm d (view g)). Qed.
Lemma emits_inb `{PortDevice D} p : (forall v, P (EIn p v)) -> emits (G:=G) P (inb p).
Proof. intros HP d g. unfold inb. destruct (port_in p d). constructor; [apply HP|constructor]. Qed.
Lemma emits_outb `{PortDevice D} p v : P (EOut p (u8 v)) -> emits (G:=G) P (outb p v).
Proof. intros HP d g. by constructor. Qed.
Lemma emits_mmio_read `{RegisterDevice D} a : (forall v, P (ERead a v)) -> emits (G:=G) P (mmio_read a).
Proof. intros HP d g. unfold mmio_read. destruct (register_in a d). constructor; [apply HP|constructor]. Qed.
Lemma emits_mmio_write `{RegisterDevice D} a v : P (EWrite a (u32 v)) -> emits (G:=G) P (mmio_write a v).
Proof. intros HP d g. by constructor. Qed.
Lemma emits_abort {A} fmt args : (forall f a, P (EPrint f a)) -> (forall n a, P (ECall n a)) ->
  emits (D:=D) (G:=G) P (abort_msg (A:=A) fmt args).
Proof. intros Hp Hc d g. repeat constructor; (apply Hp || apply Hc). Qed.
Lemma emits_assert b fmt args : (forall f a, P (EPrint f a)) -> (forall n a, P (ECall n a)) ->
  emits (D:=D) (G:=G) P (assert_handler_fmt b fmt args).
Proof. intros Hp Hc. destruct b; [apply emits_ret|by apply emits_abort]. Qed.
Lemma emits_weaken {A} (Q : event -> Prop) (m : M D G A) : emits Q m -> (forall e, Q e -> P e) -> emits P m.
Proof. intros Hm HQ d g. specialize (Hm d g). induction Hm as [|e es He Hes IH]; constructor; auto. Qed.
End emits.

(** Code whose events a monitor ignores. *)
Lemma monitored_ignored {D G A} (mo : monitor) P (m : M D G A) pre : emits P m ->
  (forall e s, P e -> mo_step mo e s = Some s) -> monitored mo pre m (fun _ => pre).
Proof.
  intros Hm Hs d g s Hpre. exists s. split; [|done].
  specialize (Hm d g). revert Hm. generalize (o_events (m d g)). intros es Hes.
  induction Hes as [|e es He Hes IH]; cbn; [done|]. by rewrite (Hs e s He).
Qed.

Lemma monitored_mmio_write {D G} `{RegisterDevice D} (mo : monitor) a v pre (post : unit -> mo_state mo -> Prop) :
  (forall s, pre s -> exists s', mo_step mo (EWrite a (u32 v)) s = Some s' /\ post tt s') ->
  monitored (G:=G) mo pre (mmio_write a v) post.
Proof.
  intros He d g s Hs. destruct (He s Hs) as (s' & Hst & Hp).
  exists s'. simpl. rewrite Hst. split; [done|]. by intros [] _.
Qed.

Lemma monitored_zoom {D G G' A} (mo : monitor) (view : G' -> G) over (m : M D G A) pre post :
  monitored mo pre m post -> monitored mo pre (zoom view over m) post.
Proof. intros Hm d g s Hs. exact (Hm d (view g) s Hs). Qed.

(** Decomposing a function along its text. *)
Ltac emits_step :=
  first [ apply emits_ret | apply emits_stop | apply emits_get | apply emits_put | apply emits_gets
        | apply emits_modify | apply emits_cell | apply emits_for; intros ?
        | apply emits_zoom | apply emits_if | apply emits_bind; [|intros ?]
        | apply emits_emit | apply emits_inb | apply emits_outb | apply emits_mmio_read
        | apply emits_mmio_write | apply emits_assert | apply emits_abort ].
Create HintDb emits.
Ltac emits_steps := repeat first [ progress (eauto with emits) | emits_step ]; try done.

#[export] Hint Resolve total_inb total_emit total_kprintf total_gets total_modify total_outb : kernel.

(** A machine without devices, to run code that uses none. *)
Inductive no_device := ND.
#[export] Instance no_device_ports : PortDevice no_device := {
  port_in := fun _ d => (0, d);
  port_out := fun _ _ d => d
}.
#[export] Instance no_device_registers : RegisterDevice no_device := {
  register_in := fun _ d => (0, d);
  register_out := fun _ _ d => d
}.
