(* ===== verification/BitStruct.v ===== *)
(** * Structs of bit fields

    The compiler lays the fields of such a struct out from the lowest bit upwards.  A struct is
    the list of its fields, each with its width; [pack] is the word it is stored in, [unpack]
    reads the fields of a word. *)

From S2P Require Import Prelude.

(** A value wider than its field is cut, as an assignment to the field does. *)
Fixpoint pack (fields : list (Z * Z)) : Z :=
  match fields with
  | [] => 0
  | (w, v) :: fields => v mod 2 ^ w + 2 ^ w * pack fields
  end.

Fixpoint unpack (widths : list Z) (word : Z) : list Z :=
  match widths with
  | [] => []
  | w :: widths => word mod 2 ^ w :: unpack widths (word / 2 ^ w)
  end.

(** Field [i] of a word. *)
Definition field_at (widths : list Z) (i word : Z) : Z := default 0 (unpack widths word !! Z.to_nat i).

Fixpoint total_width (widths : list Z) : Z :=
  match widths with [] => 0 | w :: widths => w + total_width widths end.
Definition widths_ok (widths : list Z) : Prop := Forall (fun w => 0 <= w) widths.
(** Every value fits into its field. *)
Definition fits (fields : list (Z * Z)) : Prop := Forall (fun f => 0 <= snd f < 2 ^ fst f) fields.

#[export] Instance widths_ok_dec ws : Decision (widths_ok ws).
Proof. unfold widths_ok. apply _. Defined.

Lemma total_width_nonneg ws : widths_ok ws -> 0 <= total_width ws.
Proof. induction 1; cbn; lia. Qed.

Lemma pack_range fs : widths_ok (map fst fs) -> 0 <= pack fs < 2 ^ total_width (map fst fs).
Proof.
  induction fs as [|[w v] fs IH]; intros Hw; cbn; [lia|]. apply Forall_cons_1 in Hw as [Hw Hws].
  cbn in Hw. specialize (IH Hws). pose proof (Z.mod_pos_bound v (2 ^ w) ltac:(lia)).
  pose proof (total_width_nonneg _ Hws). rewrite Z.pow_add_r by done. nia.
Qed.

Lemma unpack_pack fs : widths_ok (map fst fs) ->
  unpack (map fst fs) (pack fs) = map (fun f => snd f mod 2 ^ fst f) fs.
Proof.
  induction fs as [|[w v] fs IH]; intros Hw; cbn; [done|]. apply Forall_cons_1 in Hw as [Hw Hws].
  cbn in Hw. pose proof (Z.mod_pos_bound v (2 ^ w) ltac:(lia)) as Hv. f_equal.
  - rewrite Z.mul_comm, Z.mod_add by lia. apply Z.mod_small. lia.
  - rewrite Z.mul_comm, Z.div_add, Z.div_small, Z.add_0_l by lia. by apply IH.
Qed.

(** Reading a struct that fits gives its fields back. *)
Lemma unpack_pack_fits fs : widths_ok (map fst fs) -> fits fs -> unpack (map fst fs) (pack fs) = map snd fs.
Proof.
  intros Hw Hf. rewrite unpack_pack by done. apply map_ext_in. intros f Hin.
  apply Z.mod_small. exact (proj1 (List.Forall_forall _ _) Hf f Hin).
Qed.

Lemma pack_unpack ws word : widths_ok ws ->
  pack (zip ws (unpack ws word)) = word mod 2 ^ total_width ws.
Proof.
  revert word. induction ws as [|w ws IH]; intros word Hw; cbn.
  - by rewrite Z.mod_1_r.
  - apply Forall_cons_1 in Hw as [Hw Hws]. pose proof (total_width_nonneg _ Hws).
    rewrite IH by done. rewrite Z.mod_mod by lia.
    rewrite Z.pow_add_r, Z.rem_mul_r by lia. done.
Qed.

(** The first fields of a longer struct, and those behind them. *)
Lemma pack_app fs fs' : widths_ok (map fst fs) ->
  pack (fs ++ fs') = pack fs + 2 ^ total_width (map fst fs) * pack fs'.
Proof.
  induction fs as [|[w v] fs IH]; intros Hw; cbn; [lia|]. apply Forall_cons_1 in Hw as [Hw Hws].
  cbn in Hw. pose proof (total_width_nonneg _ Hws). rewrite (IH Hws), Z.pow_add_r by done. ring.
Qed.

(** Disjoint fields may be put together with [|]. *)
Lemma lor_shiftl_add w lo hi : 0 <= w -> 0 <= lo < 2 ^ w -> lo .| (hi ≪ w) = lo + 2 ^ w * hi.
Proof.
  intros Hw Hlo.
  assert (Hd : lo .& (hi ≪ w) = 0).
  { apply Z.bits_inj'. intros i Hi. rewrite Z.land_spec, Z.bits_0. destruct (decide (i < w)).
    - rewrite Z.shiftl_spec_low by lia. apply andb_false_r.
    - by rewrite (testbit_high w lo) by lia. }
  rewrite <- Z.lxor_lor, <- Z.add_nocarry_lxor, Z.shiftl_mul_pow2 by done. lia.
Qed.

(** ** Named fields

    A struct declaration: its fields by name, from the lowest bit upwards. *)
Definition layout := list (string * Z).

(** The lowest bit and the width of a field. *)
Fixpoint place (l : layout) (name : string) : option (Z * Z) :=
  match l with
  | [] => None
  | (n, w) :: l =>
      if bool_decide (n = name) then Some (0, w)
      else '(o, w') ← place l name; Some (w + o, w')
  end.

(** [s.name] and [s.name = v] on the word that holds [s]. *)
Definition get_field (l : layout) (name : string) (word : Z) : Z :=
  match place l name with Some (o, w) => (word / 2 ^ o) mod 2 ^ w | None => 0 end.
Definition set_field (l : layout) (name : string) (v word : Z) : Z :=
  match place l name with
  | Some (o, w) => word + (v mod 2 ^ w - (word / 2 ^ o) mod 2 ^ w) * 2 ^ o
  | None => word
  end.

(** The struct with the fields given, the others zero. *)
Definition struct_of (l : layout) (fields : list (string * Z)) : Z :=
  foldr (fun f word => set_field l (fst f) (snd f) word) 0 fields.

Lemma place_bounds l name o w : widths_ok (map snd l) -> place l name = Some (o, w) ->
  0 <= o /\ 0 <= w /\ o + w <= total_width (map snd l).
Proof.
  revert o w. induction l as [|[n w0] l IH]; intros o w Hw; [done|].
  change (map snd ((n, w0) :: l)) with (w0 :: map snd l) in *.
  apply Forall_cons_1 in Hw as [Hw Hws]. cbn [place total_width]. pose proof (total_width_nonneg _ Hws).
  case_bool_decide; [intros [= <- <-]; lia|].
  destruct (place l name) as [[o' w']|]; [|done]. cbn. intros [= <- <-].
  specialize (IH o' w' Hws eq_refl). lia.
Qed.

(** Two fields do not overlap. *)
Lemma places_disjoint l name name' o w o' w' : widths_ok (map snd l) -> name <> name' ->
  place l name = Some (o, w) -> place l name' = Some (o', w') -> o + w <= o' \/ o' + w' <= o.
Proof.
  revert o w o' w'. induction l as [|[n w0] l IH]; intros o w o' w' Hw Hne; [done|].
  change (map snd ((n, w0) :: l)) with (w0 :: map snd l) in *.
  apply Forall_cons_1 in Hw as [Hw Hws]. cbn [place].
  repeat case_bool_decide; subst; try done.
  - intros [= <- <-]. destruct (place l name') as [[o1 w1]|] eqn:E; [|done]. cbn. intros [= <- <-].
    pose proof (place_bounds _ _ _ _ Hws E). lia.
  - destruct (place l name) as [[o1 w1]|] eqn:E; [|done]. cbn. intros [= <- <-] [= <- <-].
    pose proof (place_bounds _ _ _ _ Hws E). lia.
  - destruct (place l name) as [[o1 w1]|]; [|done]. destruct (place l name') as [[o2 w2]|]; [|done].
    cbn. intros [= <- <-] [= <- <-]. specialize (IH _ _ _ _ Hws Hne eq_refl eq_refl). lia.
Qed.

(** Replacing the digits of a number at one place, from [o], [w] wide. *)
Definition splice (o w v word : Z) : Z := word + (v mod 2 ^ w - (word / 2 ^ o) mod 2 ^ w) * 2 ^ o.

Lemma splice_split o w v word : 0 <= o -> 0 <= w ->
  splice o w v word = word mod 2 ^ o + 2 ^ o * (v mod 2 ^ w + 2 ^ w * (word / 2 ^ o / 2 ^ w)).
Proof.
  intros Ho Hw. unfold splice.
  pose proof (Z.pow_pos_nonneg 2 o ltac:(lia) Ho). pose proof (Z.pow_pos_nonneg 2 w ltac:(lia) Hw).
  pose proof (Z.div_mod word (2 ^ o) ltac:(lia)) as E1.
  pose proof (Z.div_mod (word / 2 ^ o) (2 ^ w) ltac:(lia)) as E2. rewrite E1 at 1. rewrite E2 at 1. ring.
Qed.

Lemma splice_testbit o w v word i : 0 <= o -> 0 <= w -> 0 <= i ->
  Z.testbit (splice o w v word) i =
    if (o <=? i) && (i <? o + w) then Z.testbit v (i - o) else Z.testbit word i.
Proof.
  intros Ho Hw Hi. pose proof (Z.pow_pos_nonneg 2 o ltac:(lia) Ho) as Hpo.
  pose proof (Z.pow_pos_nonneg 2 w ltac:(lia) Hw) as Hpw.
  rewrite splice_split, <- !lor_shiftl_add by (try apply Z.mod_pos_bound; lia).
  rewrite Z.lor_spec, Z.shiftl_spec by done.
  destruct (Z.leb_spec o i) as [Hoi|Hoi]; cbn [andb].
  - rewrite Z.mod_pow2_bits_high, Z.lor_spec, Z.shiftl_spec by lia. cbn [orb].
    destruct (Z.ltb_spec i (o + w)).
    + rewrite Z.mod_pow2_bits_low by lia. rewrite (Z.testbit_neg_r _ (i - o - w)) by lia. apply orb_false_r.
    + rewrite Z.mod_pow2_bits_high by lia. cbn [orb].
      rewrite !Z.div_pow2_bits by lia. f_equal. lia.
  - rewrite Z.mod_pow2_bits_low, (Z.testbit_neg_r _ (i - o)) by lia. apply orb_false_r.
Qed.

Lemma set_field_splice l name v word o w : place l name = Some (o, w) ->
  set_field l name v word = splice o w v word.
Proof. unfold set_field. by intros ->. Qed.

Lemma get_field_testbit l name word o w i : place l name = Some (o, w) -> 0 <= o -> 0 <= w -> 0 <= i ->
  Z.testbit (get_field l name word) i = if i <? w then Z.testbit word (o + i) else false.
Proof.
  intros Hp Ho Hw Hi. unfold get_field. rewrite Hp. destruct (Z.ltb_spec i w).
  - rewrite Z.mod_pow2_bits_low, Z.div_pow2_bits by lia. f_equal. lia.
  - by rewrite Z.mod_pow2_bits_high by lia.
Qed.

(** A field that was written reads back, every other one is left alone. *)
Lemma get_set_field l name name' v word : widths_ok (map snd l) -> is_Some (place l name') ->
  get_field l name (set_field l name' v word) =
    if bool_decide (name = name') then v mod 2 ^ from_option snd 0 (place l name)
    else get_field l name word.
Proof.
  intros Hw [[o' w'] Hp']. destruct (place_bounds _ _ _ _ Hw Hp') as (Ho' & Hw' & _).
  rewrite (set_field_splice _ _ _ _ _ _ Hp'). case_bool_decide as Hn.
  - subst name'. rewrite Hp'. cbn. apply Z.bits_inj'. intros i Hi.
    rewrite (get_field_testbit _ _ _ _ _ _ Hp'), splice_testbit by lia.
    destruct (Z.ltb_spec i w').
    + rewrite (proj2 (Z.leb_le _ _)), (proj2 (Z.ltb_lt _ _)) by lia. cbn.
      rewrite Z.mod_pow2_bits_low by lia. f_equal. lia.
    + by rewrite Z.mod_pow2_bits_high by lia.
  - unfold get_field. destruct (place l name) as [[o w]|] eqn:Hp; [|done].
    destruct (place_bounds _ _ _ _ Hw Hp) as (Ho & Hw0 & _).
    destruct (places_disjoint _ _ _ _ _ _ _ Hw Hn Hp Hp') as [Hd|Hd].
    all: apply Z.bits_inj'; intros i Hi; destruct (Z.ltb_spec i w);
      [|by rewrite !Z.mod_pow2_bits_high by lia].
    all: rewrite !Z.mod_pow2_bits_low, !Z.div_pow2_bits, splice_testbit by lia.
    all: by rewrite (proj2 (andb_false_iff _ _)) by (rewrite Z.leb_gt, Z.ltb_ge; lia).
Qed.

Lemma set_field_range l name v word k : widths_ok (map snd l) -> total_width (map snd l) <= k ->
  0 <= word < 2 ^ k -> 0 <= set_field l name v word < 2 ^ k.
Proof.
  intros Hw Hk Hr. destruct (place l name) as [[o w]|] eqn:Hp; [|unfold set_field; by rewrite Hp].
  destruct (place_bounds _ _ _ _ Hw Hp) as (Ho & Hw0 & Hb).
  rewrite (set_field_splice _ _ _ _ _ _ Hp), splice_split by done.
  pose proof (Z.pow_pos_nonneg 2 o ltac:(lia) Ho). pose proof (Z.pow_pos_nonneg 2 w ltac:(lia) Hw0).
  pose proof (Z.pow_pos_nonneg 2 (k - o - w) ltac:(lia) ltac:(lia)).
  pose proof (Z.mod_pos_bound v (2 ^ w) ltac:(lia)). pose proof (Z.mod_pos_bound word (2 ^ o) ltac:(lia)).
  assert (Hkk : 2 ^ k = 2 ^ o * (2 ^ w * 2 ^ (k - o - w))) by (rewrite <- !Z.pow_add_r by lia; f_equal; lia).
  assert (Hq : 0 <= word / 2 ^ o / 2 ^ w < 2 ^ (k - o - w)).
  { split; [apply Z.div_pos; [apply Z.div_pos|]; lia|].
    apply Z.div_lt_upper_bound; [lia|]. apply Z.div_lt_upper_bound; lia. }
  assert (Hx : 0 <= v mod 2 ^ w + 2 ^ w * (word / 2 ^ o / 2 ^ w) < 2 ^ w * 2 ^ (k - o - w)) by nia.
  rewrite Hkk. revert Hx. generalize (v mod 2 ^ w + 2 ^ w * (word / 2 ^ o / 2 ^ w)). intros x Hx. nia.
Qed.

(** ** Fields of one bit *)

Lemma get_bit_testbit l name word o : place l name = Some (o, 1) -> 0 <= o ->
  negb (get_field l name word =? 0) = Z.testbit word o.
Proof.
  intros Hp Ho. unfold get_field. rewrite Hp, Z.testbit_eqb by done. change (2 ^ 1) with 2.
  pose proof (Z.mod_pos_bound (word / 2 ^ o) 2 ltac:(lia)).
  destruct (Z.eqb_spec ((word / 2 ^ o) mod 2) 0), (Z.eqb_spec ((word / 2 ^ o) mod 2) 1); try done; lia.
Qed.

Lemma set_bit_testbit l name b word o i : place l name = Some (o, 1) -> 0 <= o -> 0 <= i ->
  Z.testbit (set_field l name b word) i = if i =? o then Z.testbit b 0 else Z.testbit word i.
Proof.
  intros Hp Ho Hi. rewrite (set_field_splice _ _ _ _ _ _ Hp), splice_testbit by lia.
  destruct (Z.eqb_spec i o) as [->|].
  - by rewrite Z.leb_refl, (proj2 (Z.ltb_lt _ _)), Z.sub_diag by lia.
  - destruct (Z.leb_spec o i), (Z.ltb_spec i (o + 1)); cbn; try done. lia.
Qed.
