(* ===== verification/Ps2Types.v ===== *)
(** * Data types of the PS/2 drivers

    [drivers/ps2/controller/ps2_controller.h], [ps2_controller_public.h] and
    [drivers/ps2/ps2.h]: the hardware bytes as bit-field records with their raw
    view, the command bytes, the error and status enumerations, and the structs
    the controller functions return.  An enumeration that the code only compares
    is an inductive type; one that it casts from a byte is an integer. *)

From S2P Require Import Prelude Machine.

(** ** Ports and constants *)

Definition PS2_DATA_PORT_RW : Z := 0x60.
Definition PS2_STATUS_PORT_R : Z := 0x64.
Definition PS2_COMMAND_PORT_W : Z := 0x64.
Definition DEVICE_COMMAND_ACKNOLEDGED : Z := 0xFA.
Definition DEVICE_COMMAND_SELF_TEST_PASSED : Z := 0xAA.

(** ** Bit-field bytes

    The structs are packed, one bit per field from bit 0 up; the unions [..._uts]
    give the same byte as [raw]. *)

Record PS2_StatusRegister := mk_status {
  output_buffer_full_not_empty : bool;
  input_buffer_full_not_empty : bool;
  system_flag : bool;
  command_not_data : bool;
  unknown_4 : bool;
  unknown_5 : bool;
  timeout_error : bool;
  parity_error : bool;
}.

Definition status_bits (raw : Z) : PS2_StatusRegister :=
  mk_status (Z.testbit raw 0) (Z.testbit raw 1) (Z.testbit raw 2) (Z.testbit raw 3)
    (Z.testbit raw 4) (Z.testbit raw 5) (Z.testbit raw 6) (Z.testbit raw 7).

Record PS2_ConfigurationByte := mk_config {
  first_ps2_port_enabled : bool;
  second_ps2_port_enabled : bool;
  system_flag_passed_post_one : bool;
  zero1 : bool;
  first_ps2_port_clock_disabled : bool;
  second_ps2_port_clock_disabled : bool;
  first_ps2_port_translation_enabled : bool;
  zero2 : bool;
}.

Definition config_bits (raw : Z) : PS2_ConfigurationByte :=
  mk_config (Z.testbit raw 0) (Z.testbit raw 1) (Z.testbit raw 2) (Z.testbit raw 3)
    (Z.testbit raw 4) (Z.testbit raw 5) (Z.testbit raw 6) (Z.testbit raw 7).

Definition config_raw (c : PS2_ConfigurationByte) : Z :=
  field (first_ps2_port_enabled c) 0 + field (second_ps2_port_enabled c) 1 +
  field (system_flag_passed_post_one c) 2 + field (zero1 c) 3 +
  field (first_ps2_port_clock_disabled c) 4 + field (second_ps2_port_clock_disabled c) 5 +
  field (first_ps2_port_translation_enabled c) 6 + field (zero2 c) 7.

Record PS2_ControllerOutputPort := mk_output_port {
  system_reset_dont_set_infinite_loop : bool;
  A20_gate : bool;
  second_ps2_port_clock : bool;
  second_ps2_port_data : bool;
  connected_to_irq1 : bool;
  connected_to_irq12 : bool;
  first_ps2_port_clock : bool;
  first_ps2_port_data : bool;
}.

Definition output_port_bits (raw : Z) : PS2_ControllerOutputPort :=
  mk_output_port (Z.testbit raw 0) (Z.testbit raw 1) (Z.testbit raw 2) (Z.testbit raw 3)
    (Z.testbit raw 4) (Z.testbit raw 5) (Z.testbit raw 6) (Z.testbit raw 7).

Definition output_port_raw (c : PS2_ControllerOutputPort) : Z :=
  field (system_reset_dont_set_infinite_loop c) 0 + field (A20_gate c) 1 +
  field (second_ps2_port_clock c) 2 + field (second_ps2_port_data c) 3 +
  field (connected_to_irq1 c) 4 + field (connected_to_irq12 c) 5 +
  field (first_ps2_port_clock c) 6 + field (first_ps2_port_data c) 7.

(** ** Commands: [enum PS2_CommandByte] *)

Definition PS2_CB_read_byte_0 : Z := 0x20.
Definition PS2_CB_read_byte_N_start : Z := 0x21.
Definition PS2_CB_read_byte_N_end : Z := 0x3F.
Definition PS2_CB_write_next_to_byte_0 : Z := 0x60.
Definition PS2_CB_write_next_to_byte_N_start : Z := 0x61.
Definition PS2_CB_write_next_to_byte_N_end : Z := 0x7F.
Definition PS2_CB_disable_second_ps2_port : Z := 0xA7.
Definition PS2_CB_enable_second_ps2_port : Z := 0xA8.
Definition PS2_CB_test_second_ps2_port : Z := 0xA9.
Definition PS2_CB_test_ps2_controller : Z := 0xAA.
Definition PS2_CB_test_first_ps2_port : Z := 0xAB.
Definition PS2_CB_diagnostic_dump : Z := 0xAC.
Definition PS2_CB_disable_first_ps2_port : Z := 0xAD.
Definition PS2_CB_enable_first_ps2_port : Z := 0xAE.
Definition PS2_CB_read_controller_input_port : Z := 0xC0.
Definition PS2_CB_copy_low_input_to_status : Z := 0xC1.
Definition PS2_CB_copy_high_input_to_status : Z := 0xC2.
Definition PS2_CB_read_controller_output_port : Z := 0xD0.
Definition PS2_CB_write_next_byte_to_controller_output_port : Z := 0xD1.
Definition PS2_CB_write_next_byte_to_first_ps2_output_buffer : Z := 0xD2.
Definition PS2_CB_write_next_byte_to_second_ps2_output_buffer : Z := 0xD3.
Definition PS2_CB_write_next_byte_to_second_ps2_input_buffer : Z := 0xD4.
Definition PS2_CB_pulse_output_line_low_start : Z := 0xF0.
Definition PS2_CB_pulse_output_line_low_end : Z := 0xFF.
Definition PS2_CB_reset_device : Z := 0xFF.

(** ** Responses *)

Definition PS2_TPR_passed : Z := 0x00.
Definition PS2_TPR_clock_stuck_low : Z := 0x01.
Definition PS2_TPR_clock_stuck_high : Z := 0x02.
Definition PS2_TPR_data_stuck_low : Z := 0x03.
Definition PS2_TPR_data_stuck_high : Z := 0x04.

Definition PS2_verify_test_port_response (response : Z) : bool :=
  (0x00 <=? response) && (response <=? 0x04).

Definition PS2_TestPortResponse_to_string (r : Z) : string :=
  if r =? PS2_TPR_passed then "PS2_TPR_passed"
  else if r =? PS2_TPR_clock_stuck_low then "PS2_TPR_clock_stuck_low"
  else if r =? PS2_TPR_clock_stuck_high then "PS2_TPR_clock_stuck_high"
  else if r =? PS2_TPR_data_stuck_low then "PS2_TPR_data_stuck_low"
  else if r =? PS2_TPR_data_stuck_high then "PS2_TPR_data_stuck_high"
  else "Invalid PS2_TestPortResponse!".

Definition PS2_TCR_passed : Z := 0x55.
Definition PS2_TCR_failed : Z := 0xFC.

Definition PS2_verify_test_controller_response (response : Z) : bool :=
  (response =? PS2_TCR_passed) || (response =? PS2_TCR_failed).

Definition PS2_TestControllerResponse_to_string (r : Z) : string :=
  if r =? PS2_TCR_passed then "PS2_TCR_passed"
  else if r =? PS2_TCR_failed then "PS2_TCR_failed"
  else "Invalid PS2_TestControllerResponse!".

Definition PS2_verify_controller_output_port_response (p : PS2_ControllerOutputPort) : bool :=
  negb (A20_gate p).

Definition PS2_verify_status_parity (status : PS2_StatusRegister) : bool :=
  negb (parity_error status).
Definition PS2_verify_status_timeout (status : PS2_StatusRegister) : bool :=
  negb (timeout_error status).

(** ** Port numbers *)

Definition PS2_PN_port_one : Z := 1.
Definition PS2_PN_port_two : Z := 2.

Definition PS2_verify_port_number (port_number : Z) : bool :=
  (port_number =? 1) || (port_number =? 2).

Definition PS2_PortNumber_to_string (port_number : Z) : string :=
  if port_number =? PS2_PN_port_one then "1: PS2_PN_port_one"
  else if port_number =? PS2_PN_port_two then "2: PS2_PN_port_two"
  else "Invalid Port Number!".

(** ** [enum ps2_controller_error_code]

    [PS2_ERR_device_rep3_invalid] and [PS2_ERR_device_rep4_invalid] have the same
    value in the source, hence are one constructor here. *)

Inductive ps2_controller_error_code :=
| PS2_ERR_none
| PS2_ERR_invalid_port_number
| PS2_ERR_wait_max_itt_in
| PS2_ERR_wait_max_itt_out
| PS2_ERR_invalid_test_port_response
| PS2_ERR_invalid_test_controller_response
| PS2_ERR_invalid_configuration_byte
| PS2_ERR_status_parity
| PS2_ERR_status_timeout
| PS2_ERR_device_command_failed_to_acknowledge
| PS2_ERR_device_command_failed_self_test
| PS2_ERR_device_rep3_invalid
| PS2_WARN_A20_line_not_set
| PS2_WARN_invalid_configuration_byte_post_is_zero
| PS2_WARN_n_is_zero.
Definition PS2_ERR_device_rep4_invalid := PS2_ERR_device_rep3_invalid.

#[export] Instance ps2_controller_error_code_eq_dec : EqDecision ps2_controller_error_code.
Proof. solve_decision. Defined.

Definition err_value (e : ps2_controller_error_code) : Z :=
  match e with
  | PS2_ERR_none => 0
  | PS2_ERR_invalid_port_number => -1
  | PS2_ERR_wait_max_itt_in => 1
  | PS2_ERR_wait_max_itt_out => 2
  | PS2_ERR_invalid_test_port_response => 3
  | PS2_ERR_invalid_test_controller_response => 4
  | PS2_ERR_invalid_configuration_byte => 5
  | PS2_ERR_status_parity => 6
  | PS2_ERR_status_timeout => 7
  | PS2_ERR_device_command_failed_to_acknowledge => 8
  | PS2_ERR_device_command_failed_self_test => 9
  | PS2_ERR_device_rep3_invalid => 10
  | PS2_WARN_A20_line_not_set => 1000
  | PS2_WARN_invalid_configuration_byte_post_is_zero => 999
  | PS2_WARN_n_is_zero => 998
  end.

(** [if (err)] *)
Definition is_err (e : ps2_controller_error_code) : bool := negb (err_value e =? 0).

Definition PS2_OS_Error_to_string (e : ps2_controller_error_code) : string :=
  match e with
  | PS2_ERR_none => "PS2_ERR_NONE"
  | PS2_ERR_invalid_port_number => "PS2_ERR_INVALID_PORT_NUMBER"
  | PS2_ERR_wait_max_itt_in => "PS2_ERR_WAIT_MAX_ITT_IN"
  | PS2_ERR_wait_max_itt_out => "PS2_ERR_WAIT_MAX_ITT_OUT"
  | PS2_ERR_invalid_test_port_response => "PS2_ERR_INVALID_TEST_PORT_RESPONSE"
  | PS2_ERR_invalid_test_controller_response => "PS2_ERR_INVALID_TEST_CONTROLLER_RESPONSE"
  | PS2_ERR_invalid_configuration_byte => "PS2_ERR_INVALID_CONFIGURATION_BYTE"
  | PS2_ERR_status_parity => "PS2_ERR_STATUS_PARITY"
  | PS2_ERR_status_timeout => "PS2_ERR_STATUS_TIMEOUT"
  | PS2_WARN_A20_line_not_set => "PS2_WARN_A20_LINE_NOT_SET"
  | PS2_WARN_n_is_zero => "PS2_WARN_N_IS_ZERO"
  | PS2_WARN_invalid_configuration_byte_post_is_zero =>
      "PS2_WARN_invalid_configuration_byte_post_is_zero"
  | _ => "Unknown PS2 error code!"
  end.

(** ** Device types

    [enum ps2_device_type] is an integer: [reset_port_and_get_device_type] stores an
    arbitrary identification byte in it when it does not recognise the device. *)

Definition PS2_DT_ancient_at_keyboard : Z := 0.
Definition PS2_DT_standard_mouse : Z := 1.
Definition PS2_DT_mouse_with_scroll_wheel : Z := 2.
Definition PS2_DT_mouse_with_5_button : Z := 3.
Definition PS2_DT_mf2_keyboard_1 : Z := 4.
Definition PS2_DT_mf2_keyboard_2 : Z := 5.
Definition PS2_DT_short_keyboard : Z := 6.
Definition PS2_DT_122_key_host_connected : Z := 7.
Definition PS2_DT_122_key : Z := 8.
Definition PS2_DT_japanese_g_keyboard : Z := 9.
Definition PS2_DT_japanese_p_keyboard : Z := 10.
Definition PS2_DT_japanese_a_keyboard : Z := 11.
Definition PS2_DT_ncd_sun_layout_keyboard : Z := 12.

Inductive ps2_device_super_type := PS2_DST_unknown | PS2_DST_keyboard | PS2_DST_mouse.

#[export] Instance ps2_device_super_type_eq_dec : EqDecision ps2_device_super_type.
Proof. solve_decision. Defined.

(** ** [enum PS2_ResponseType] *)

Inductive PS2_ResponseType :=
| PS2_RT_not_a_command
| PS2_RT_none
| PS2_RT_unknown
| PS2_RT_controller_configuration_byte
| PS2_RT_test_port
| PS2_RT_test_controller
| PS2_RT_controller_output_port.

#[export] Instance PS2_ResponseType_eq_dec : EqDecision PS2_ResponseType.
Proof. solve_decision. Defined.

Definition PS2_ResponseType_to_string (response_type : PS2_ResponseType) : string :=
  match response_type with
  | PS2_RT_not_a_command => "Not a command"
  | PS2_RT_none => "None"
  | PS2_RT_unknown => "Unknown"
  | PS2_RT_controller_configuration_byte => "Controller config"
  | PS2_RT_test_port => "Test port"
  | PS2_RT_test_controller => "Test controller"
  | PS2_RT_controller_output_port => "Controller output"
  end.

(** ** Returned structs

    A field of a local struct that a path does not assign is indeterminate: the
    fields are options, [None] meaning never written.  The five
    [ps2_verified_response_...] structs have the same two fields. *)

Record verified (R : Type) := Verified {
  vr_response : option R;
  vr_err : option ps2_controller_error_code;
}.
Arguments Verified {R}.
Arguments vr_response {R}.
Arguments vr_err {R}.

(** [union ___anon1] and [struct PS2_Tagged_Reponse]: every member is set from the raw byte. *)
Inductive anon1 :=
| tag_unknown (raw : Z)
| g_configuration_byte (raw : Z)
| g_test_port_response (raw : Z)
| g_test_controller_response (raw : Z)
| g_controller_output_port (raw : Z).

Record PS2_Tagged_Reponse := mk_tagged {
  tag_type : PS2_ResponseType;
  tag_value : option anon1;
}.

Record ps2_typeless_return := mk_typeless {
  tagged_response : option PS2_Tagged_Reponse;
  typeless_err : option ps2_controller_error_code;
}.

Record ps2_device_type_verified := mk_device {
  dev_err : ps2_controller_error_code;
  dev_type : option Z;
  mouse_or_keyboard : option ps2_device_super_type;
}.

Inductive ps2_initialize_device_errors :=
| PS2_ID_ERR_none
| PS2_ID_ERR_no_second_port
| PS2_ID_ERR_could_not_init
| PS2_ID_ERR_usb_error
| PS2_ID_ERR_ps2_controller_does_not_exist
| PS2_ID_ERR_controller_self_test_failed
| PS2_ID_ERR_first_port_self_test_failed
| PS2_ID_ERR_second_port_self_test_failed
| PS2_ID_ERR_could_not_reset_device1
| PS2_ID_ERR_could_not_reset_device2
| PS2_ID_ERR_two_keyboard
| PS2_ID_ERR_two_mouse.

#[export] Instance ps2_initialize_device_errors_eq_dec :
  EqDecision ps2_initialize_device_errors.
Proof. solve_decision. Defined.

Record ps2_initialize_device_state := mk_init_state {
  internal_err : option ps2_controller_error_code;
  ps2_state_err : option ps2_initialize_device_errors;
  port_one_device_type : option Z;
  port_two_device_type : option Z;
}.

(** [enum handle_ps2_setup_status] *)
Inductive handle_ps2_setup_status :=
| PS2_HS_ERR_one_keyboard_one_mouse
| PS2_HS_ERR_two_keyboard
| PS2_HS_ERR_two_mouse
| PS2_HS_ERR_one_port_only
| PS2_HS_ERR_no_port
| PS2_HS_ERR_unrecognized_device1
| PS2_HS_ERR_unrecognized_device2.

(** ** Lemmas on the types *)

Lemma is_err_false e : is_err e = false <-> e = PS2_ERR_none.
Proof. destruct e; split; by try intros [=]. Qed.

Lemma is_err_true e : is_err e = true <-> e <> PS2_ERR_none.
Proof. rewrite <- is_err_false. destruct (is_err e); naive_solver. Qed.

Lemma config_bits_raw c : config_bits (config_raw c) = c.
Proof. destruct c as [[] [] [] [] [] [] [] []]; reflexivity. Qed.

Lemma config_raw_u8 c : is_u8 (config_raw c).
Proof. destruct c as [[] [] [] [] [] [] [] []]; vm_compute; split; congruence. Qed.

Lemma config_raw_bits raw : is_u8 raw -> config_raw (config_bits raw) = raw.
Proof.
  intros Hr. apply Z.eqb_eq.
  exact (byte_forall (fun r => config_raw (config_bits r) =? r) eq_refl raw Hr).
Qed.

Lemma output_port_bits_raw c : output_port_bits (output_port_raw c) = c.
Proof. destruct c as [[] [] [] [] [] [] [] []]; reflexivity. Qed.
