(* ===== verification/Ps2Controller.v ===== *)
(** * The PS/2 controller driver

    [drivers/ps2/controller/ps2_controller.c]: waiting for the 8042, sending it
    commands, reading its typed responses, resetting the devices behind it and the
    ten-step set-up of the controller.  The driver keeps no globals (its one table
    is constant), so its functions are stated for any state [G] of the caller. *)

From S2P Require Import Prelude Machine Ps2Types.

(** ** The response-type table

    [command_to_response_type[256]], built from designated initialisers; a later one
    overrides an earlier one, so the table is read from the last range back. *)

Definition in_range (first last c : Z) : bool := (first <=? c) && (c <=? last).

Definition command_to_response_type (c : Z) : PS2_ResponseType :=
  if in_range PS2_CB_pulse_output_line_low_start PS2_CB_pulse_output_line_low_end c then PS2_RT_none
  else if c =? PS2_CB_write_next_byte_to_second_ps2_input_buffer then PS2_RT_none
  else if c =? PS2_CB_write_next_byte_to_second_ps2_output_buffer then PS2_RT_none
  else if c =? PS2_CB_write_next_byte_to_first_ps2_output_buffer then PS2_RT_none
  else if c =? PS2_CB_write_next_byte_to_controller_output_port then PS2_RT_none
  else if c =? PS2_CB_read_controller_output_port then PS2_RT_controller_output_port
  else if c =? PS2_CB_copy_high_input_to_status then PS2_RT_none
  else if c =? PS2_CB_copy_low_input_to_status then PS2_RT_none
  else if c =? PS2_CB_read_controller_input_port then PS2_RT_unknown
  else if c =? PS2_CB_enable_first_ps2_port then PS2_RT_none
  else if c =? PS2_CB_disable_first_ps2_port then PS2_RT_none
  else if c =? PS2_CB_diagnostic_dump then PS2_RT_unknown
  else if c =? PS2_CB_test_first_ps2_port then PS2_RT_test_port
  else if c =? PS2_CB_test_ps2_controller then PS2_RT_test_controller
  else if c =? PS2_CB_test_second_ps2_port then PS2_RT_test_port
  else if c =? PS2_CB_enable_second_ps2_port then PS2_RT_none
  else if c =? PS2_CB_disable_second_ps2_port then PS2_RT_none
  else if in_range PS2_CB_write_next_to_byte_0 PS2_CB_write_next_to_byte_N_end c then PS2_RT_none
  else if in_range PS2_CB_read_byte_N_start PS2_CB_read_byte_N_end c then PS2_RT_unknown
  else if c =? PS2_CB_read_byte_0 then PS2_RT_controller_configuration_byte
  else PS2_RT_not_a_command.

(** ** Pure helpers *)

Definition is_ps2_controller_ready_for_more_input (status : PS2_StatusRegister) : bool :=
  negb (input_buffer_full_not_empty status).

Definition is_ps2_controller_ready_for_response (status : PS2_StatusRegister) : bool :=
  output_buffer_full_not_empty status.

Definition PS2_verify_configuration_byte_response (configuration_byte : Z) :
    ps2_controller_error_code :=
  let bits := config_bits configuration_byte in
  if zero1 bits || zero1 bits then PS2_ERR_invalid_configuration_byte
  else if negb (system_flag_passed_post_one bits)
  then PS2_WARN_invalid_configuration_byte_post_is_zero
  else PS2_ERR_none.

Definition get_device_super_type (dt : Z) : ps2_device_super_type :=
  if existsb (Z.eqb dt) [PS2_DT_ancient_at_keyboard; PS2_DT_mf2_keyboard_1;
       PS2_DT_mf2_keyboard_2; PS2_DT_short_keyboard; PS2_DT_122_key_host_connected;
       PS2_DT_122_key; PS2_DT_japanese_g_keyboard; PS2_DT_japanese_p_keyboard;
       PS2_DT_japanese_a_keyboard; PS2_DT_ncd_sun_layout_keyboard]
  then PS2_DST_keyboard
  else if existsb (Z.eqb dt) [PS2_DT_standard_mouse; PS2_DT_mouse_with_scroll_wheel;
       PS2_DT_mouse_with_5_button]
  then PS2_DST_mouse
  else PS2_DST_unknown.

Definition ps2_device_type_to_string (type : Z) : string :=
  if type =? PS2_DT_ancient_at_keyboard then "Ancient AT Keyboard"
  else if type =? PS2_DT_standard_mouse then "Standard Mouse"
  else if type =? PS2_DT_mouse_with_scroll_wheel then "Mouse with Scroll Wheel"
  else if type =? PS2_DT_mouse_with_5_button then "Mouse with 5 Buttons"
  else if type =? PS2_DT_mf2_keyboard_1 then "MF2 Keyboard 1 (0xAB, 0x83)"
  else if type =? PS2_DT_mf2_keyboard_2 then "MF2 Keyboard 2 (0xAB, 0xC1)"
  else if type =? PS2_DT_short_keyboard then "Short Keyboard"
  else if type =? PS2_DT_122_key_host_connected then "122-Key Host Connected Keyboard"
  else if type =? PS2_DT_122_key then "122-Key Keyboard"
  else if type =? PS2_DT_japanese_g_keyboard then "Japanese G Keyboard"
  else if type =? PS2_DT_japanese_p_keyboard then "Japanese P Keyboard"
  else if type =? PS2_DT_japanese_a_keyboard then "Japanese A Keyboard"
  else if type =? PS2_DT_ncd_sun_layout_keyboard then "NCD / Sun Layout Keyboard"
  else "Unknown PS/2 Device".

Definition MAX_PS2_WAIT_LOOP : nat := 1000.

(** [enum usb_cont_error_code] has the one value [USB_CONT_ERR_none]
    ([drivers/usb/controller/usb_controller.c]). *)
Definition USB_CONT_ERR_none : Z := 0.
Definition initialize_usb_controllers : Z := USB_CONT_ERR_none.
Definition disable_legacy_usb_support : Z := USB_CONT_ERR_none.

(** [firmware/acpi/acpi.c] *)
Definition does_ps2_controller_exist : bool := true.

Section driver.
Context {D G : Type} `{PortDevice D}.
Local Abbreviation C A := (M D G A).
Local Abbreviation error := ps2_controller_error_code.

(** ** Waiting *)

Definition io_wait : C unit := outb 0x80 0.

Definition read_ps2_status : C PS2_StatusRegister :=
  raw ← inb PS2_STATUS_PORT_R; mret (status_bits raw).

Definition ps2_recieve_raw_response : C Z := inb PS2_DATA_PORT_RW.

(** The loops run [i] from 0 to [MAX_PS2_WAIT_LOOP]; the argument counts the rounds left. *)
Fixpoint wait_input_loop (n : nat) : C error :=
  match n with
  | O => mret PS2_ERR_wait_max_itt_in
  | S n =>
      io_wait;;
      status ← read_ps2_status;
      if is_ps2_controller_ready_for_more_input status then
        if negb (PS2_verify_status_parity status) then mret PS2_ERR_status_parity
        else if negb (PS2_verify_status_timeout status) then mret PS2_ERR_status_timeout
        else mret PS2_ERR_none
      else wait_input_loop n
  end.
Definition wait_till_ready_for_more_input : C error := wait_input_loop MAX_PS2_WAIT_LOOP.

Fixpoint wait_response_loop (n : nat) : C error :=
  match n with
  | O => mret PS2_ERR_wait_max_itt_out
  | S n =>
      io_wait;;
      status ← read_ps2_status;
      if is_ps2_controller_ready_for_response status then mret PS2_ERR_none
      else wait_response_loop n
  end.
Definition wait_till_ready_for_response : C error := wait_response_loop MAX_PS2_WAIT_LOOP.

Definition send_command_to_ps2_controller (command : Z) : C error :=
  err ← wait_till_ready_for_more_input;
  if is_err err then mret err else
  outb PS2_COMMAND_PORT_W (u8 command);;
  mret PS2_ERR_none.

(** ** The generic, deprecated functions *)

Definition recieve_generic_response (command : Z) : C PS2_Tagged_Reponse :=
  let response_type := command_to_response_type command in
  assert_handler_fmt (bool_decide (response_type <> PS2_RT_not_a_command))
    "Asking a response to an Invalid Command!" [];;
  assert_handler_fmt (bool_decide (response_type <> PS2_RT_none))
    "Invalid a response to a command without it" [];;
  raw_response ← ps2_recieve_raw_response;
  match response_type with
  | PS2_RT_test_port => mret (mk_tagged response_type (Some (g_test_port_response raw_response)))
  | PS2_RT_test_controller =>
      mret (mk_tagged response_type (Some (g_test_controller_response raw_response)))
  | PS2_RT_controller_configuration_byte =>
      mret (mk_tagged response_type (Some (g_configuration_byte raw_response)))
  | PS2_RT_controller_output_port =>
      mret (mk_tagged response_type (Some (g_controller_output_port raw_response)))
  | _ => (* [PS2_RT_unknown] has no break: it falls into [default] *)
      kprintf "The assert failed!, This code should never be executed at all!\n" [];;
      kprintf "It means my assert function is broken!\n" [];;
      kprintf "ABORTED\n" [];; stop Aborted
  end.

Definition recieve_generic_verified_response (response_type : PS2_ResponseType) :
    C ps2_typeless_return :=
  assert_handler_fmt (bool_decide (response_type <> PS2_RT_not_a_command))
    "Asking a response to an Invalid Command!" [];;
  assert_handler_fmt (bool_decide (response_type <> PS2_RT_none))
    "Invalid a response to a command without it" [];;
  raw_response ← ps2_recieve_raw_response;
  let ret value e := mret (mk_typeless (Some (mk_tagged response_type (Some value))) (Some e)) in
  match response_type with
  | PS2_RT_test_port =>
      if negb (PS2_verify_test_port_response raw_response)
      then ret (g_test_port_response raw_response) PS2_ERR_invalid_test_port_response
      else ret (g_test_port_response raw_response) PS2_ERR_none
  | PS2_RT_test_controller =>
      if negb (PS2_verify_test_controller_response raw_response)
      then ret (g_test_controller_response raw_response) PS2_ERR_invalid_test_controller_response
      else ret (g_test_controller_response raw_response) PS2_ERR_none
  | PS2_RT_controller_configuration_byte =>
      let valid_err := PS2_verify_configuration_byte_response raw_response in
      if is_err valid_err then ret (g_configuration_byte raw_response) valid_err
      else ret (g_configuration_byte raw_response) PS2_ERR_none
  | PS2_RT_controller_output_port =>
      if negb (PS2_verify_controller_output_port_response (output_port_bits raw_response))
      then ret (g_controller_output_port raw_response) PS2_WARN_A20_line_not_set
      else ret (g_controller_output_port raw_response) PS2_ERR_none
  | PS2_RT_unknown => ret (tag_unknown raw_response) PS2_ERR_none
  | _ =>
      kprintf "The assert failed!, This code should never be executed at all!\n" [];;
      kprintf "It means my assert function is broken!\n" [];;
      kprintf "ABORTED\n" [];; stop Aborted
  end.

Definition send_command_and_recieve_response (command : Z) : C ps2_typeless_return :=
  let response_type := command_to_response_type command in
  assert_handler_fmt (bool_decide (response_type <> PS2_RT_not_a_command))
    "Sending an invalid command" [];;
  (* [ret] so far: only [tagged_response.type] is written *)
  let typed := Some (mk_tagged response_type None) in
  err ← send_command_to_ps2_controller command;
  if is_err err then mret (mk_typeless typed (Some err)) else
  if bool_decide (response_type = PS2_RT_none) then mret (mk_typeless typed (Some PS2_ERR_none)) else
  err ← wait_till_ready_for_response;
  if is_err err then mret (mk_typeless typed (Some err)) else
  recieve_generic_verified_response response_type.

(** ** The specific functions, one per response type *)

Definition send_command_none_response (command : Z) : C error :=
  send_command_to_ps2_controller command.

(** The success path assigns [response] but never [err]. *)
Definition send_command_unknown_response (command : Z) : C (verified Z) :=
  err ← send_command_to_ps2_controller command;
  if is_err err then mret (Verified None (Some err)) else
  err ← wait_till_ready_for_response;
  if is_err err then mret (Verified None (Some err)) else
  raw_response ← ps2_recieve_raw_response;
  mret (Verified (Some raw_response) None).

Definition send_command_configuration_byte_response (command : Z) : C (verified Z) :=
  err ← send_command_to_ps2_controller command;
  if is_err err then mret (Verified None (Some err)) else
  err ← wait_till_ready_for_response;
  if is_err err then mret (Verified None (Some err)) else
  raw_response ← ps2_recieve_raw_response;
  let valid_err := PS2_verify_configuration_byte_response raw_response in
  if is_err valid_err then mret (Verified (Some raw_response) (Some valid_err)) else
  mret (Verified (Some raw_response) (Some PS2_ERR_none)).

Definition send_command_test_port_response (command : Z) : C (verified Z) :=
  err ← send_command_to_ps2_controller command;
  if is_err err then mret (Verified None (Some err)) else
  err ← wait_till_ready_for_response;
  if is_err err then mret (Verified None (Some err)) else
  raw_response ← ps2_recieve_raw_response;
  if negb (PS2_verify_test_port_response raw_response)
  then mret (Verified (Some raw_response) (Some PS2_ERR_invalid_test_port_response)) else
  mret (Verified (Some raw_response) (Some PS2_ERR_none)).

Definition send_command_test_controller_response (command : Z) : C (verified Z) :=
  err ← send_command_to_ps2_controller command;
  if is_err err then mret (Verified None (Some err)) else
  err ← wait_till_ready_for_response;
  if is_err err then mret (Verified None (Some err)) else
  raw_response ← ps2_recieve_raw_response;
  if negb (PS2_verify_test_controller_response raw_response)
  then mret (Verified (Some raw_response) (Some PS2_ERR_invalid_test_controller_response)) else
  mret (Verified (Some raw_response) (Some PS2_ERR_none)).

Definition send_command_test_controller_output_port_response (command : Z) : C (verified Z) :=
  err ← send_command_to_ps2_controller command;
  if is_err err then mret (Verified None (Some err)) else
  err ← wait_till_ready_for_response;
  if is_err err then mret (Verified None (Some err)) else
  raw_response ← ps2_recieve_raw_response;
  if negb (PS2_verify_controller_output_port_response (output_port_bits raw_response))
  then mret (Verified (Some raw_response) (Some PS2_WARN_A20_line_not_set)) else
  mret (Verified (Some raw_response) (Some PS2_ERR_none)).

(** ** Step functions *)

Definition ps2_read_byte_0_from_internal_ram : C (verified Z) :=
  send_command_configuration_byte_response PS2_CB_read_byte_0.

Definition ps2_read_byte_n_from_internal_ram (byte_index : Z) : C (verified Z) :=
  assert_handler_fmt (byte_index <? PS2_CB_read_byte_N_end - PS2_CB_read_byte_0)
    "must be in allowed byte range!\n" [];;
  assert_handler_fmt (negb (byte_index =? 0)) "0 byte might cause errors?" [];;
  ret ← send_command_unknown_response (PS2_CB_read_byte_0 + byte_index);
  if byte_index =? 0 then
    e ← read_cell (vr_err ret);
    if bool_decide (e = PS2_ERR_none)
    then mret (Verified (vr_response ret) (Some PS2_WARN_n_is_zero)) else mret ret
  else mret ret.

Definition ps2_get_configuration_byte : C (verified Z) :=
  send_command_configuration_byte_response PS2_CB_read_byte_0.

Definition write_next_to_byte_0_of_interal_ram : C error :=
  send_command_none_response PS2_CB_write_next_to_byte_0.

Definition write_next_to_byte_n_of_interal_ram (byte_index : Z) : C error :=
  assert_handler_fmt
    (byte_index <? PS2_CB_write_next_to_byte_N_end - PS2_CB_write_next_to_byte_0)
    "must be in allowed byte range!\n" [];;
  err ← send_command_none_response (PS2_CB_write_next_to_byte_0 + byte_index);
  if (byte_index =? 0) && bool_decide (err = PS2_ERR_none) then mret PS2_WARN_n_is_zero
  else mret err.

Definition ps2_set_configuration_byte (config_byte : PS2_ConfigurationByte) : C error :=
  err ← write_next_to_byte_0_of_interal_ram;
  if is_err err then mret err else
  err ← wait_till_ready_for_more_input;
  if is_err err then mret err else
  outb PS2_DATA_PORT_RW (config_raw config_byte);;
  mret PS2_ERR_none.

Definition ps2_disable_first_ps2_port : C error :=
  send_command_to_ps2_controller PS2_CB_disable_first_ps2_port.
Definition ps2_disable_second_ps2_port : C error :=
  send_command_to_ps2_controller PS2_CB_disable_second_ps2_port.
Definition ps2_enable_first_ps2_port : C error :=
  send_command_to_ps2_controller PS2_CB_enable_first_ps2_port.
Definition ps2_enable_second_ps2_port : C error :=
  send_command_to_ps2_controller PS2_CB_enable_second_ps2_port.
Definition ps2_test_first_ps2_port : C (verified Z) :=
  send_command_test_port_response PS2_CB_test_first_ps2_port.
Definition ps2_test_second_ps2_port : C (verified Z) :=
  send_command_test_port_response PS2_CB_test_second_ps2_port.
Definition ps2_perform_controller_self_test : C (verified Z) :=
  send_command_test_controller_response PS2_CB_test_ps2_controller.

Definition ps2_copy_input_port_to_status : C error :=
  err ← send_command_none_response PS2_CB_copy_high_input_to_status;
  if is_err err then kprintf "Failed during high copy\n" [];; mret err else
  err ← send_command_none_response PS2_CB_copy_low_input_to_status;
  if is_err err then kprintf "Failed during low copy\n" [];; mret err else
  mret PS2_ERR_none.

Definition ps2_read_controller_input_port : C (verified Z) :=
  send_command_unknown_response PS2_CB_read_controller_input_port.
Definition ps2_read_controller_output_port : C (verified Z) :=
  send_command_test_controller_output_port_response PS2_CB_read_controller_output_port.

Definition ps2_write_next_byte_to_controller_output_port : C error :=
  send_command_none_response PS2_CB_write_next_byte_to_controller_output_port.

(** The data byte is written after a wait for the output buffer to be full. *)
Definition ps2_set_controller_output_port (output_port : PS2_ControllerOutputPort) : C error :=
  err ← ps2_write_next_byte_to_controller_output_port;
  if is_err err then mret err else
  err ← wait_till_ready_for_response;
  if is_err err then mret err else
  outb PS2_DATA_PORT_RW (output_port_raw output_port);;
  mret PS2_ERR_none.

Definition write_next_byte_to_first_ps2_output_port : C error :=
  send_command_none_response PS2_CB_write_next_byte_to_first_ps2_output_buffer.
Definition write_next_byte_to_second_ps2_output_port : C error :=
  send_command_none_response PS2_CB_write_next_byte_to_second_ps2_output_buffer.

(** The data byte follows the command without a wait. *)
Definition fake_ps2_keyboard_byte (byte : Z) : C error :=
  err ← write_next_byte_to_first_ps2_output_port;
  if is_err err then mret err else
  outb PS2_DATA_PORT_RW byte;;
  mret PS2_ERR_none.
Definition fake_ps2_mouse_byte (byte : Z) : C error :=
  err ← write_next_byte_to_second_ps2_output_port;
  if is_err err then mret err else
  outb PS2_DATA_PORT_RW byte;;
  mret PS2_ERR_none.

(** ** Talking to the devices *)

Definition send_command_to_first_ps2_port (data : Z) : C error :=
  err ← wait_till_ready_for_more_input;
  if is_err err then mret err else
  outb PS2_DATA_PORT_RW data;;
  mret PS2_ERR_none.

Definition send_command_to_second_ps2_port (data : Z) : C error :=
  err ← wait_till_ready_for_more_input;
  if is_err err then mret err else
  outb PS2_COMMAND_PORT_W PS2_CB_write_next_byte_to_second_ps2_input_buffer;;
  err ← wait_till_ready_for_more_input;
  if is_err err then mret err else
  outb PS2_DATA_PORT_RW data;;
  mret PS2_ERR_none.

Definition send_command_or_data_to_ps2_port (port_number data : Z) : C error :=
  if port_number =? 1 then send_command_to_first_ps2_port data
  else if port_number =? 2 then send_command_to_second_ps2_port data
  else mret PS2_ERR_invalid_port_number.

(** The two switches over the identification bytes. *)
Definition rep3_device (rep3 : Z) : ps2_device_type_verified :=
  let found type := mk_device PS2_ERR_none (Some type) (Some PS2_DST_mouse) in
  if rep3 =? 0x00 then found PS2_DT_standard_mouse
  else if rep3 =? 0x03 then found PS2_DT_mouse_with_scroll_wheel
  else if rep3 =? 0x04 then found PS2_DT_mouse_with_5_button
  else mk_device PS2_ERR_device_rep3_invalid (Some rep3) (Some PS2_DST_mouse).

Definition rep4_device (rep4 : Z) : ps2_device_type_verified :=
  let found type := mk_device PS2_ERR_none (Some type) (Some PS2_DST_keyboard) in
  if rep4 =? 0x83 then found PS2_DT_mf2_keyboard_1
  else if rep4 =? 0x41 then found PS2_DT_mf2_keyboard_1
  else if rep4 =? 0xC1 then found PS2_DT_mf2_keyboard_2
  else if rep4 =? 0x84 then found PS2_DT_short_keyboard
  else if rep4 =? 0x54 then found PS2_DT_short_keyboard
  else if rep4 =? 0x85 then found PS2_DT_122_key_host_connected
  else if rep4 =? 0x86 then found PS2_DT_122_key
  else if rep4 =? 0x90 then found PS2_DT_japanese_g_keyboard
  else if rep4 =? 0x91 then found PS2_DT_japanese_p_keyboard
  else if rep4 =? 0x92 then found PS2_DT_japanese_a_keyboard
  else if rep4 =? 0xA1 then found PS2_DT_ncd_sun_layout_keyboard
  else mk_device PS2_ERR_device_rep4_invalid (Some rep4) (Some PS2_DST_keyboard).

Definition reset_port_and_get_device_type (portnumber : Z) : C ps2_device_type_verified :=
  let fail e := mret (mk_device e None None) in
  err ← send_command_or_data_to_ps2_port portnumber PS2_CB_reset_device;
  if is_err err then fail err else
  err ← wait_till_ready_for_response;
  if is_err err then fail err else
  rep1 ← ps2_recieve_raw_response;
  if negb (rep1 =? DEVICE_COMMAND_ACKNOLEDGED)
  then fail PS2_ERR_device_command_failed_to_acknowledge else
  err ← wait_till_ready_for_response;
  if is_err err then fail err else
  rep2 ← ps2_recieve_raw_response;
  if negb (rep2 =? DEVICE_COMMAND_SELF_TEST_PASSED)
  then fail PS2_ERR_device_command_failed_self_test else
  err ← wait_till_ready_for_response;
  if is_err err then
    mret (mk_device PS2_ERR_none (Some PS2_DT_ancient_at_keyboard) (Some PS2_DST_keyboard))
  else
  rep3 ← ps2_recieve_raw_response;
  if negb (rep3 =? 0xAB) then mret (rep3_device rep3) else
  err ← wait_till_ready_for_response;
  if is_err err then fail err else
  rep4 ← ps2_recieve_raw_response;
  mret (rep4_device rep4).

Definition print_ps2_configuration_byte (config : PS2_ConfigurationByte) : C unit :=
  let b x := [PNum (Z.b2z x)] in
  kprintf "first_ps2_port_enabled = %b\n" (b (first_ps2_port_enabled config));;
  kprintf "second_ps2_port_enabled = %b\n" (b (second_ps2_port_enabled config));;
  kprintf "system_flag_passed_post_one = %b\n" (b (system_flag_passed_post_one config));;
  kprintf "zero1 = %b\n" (b (zero1 config));;
  kprintf "first_ps2_port_clock_disabled = %b\n" (b (first_ps2_port_clock_disabled config));;
  kprintf "second_ps2_port_clock_disabled = %b\n" (b (second_ps2_port_clock_disabled config));;
  kprintf "first_ps2_port_translation_enabled = %b\n"
    (b (first_ps2_port_translation_enabled config));;
  kprintf "zero2 = %b\n" (b (zero2 config)).

(** ** The self-test of the table *)

Definition test_command_array_checks : list (Z * PS2_ResponseType) :=
  [(0x20, PS2_RT_controller_configuration_byte); (0x21, PS2_RT_unknown);
   (0x3F, PS2_RT_unknown); (0xA9, PS2_RT_test_port); (0xAB, PS2_RT_test_port);
   (0xAA, PS2_RT_test_controller); (0xD0, PS2_RT_controller_output_port)].

(** The second loop; returns the counter [errors]. *)
Fixpoint check_known_values (checks : list (Z * PS2_ResponseType)) (errors : Z) : C Z :=
  match checks with
  | [] => mret errors
  | (index, expected) :: checks =>
      let actual := command_to_response_type index in
      if bool_decide (actual <> expected) then
        kprintf "Error: %h:02 expected %s, got %s\n"
          [PNum index; PStr (PS2_ResponseType_to_string expected);
           PStr (PS2_ResponseType_to_string actual)];;
        check_known_values checks (errors + 1)
      else check_known_values checks errors
  end.

Definition test_command_array : C unit :=
  kprintf "Testing command_has_return array...\n\n" [];;
  for_range 256 0 (fun i =>
    kprintf "%h:03 -> Value: %s\n"
      [PNum i; PStr (PS2_ResponseType_to_string (command_to_response_type i))]);;
  errors ← check_known_values test_command_array_checks 0;
  if errors =? 0 then
    kprintf "\nAll important values are correct! (Note that the current test is too weak)\n" []
  else kprintf "\nTotal errors: %d\n" [PNum errors].
End driver.
