(* ===== verification/Ps2Setup.v ===== *)
(** * Setting up the PS/2 controller

    [setup_ps2_controller] of [drivers/ps2/controller/ps2_controller.c], one
    definition per numbered step of the source, with the early returns of the
    function as [leave]; and the variant without error checks. *)

From S2P Require Import Prelude Machine Ps2Types Ps2Controller.

(** The updates of a configuration byte that the steps make. *)

Definition config_step5 (QEMU : bool) (c : PS2_ConfigurationByte) : PS2_ConfigurationByte :=
  mk_config false (second_ps2_port_enabled c)
    (if QEMU then true else system_flag_passed_post_one c) (zero1 c)
    false (second_ps2_port_clock_disabled c) false (zero2 c).

Definition config_step7 (c : PS2_ConfigurationByte) : PS2_ConfigurationByte :=
  mk_config (first_ps2_port_enabled c) false (system_flag_passed_post_one c) (zero1 c)
    (first_ps2_port_clock_disabled c) false (first_ps2_port_translation_enabled c) (zero2 c).

Definition config_step9 (c : PS2_ConfigurationByte) : PS2_ConfigurationByte :=
  mk_config true true (system_flag_passed_post_one c) (zero1 c)
    (first_ps2_port_clock_disabled c) (second_ps2_port_clock_disabled c)
    (first_ps2_port_translation_enabled c) (zero2 c).

Section setup.
Context {D G : Type} `{PortDevice D}.
(** [true] when the kernel is built with [-DQEMU]. *)
Context (QEMU : bool).
Local Abbreviation C A := (M D G A).
Local Abbreviation Step A := (Early D G ps2_initialize_device_state A).
Local Abbreviation error := ps2_controller_error_code.

(** [ret] with the one field the path assigns, and with two. *)
Definition state_only (s : ps2_initialize_device_errors) : ps2_initialize_device_state :=
  mk_init_state None (Some s) None None.

Fixpoint print_lines (l : list string) : C unit :=
  match l with [] => mret tt | s :: l => kprintf s [];; print_lines l end.

(** The diagnostics of a failing step and its return.  [shown] is the variable the
    source prints as the error value, [e] the error it names and returns. *)
Definition init_failed {A} (messages : list string) (value_fmt : string) (shown e : error)
    (s : ps2_initialize_device_errors) (port_one : option Z) : Step A :=
  do! lift (print_lines messages) in
  do! lift (kprintf value_fmt [PNum (err_value shown)]) in
  do! lift (kprintf "The error: %s\n" [PStr (PS2_OS_Error_to_string e)]) in
  leave (mk_init_state (Some e) (Some s) port_one None).

Definition could_not_init {A} (message : string) (e : error) : Step A :=
  init_failed [message] "The error value: %u\n" e e PS2_ID_ERR_could_not_init None.

Definition setup_step1 : Step unit :=
  if negb (initialize_usb_controllers =? 0) then leave (state_only PS2_ID_ERR_usb_error) else
  if negb (disable_legacy_usb_support =? 0) then leave (state_only PS2_ID_ERR_usb_error) else
  fall tt.

Definition setup_step2 : Step unit :=
  if negb does_ps2_controller_exist
  then leave (state_only PS2_ID_ERR_ps2_controller_does_not_exist) else fall tt.

Definition setup_step3 : Step unit :=
  let! err := lift ps2_disable_first_ps2_port in
  if is_err err then
    could_not_init "\n[PANIC] Error in Step 3 of initializing the PS2 Controller. Could not disable first ps2 port.\n" err
  else
  let! err := lift ps2_disable_second_ps2_port in
  if is_err err then
    could_not_init "\n[PANIC] Error in Step 3 of initializing the PS2 Controller. Could not disable second ps2 port.\n" err
  else fall tt.

Definition setup_step4 : Step unit :=
  let! discard := lift (inb PS2_DATA_PORT_RW) in fall tt.

Definition setup_step5 : Step unit :=
  let! vr_cb := lift ps2_get_configuration_byte in
  let! cb_err := lift (read_cell (vr_err vr_cb)) in
  do! (if is_err cb_err then
         if bool_decide (cb_err = PS2_WARN_invalid_configuration_byte_post_is_zero) then
           do! (if negb QEMU then
                  could_not_init "\n[PANIC] Error in Step 5 of initializing the PS2 Controller. Could not get the configuration byte - failed to post?\n" cb_err
                else fall tt) in
           do! lift (kprintf "It seems a qemu bug happned where the configuration byte POST bit hasn't been set\n" []) in
           lift (kprintf "Maybe this is a catastrophic state on a regular machine\n" [])
         else
           could_not_init "\n[PANIC] Error in Step 5 of initializing the PS2 Controller. Could not get the configuration byte\n" cb_err
       else fall tt) in
  let! raw := lift (read_cell (vr_response vr_cb)) in
  let config_byte := config_bits raw in
  do! lift (kprintf "\n\n" []) in
  do! lift (print_ps2_configuration_byte config_byte) in
  do! lift (kprintf "\n\n" []) in
  let! err := lift (ps2_set_configuration_byte (config_step5 QEMU config_byte)) in
  if is_err err then
    could_not_init "\n[PANIC] Error in Step 5 of initializing the PS2 Controller. Could not set the configuration byte\n" err
  else fall tt.

Definition setup_step6 : Step unit :=
  let! tc_vr := lift ps2_perform_controller_self_test in
  let! tc_err := lift (read_cell (vr_err tc_vr)) in
  if is_err tc_err then
    could_not_init "\n[PANIC] Error in Step 6 of initializing the PS2 Controller. The PS2 Controler could not perform self test\n" tc_err
  else
  let! resp := lift (read_cell (vr_response tc_vr)) in
  if negb (resp =? PS2_TCR_passed) then
    do! lift (kprintf "\n[PANIC] Error in Step 6 of initializing the PS2 Controller. The PS2 Controler self test didn't pass\n" []) in
    leave (state_only PS2_ID_ERR_controller_self_test_failed)
  else fall tt.

(** Returns [second_port_supported].  [config_byte] is copied before the error is
    looked at; the copy is read only after it. *)
Definition setup_step7 : Step bool :=
  let! err := lift ps2_enable_second_ps2_port in
  if is_err err then
    could_not_init "\n[PANIC] Error in Step 7 of initializing the PS2 Controller. Could not enable second ps2 port\n" err
  else
  let! vr_cb := lift ps2_get_configuration_byte in
  let! cb_err := lift (read_cell (vr_err vr_cb)) in
  if is_err cb_err then
    init_failed ["\n[PANIC] Error in Step 7 of initializing the PS2 Controller. Could not get configuration byte\n"]
      "\nThe error value: %u\n" cb_err cb_err PS2_ID_ERR_could_not_init None
  else
  let! raw := lift (read_cell (vr_response vr_cb)) in
  let config_byte := config_bits raw in
  do! lift (print_ps2_configuration_byte config_byte) in
  let second_port_supported := negb (second_ps2_port_clock_disabled config_byte) in
  let! err := lift ps2_disable_second_ps2_port in
  if is_err err then
    init_failed ["\n[PANIC] Error in Step 7 of initializing the PS2 Controller. Could not disable second ps2 port\n";
                 "\nError disabling the second ps2_port"]
      "The error value: %u\n" err err PS2_ID_ERR_could_not_init None
  else
  if second_port_supported then
    let! vr_cb := lift ps2_get_configuration_byte in
    let! cb_err := lift (read_cell (vr_err vr_cb)) in
    if is_err cb_err then
      init_failed ["\n[PANIC] Error in Step 7 of initializing the PS2 Controller. Could not get configuration byte for cleanup\n"]
        "\nThe error value: %u\n" cb_err cb_err PS2_ID_ERR_could_not_init None
    else
    let! raw := lift (read_cell (vr_response vr_cb)) in
    let! err := lift (ps2_set_configuration_byte (config_step7 (config_bits raw))) in
    if is_err err then
      init_failed ["\n[PANIC] Error in Step 7 of initializing the PS2 Controller. Could not set configuration byte for cleanup\n";
                   "\nError disabling the second ps2_port"]
        "The error value: %u\n" err err PS2_ID_ERR_could_not_init None
    else fall second_port_supported
  else fall second_port_supported.

(** The interface test of one port, which step 8 makes of both. *)
Definition setup_step8_port (test : C (verified Z)) (which : string)
    (failed : ps2_initialize_device_errors) : Step unit :=
  let! test_port_vr := lift test in
  let! tp_err := lift (read_cell (vr_err test_port_vr)) in
  if is_err tp_err then
    could_not_init ("\n[PANIC] Error in Step 8 of initializing the PS2 Controller. " +:+ which +:+ " port errored during self test\n") tp_err
  else
  let! resp := lift (read_cell (vr_response test_port_vr)) in
  if negb (resp =? PS2_TPR_passed) then
    do! lift (kprintf ("\n[PANIC] Error in Step 8 of initializing the PS2 Controller. " +:+ which +:+ " port couldn't pass test\n") []) in
    do! lift (kprintf "The reponse value: %u\n" [PNum resp]) in
    do! lift (kprintf "The response name: %s\n" [PStr (PS2_TestPortResponse_to_string resp)]) in
    leave (state_only failed)
  else fall tt.

Definition setup_step8 : Step unit :=
  do! setup_step8_port ps2_test_first_ps2_port "First" PS2_ID_ERR_first_port_self_test_failed in
  setup_step8_port ps2_test_second_ps2_port "Second" PS2_ID_ERR_second_port_self_test_failed.

Definition setup_step9 : Step unit :=
  let! err := lift ps2_enable_first_ps2_port in
  if is_err err then
    could_not_init "\n[PANIC] Error in Step 9 of initializing the PS2 Controller. Could not enable first ps2 port\n" err
  else
  let! err := lift ps2_enable_second_ps2_port in
  if is_err err then
    could_not_init "\n[PANIC] Error in Step 9 of initializing the PS2 Controller. Could not enable second ps2 port\n" err
  else
  let! vr_cb := lift ps2_get_configuration_byte in
  let! cb_err := lift (read_cell (vr_err vr_cb)) in
  if is_err cb_err then
    init_failed ["\n[PANIC] Error in Step 9 of initializing the PS2 Controller. Could not get configuration byte\n"]
      "\nThe error value: %u\n" cb_err cb_err PS2_ID_ERR_could_not_init None
  else
  let! raw := lift (read_cell (vr_response vr_cb)) in
  let! err := lift (ps2_set_configuration_byte (config_step9 (config_bits raw))) in
  if is_err err then
    could_not_init "\n[PANIC] Error in Step 9 of initializing the PS2 Controller. Could not set configuration byte\n" err
  else fall tt.

(** One device of step 10: reset it and count it.  The value printed on failure is the
    [err] of step 9, which is [PS2_ERR_none] here. *)
Definition setup_step10_device (port : Z) (which : string) (impossible : string)
    (failed : ps2_initialize_device_errors) (port_one : option Z) :
    Step (ps2_device_super_type * Z) :=
  let! device := lift (reset_port_and_get_device_type port) in
  if is_err (dev_err device) then
    init_failed ["\n[PANIC] Error in Step 10 of initializing the PS2 Controller. Could not reset port " +:+ which +:+ "\n"]
      "The error value: %u\n" PS2_ERR_none (dev_err device) failed port_one
  else
  let! super := lift (read_cell (mouse_or_keyboard device)) in
  let! type := lift (read_cell (dev_type device)) in
  match super with
  | PS2_DST_keyboard | PS2_DST_mouse => fall (super, type)
  | PS2_DST_unknown => lift (abort_msg impossible [])
  end.

(** The counters [keyboard_count] and [mouse_count]. *)
Definition count_super (s : ps2_device_super_type) (l : list ps2_device_super_type) : Z :=
  Z.of_nat (length (filter (eq s) l)).

Definition setup_step10 (second_port_supported : bool) : Step ps2_initialize_device_state :=
  let! one := setup_step10_device PS2_PN_port_one "1"
    "Device 1: Impossible device super type!\n" PS2_ID_ERR_could_not_reset_device1 None in
  if negb second_port_supported then
    leave (mk_init_state (Some PS2_ERR_none) (Some PS2_ID_ERR_no_second_port) (Some (snd one)) None)
  else
  let! two := setup_step10_device PS2_PN_port_two "2"
    "Device 2: Impossible device super type!\n" PS2_ID_ERR_could_not_reset_device2
    (Some (snd one)) in
  let keyboard_count := count_super PS2_DST_keyboard [fst one; fst two] in
  let mouse_count := count_super PS2_DST_mouse [fst one; fst two] in
  let s :=
    if keyboard_count =? 2 then PS2_ID_ERR_two_keyboard
    else if mouse_count =? 2 then PS2_ID_ERR_two_mouse
    else PS2_ID_ERR_none in
  fall (mk_init_state (Some PS2_ERR_none) (Some s) (Some (snd one)) (Some (snd two))).

Definition setup_ps2_controller : C ps2_initialize_device_state :=
  function_body
    (do! setup_step1 in
     do! setup_step2 in
     do! setup_step3 in
     do! setup_step4 in
     do! setup_step5 in
     do! setup_step6 in
     let! second_port_supported := setup_step7 in
     do! setup_step8 in
     do! setup_step9 in
     setup_step10 second_port_supported).

(** ** The variant without error checks

    It reads the responses whether or not they were obtained, and ends without a
    [return]: the caller gets an indeterminate struct. *)

Definition no_check_config (update : PS2_ConfigurationByte -> PS2_ConfigurationByte) : C unit :=
  vr_cb ← ps2_get_configuration_byte;
  raw ← read_cell (vr_response vr_cb);
  ps2_set_configuration_byte (update (config_bits raw));;
  mret tt.

Definition no_check_reset_keyboard : C unit :=
  send_command_to_first_ps2_port PS2_CB_reset_device;;
  wait_till_ready_for_response;;
  rep1k ← ps2_recieve_raw_response;
  wait_till_ready_for_response;;
  rep2k ← ps2_recieve_raw_response;
  err ← wait_till_ready_for_response;
  (if negb (is_err err) then
     rep3k ← ps2_recieve_raw_response;
     kprintf "The response from keyboard: %h, %h, %h\n" [PNum rep1k; PNum rep2k; PNum rep3k]
   else mret tt);;
  kprintf "The response from keyboard: %h, %h, None\n" [PNum rep1k; PNum rep2k];;
  assert_handler_fmt (rep1k =? 0xfa) "start of reset successful command" [];;
  assert_handler_fmt (rep2k =? 0xaa) "end of reset successful command" [].

Definition no_check_reset_mouse : C unit :=
  send_command_to_second_ps2_port PS2_CB_reset_device;;
  rep1m ← ps2_recieve_raw_response;
  wait_till_ready_for_response;;
  rep2m ← ps2_recieve_raw_response;
  wait_till_ready_for_response;;
  rep3m ← ps2_recieve_raw_response;
  kprintf "The response from mouse   : %h, %h, %h\n" [PNum rep1m; PNum rep2m; PNum rep3m];;
  assert_handler_fmt (rep1m =? 0xfa) "start of reset successful command" [];;
  assert_handler_fmt (rep2m =? 0xaa) "end of reset successful command" [].

Definition setup_ps2_controller_no_error_check : C unit :=
  assert_handler_fmt does_ps2_controller_exist "If it doesn't exist, then we are fucked!\n" [];;
  ps2_disable_first_ps2_port;;
  ps2_disable_second_ps2_port;;
  ps2_recieve_raw_response;;
  no_check_config (config_step5 true);;
  tc_vr ← ps2_perform_controller_self_test;
  tc ← read_cell (vr_response tc_vr);
  assert_handler_fmt (tc =? PS2_TCR_passed) "we are fucked if it didn't pass\n" [];;
  ps2_enable_second_ps2_port;;
  vr_cb ← ps2_get_configuration_byte;
  raw ← read_cell (vr_response vr_cb);
  assert_handler_fmt (negb (second_ps2_port_clock_disabled (config_bits raw)))
    "Otherwise we are fucked if no mouse support!\n" [];;
  ps2_disable_second_ps2_port;;
  no_check_config config_step7;;
  r1 ← ps2_test_first_ps2_port;
  t1 ← read_cell (vr_response r1);
  assert_handler_fmt (t1 =? PS2_TPR_passed) "First port test must work\n!" [];;
  r2 ← ps2_test_second_ps2_port;
  t2 ← read_cell (vr_response r2);
  assert_handler_fmt (t2 =? PS2_TPR_passed) "Second port test must work\n!" [];;
  ps2_enable_first_ps2_port;;
  ps2_enable_second_ps2_port;;
  no_check_config config_step9;;
  no_check_reset_keyboard;;
  no_check_reset_mouse.
End setup.
