(* ===== verification/Sim8042.v ===== *)
(** * A simulated 8042

    A small concrete controller with two devices, the instance of [PortDevice] on which
    the witnesses evaluate the drivers.  It answers the commands the set-up sends and
    the reset command of the devices; it is not part of the kernel. *)

From S2P Require Import Prelude Machine.

Record sim := mk_sim {
  sim_queue : list Z;      (* bytes waiting in the output buffer *)
  sim_config : Z;          (* configuration byte *)
  sim_pending : Z;         (* command whose data byte is expected, 0 for none *)
  sim_id1 : option (list Z);   (* identification of the device on port 1, None: absent *)
  sim_id2 : option (list Z);
}.

Definition sim_push (l : list Z) (s : sim) : sim :=
  mk_sim (sim_queue s ++ l) (sim_config s) (sim_pending s) (sim_id1 s) (sim_id2 s).
Definition sim_with (config pending : Z) (s : sim) : sim :=
  mk_sim (sim_queue s) config pending (sim_id1 s) (sim_id2 s).

Definition sim_device (id : option (list Z)) (v : Z) (s : sim) : sim :=
  match id with
  | None => s
  | Some l => if v =? 0xFF then sim_push ([0xFA; 0xAA] ++ l) s else sim_push [0xFA] s
  end.

Definition sim_command (c : Z) (s : sim) : sim :=
  let conf := sim_config s in
  if c =? 0x20 then sim_push [conf] s
  else if c =? 0xAA then sim_push [0x55] s
  else if (c =? 0xA9) || (c =? 0xAB) then sim_push [0x00] s
  else if c =? 0xA7 then sim_with (Z.lor conf 0x20) 0 s
  else if c =? 0xA8 then
    match sim_id2 s with Some _ => sim_with (Z.land conf 0xDF) 0 s | None => s end
  else if c =? 0xAD then sim_with (Z.lor conf 0x10) 0 s
  else if c =? 0xAE then sim_with (Z.land conf 0xEF) 0 s
  else sim_with conf c s.

Definition sim_data (v : Z) (s : sim) : sim :=
  if sim_pending s =? 0x60 then sim_with v 0 s
  else if sim_pending s =? 0xD4 then sim_device (sim_id2 s) v (sim_with (sim_config s) 0 s)
  else sim_device (sim_id1 s) v s.

#[export] Instance sim_ports : PortDevice sim := {
  port_in p s :=
    if p =? 0x64 then ((match sim_queue s with [] => 0x04 | _ => 0x05 end), s)
    else if p =? 0x60 then
      match sim_queue s with
      | [] => (0, s)
      | v :: q => (v, mk_sim q (sim_config s) (sim_pending s) (sim_id1 s) (sim_id2 s))
      end
    else (0, s);
  port_out p v s :=
    if p =? 0x64 then sim_command v s else if p =? 0x60 then sim_data v s else s;
}.

(** A keyboard (MF2) on port 1 and a standard mouse on port 2. *)
Definition sim_keyboard_mouse : sim := mk_sim [] 0x45 0 (Some [0xAB; 0x83]) (Some [0x00]).
(** A keyboard on port 1 of a controller with one port. *)
Definition sim_single_port : sim := mk_sim [] 0x65 0 (Some [0xAB; 0x83]) None.
(** A controller that never answers: its input buffer stays full. *)
Record dead := mk_dead {}.
#[export] Instance dead_ports : PortDevice dead := {
  port_in p s := (0x02, s);
  port_out p v s := s;
}.
