(* ===== verification/Ps2ControllerFacts.v ===== *)
(** * Facts about the PS/2 controller driver

    Every controller function returns, whatever the device answers; a byte is written
    to the controller only after a status read that showed its input buffer empty, and
    a response is read only after one that showed its output buffer full; the waits
    report the first ready status of at most 1000; the set-up fills exactly the fields
    its status promises. *)

From S2P Require Import Prelude Machine Ps2Types Ps2Controller Ps2Setup Sim8042.

Create HintDb total discriminated.
Create HintDb handshake discriminated.
#[export] Hint Constants Opaque : total handshake.

(** ** Definitions the statements use *)

(** The status bytes that [n] rounds of polling read, if none of them ends the loop. *)
Fixpoint statuses {D} `{PortDevice D} (n : nat) (d : D) : list Z :=
  match n with
  | O => []
  | S n => let '(v, d') := port_in 0x64 (port_out 0x80 0 d) in u8 v :: statuses n d'
  end.

(** What the input wait makes of them: the first one with bit 1 clear decides. *)
Definition input_verdict (l : list Z) : ps2_controller_error_code :=
  match List.find (fun v => negb (Z.testbit v 1)) l with
  | None => PS2_ERR_wait_max_itt_in
  | Some v =>
      if Z.testbit v 7 then PS2_ERR_status_parity
      else if Z.testbit v 6 then PS2_ERR_status_timeout
      else PS2_ERR_none
  end.

Definition response_verdict (l : list Z) : ps2_controller_error_code :=
  match List.find (fun v => Z.testbit v 0) l with
  | None => PS2_ERR_wait_max_itt_out
  | Some _ => PS2_ERR_none
  end.

(** The rounds a wait makes: up to and including the first accepted status. *)
Fixpoint polls (ready : Z -> bool) (l : list Z) : list event :=
  match l with
  | [] => []
  | v :: l => EOut 0x80 0 :: EIn 0x64 v :: (if ready v then [] else polls ready l)
  end.

(** The handshake with the 8042, as a monitor of the trace.  Its state is the status byte
    read last, [None] once a data or command transfer has made it stale.  Writing to
    0x60 or 0x64 needs a status with bit 1 clear; when [strict], reading 0x60 needs one
    with bit 0 set. *)
Definition handshake_step (strict : bool) (e : event) (s : option Z) : option (option Z) :=
  match e with
  | EIn p v =>
      if p =? 0x64 then Some (Some v)
      else if p =? 0x60 then
        if strict then
          match s with Some st => if Z.testbit st 0 then Some None else None | None => None end
        else Some None
      else Some s
  | EOut p v =>
      if (p =? 0x64) || (p =? 0x60) then
        match s with Some st => if Z.testbit st 1 then None else Some None | None => None end
      else Some s
  | _ => Some s
  end.
Definition handshake (strict : bool) : monitor := Monitor (option Z) (handshake_step strict).

(** Every run of [m] is accepted, whatever the last status read before it. *)
Definition disciplined {D G A} (strict : bool) (m : M D G A) : Prop :=
  forall d g s, accepts (handshake strict) (o_events (m d g)) s.

(** A response struct whose [err] is assigned, and whose [response] is when it says so. *)
Definition settled (r : verified Z) : Prop :=
  exists e, vr_err r = Some e /\
    (is_err e = false \/ e = PS2_WARN_invalid_configuration_byte_post_is_zero ->
     exists v, vr_response r = Some v).

(** A recognised device: both fields are assigned and agree with [get_device_super_type]. *)
Definition device_known (v : ps2_device_type_verified) : Prop :=
  dev_err v = PS2_ERR_none ->
  exists t s, dev_type v = Some t /\ mouse_or_keyboard v = Some s /\
    get_device_super_type t = s /\ s <> PS2_DST_unknown.

(** What each status of the set-up promises about the other fields. *)
Definition init_state_ok (st : ps2_initialize_device_state) : Prop :=
  let super p s := exists t, p = Some t /\ get_device_super_type t = s in
  match ps2_state_err st with
  | None => False
  | Some PS2_ID_ERR_none =>
      (super (port_one_device_type st) PS2_DST_keyboard /\
       super (port_two_device_type st) PS2_DST_mouse) \/
      (super (port_one_device_type st) PS2_DST_mouse /\
       super (port_two_device_type st) PS2_DST_keyboard)
  | Some PS2_ID_ERR_two_keyboard =>
      super (port_one_device_type st) PS2_DST_keyboard /\
      super (port_two_device_type st) PS2_DST_keyboard
  | Some PS2_ID_ERR_two_mouse =>
      super (port_one_device_type st) PS2_DST_mouse /\
      super (port_two_device_type st) PS2_DST_mouse
  | Some PS2_ID_ERR_no_second_port =>
      exists s, super (port_one_device_type st) s /\ s <> PS2_DST_unknown
  | Some (PS2_ID_ERR_could_not_init | PS2_ID_ERR_could_not_reset_device1
         | PS2_ID_ERR_could_not_reset_device2) =>
      exists e, internal_err st = Some e /\ e <> PS2_ERR_none
  | Some _ => True
  end.

(** ** Totality *)

Ltac total_step :=
  match goal with
  | |- total (mret _) _ => apply total_ret
  | |- total (if ?b then _ else _) _ => destruct b eqn:?
  | |- total (function_body _) _ => apply total_body
  | |- total (ebind (lift (read_cell ?c)) _) _ =>
      eapply total_lift_bind; [first [apply total_cell|fail 1]|intros ? ?]
  | |- total (ebind (lift _) _) _ =>
      eapply total_lift_bind; [solve [eauto with total kernel]|intros ? ?]
  | |- total (fall _) _ => apply total_ret
  | |- total (leave _) _ => apply total_ret
  | |- total (read_cell (Some _)) _ => apply total_cell
  | |- total (inb _) _ => apply total_inb
  | |- total (kprintf _ _) _ => apply total_emit
  | |- total (outb _ _) _ => apply total_outb
  | |- total (_ ≫= _) _ => eapply total_bind; [solve [eauto with total kernel]|intros ? ?]
  | |- total (_ ≫= _) _ => eapply total_bind; [|intros ? ?]
  end.
Ltac total_auto := repeat total_step; try done; eauto.

(** The errors of a wait or of sending a command. *)
Definition wait_code (e : ps2_controller_error_code) : Prop :=
  e <> PS2_WARN_invalid_configuration_byte_post_is_zero.

Section totality.
Context {D G : Type} `{PortDevice D}.

Lemma total_read_status : total (G:=G) read_ps2_status (fun _ => True).
Proof. unfold read_ps2_status. total_auto. Qed.

Lemma total_wait_input_loop n : total (G:=G) (wait_input_loop n) wait_code.
Proof.
  induction n as [|n IH]; simpl; [total_auto|].
  eapply total_bind; [apply total_outb|intros _ _].
  eapply total_bind; [apply total_read_status|intros st _]. total_auto.
Qed.

Lemma total_wait_input : total (G:=G) wait_till_ready_for_more_input wait_code.
Proof. apply total_wait_input_loop. Qed.

Lemma total_wait_response_loop n : total (G:=G) (wait_response_loop n) wait_code.
Proof.
  induction n as [|n IH]; simpl; [total_auto|].
  eapply total_bind; [apply total_outb|intros _ _].
  eapply total_bind; [apply total_read_status|intros st _]. total_auto.
Qed.

Lemma total_wait_response : total (G:=G) wait_till_ready_for_response wait_code.
Proof. apply total_wait_response_loop. Qed.

Lemma total_receive : total (G:=G) ps2_recieve_raw_response is_u8.
Proof. apply total_inb. Qed.
End totality.
#[export] Hint Resolve total_read_status total_wait_input total_wait_response
  total_receive : total.

Section totality_commands.
Context {D G : Type} `{PortDevice D}.

Lemma total_send_command c : total (G:=G) (send_command_to_ps2_controller c) wait_code.
Proof. unfold send_command_to_ps2_controller. total_auto. Qed.
Hint Resolve total_send_command : total.

(** The response functions that assign [err] on every path. *)
Ltac settled_auto :=
  total_auto; eexists; (split; [reflexivity|]); intros [?|?]; eauto; congruence.

Lemma total_config_response c :
  total (G:=G) (send_command_configuration_byte_response c) settled.
Proof. unfold send_command_configuration_byte_response. settled_auto. Qed.

Lemma total_test_port_response c : total (G:=G) (send_command_test_port_response c) settled.
Proof. unfold send_command_test_port_response. settled_auto. Qed.

Lemma total_test_controller_response c :
  total (G:=G) (send_command_test_controller_response c) settled.
Proof. unfold send_command_test_controller_response. settled_auto. Qed.

Lemma total_set_configuration c : total (G:=G) (ps2_set_configuration_byte c) (fun _ => True).
Proof.
  unfold ps2_set_configuration_byte, write_next_to_byte_0_of_interal_ram,
    send_command_none_response. total_auto.
Qed.

Lemma total_send_port p v : total (G:=G) (send_command_or_data_to_ps2_port p v) (fun _ => True).
Proof.
  unfold send_command_or_data_to_ps2_port, send_command_to_first_ps2_port,
    send_command_to_second_ps2_port. total_auto.
Qed.
Hint Resolve total_send_port : total.

Lemma rep3_device_known v : device_known (rep3_device v).
Proof.
  unfold rep3_device. repeat case_match; intros [=]; eexists _, _; repeat split; discriminate.
Qed.

Lemma rep4_device_known v : device_known (rep4_device v).
Proof.
  unfold rep4_device. repeat case_match; intros [=]; eexists _, _; repeat split; discriminate.
Qed.

Lemma total_reset_port p : total (G:=G) (reset_port_and_get_device_type p) device_known.
Proof.
  unfold reset_port_and_get_device_type.
  total_auto; auto using rep3_device_known, rep4_device_known; intros E; simpl in E;
    try discriminate; try (subst; discriminate).
  eexists _, _. repeat split; discriminate.
Qed.

Lemma total_print_config c : total (G:=G) (D:=D) (print_ps2_configuration_byte c) (fun _ => True).
Proof. unfold print_ps2_configuration_byte. total_auto. Qed.

Lemma total_print_lines l : total (G:=G) (D:=D) (print_lines l) (fun _ => True).
Proof. induction l; simpl; total_auto. Qed.
End totality_commands.
#[export] Hint Resolve total_send_command total_config_response total_test_port_response
  total_test_controller_response total_set_configuration total_send_port total_reset_port
  total_print_config total_print_lines : total.

(** ** The steps of the set-up *)

Definition step_ok {A} (Q : A -> Prop) (x : ps2_initialize_device_state + A) : Prop :=
  match x with inl r => init_state_ok r | inr a => Q a end.

(** Reading the two fields of a settled response. *)
Lemma settled_err r : settled r -> exists e, vr_err r = Some e.
Proof. intros (e & ? & _). eauto. Qed.

Section setup_total.
Context {D G : Type} `{PortDevice D} (QEMU : bool).
Local Abbreviation any := (fun _ => True).

Lemma total_init_failed {A} msgs fmt shown e s p1 (Q : A -> Prop) :
  init_state_ok (mk_init_state (Some e) (Some s) p1 None) ->
  total (D:=D) (G:=G) (init_failed msgs fmt shown e s p1) (step_ok Q).
Proof.
  intros Hok. unfold init_failed. total_auto.
Qed.

(** Every failing step whose error is not [PS2_ERR_none]. *)
Lemma total_failed {A} msgs fmt shown e s p1 (Q : A -> Prop) :
  is_err e = true ->
  s = PS2_ID_ERR_could_not_init \/ s = PS2_ID_ERR_could_not_reset_device1 \/
    s = PS2_ID_ERR_could_not_reset_device2 ->
  total (D:=D) (G:=G) (init_failed msgs fmt shown e s p1) (step_ok Q).
Proof.
  intros He%is_err_true Hs. apply total_init_failed.
  destruct Hs as [->|[->| ->]]; exists e; done.
Qed.

Ltac failed := apply total_failed; [assumption|tauto].
Ltac open_response vr :=
  let Hs := fresh "Hs" in let Hc := fresh "Hc" in let Hv := fresh "Hv" in
  let e := fresh "e" in
  match goal with Hs' : settled vr |- _ => destruct Hs' as (e & Hc & Hv) end;
  rewrite Hc; (eapply total_lift_bind; [apply (total_cell e (eq e)); reflexivity|]);
  intros ? <-.
Ltac open_value :=
  match goal with
  | Hv : _ \/ _ -> exists v, vr_response ?vr = Some v |- _ =>
      let v := fresh "v" in let Hr := fresh "Hr" in
      destruct Hv as [v Hr]; [tauto || (left; reflexivity)|]; rewrite Hr;
      (eapply total_lift_bind; [apply (total_cell v (eq v)); reflexivity|]); intros ? <-
  end.

Lemma total_step1 : total (D:=D) (G:=G) setup_step1 (step_ok any).
Proof. by apply (total_ret (inr tt)). Qed.
Lemma total_step2 : total (D:=D) (G:=G) setup_step2 (step_ok any).
Proof. by apply (total_ret (inr tt)). Qed.

Lemma total_step3 : total (D:=D) (G:=G) setup_step3 (step_ok any).
Proof.
  unfold setup_step3, ps2_disable_first_ps2_port, ps2_disable_second_ps2_port, could_not_init.
  total_auto; failed.
Qed.

Lemma total_step4 : total (D:=D) (G:=G) setup_step4 (step_ok any).
Proof. unfold setup_step4. total_auto. Qed.

Lemma total_step5 : total (D:=D) (G:=G) (setup_step5 QEMU) (step_ok any).
Proof.
  unfold setup_step5, ps2_get_configuration_byte, could_not_init.
  eapply total_lift_bind; [eauto with total|intros vr Hs]. open_response vr.
  eapply (total_ebind _ _ (fun _ => is_err e = false \/
     e = PS2_WARN_invalid_configuration_byte_post_is_zero)).
  - destruct (is_err e) eqn:He; [|total_auto].
    case_bool_decide as Hw; [|failed].
    eapply (total_ebind _ _ any); [destruct QEMU; [total_auto|failed]|intros ? _].
    eapply total_lift_bind; [eauto with kernel|intros ? _].
    eapply total_bind; [eauto with kernel|intros ? _]. total_auto.
  - intros [] Hor. open_value. total_auto; failed.
Qed.

Lemma total_step6 : total (D:=D) (G:=G) setup_step6 (step_ok any).
Proof.
  unfold setup_step6, ps2_perform_controller_self_test, could_not_init.
  eapply total_lift_bind; [eauto with total|intros vr Hs]. open_response vr.
  destruct (is_err e) eqn:He; [failed|]. open_value. total_auto.
Qed.

Lemma total_step7 : total (D:=D) (G:=G) setup_step7 (step_ok any).
Proof.
  unfold setup_step7, ps2_get_configuration_byte, ps2_enable_second_ps2_port,
    ps2_disable_second_ps2_port, could_not_init.
  total_step. total_step; [failed|].
  eapply total_lift_bind; [eauto with total|intros vr Hs]. open_response vr.
  destruct (is_err e) eqn:He; [failed|]. open_value.
  eapply total_lift_bind; [eauto with total|intros ? _].
  eapply total_lift_bind; [eauto with total|intros err2 _].
  total_step; [failed|]. total_step; [|total_auto].
  eapply total_lift_bind; [eauto with total|intros vr2 Hs2]. clear Hc Hr. open_response vr2.
  destruct (is_err e0) eqn:He0; [failed|]. open_value. total_auto; failed.
Qed.

Lemma total_step8_port test which s :
  total test settled -> (forall Q : unit -> Prop, step_ok Q (inl (state_only s))) ->
  total (D:=D) (G:=G) (setup_step8_port test which s) (step_ok any).
Proof.
  intros Ht Hs'. unfold setup_step8_port, could_not_init.
  eapply total_lift_bind; [exact Ht|intros vr Hs]. open_response vr.
  destruct (is_err e) eqn:He; [failed|]. open_value. total_auto.
Qed.

Lemma total_step8 : total (D:=D) (G:=G) setup_step8 (step_ok any).
Proof.
  unfold setup_step8. eapply total_ebind; [|intros ? _];
    (apply total_step8_port; [apply total_test_port_response|done]).
Qed.

Lemma total_step9 : total (D:=D) (G:=G) setup_step9 (step_ok any).
Proof.
  unfold setup_step9, ps2_get_configuration_byte, ps2_enable_second_ps2_port,
    ps2_enable_first_ps2_port, could_not_init.
  do 2 (eapply total_lift_bind; [eauto with total|intros ? _]; total_step; [failed|]).
  eapply total_lift_bind; [eauto with total|intros vr Hs]. open_response vr.
  destruct (is_err e) eqn:He; [failed|]. open_value. total_auto; failed.
Qed.

Definition device_ok (x : ps2_device_super_type * Z) : Prop :=
  get_device_super_type (snd x) = fst x /\ fst x <> PS2_DST_unknown.

Lemma total_step10_device port which imp s p1 :
  s = PS2_ID_ERR_could_not_reset_device1 \/ s = PS2_ID_ERR_could_not_reset_device2 ->
  total (D:=D) (G:=G) (setup_step10_device port which imp s p1) (step_ok device_ok).
Proof.
  intros Hs. unfold setup_step10_device.
  eapply total_lift_bind; [eauto with total|intros dv Hdv].
  destruct (is_err (dev_err dv)) eqn:He; [failed|].
  apply is_err_false in He. destruct (Hdv He) as (t & sp & -> & -> & Hsup & Hne).
  eapply total_lift_bind; [apply (total_cell sp (eq sp)); reflexivity|intros ? <-].
  eapply total_lift_bind; [apply (total_cell t (eq t)); reflexivity|intros ? <-].
  destruct sp; [done|by apply total_ret|by apply total_ret].
Qed.

Lemma total_step10 b : total (D:=D) (G:=G) (setup_step10 b) (step_ok init_state_ok).
Proof.
  unfold setup_step10.
  eapply total_ebind; [apply total_step10_device; tauto|intros [s1 t1] [H1 N1]].
  destruct b; [|apply total_ret; exists s1; split; [by exists t1|done]].
  eapply total_ebind; [apply total_step10_device; tauto|intros [s2 t2] [H2 N2]].
  apply total_ret. simpl in *.
  destruct s1, s2; try done; unfold init_state_ok; simpl; eauto 8.
Qed.

Lemma total_setup : total (D:=D) (G:=G) (setup_ps2_controller QEMU) init_state_ok.
Proof.
  unfold setup_ps2_controller. apply total_body.
  apply (total_weaken _ (step_ok init_state_ok)); [|by intros [?|?]].
  eapply total_ebind; [apply total_step1|intros ? _].
  eapply total_ebind; [apply total_step2|intros ? _].
  eapply total_ebind; [apply total_step3|intros ? _].
  eapply total_ebind; [apply total_step4|intros ? _].
  eapply total_ebind; [apply total_step5|intros ? _].
  eapply total_ebind; [apply total_step6|intros ? _].
  eapply total_ebind; [apply total_step7|intros b _].
  eapply total_ebind; [apply total_step8|intros ? _].
  eapply total_ebind; [apply total_step9|intros ? _].
  apply total_step10.
Qed.
End setup_total.

(** ** The handshake

    [obeys strict m]: whatever was read before, no access of [m] breaks the handshake.
    The controller functions obey the strict one; the set-up, which drains the output
    buffer in step 4 without asking, the one for writes. *)

Definition in_ready (s : option Z) : Prop := exists st, s = Some st /\ Z.testbit st 1 = false.
Definition out_ready (s : option Z) : Prop := exists st, s = Some st /\ Z.testbit st 0 = true.

Definition obeys {D G A} (strict : bool) (m : M D G A) : Prop :=
  monitored (handshake strict) (fun _ => True) m (fun _ _ => True).

Section obeys_rules.
Context {D G : Type} `{PortDevice D} (b : bool).

Lemma obeys_any {A} (m : M D G A) pre : obeys b m -> monitored (handshake b) pre m (fun _ _ => True).
Proof. intros Hm. by eapply monitored_weaken. Qed.

Lemma obeys_ret {A} (a : A) : obeys (D:=D) (G:=G) b (mret a).
Proof. by apply monitored_ret. Qed.

Lemma obeys_bind {A B} (m : M D G A) (k : A -> M D G B) :
  obeys b m -> (forall a, obeys b (k a)) -> obeys b (m ≫= k).
Proof. intros Hm Hk. by eapply monitored_bind. Qed.

Lemma obeys_stop {A} (e : exit A) : (forall a, e <> Done a) -> obeys (D:=D) (G:=G) b (stop e).
Proof. apply monitored_stop. Qed.

Lemma obeys_kprintf fmt args : obeys (D:=D) (G:=G) b (kprintf fmt args).
Proof. apply monitored_emit. intros s _. by exists s. Qed.

Lemma obeys_cell {A} (c : option A) : obeys (D:=D) (G:=G) b (read_cell c).
Proof. apply monitored_cell. Qed.

Lemma obeys_lift {R A} (m : M D G A) : obeys b m -> obeys b (lift (R:=R) m).
Proof. intros Hm. apply obeys_bind; [done|]. intros a. apply obeys_ret. Qed.

Lemma obeys_ebind {R A B} (m : Early D G R A) (k : A -> Early D G R B) :
  obeys b m -> (forall a, obeys b (k a)) -> obeys b (ebind m k).
Proof. intros Hm Hk. apply obeys_bind; [done|]. intros [r|a]; [apply obeys_ret|apply Hk]. Qed.

Lemma obeys_body {R} (m : Early D G R R) : obeys b m -> obeys b (function_body m).
Proof. intros Hm. apply obeys_bind; [done|]. intros [r|r]; apply obeys_ret. Qed.

Lemma obeys_abort {A} fmt args : obeys (D:=D) (G:=G) b (abort_msg (A:=A) fmt args).
Proof.
  unfold abort_msg. do 4 (apply obeys_bind; [apply obeys_kprintf|intros _]).
  apply obeys_bind; [by apply monitored_emit; intros s _; exists s|intros _].
  by apply obeys_stop.
Qed.

Lemma obeys_assert c fmt args : obeys (D:=D) (G:=G) b (assert_handler_fmt c fmt args).
Proof. unfold assert_handler_fmt. destruct c; [apply obeys_ret|apply obeys_abort]. Qed.

Lemma obeys_disciplined {A} (m : M D G A) : obeys b m -> disciplined b m.
Proof. intros Hm d g s. destruct (Hm d g s I) as (s' & Hr & _). by exists s'. Qed.

(** A wait whose code is [PS2_ERR_none] leaves a fresh status. *)
Lemma monitored_checked {A} (m : M D G ps2_controller_error_code)
    (k : ps2_controller_error_code -> M D G A) ready fail :
  monitored (handshake b) (fun _ => True) m (fun e s => e = PS2_ERR_none -> ready s) ->
  (forall e, obeys b (fail e)) ->
  monitored (handshake b) ready (k PS2_ERR_none) (fun _ _ => True) ->
  obeys b (e ← m; if is_err e then fail e else k e).
Proof.
  intros Hm Hf Hk. eapply monitored_bind; [exact Hm|]. intros e. simpl.
  destruct (is_err e) eqn:He; [by apply obeys_any|].
  apply is_err_false in He. subst e. eapply monitored_weaken; [exact Hk|auto|done].
Qed.
End obeys_rules.
#[export] Hint Resolve obeys_kprintf obeys_cell obeys_ret obeys_abort obeys_assert : handshake.

Section waits_obey.
Context {D G : Type} `{PortDevice D} (b : bool).

Lemma monitored_status :
  monitored (G:=G) (handshake b) (fun _ => True) read_ps2_status
    (fun st (s : option Z) => exists v, s = Some v /\ st = status_bits v).
Proof.
  eapply (monitored_bind (handshake b) _ _ _ (fun v (s : option Z) => s = Some v)).
  - apply monitored_inb. intros v s _ _. by exists (Some v).
  - intros v. apply monitored_ret. intros s ->. eauto.
Qed.

Lemma obeys_io_wait : obeys (G:=G) b io_wait.
Proof. apply monitored_outb. intros s _. by exists s. Qed.

Lemma monitored_wait_input_loop n :
  monitored (G:=G) (handshake b) (fun _ => True) (wait_input_loop n)
    (fun e s => e = PS2_ERR_none -> in_ready s).
Proof.
  induction n as [|n IH]; simpl; [by apply monitored_ret|].
  eapply monitored_bind; [apply obeys_io_wait|]. intros ?.
  eapply monitored_bind; [apply monitored_status|]. intros st.
  destruct (is_ps2_controller_ready_for_more_input st) eqn:Hr.
  - repeat case_match; apply monitored_ret; try done.
    intros s (v & -> & ->) _. exists v. split; [done|]. by apply negb_true_iff in Hr.
  - by eapply monitored_weaken; [exact IH|..].
Qed.

Lemma monitored_wait_response_loop n :
  monitored (G:=G) (handshake b) (fun _ => True) (wait_response_loop n)
    (fun e s => e = PS2_ERR_none -> out_ready s).
Proof.
  induction n as [|n IH]; simpl; [by apply monitored_ret|].
  eapply monitored_bind; [apply obeys_io_wait|]. intros ?.
  eapply monitored_bind; [apply monitored_status|]. intros st.
  destruct (is_ps2_controller_ready_for_response st) eqn:Hr.
  - apply monitored_ret. intros s (v & -> & ->) _. by exists v.
  - by eapply monitored_weaken; [exact IH|..].
Qed.

(** [wait; if (err) return ...; write]. *)
Lemma obeys_wait_then_out {A} p v fail (k : M D G A) :
  p = PS2_COMMAND_PORT_W \/ p = PS2_DATA_PORT_RW -> (forall e, obeys b (fail e)) -> obeys b k ->
  obeys b (err ← wait_till_ready_for_more_input;
           if is_err err then fail err else outb p v;; k).
Proof.
  intros Hp Hf Hk.
  apply (monitored_checked b _ (fun _ => outb p v;; k) in_ready fail); auto.
  - apply monitored_wait_input_loop.
  - eapply (monitored_bind (handshake b) _ _ _ (fun _ _ => True)); [|intros _; exact Hk].
    apply monitored_outb. intros s (st & -> & Hst). exists None.
    destruct Hp as [-> | ->]; cbn -[Z.testbit]; by rewrite Hst.
Qed.

Lemma obeys_wait_then_receive {A} fail (k : Z -> M D G A) :
  (forall e, obeys b (fail e)) -> (forall v, obeys b (k v)) ->
  obeys b (err ← wait_till_ready_for_response;
           if is_err err then fail err else v ← ps2_recieve_raw_response; k v).
Proof.
  intros Hf Hk.
  apply (monitored_checked b _ (fun _ => v ← ps2_recieve_raw_response; k v) out_ready fail);
    auto.
  - apply monitored_wait_response_loop.
  - eapply (monitored_bind (handshake b) _ _ _ (fun _ _ => True)); [|exact Hk].
    apply monitored_inb. intros v s _ (st & -> & Hst). exists None. cbn -[Z.testbit]. rewrite Hst.
    by destruct b.
Qed.

(** A call whose error ends the function. *)
Lemma obeys_checked {A} (m : M D G ps2_controller_error_code) fail (k : M D G A) :
  obeys b m -> (forall e, obeys b (fail e)) -> obeys b k ->
  obeys b (err ← m; if is_err err then fail err else k).
Proof. intros Hm Hf Hk. apply obeys_bind; [done|]. intros e. by destruct (is_err e). Qed.
End waits_obey.

Ltac obeys_step :=
  match goal with
  | |- obeys _ (_ ← wait_till_ready_for_more_input; if _ then _ else outb _ _;; _) =>
      apply obeys_wait_then_out; [first [by left|by right]|intros ?|]
  | |- obeys _ (_ ← wait_till_ready_for_response;
                if _ then _ else (_ ← ps2_recieve_raw_response; _)) =>
      apply obeys_wait_then_receive; [intros ?|intros ?]
  | |- obeys _ (if ?b then _ else _) => destruct b
  | |- obeys _ (match ?x with _ => _ end) => destruct x
  | |- obeys _ (lift _) => apply obeys_lift
  | |- obeys _ (fall _) => apply obeys_ret
  | |- obeys _ (leave _) => apply obeys_ret
  | |- obeys _ (function_body _) => apply obeys_body
  | |- obeys _ _ => solve [eauto with handshake]
  | |- obeys _ (ebind _ _) => apply obeys_ebind; [|intros ?]
  | |- obeys _ (_ ≫= _) => apply obeys_bind; [|intros ?]
  end.
Ltac obeys_auto := repeat obeys_step.

Section commands_obey.
Context {D G : Type} `{PortDevice D} (b : bool).

Lemma obeys_send_command c : obeys (G:=G) b (send_command_to_ps2_controller c).
Proof. unfold send_command_to_ps2_controller. obeys_auto. Qed.
Hint Resolve obeys_send_command : handshake.

Lemma obeys_config_response c : obeys (G:=G) b (send_command_configuration_byte_response c).
Proof. unfold send_command_configuration_byte_response. obeys_auto. Qed.
Lemma obeys_test_port_response c : obeys (G:=G) b (send_command_test_port_response c).
Proof. unfold send_command_test_port_response. obeys_auto. Qed.
Lemma obeys_test_controller_response c :
  obeys (G:=G) b (send_command_test_controller_response c).
Proof. unfold send_command_test_controller_response. obeys_auto. Qed.
Lemma obeys_output_port_response c :
  obeys (G:=G) b (send_command_test_controller_output_port_response c).
Proof. unfold send_command_test_controller_output_port_response. obeys_auto. Qed.
Lemma obeys_unknown_response c : obeys (G:=G) b (send_command_unknown_response c).
Proof. unfold send_command_unknown_response. obeys_auto. Qed.

Lemma obeys_set_configuration c : obeys (G:=G) b (ps2_set_configuration_byte c).
Proof.
  unfold ps2_set_configuration_byte, write_next_to_byte_0_of_interal_ram,
    send_command_none_response. obeys_auto.
Qed.
Lemma obeys_send_port p v : obeys (G:=G) b (send_command_or_data_to_ps2_port p v).
Proof.
  unfold send_command_or_data_to_ps2_port, send_command_to_first_ps2_port,
    send_command_to_second_ps2_port. obeys_auto.
Qed.
Hint Resolve obeys_send_port : handshake.

Lemma obeys_reset_port p : obeys (G:=G) b (reset_port_and_get_device_type p).
Proof. unfold reset_port_and_get_device_type. obeys_auto. Qed.

Lemma obeys_print_config c : obeys (G:=G) (D:=D) b (print_ps2_configuration_byte c).
Proof. unfold print_ps2_configuration_byte. obeys_auto. Qed.

Lemma obeys_print_lines l : obeys (G:=G) (D:=D) b (print_lines l).
Proof. induction l; simpl; obeys_auto. Qed.
End commands_obey.
#[export] Hint Resolve obeys_send_command obeys_config_response obeys_test_port_response
  obeys_test_controller_response obeys_output_port_response obeys_unknown_response
  obeys_set_configuration obeys_send_port obeys_reset_port obeys_print_config
  obeys_print_lines : handshake.

Section setup_obeys.
Context {D G : Type} `{PortDevice D} (QEMU : bool).

(** Reading 0x60 without a status: allowed by the handshake for writes only. *)
Lemma obeys_drain : obeys (G:=G) false (inb PS2_DATA_PORT_RW).
Proof. apply monitored_inb. intros v s _ _. by exists None. Qed.

Lemma obeys_init_failed {A} msgs fmt shown e s p1 :
  obeys (D:=D) (G:=G) false (init_failed (A:=A) msgs fmt shown e s p1).
Proof. unfold init_failed. obeys_auto. Qed.
Hint Resolve obeys_drain obeys_init_failed : handshake.

Lemma obeys_step8_port test which s :
  obeys false test -> obeys (D:=D) (G:=G) false (setup_step8_port test which s).
Proof. intros Ht. unfold setup_step8_port, could_not_init. obeys_auto. Qed.

Lemma obeys_step10_device port which imp s p1 :
  obeys (D:=D) (G:=G) false (setup_step10_device port which imp s p1).
Proof. unfold setup_step10_device. obeys_auto. Qed.
Hint Resolve obeys_step10_device : handshake.

Lemma obeys_setup : obeys (D:=D) (G:=G) false (setup_ps2_controller QEMU).
Proof.
  unfold setup_ps2_controller, setup_step3, setup_step4, setup_step5, setup_step6, setup_step7,
    setup_step8, setup_step9, setup_step10, could_not_init,
    ps2_get_configuration_byte, ps2_perform_controller_self_test,
    ps2_disable_first_ps2_port, ps2_disable_second_ps2_port, ps2_enable_first_ps2_port,
    ps2_enable_second_ps2_port.
  obeys_auto; first [apply (obeys_ret _ (inr tt))|apply obeys_step8_port; apply obeys_test_port_response].
Qed.
End setup_obeys.

(** ** The waits as functions of the statuses read *)

Section wait_specs.
Context {D G : Type} `{PortDevice D}.

Lemma wait_input_loop_run n (d : D) (g : G) :
  o_exit (wait_input_loop n d g) = Done (input_verdict (statuses n d)) /\
  o_events (wait_input_loop n d g) = polls (fun v => negb (Z.testbit v 1)) (statuses n d) /\
  o_glob (wait_input_loop n d g) = g.
Proof.
  revert d. induction n as [|n IH]; intros d; [done|].
  cbn [wait_input_loop statuses].
  unfold io_wait, read_ps2_status, inb, outb, PS2_STATUS_PORT_R, mbind, M_bind, mret, M_ret.
  change (u8 0) with 0. cbn -[Z.testbit wait_input_loop statuses].
  destruct (port_in 100 (port_out 128 0 d)) as [v d'] eqn:Hp; cbn -[Z.testbit wait_input_loop].
  unfold input_verdict; cbn [List.find]; fold (input_verdict (statuses n d')).
  unfold is_ps2_controller_ready_for_more_input, PS2_verify_status_parity,
    PS2_verify_status_timeout; cbn -[Z.testbit wait_input_loop].
  destruct (Z.testbit (u8 v) 1); cbn -[Z.testbit wait_input_loop].
  - destruct (IH d') as (E1 & E2 & E3). rewrite E1, E2, E3. done.
  - by destruct (Z.testbit (u8 v) 7), (Z.testbit (u8 v) 6).
Qed.

Lemma wait_response_loop_run n (d : D) (g : G) :
  o_exit (wait_response_loop n d g) = Done (response_verdict (statuses n d)) /\
  o_events (wait_response_loop n d g) = polls (fun v => Z.testbit v 0) (statuses n d) /\
  o_glob (wait_response_loop n d g) = g.
Proof.
  revert d. induction n as [|n IH]; intros d; [done|].
  cbn [wait_response_loop statuses].
  unfold io_wait, read_ps2_status, inb, outb, PS2_STATUS_PORT_R, mbind, M_bind, mret, M_ret.
  change (u8 0) with 0. cbn -[Z.testbit wait_response_loop statuses].
  destruct (port_in 100 (port_out 128 0 d)) as [v d'] eqn:Hp;
    cbn -[Z.testbit wait_response_loop].
  unfold response_verdict; cbn [List.find]; fold (response_verdict (statuses n d')).
  unfold is_ps2_controller_ready_for_response; cbn -[Z.testbit wait_response_loop].
  destruct (Z.testbit (u8 v) 0); cbn -[Z.testbit wait_response_loop]; [done|].
  destruct (IH d') as (E1 & E2 & E3). rewrite E1, E2, E3. done.
Qed.
End wait_specs.

(** ** The typed functions and the generic one *)

Definition anon1_raw (a : anon1) : Z :=
  match a with
  | tag_unknown raw | g_configuration_byte raw | g_test_port_response raw
  | g_test_controller_response raw | g_controller_output_port raw => raw
  end.

(** The generic result seen as a typed one: the raw byte and the error. *)
Definition untag (r : ps2_typeless_return) : verified Z :=
  Verified (t ← tagged_response r; anon1_raw <$> tag_value t) (typeless_err r).

(** The function the driver uses for the commands of a response type that it verifies. *)
Definition typed_function {D G} `{PortDevice D} (t : PS2_ResponseType) :
    option (Z -> M D G (verified Z)) :=
  match t with
  | PS2_RT_controller_configuration_byte => Some send_command_configuration_byte_response
  | PS2_RT_test_port => Some send_command_test_port_response
  | PS2_RT_test_controller => Some send_command_test_controller_response
  | PS2_RT_controller_output_port => Some send_command_test_controller_output_port_response
  | _ => None
  end.

Section generic.
Context {D G : Type} `{PortDevice D}.

Ltac push := repeat first
  [ rewrite assert_holds by reflexivity
  | rewrite bind_bind; first [apply bind_proper; [intros ?|done]|rewrite assert_holds by reflexivity]
  | rewrite bind_ret_l | rewrite if_bind
  | match goal with |- (if ?b then _ else _) ≡ (if ?b then _ else _) => destruct b eqn:? end ].

Lemma typed_generic c (f : Z -> M D G (verified Z)) :
  typed_function (command_to_response_type c) = Some f ->
  (r ← send_command_and_recieve_response c; mret (untag r)) ≡ f c.
Proof.
  intros Hf. unfold send_command_and_recieve_response.
  destruct (command_to_response_type c) eqn:Ht; try discriminate; simplify_eq/=;
    unfold send_command_configuration_byte_response, send_command_test_port_response,
      send_command_test_controller_response, send_command_test_controller_output_port_response,
      recieve_generic_verified_response; push; done.
Qed.
End generic.

(** ** Properties *)

(** A controller whose input buffer turns full after the first status read and whose
    output buffer is always full. *)
Definition busy_after (n : Z) : Type := Z.
#[export] Instance busy_ports n : PortDevice (busy_after n) := {
  port_in p s := ((if s <? n then 0x01 else 0x03), s + 1);
  port_out p v s := s;
}.

(** C2: The set-up of the PS/2 controller returns whatever the hardware answers: it never
    reaches an abort, never reads an unassigned field and every wait ends; and its result
    assigns the fields its status promises: device types of the right kind on success, the
    internal error when it could not talk to the controller. *)
Theorem setup_ps2_controller_returns {D G} `{PortDevice D} (QEMU : bool) :
  total (D:=D) (G:=G) (setup_ps2_controller QEMU) init_state_ok.
Proof. apply total_setup. Qed.

(** C3: During the whole set-up no byte is written to the command or data port unless the
    status register read last, with no transfer since, had the input buffer empty. *)
Theorem setup_ps2_controller_handshake {D G} `{PortDevice D} (QEMU : bool) :
  disciplined (D:=D) (G:=G) false (setup_ps2_controller QEMU).
Proof. apply obeys_disciplined, obeys_setup. Qed.

(** C4: The typed command functions, writing the configuration byte, sending a byte to a
    device and resetting a device obey the handshake in both directions: a write needs a
    fresh status with the input buffer empty, a read of the data port needs a fresh
    status with the output buffer full. *)
Theorem driver_functions_handshake {D G} `{PortDevice D} :
  (forall t f c, typed_function (D:=D) (G:=G) t = Some f -> disciplined true (f c)) /\
  (forall c, disciplined (G:=G) true (send_command_unknown_response c)) /\
  (forall c, disciplined (G:=G) true (ps2_set_configuration_byte c)) /\
  (forall p v, disciplined (G:=G) true (send_command_or_data_to_ps2_port p v)) /\
  (forall p, disciplined (G:=G) true (reset_port_and_get_device_type p)).
Proof.
  repeat split; intros; apply obeys_disciplined; eauto with handshake.
  destruct t; simplify_eq/=; auto with handshake.
Qed.

(** Waiting polls the status at most 1000 times.  Waiting for the input buffer ends at the
    first status with bit 1 clear, whose parity and timeout bits decide the code; waiting for a
    response ends at the first status with bit 0 set and looks at no error bit. *)
Theorem wait_functions {D G} `{PortDevice D} (d : D) (g : G) :
  let l := statuses 1000 d in
  let input := wait_till_ready_for_more_input d g in
  let response := wait_till_ready_for_response d g in
  o_exit input = Done (input_verdict l) /\
  o_events input = polls (fun v => negb (Z.testbit v 1)) l /\ o_glob input = g /\
  o_exit response = Done (response_verdict l) /\
  o_events response = polls (fun v => Z.testbit v 0) l /\ o_glob response = g.
Proof.
  destruct (wait_input_loop_run 1000 d g) as (? & ? & ?).
  by destruct (wait_response_loop_run 1000 d g) as (? & ? & ?).
Qed.

(** On every command whose response type has a typed function, the generic deprecated
    function does exactly the same port accesses and returns the same byte and error. *)
Theorem generic_agrees_with_typed {D G} `{PortDevice D} c (f : Z -> M D G (verified Z)) :
  typed_function (command_to_response_type c) = Some f ->
  (r ← send_command_and_recieve_response c; mret (untag r)) ≡ f c.
Proof. apply typed_generic. Qed.

Lemma generic_agrees_witness :
  (r ← send_command_and_recieve_response (D:=sim) (G:=unit) 0x20; mret (untag r))
  ≡ send_command_configuration_byte_response 0x20.
Proof. exact (generic_agrees_with_typed 0x20 _ eq_refl). Defined.

(** The check of a configuration byte looks at bits 3 and 2 only: bit 7, which the
    hardware also keeps zero, is not tested (the code tests bit 3 twice). *)
Theorem configuration_check raw :
  PS2_verify_configuration_byte_response raw =
    (if Z.testbit raw 3 then PS2_ERR_invalid_configuration_byte
     else if Z.testbit raw 2 then PS2_ERR_none
     else PS2_WARN_invalid_configuration_byte_post_is_zero).
Proof.
  unfold PS2_verify_configuration_byte_response. cbn -[Z.testbit].
  by destruct (Z.testbit raw 3), (Z.testbit raw 2).
Qed.

(** Setting the controller output port and faking a device byte break the handshake:
    on some hardware they write the data byte while the input buffer is not known to be
    empty. *)
Theorem unguarded_data_writes :
  ~ (forall D G (H : PortDevice D) p, disciplined (G:=G) false (ps2_set_controller_output_port p)) /\
  ~ (forall D G (H : PortDevice D) v, disciplined (G:=G) false (fake_ps2_keyboard_byte v)) /\
  ~ (forall D G (H : PortDevice D) v, disciplined (G:=G) false (fake_ps2_mouse_byte v)).
Proof.
  split; [|split]; intros Hd.
  - destruct (Hd (busy_after 1) unit _ (output_port_bits 0) (0 : busy_after 1) tt None)
      as [s Hs]. vm_compute in Hs. discriminate.
  - destruct (Hd (busy_after 1) unit _ 0 (0 : busy_after 1) tt None) as [s Hs].
    vm_compute in Hs. discriminate.
  - destruct (Hd (busy_after 1) unit _ 0 (0 : busy_after 1) tt None) as [s Hs].
    vm_compute in Hs. discriminate.
Qed.

(** C21: Resetting a device returns whatever it answers; when it reports no error, the
    device type is assigned, the super type agrees with it and is a keyboard or a mouse. *)
Theorem reset_recognises {D G} `{PortDevice D} p :
  total (G:=G) (reset_port_and_get_device_type p) device_known.
Proof. apply total_reset_port. Qed.
