(* ===== verification/Pic.v ===== *)
(** * The 8259 interrupt controllers

    [cpu/pic/pic.c]: remapping the two controllers and masking single interrupt
    lines.  The driver has no state of its own.  [Pic8259] states what it relies on in
    the hardware: outside an initialisation sequence the data port of a controller is
    its mask register. *)

From S2P Require Import Prelude Machine.

(** ** Constants of [pic.h], [pic_ps2.h] and [irq.h] *)

Definition PIC1_COMMAND : Z := 0x20.
Definition PIC1_DATA : Z := 0x21.
Definition PIC2_COMMAND : Z := 0xA0.
Definition PIC2_DATA : Z := 0xA1.
Definition START_OF_USER_ALLOCATABLE_INTERRUPT : Z := 32.
Definition PIC_1_OFFSET : Z := START_OF_USER_ALLOCATABLE_INTERRUPT.
Definition PIC_2_OFFSET : Z := START_OF_USER_ALLOCATABLE_INTERRUPT + 8.
Definition bad_port : Z := 255.
Definition bad_irq : Z := 255.

Definition PS2_PORT1_IRQ : Z := 1.
Definition PS2_PORT2_BRIDGE_IRQ : Z := 2.
Definition PS2_PORT2_IRQ : Z := 12.
Definition PS2_PORT1_INTERUPT_VECTOR : Z := START_OF_USER_ALLOCATABLE_INTERRUPT + PS2_PORT1_IRQ.
Definition PS2_PORT2_INTERUPT_VECTOR : Z := START_OF_USER_ALLOCATABLE_INTERRUPT + PS2_PORT2_IRQ.

Definition interrupt_vector_of_port : list Z :=
  [bad_port; PS2_PORT1_INTERUPT_VECTOR; PS2_PORT2_INTERUPT_VECTOR].

Definition ICW1_ICW4 : Z := 0x01.
Definition ICW1_INIT : Z := 0x10.
Definition ICW4_8086 : Z := 0x01.
Definition CASCADE_IRQ : Z := 2.
Definition PIC_EOI : Z := 0x20.

(** ** Operations *)

Section pic.
Context {D G : Type} `{PortDevice D}.
Local Abbreviation C A := (M D G A).

Definition pic_io_wait : C unit := outb 0x80 0.

Definition PIC_remap (offset1 offset2 : Z) : C unit :=
  outb PIC1_COMMAND (ICW1_INIT .| ICW1_ICW4);; pic_io_wait;;
  outb PIC2_COMMAND (ICW1_INIT .| ICW1_ICW4);; pic_io_wait;;
  outb PIC1_DATA offset1;; pic_io_wait;;
  outb PIC2_DATA offset2;; pic_io_wait;;
  outb PIC1_DATA (1 ≪ CASCADE_IRQ);; pic_io_wait;;
  outb PIC2_DATA 2;; pic_io_wait;;
  outb PIC1_DATA ICW4_8086;; pic_io_wait;;
  outb PIC2_DATA ICW4_8086;; pic_io_wait;;
  outb PIC1_DATA 0;;
  outb PIC2_DATA 0.

Definition PIC_sendEOI (irq : Z) : C unit :=
  (if 8 <=? irq then outb PIC2_COMMAND PIC_EOI else mret tt);;
  outb PIC1_COMMAND PIC_EOI.

(** The register and the bit of a line.  [1 << IRQline] is an [int]: the shift is
    undefined from 31 on. *)
Definition mask_port (IRQline : Z) : Z := if IRQline <? 8 then PIC1_DATA else PIC2_DATA.
Definition mask_line (IRQline : Z) : Z := if IRQline <? 8 then IRQline else IRQline - 8.

Definition IRQ_set_mask (IRQline : Z) : C unit :=
  if 31 <=? mask_line IRQline then inb (mask_port IRQline);; stop Undefined else
  v ← inb (mask_port IRQline);
  outb (mask_port IRQline) (v .| (1 ≪ mask_line IRQline)).

Definition IRQ_clear_mask (IRQline : Z) : C unit :=
  if 31 <=? mask_line IRQline then inb (mask_port IRQline);; stop Undefined else
  v ← inb (mask_port IRQline);
  outb (mask_port IRQline) (v .& Z.lnot (1 ≪ mask_line IRQline)).

Definition disable_pic : C unit :=
  IRQ_set_mask 0;;
  outb PIC1_DATA 0xff;;
  outb PIC2_DATA 0xff;;
  pic_io_wait.

Definition initialize_irqs : C unit := for_range 16 0 IRQ_set_mask.
End pic.

(** ** The hardware the driver relies on

    [operating]: neither controller is inside an initialisation sequence; then reading a
    data port gives the mask register and writing it sets that register alone. *)

Definition is_mask_port (p : Z) : Prop := p = PIC1_DATA \/ p = PIC2_DATA.

Class Pic8259 (D : Type) `{PortDevice D} := {
  operating : D -> Prop;
  imr : Z -> D -> Z;
  imr_u8 p d : operating d -> is_u8 (imr p d);
  imr_read p d : is_mask_port p -> operating d -> port_in p d = (imr p d, d);
  imr_write p v d : is_mask_port p -> operating d -> is_u8 v ->
    operating (port_out p v d) /\ imr p (port_out p v d) = v /\
    (forall q, is_mask_port q -> q <> p -> imr q (port_out p v d) = imr q d);
}.

(** Whether line [i] is masked. *)
Definition irq_masked {D} `{Pic8259 D} (i : Z) (d : D) : bool :=
  Z.testbit (imr (mask_port i) d) (mask_line i).

(** A pair of controllers with the initialisation sequence: the command byte 0x11 makes
    the next three data bytes ICW2 (the vector offset), ICW3 and ICW4. *)
Record sim_8259 := mk_8259 { icw_left : nat; sim_offset : Z; sim_mask : Z }.
Record sim_pics := mk_pics { pic_master : sim_8259; pic_slave : sim_8259 }.

Definition sim_8259_command (v : Z) (c : sim_8259) : sim_8259 :=
  if Z.testbit v 4 then mk_8259 3 (sim_offset c) 0 else c.
Definition sim_8259_data (v : Z) (c : sim_8259) : sim_8259 :=
  match icw_left c with
  | 3%nat => mk_8259 2 v (sim_mask c)
  | S n => mk_8259 n (sim_offset c) (sim_mask c)
  | O => mk_8259 0 (sim_offset c) (u8 v)
  end.

#[export] Instance sim_pics_ports : PortDevice sim_pics := {
  port_in p s :=
    ((if p =? PIC1_DATA then sim_mask (pic_master s)
      else if p =? PIC2_DATA then sim_mask (pic_slave s) else 0), s);
  port_out p v s :=
    if p =? PIC1_COMMAND then mk_pics (sim_8259_command v (pic_master s)) (pic_slave s)
    else if p =? PIC1_DATA then mk_pics (sim_8259_data v (pic_master s)) (pic_slave s)
    else if p =? PIC2_COMMAND then mk_pics (pic_master s) (sim_8259_command v (pic_slave s))
    else if p =? PIC2_DATA then mk_pics (pic_master s) (sim_8259_data v (pic_slave s))
    else s;
}.

Definition sim_pics_operating (s : sim_pics) : Prop :=
  icw_left (pic_master s) = O /\ icw_left (pic_slave s) = O /\
  is_u8 (sim_mask (pic_master s)) /\ is_u8 (sim_mask (pic_slave s)).

#[export] Program Instance sim_pics_8259 : Pic8259 sim_pics := {
  operating := sim_pics_operating;
  imr p s := if p =? PIC1_DATA then sim_mask (pic_master s) else sim_mask (pic_slave s);
}.
Next Obligation. intros p s (_ & _ & ? & ?). by case_match. Qed.
Next Obligation. intros p s [-> | ->] _; done. Qed.
Next Obligation.
  intros p v [[n1 o1 m1] [n2 o2 m2]] Hp (Hn1 & Hn2 & Hm1 & Hm2) Hv. simpl in *. subst n1 n2.
  destruct Hp as [-> | ->]; cbn; rewrite u8_small by done;
    (split; [split; [|split]; done|split; [done|]]);
    intros q [-> | ->] Hq; done.
Qed.

(** ** Masking *)

(** [m] returns and takes the controllers to a state where line [j] is masked iff
    [masked j]. *)
Definition leaves_mask {D G} `{Pic8259 D} (m : M D G unit) (d : D) (g : G) (masked : Z -> bool) :
    Prop :=
  o_exit (m d g) = Done tt /\ o_glob (m d g) = g /\ operating (o_dev (m d g)) /\
  forall j, 0 <= j < 16 -> irq_masked j (o_dev (m d g)) = masked j.

Lemma mask_port_is p : is_mask_port (mask_port p).
Proof. unfold mask_port, is_mask_port. case_match; auto. Qed.

Lemma mask_line_range i : 0 <= i < 16 -> 0 <= mask_line i < 8.
Proof. unfold mask_line. case_match; lia. Qed.

Lemma mask_line_inj i j :
  0 <= i < 16 -> 0 <= j < 16 -> mask_port i = mask_port j -> mask_line i = mask_line j -> i = j.
Proof. unfold mask_port, mask_line. repeat case_match; intros; try discriminate; lia. Qed.

(** A bit operation on one line of a mask register. *)
Lemma update_line {D} `{Pic8259 D} (d : D) i (f : Z -> Z) (b : bool) :
  operating d -> 0 <= i < 16 ->
  (forall x k, is_u8 x -> 0 <= k < 8 ->
     Z.testbit (f x) k = if k =? mask_line i then b else Z.testbit x k) ->
  let d' := port_out (mask_port i) (u8 (f (imr (mask_port i) d))) d in
  operating d' /\
  forall j, 0 <= j < 16 -> irq_masked j d' = if j =? i then b else irq_masked j d.
Proof.
  intros Hop Hi Hf d'.
  destruct (imr_write (mask_port i) (u8 (f (imr (mask_port i) d))) d)
    as (Hop' & Hsame & Hother); [apply mask_port_is|done|apply u8_range|].
  split; [done|]. intros j Hj. unfold irq_masked.
  pose proof (mask_line_range j Hj) as Hlj.
  destruct (decide (mask_port j = mask_port i)) as [Hp|Hp].
  - unfold d'. rewrite Hp, Hsame. unfold u8. rewrite Z.mod_pow2_bits_low by lia.
    rewrite Hf; [|by apply imr_u8|done].
    destruct (Z.eqb_spec (mask_line j) (mask_line i)) as [Hl|Hl].
    + rewrite (mask_line_inj j i) by done. by rewrite Z.eqb_refl.
    + destruct (Z.eqb_spec j i) as [->|]; [done|]. done.
  - unfold d'. rewrite (Hother (mask_port j)) by (apply mask_port_is || done).
    destruct (Z.eqb_spec j i) as [->|]; done.
Qed.

Lemma single_bit k n : 0 <= k -> 0 <= n -> Z.testbit (1 ≪ n) k = (k =? n).
Proof.
  intros Hk Hn. rewrite Z.shiftl_1_l. destruct (Z.eqb_spec k n) as [->|Hne].
  - by apply Z.pow2_bits_true.
  - apply Z.pow2_bits_false. lia.
Qed.

Section masking.
Context {D G : Type} `{Pic8259 D}.

Lemma set_mask_leaves (d : D) (g : G) i :
  operating d -> 0 <= i < 16 ->
  leaves_mask (IRQ_set_mask i) d g (fun j => (j =? i) || irq_masked j d).
Proof.
  intros Hop Hi. pose proof (mask_line_range i Hi) as Hl.
  destruct (update_line d i (fun x => x .| (1 ≪ mask_line i)) true) as [Hop' Hm]; [done..| |].
  { intros x k Hx Hk. rewrite Z.lor_spec, single_bit by lia.
    destruct (k =? mask_line i); by rewrite ?orb_true_r, ?orb_false_r. }
  unfold leaves_mask, IRQ_set_mask.
  destruct (Z.leb_spec 31 (mask_line i)); [lia|].
  unfold inb, outb, mbind, M_bind. rewrite imr_read by (apply mask_port_is || done).
  rewrite (u8_small (imr (mask_port i) d)) by (by apply imr_u8). simpl.
  split; [done|]. split; [done|]. split; [done|].
  intros j Hj. rewrite Hm by done. by destruct (j =? i).
Qed.

Lemma clear_mask_leaves (d : D) (g : G) i :
  operating d -> 0 <= i < 16 ->
  leaves_mask (IRQ_clear_mask i) d g (fun j => negb (j =? i) && irq_masked j d).
Proof.
  intros Hop Hi. pose proof (mask_line_range i Hi) as Hl.
  destruct (update_line d i (fun x => x .& Z.lnot (1 ≪ mask_line i)) false)
    as [Hop' Hm]; [done..| |].
  { intros x k Hx Hk. rewrite Z.land_spec, Z.lnot_spec, single_bit by lia.
    destruct (k =? mask_line i); by rewrite ?andb_true_r, ?andb_false_r. }
  unfold leaves_mask, IRQ_clear_mask.
  destruct (Z.leb_spec 31 (mask_line i)); [lia|].
  unfold inb, outb, mbind, M_bind. rewrite imr_read by (apply mask_port_is || done).
  rewrite (u8_small (imr (mask_port i) d)) by (by apply imr_u8). simpl.
  split; [done|]. split; [done|]. split; [done|].
  intros j Hj. rewrite Hm by done. by destruct (j =? i).
Qed.

Lemma leaves_seq (m1 m2 : M D G unit) (d : D) g f1 f2 :
  leaves_mask m1 d g f1 ->
  (forall d', operating d' -> (forall j, 0 <= j < 16 -> irq_masked j d' = f1 j) ->
     leaves_mask m2 d' g f2) ->
  leaves_mask (m1;; m2) d g f2.
Proof.
  intros (He & Hg & Ho & Hm) H2. specialize (H2 _ Ho Hm). destruct H2 as (He2 & Hg2 & Ho2 & Hm2).
  unfold leaves_mask, mbind, M_bind. rewrite He. simpl. by rewrite Hg.
Qed.

Lemma leaves_ext m (d : D) (g : G) f f' :
  leaves_mask m d g f -> (forall j, 0 <= j < 16 -> f j = f' j) -> leaves_mask m d g f'.
Proof.
  intros (He & Hg & Ho & Hm) Hf. repeat split; try done.
  intros j Hj. rewrite Hm; auto.
Qed.

Lemma set_range_leaves n i (d : D) (g : G) :
  operating d -> 0 <= i -> i + Z.of_nat n <= 16 ->
  leaves_mask (for_range n i IRQ_set_mask) d g
    (fun j => ((i <=? j) && (j <? i + Z.of_nat n)) || irq_masked j d).
Proof.
  revert i d. induction n as [|n IH]; intros i d Hop Hi Hn.
  - repeat split; try done. intros j Hj. simpl.
    replace ((i <=? j) && (j <? i + Z.of_nat 0)) with false by lia. done.
  - simpl for_range. eapply leaves_seq; [apply set_mask_leaves; [done|lia]|].
    intros d' Hop' Hm. eapply leaves_ext; [apply IH; [done|lia..]|].
    intros j Hj. cbv beta. rewrite Hm by done. destruct (irq_masked j d); [by rewrite !orb_true_r|].
    rewrite !orb_false_r. lia.
Qed.

Lemma initialize_irqs_leaves (d : D) (g : G) :
  operating d -> leaves_mask initialize_irqs d g (fun _ => true).
Proof.
  intros Hop. eapply leaves_ext; [apply set_range_leaves; [done|lia..]|].
  intros j Hj. simpl. lia.
Qed.
End masking.

(** ** Properties *)

(** With the controllers operating, masking a line masks that line and changes no
    other; unmasking a line unmasks that line and changes no other. *)
Theorem irq_mask_updates {D G} `{Pic8259 D} (d : D) (g : G) i :
  operating d -> 0 <= i < 16 ->
  leaves_mask (IRQ_set_mask i) d g (fun j => (j =? i) || irq_masked j d) /\
  leaves_mask (IRQ_clear_mask i) d g (fun j => negb (j =? i) && irq_masked j d).
Proof. split; [by apply set_mask_leaves|by apply clear_mask_leaves]. Qed.

Definition sim_pics_clear : sim_pics := mk_pics (mk_8259 0 8 0) (mk_8259 0 0x70 0).

Lemma sim_pics_clear_operating : operating sim_pics_clear.
Proof. vm_compute. repeat split; congruence. Qed.

Lemma irq_mask_updates_witness :
  leaves_mask (IRQ_set_mask 12) sim_pics_clear tt (fun j => (j =? 12) || irq_masked j sim_pics_clear).
Proof. apply (irq_mask_updates sim_pics_clear tt 12); [apply sim_pics_clear_operating|lia]. Defined.

(** [initialize_irqs] masks all sixteen lines, whatever was masked before. *)
Theorem initialize_irqs_masks_all {D G} `{Pic8259 D} (d : D) (g : G) :
  operating d -> leaves_mask initialize_irqs d g (fun _ => true).
Proof. apply initialize_irqs_leaves. Qed.

Lemma initialize_irqs_witness : leaves_mask initialize_irqs sim_pics_clear tt (fun _ => true).
Proof. apply (initialize_irqs_masks_all sim_pics_clear tt), sim_pics_clear_operating. Defined.

(** The remap sequence is the one the hardware documents: from any state of the pair
    it ends the initialisation of both controllers with the requested vector offsets and
    every line unmasked. *)
Theorem pic_remap_offsets (s : sim_pics) (g : unit) offset1 offset2 :
  is_u8 offset1 -> is_u8 offset2 ->
  let r := PIC_remap offset1 offset2 s g in
  o_exit r = Done tt /\ operating (o_dev r) /\
  sim_offset (pic_master (o_dev r)) = offset1 /\ sim_offset (pic_slave (o_dev r)) = offset2 /\
  forall i, 0 <= i < 16 -> irq_masked i (o_dev r) = false.
Proof.
  intros H1 H2 r.
  assert (Hr : o_exit r = Done tt /\
    o_dev r = mk_pics (mk_8259 0 offset1 0) (mk_8259 0 offset2 0)).
  { destruct s as [[n1 o1 m1] [n2 o2 m2]]. unfold r, PIC_remap, outb.
    rewrite (u8_small offset1), (u8_small offset2) by done. vm_compute. done. }
  destruct Hr as [-> ->]. repeat split; try (vm_compute; congruence).
  intros i Hi. unfold irq_masked. cbn [imr sim_pics_8259].
  case_match; apply Z.testbit_0_l.
Qed.

Lemma pic_remap_offsets_witness :
  sim_offset (pic_slave (o_dev (PIC_remap PIC_1_OFFSET PIC_2_OFFSET sim_pics_clear tt))) = 40.
Proof.
  exact (proj1 (proj2 (proj2 (proj2
    (pic_remap_offsets sim_pics_clear tt PIC_1_OFFSET PIC_2_OFFSET
       ltac:(vm_compute; split; congruence) ltac:(vm_compute; split; congruence)))))).
Defined.
