(* ===== verification/Idt.v ===== *)
(** * The interrupt descriptor table

    [cpu/idt/idt.c], [cpu/idt/idt_ps2.c] and [timers/pit/idt_pit.c]: the table [idt], its
    register image [idtr] and the array [vectors] of the entries that have been set up.
    Addresses of handlers are numbers chosen by the linker, hence parameters. *)

From S2P Require Import Prelude Machine Pic.

(** ** Data *)

Definition IDT_MAX_VECTOR_COUNT : Z := 256.

(** [enum gate_type32_t] *)
Definition GT32_TASK_GATE : Z := 0x5.
Definition GT32_IG16 : Z := 0x6.
Definition GT32_TG16 : Z := 0x7.
Definition GT32_IG32 : Z := 0xe.
Definition GT32_TG32 : Z := 0xf.

Definition is_valid_gate_type32 (gt : Z) : bool :=
  existsb (Z.eqb gt) [GT32_TASK_GATE; GT32_IG16; GT32_TG16; GT32_IG32; GT32_TG32].

Record segment_selector_t := mk_selector { rpl : Z; ti : bool; index : Z }.

Record idt32_entry_t := mk_idt_entry {
  isr_offset_low : Z;
  kernel_cs : segment_selector_t;
  reserved : Z;
  gate_type : Z;        (* 4 bits *)
  bit_44_is_zero : bool;
  dpl : Z;              (* 2 bits *)
  present : bool;
  isr_offset_high : Z;
}.

(** The globals of [idt.c]; [None] for [idtr]'s base is the null pointer it starts with. *)
Record idt_globals := mk_idt {
  idt : list idt32_entry_t;
  idtr_limit : Z;
  idtr_base : option unit;
  vectors : list bool;
}.

Definition zero_entry : idt32_entry_t :=
  mk_idt_entry 0 (mk_selector 0 false 0) 0 0 false 0 false 0.

Definition idt_boot : idt_globals :=
  mk_idt (repeat zero_entry 256) 0 None (repeat false 256).

Definition idt_wf (g : idt_globals) : Prop := length (idt g) = 256%nat /\ length (vectors g) = 256%nat.

Definition set_idt (l : list idt32_entry_t) (g : idt_globals) : idt_globals :=
  mk_idt l (idtr_limit g) (idtr_base g) (vectors g).
Definition set_vectors (l : list bool) (g : idt_globals) : idt_globals :=
  mk_idt (idt g) (idtr_limit g) (idtr_base g) l.

(** The handlers the linker places. *)
Record isr_addresses := mk_isrs {
  isr_stub_table : Z -> Z;
  interrupt_5_handler : Z;
  interrupt_8_handler : Z;
  interrupt_11_handler : Z;
  interrupt_13_handler : Z;
  interrupt_56_handler : Z;
  interrupt_57_handler : Z;
  apic_wait_interrupt_handler_asm : Z;
  pit_interrupt_handler_asm : Z;
  bad_interrupt_handler : Z;
  keyboard_interrupt_handler_port1 : Z;
  keyboard_interrupt_handler_port2 : Z;
  mouse_interrupt_handler_port1 : Z;
  mouse_interrupt_handler_port2 : Z;
}.

(** [struct idt_init_ps2_fields]: the tag and the members of the union that are read. *)
Inductive idt_init_ps2_fields :=
| ITT_one_keyboard_one_mouse (keyboard_port mouse_port keyboard_type mouse_type : Z)
| ITT_two_keyboard (keyboard1_type keyboard2_type : Z)
| ITT_two_mouse (mouse1_type mouse2_type : Z)
| ITT_one_keyboard (keyboard_type : Z)
| ITT_one_mouse (mouse_type : Z)
| ITT_no_ps2_device.

(** The entry [idt_set_descriptor] writes. *)
Definition idt_entry (isr gate_type dpl : Z) (present : bool) : idt32_entry_t :=
  mk_idt_entry (u32 isr .& 0xFFFF) (mk_selector 0 false 2) 0 (gate_type mod 16) false
    (dpl mod 4) present (u32 isr ≫ 16).

Definition set_present (b : bool) (e : idt32_entry_t) : idt32_entry_t :=
  mk_idt_entry (isr_offset_low e) (kernel_cs e) (reserved e) (gate_type e) (bit_44_is_zero e)
    (dpl e) b (isr_offset_high e).

(** ** Operations of [idt.c] *)

Section idt.
Context {D : Type} (isrs : isr_addresses) (DEBUG : bool).
Local Abbreviation C A := (M D idt_globals A).

(** [vector] is a [uint8_t], so the index is in range. *)
Definition idt_set_descriptor (vector isr gate_type dpl : Z) (present : bool) : C unit :=
  assert_handler_fmt (is_valid_gate_type32 gate_type) "Gate type is not valid" [];;
  modify (fun g => set_idt (<[Z.to_nat vector := idt_entry isr gate_type dpl present]> (idt g)) g).

Definition set_vector (vector : Z) : C unit :=
  modify (fun g => set_vectors (<[Z.to_nat vector := true]> (vectors g)) g).

(** [idt_set_descriptor(vector, isr, GT32_IG32, 0, true); vectors[mark] = true;] *)
Definition install_as (vector mark isr : Z) : C unit :=
  idt_set_descriptor vector isr GT32_IG32 0 true;; set_vector mark.
Definition install (vector isr : Z) : C unit := install_as vector vector isr.

(** Vector 58 is installed, but the mark goes to 57 again. *)
Definition idt_init : C unit :=
  modify (fun g => mk_idt (idt g) (u16 (8 * IDT_MAX_VECTOR_COUNT - 1)) (Some tt) (vectors g));;
  for_range 32 0 (fun vector =>
    if DEBUG && (vector =? 3) then mret tt else install vector (isr_stub_table isrs vector));;
  for_range 18 32 (fun vector =>
    if negb (vector =? 34) then install vector (isr_stub_table isrs vector) else mret tt);;
  install 5 (interrupt_5_handler isrs);;
  install 8 (interrupt_8_handler isrs);;
  install 11 (interrupt_11_handler isrs);;
  install 13 (interrupt_13_handler isrs);;
  install 56 (interrupt_56_handler isrs);;
  install 57 (interrupt_57_handler isrs);;
  install_as 58 57 (apic_wait_interrupt_handler_asm isrs).

Definition idt_finalize : C unit :=
  limit ← gets idtr_limit;
  emit (ECall "__lidt" [limit]);;
  emit (ECall "__sti" []).

(** Returns the index instead of the pointer. *)
Definition get_idt_entry (entry_index : Z) : C Z :=
  limit ← gets idtr_limit;
  let idt_entry_index_max := u8 (limit / 8) in
  assert_handler_fmt (entry_index <=? idt_entry_index_max)
    "The entry index: (%u) must be <= the max possible entry: (%u)\n"
    [PNum entry_index; PNum idt_entry_index_max];;
  mret entry_index.

Definition write_present (entry_index : Z) (b : bool) : C unit :=
  modify (fun g => set_idt (alter (set_present b) (Z.to_nat entry_index) (idt g)) g).

Definition enable_idt_entry (entry_index : Z) : C unit :=
  set ← gets (fun g => default false (vectors g !! Z.to_nat entry_index));
  assert_handler_fmt set
    "The entry (%u) must have been enabled once before by a proper setup in idt_init!\n"
    [PNum entry_index];;
  entry ← get_idt_entry entry_index;
  write_present entry true.

Definition disable_idt_entry (entry_index : Z) : C unit :=
  entry ← get_idt_entry entry_index;
  write_present entry false.

(** ** [idt_ps2.c] and [idt_pit.c] *)

Definition keyboard_interrupt_handlers : list Z :=
  [bad_interrupt_handler isrs; keyboard_interrupt_handler_port1 isrs;
   keyboard_interrupt_handler_port2 isrs].
Definition mouse_interrupt_handlers : list Z :=
  [bad_interrupt_handler isrs; mouse_interrupt_handler_port1 isrs;
   mouse_interrupt_handler_port2 isrs].

Definition idt_init_ps2_quick : C unit :=
  install 33 (keyboard_interrupt_handler_port1 isrs);;
  install 44 (mouse_interrupt_handler_port2 isrs).

Definition idt_init_ps2 (args : idt_init_ps2_fields) : C unit :=
  match args with
  | ITT_one_keyboard_one_mouse keyboard_port mouse_port _ _ =>
      assert_handler_fmt ((mouse_port =? 1) || (mouse_port =? 2)) "Mouse port out of range" [];;
      assert_handler_fmt ((keyboard_port =? 1) || (keyboard_port =? 2))
        "keyboard port out of range" [];;
      assert_handler_fmt (negb (keyboard_port =? mouse_port)) "One device per port!\n" [];;
      kv ← read_cell (interrupt_vector_of_port !! Z.to_nat keyboard_port);
      kh ← read_cell (keyboard_interrupt_handlers !! Z.to_nat keyboard_port);
      install kv kh;;
      mv ← read_cell (interrupt_vector_of_port !! Z.to_nat mouse_port);
      mh ← read_cell (mouse_interrupt_handlers !! Z.to_nat mouse_port);
      install mv mh
  | ITT_two_keyboard _ _ =>
      install PS2_PORT1_INTERUPT_VECTOR (keyboard_interrupt_handler_port1 isrs);;
      install PS2_PORT2_INTERUPT_VECTOR (keyboard_interrupt_handler_port2 isrs)
  | ITT_two_mouse _ _ =>
      idt_set_descriptor PS2_PORT1_INTERUPT_VECTOR (mouse_interrupt_handler_port1 isrs)
        GT32_IG32 0 true;;
      idt_set_descriptor PS2_PORT2_INTERUPT_VECTOR (mouse_interrupt_handler_port2 isrs)
        GT32_IG32 0 true;;
      set_vector PS2_PORT1_INTERUPT_VECTOR;;
      set_vector PS2_PORT2_INTERUPT_VECTOR
  | ITT_one_keyboard _ =>
      idt_set_descriptor PS2_PORT1_INTERUPT_VECTOR (keyboard_interrupt_handler_port1 isrs)
        GT32_IG32 0 true
  | ITT_one_mouse _ =>
      idt_set_descriptor PS2_PORT1_INTERUPT_VECTOR (mouse_interrupt_handler_port1 isrs)
        GT32_IG32 0 true
  | ITT_no_ps2_device => mret tt
  end.

Definition PIT_INTERUPT_VECTOR : Z := START_OF_USER_ALLOCATABLE_INTERRUPT + 0.

Definition idt_init_pit : C unit :=
  idt_set_descriptor PIT_INTERUPT_VECTOR (pit_interrupt_handler_asm isrs) GT32_IG32 0 true.
End idt.

(** ** Facts *)

(** [m] always returns and changes the globals by [f], with no event. *)
Definition updates {D G} (m : M D G unit) (f : G -> G) : Prop :=
  forall d g, m d g = Outcome d (f g) [] (Done tt).

Lemma updates_ret {D G} : updates (D:=D) (G:=G) (mret tt) id.
Proof. done. Qed.

Lemma updates_modify {D G} (f : G -> G) : updates (D:=D) (modify f) f.
Proof. done. Qed.

Lemma updates_bind {D G} (m1 m2 : M D G unit) f1 f2 :
  updates m1 f1 -> updates m2 f2 -> updates (m1;; m2) (fun g => f2 (f1 g)).
Proof.
  intros H1 H2 d g. rewrite (bind_done _ _ _ _ _ _ _ _ (H1 d g)). cbn zeta. rewrite H2. done.
Qed.

Lemma updates_if {D G} (b : bool) (m1 m2 : M D G unit) f1 f2 :
  updates m1 f1 -> updates m2 f2 -> updates (if b then m1 else m2) (if b then f1 else f2).
Proof. by destruct b. Qed.

Lemma updates_for {D G} n i (body : Z -> M D G unit) (f : Z -> G -> G) :
  (forall j, updates (body j) (f j)) ->
  updates (for_range n i body) (fun g => fold_left (fun g j => f j g) (seqZ i (Z.of_nat n)) g).
Proof.
  intros Hb. revert i. induction n as [|n IH]; intros i; [done|]. simpl for_range.
  intros d g. rewrite seqZ_cons by lia. simpl fold_left.
  rewrite (updates_bind _ _ _ _ (Hb i) (IH (i + 1)) d g).
  by replace (Z.pred (Z.of_nat (S n))) with (Z.of_nat n) by lia.
Qed.

(** A plan: entries (vector, marked vector, handler), installed in order. *)
Definition install_entry (e : Z * Z * Z) (g : idt_globals) : idt_globals :=
  let '(v, mark, isr) := e in
  mk_idt (<[Z.to_nat v := idt_entry isr GT32_IG32 0 true]> (idt g)) (idtr_limit g) (idtr_base g)
    (<[Z.to_nat mark := true]> (vectors g)).
Definition install_all (l : list (Z * Z * Z)) (g : idt_globals) : idt_globals :=
  fold_left (fun g e => install_entry e g) l g.

Lemma updates_install_as {D} v mark isr :
  updates (D:=D) (install_as v mark isr) (install_entry (v, mark, isr)).
Proof. by intros d g. Qed.

Lemma install_all_app l1 l2 g : install_all (l1 ++ l2) g = install_all l2 (install_all l1 g).
Proof. apply fold_left_app. Qed.

Lemma install_all_wf l g : idt_wf g -> idt_wf (install_all l g).
Proof.
  revert g. induction l as [|[[v m] isr] l IH]; intros g Hg; [done|].
  apply IH. destruct Hg. split; simpl; by rewrite length_insert.
Qed.

Lemma install_all_entry l g v :
  idt_wf g -> 0 <= v < 256 -> Forall (fun e => 0 <= fst (fst e)) l ->
  idt (install_all l g) !! Z.to_nat v =
    match List.find (fun e => fst (fst e) =? v) (rev l) with
    | Some e => Some (idt_entry (snd e) GT32_IG32 0 true)
    | None => idt g !! Z.to_nat v
    end.
Proof.
  intros Hg Hv. induction l as [|[[w m] isr] l IH] using rev_ind; intros Hl; [done|].
  apply Forall_app in Hl as [Hl Hw]. apply Forall_inv in Hw. simpl in Hw.
  rewrite install_all_app, rev_app_distr. simpl.
  destruct (Z.eqb_spec w v) as [->|Hne].
  - apply list_lookup_insert_eq. destruct (install_all_wf l g Hg) as [-> _]. lia.
  - rewrite list_lookup_insert_ne by lia. by apply IH.
Qed.

Lemma install_all_vector l g v :
  idt_wf g -> 0 <= v < 256 -> Forall (fun e => 0 <= snd (fst e)) l ->
  vectors (install_all l g) !! Z.to_nat v =
    if existsb (fun e => snd (fst e) =? v) l then Some true else vectors g !! Z.to_nat v.
Proof.
  intros Hg Hv. induction l as [|[[w m] isr] l IH] using rev_ind; intros Hl; [done|].
  apply Forall_app in Hl as [Hl Hw]. apply Forall_inv in Hw. simpl in Hw.
  rewrite install_all_app, existsb_app. simpl. rewrite orb_false_r.
  destruct (Z.eqb_spec m v) as [->|Hne].
  - rewrite orb_true_r. apply list_lookup_insert_eq. destruct (install_all_wf l g Hg) as [_ ->]. lia.
  - rewrite orb_false_r, list_lookup_insert_ne by lia. by apply IH.
Qed.

Section idt_facts.
Context {D : Type} (isrs : isr_addresses) (DEBUG : bool).

Definition stub_entry (v : Z) : Z * Z * Z := (v, v, isr_stub_table isrs v).

(** What [idt_init] installs, in order. *)
Definition idt_init_plan : list (Z * Z * Z) :=
  map stub_entry (List.filter (fun v => negb (DEBUG && (v =? 3))) (seqZ 0 32)) ++
  map stub_entry (List.filter (fun v => negb (v =? 34)) (seqZ 32 18)) ++
  [(5, 5, interrupt_5_handler isrs); (8, 8, interrupt_8_handler isrs);
   (11, 11, interrupt_11_handler isrs); (13, 13, interrupt_13_handler isrs);
   (56, 56, interrupt_56_handler isrs); (57, 57, interrupt_57_handler isrs);
   (58, 57, apic_wait_interrupt_handler_asm isrs)].

Lemma fold_install_filter (p : Z -> bool) l g :
  fold_left (fun g v => (if p v then install_entry (stub_entry v) else id) g) l g =
  install_all (map stub_entry (List.filter p l)) g.
Proof.
  revert g. induction l as [|v l IH]; intros g; [done|]. simpl.
  destruct (p v); simpl; by rewrite IH.
Qed.

Lemma fold_install_skip (q : Z -> bool) l g :
  fold_left (fun g v => (if q v then id else install_entry (stub_entry v)) g) l g =
  install_all (map stub_entry (List.filter (fun v => negb (q v)) l)) g.
Proof.
  revert g. induction l as [|v l IH]; intros g; [done|]. simpl.
  destruct (q v); simpl; by rewrite IH.
Qed.

Lemma updates_idt_init :
  updates (D:=D) (idt_init isrs DEBUG) (fun g =>
    install_all idt_init_plan (mk_idt (idt g) 2047 (Some tt) (vectors g))).
Proof.
  intros d g. unfold idt_init_plan. rewrite !install_all_app.
  rewrite <- fold_install_filter, <- fold_install_skip.
  unfold idt_init, install.
  rewrite (updates_bind _ _ _ _ (updates_modify _)
    (updates_bind _ _ _ _ (updates_for _ _ _ _ (fun j => updates_if _ _ _ _ _ updates_ret (updates_install_as _ _ _)))
    (updates_bind _ _ _ _ (updates_for _ _ _ _ (fun j => updates_if _ _ _ _ _ (updates_install_as _ _ _) updates_ret))
    (updates_bind _ _ _ _ (updates_install_as _ _ _)
    (updates_bind _ _ _ _ (updates_install_as _ _ _)
    (updates_bind _ _ _ _ (updates_install_as _ _ _)
    (updates_bind _ _ _ _ (updates_install_as _ _ _)
    (updates_bind _ _ _ _ (updates_install_as _ _ _)
    (updates_bind _ _ _ _ (updates_install_as _ _ _) (updates_install_as _ _ _)))))))))).
  reflexivity.
Qed.
End idt_facts.

(** ** Properties *)

(** The handler [idt_init] means to install for a vector. *)
Definition planned_handler (isrs : isr_addresses) (DEBUG : bool) (v : Z) : option Z :=
  if v =? 5 then Some (interrupt_5_handler isrs)
  else if v =? 8 then Some (interrupt_8_handler isrs)
  else if v =? 11 then Some (interrupt_11_handler isrs)
  else if v =? 13 then Some (interrupt_13_handler isrs)
  else if DEBUG && (v =? 3) then None
  else if v =? 34 then None
  else if v <? 50 then Some (isr_stub_table isrs v)
  else if v =? 56 then Some (interrupt_56_handler isrs)
  else if v =? 57 then Some (interrupt_57_handler isrs)
  else if v =? 58 then Some (apic_wait_interrupt_handler_asm isrs)
  else None.

Lemma plan_handler isrs DEBUG v :
  0 <= v < 256 ->
  snd <$> List.find (fun e => fst (fst e) =? v) (rev (idt_init_plan isrs DEBUG)) =
  planned_handler isrs DEBUG v.
Proof.
  revert v. apply (table_eq
    (fun v => snd <$> List.find (fun e => fst (fst e) =? v) (rev (idt_init_plan isrs DEBUG)))
    (planned_handler isrs DEBUG)).
  destruct DEBUG; vm_compute; reflexivity.
Qed.

Lemma plan_marks isrs DEBUG v :
  0 <= v < 256 ->
  existsb (fun e => snd (fst e) =? v) (idt_init_plan isrs DEBUG) =
  bool_decide (is_Some (planned_handler isrs DEBUG v)) && negb (v =? 58).
Proof.
  revert v. apply (table_eq
    (fun v => existsb (fun e => snd (fst e) =? v) (idt_init_plan isrs DEBUG))
    (fun v => bool_decide (is_Some (planned_handler isrs DEBUG v)) && negb (v =? 58))).
  destruct DEBUG; vm_compute; reflexivity.
Qed.

(** The installed entries of a plan have vectors in range. *)
Lemma plan_in_range isrs DEBUG :
  Forall (fun e => 0 <= fst (fst e)) (idt_init_plan isrs DEBUG) /\
  Forall (fun e => 0 <= snd (fst e)) (idt_init_plan isrs DEBUG).
Proof. destruct DEBUG; split; vm_compute; repeat constructor; discriminate. Qed.

(** C22: [idt_init] returns; every vector with a handler gets a present 32-bit interrupt gate
    of privilege 0 to that handler and the other entries keep their value; exactly the
    vectors with a handler are marked as set up, except 58, whose mark is lost (the code
    marks 57 twice). *)
Theorem idt_init_spec {D} isrs DEBUG (d : D) g v :
  idt_wf g -> 0 <= v < 256 ->
  let r := idt_init isrs DEBUG d g in
  o_exit r = Done tt /\ idt_wf (o_glob r) /\ idtr_limit (o_glob r) = 2047 /\
  idt (o_glob r) !! Z.to_nat v =
    match planned_handler isrs DEBUG v with
    | Some isr => Some (idt_entry isr GT32_IG32 0 true)
    | None => idt g !! Z.to_nat v
    end /\
  vectors (o_glob r) !! Z.to_nat v =
    if bool_decide (is_Some (planned_handler isrs DEBUG v)) && negb (v =? 58)
    then Some true else vectors g !! Z.to_nat v.
Proof.
  intros Hg Hv r. unfold r. rewrite (updates_idt_init isrs DEBUG d g). cbn [o_exit o_glob].
  set (g0 := mk_idt _ _ _ _). assert (Hg0 : idt_wf g0) by done.
  destruct (plan_in_range isrs DEBUG) as [Hr1 Hr2].
  split; [done|]. split; [by apply install_all_wf|]. split.
  { generalize (idt_init_plan isrs DEBUG). intros l.
    assert (Hl : forall g, idtr_limit (install_all l g) = idtr_limit g); [|by rewrite Hl].
    induction l as [|[[? ?] ?] l IH]; intros g'; [done|]. simpl. by rewrite IH. }
  split.
  - rewrite install_all_entry, <- plan_handler by done. by destruct (List.find _ _).
  - by rewrite install_all_vector, plan_marks.
Qed.

(** Handlers at made-up addresses, for the witnesses. *)
Definition sample_isrs : isr_addresses :=
  mk_isrs (fun v => 0x101000 + 16 * v) 0x102000 0x102010 0x102020 0x102030 0x102040 0x102050
    0x102060 0x102070 0x102080 0x102090 0x1020a0 0x1020b0 0x1020c0.

Lemma idt_boot_wf : idt_wf idt_boot.
Proof. done. Qed.

Lemma idt_init_witness :
  vectors (o_glob (idt_init sample_isrs false tt idt_boot)) !! 58%nat = Some false.
Proof.
  exact (proj2 (proj2 (proj2 (proj2
    (idt_init_spec sample_isrs false tt idt_boot 58 idt_boot_wf ltac:(lia)))))).
Defined.

(** The offset the processor reads from an entry is the address of the handler, and
    every field fits its width. *)
Theorem idt_entry_offset isr gt level b :
  let e := idt_entry isr gt level b in
  isr_offset_low e + isr_offset_high e ≪ 16 = u32 isr /\
  is_u16 (isr_offset_low e) /\ is_u16 (isr_offset_high e) /\
  0 <= gate_type e < 16 /\ 0 <= dpl e < 4.
Proof.
  pose proof (u32_range isr) as Hr. unfold is_u32 in Hr. cbn -[Z.land].
  change 65535 with (Z.ones 16). rewrite Z.land_ones by lia.
  rewrite Z.shiftl_mul_pow2, Z.shiftr_div_pow2 by lia.
  pose proof (Z.div_mod (u32 isr) (2 ^ 16)).
  pose proof (Z.mod_pos_bound (u32 isr) (2 ^ 16)).
  pose proof (Z.div_lt_upper_bound (u32 isr) (2 ^ 16) (2 ^ 16)).
  pose proof (Z.div_pos (u32 isr) (2 ^ 16)).
  unfold is_u16. repeat split; try lia; (apply Z.mod_pos_bound || apply Z.mod_pos_bound); lia.
Qed.

Lemma get_entry_run {D} v (d : D) g :
  idtr_limit g = 2047 -> 0 <= v < 256 -> get_idt_entry v d g = Outcome d g [] (Done v).
Proof.
  intros Hl Hv. unfold get_idt_entry. erewrite (bind_done (gets _)) by reflexivity. rewrite Hl.
  change (u8 (2047 / 8)) with 255. replace (v <=? 255) with true by lia. done.
Qed.

(** With the limit [idt_init] sets, enabling an entry succeeds exactly when the vector
    is marked, and then sets its present bit and nothing else; disabling always succeeds
    and clears it; enabling an unmarked vector halts the kernel. *)
Theorem idt_entry_switch {D} (d : D) g v :
  idt_wf g -> idtr_limit g = 2047 -> 0 <= v < 256 ->
  let marked := default false (vectors g !! Z.to_nat v) in
  let on := enable_idt_entry v d g in
  let off := disable_idt_entry v d g in
  o_exit on = (if marked then Done tt else Aborted) /\
  o_glob on = (if marked then set_idt (alter (set_present true) (Z.to_nat v) (idt g)) g else g) /\
  o_exit off = Done tt /\
  o_glob off = set_idt (alter (set_present false) (Z.to_nat v) (idt g)) g.
Proof.
  intros Hg Hl Hv marked on off. subst on off. unfold enable_idt_entry, disable_idt_entry.
  rewrite (bind_done _ _ _ _ _ _ _ _ (get_entry_run v d g Hl Hv)).
  erewrite (bind_done (gets _)) by reflexivity. fold marked.
  destruct marked; cbn [assert_handler_fmt negb].
  - cbn zeta. rewrite ret_bind, (bind_done _ _ _ _ _ _ _ _ (get_entry_run v d g Hl Hv)). done.
  - done.
Qed.

(** After [idt_init], entry 58 is installed and yet cannot be switched on again. *)
Lemma idt_entry_switch_witness :
  let g := o_glob (idt_init sample_isrs false tt idt_boot) in
  o_exit (enable_idt_entry 58 tt g) = Aborted /\ o_exit (enable_idt_entry 57 tt g) = Done tt.
Proof.
  assert (Hw : idt_wf (o_glob (idt_init sample_isrs false tt idt_boot))) by (vm_compute; done).
  split.
  - refine (eq_trans (proj1 (idt_entry_switch tt _ 58 Hw _ _)) _); [by vm_compute|lia|by vm_compute].
  - refine (eq_trans (proj1 (idt_entry_switch tt _ 57 Hw _ _)) _); [by vm_compute|lia|by vm_compute].
Defined.
