(* ===== verification/Keyboard.v ===== *)
(** * The PS/2 keyboard driver

    [drivers/ps2/keyboard/ps2_keyboard.c]: the keyboard the commands go to, sending bytes
    with retries, the keyboard's commands.  The globals are [kps] and the interrupt
    table, whose entry of the active keyboard the driver switches. *)

From S2P Require Import Prelude Machine Ps2Types Ps2Controller Pic Idt.

(** ** Data of [ps2_keyboard.h] and [ps2_keyboard_public.h] *)

(** [enum KeyboardCommandByte] *)
Definition KCB_setLEDs : Z := 0xED.
Definition KCB_echo : Z := 0xEE.
Definition KCB_get_set_ScanCodeSet : Z := 0xF0.
Definition KCB_identify_keyboard : Z := 0xF2.
Definition KCB_set_typematic_rate_delay : Z := 0xF3.
Definition KCB_enable_scanning : Z := 0xF4.
Definition KCB_disable_scanning : Z := 0xF5.
Definition KCB_set_default_parameters : Z := 0xF6.
Definition KCB_set_all_to_typematic_autorepeat : Z := 0xF7.
Definition KCB_set_all_to_make_release : Z := 0xF8.
Definition KCB_set_all_to_make_only : Z := 0xF9.
Definition KCB_set_all_to_typematic_autorepeat_make_release : Z := 0xFA.
Definition KCB_set_specific_to_typematic_autorepeat_only : Z := 0xFB.
Definition KCB_set_specific_to_make_release : Z := 0xFC.
Definition KCB_set_specific_to_make_only : Z := 0xFD.
Definition KCB_resend_last_byte : Z := 0xFE.
Definition KCB_reset_and_self_test : Z := 0xFF.

(** [enum KeyRepeatDelay]: the source gives 750 ms the value of 1000 ms. *)
Definition KRD_250ms : Z := 0.
Definition KRD_500ms : Z := 1.
Definition KRD_750ms : Z := 3.
Definition KRD_1000ms : Z := 3.

(** [enum KeyboardResponseByte] *)
Definition KRB_self_test_passed : Z := 0xAA.
Definition KRB_echo_response : Z := 0xEE.
Definition KRB_command_acknowledged : Z := 0xFA.
Definition KRB_resend : Z := 0xFE.

Record kcb_led_state_t := mk_leds {
  ScrollLock : bool; NumberLock : bool; CapsLock : bool; led_reserved : Z }.

Definition led_raw (l : kcb_led_state_t) : Z :=
  field (ScrollLock l) 0 + field (NumberLock l) 1 + field (CapsLock l) 2 + 8 * (led_reserved l mod 32).

Record kcb_typematic_rate_and_delay_t := mk_typematic {
  repeat_rate : Z; delay_repeat : Z; must_be_zero : bool }.

Definition typematic_raw (t : kcb_typematic_rate_and_delay_t) : Z :=
  repeat_rate t mod 32 + 32 * (delay_repeat t mod 4) + field (must_be_zero t) 7.

Inductive ps2_keyboard_error_code :=
| PS2_KB_ERR_none
| PS2_KB_ERR_invalid_command
| PS2_KB_ERR_could_not_send_command
| PS2_KB_ERR_could_not_recieve_response
| PS2_KB_ERR_resend_too_much
| PS2_KB_ERR_non_ack_response
| PS2_KB_ERR_response_was_not_echo
| PS2_KB_ERR_invalid_scancode
| PS2_KB_ERR_self_test_failed.

#[export] Instance ps2_keyboard_error_code_eq_dec : EqDecision ps2_keyboard_error_code.
Proof. solve_decision. Defined.

Definition kb_err_value (e : ps2_keyboard_error_code) : Z :=
  match e with
  | PS2_KB_ERR_none => 0
  | PS2_KB_ERR_invalid_command => 1
  | PS2_KB_ERR_could_not_send_command => 2
  | PS2_KB_ERR_could_not_recieve_response => 3
  | PS2_KB_ERR_resend_too_much => 4
  | PS2_KB_ERR_non_ack_response => 5
  | PS2_KB_ERR_response_was_not_echo => 6
  | PS2_KB_ERR_invalid_scancode => 7
  | PS2_KB_ERR_self_test_failed => 8
  end.

(** [if (err)] *)
Definition is_kb_err (e : ps2_keyboard_error_code) : bool := negb (kb_err_value e =? 0).

Definition ps2_keyboard_error_to_string (code : ps2_keyboard_error_code) : string :=
  match code with
  | PS2_KB_ERR_none => "No error"
  | PS2_KB_ERR_invalid_command => "Invalid command (Runtime check in static inline wrapper)"
  | PS2_KB_ERR_could_not_send_command => "Could not send command"
  | PS2_KB_ERR_could_not_recieve_response => "Could not receive response"
  | PS2_KB_ERR_resend_too_much => "Resend attempted too many times"
  | PS2_KB_ERR_non_ack_response => "Non-acknowledged response"
  | PS2_KB_ERR_response_was_not_echo => "Response was not echo"
  | PS2_KB_ERR_invalid_scancode => "Invalid scancode"
  | _ => "Unknown error"
  end.

(** [struct ps2_keyboard_verified_response] and [..._scan_code_set]; the enumerations have
    no negative value, so the compiler makes them [unsigned int] and [-1] is [0xFFFFFFFF]. *)
Record kb_response := mk_kb { kb_err : ps2_keyboard_error_code; kb_value : Z }.
Definition minus_one : Z := u32 (-1).

(** [struct keyboard_porting_state_context] *)
Record keyboard_porting_state_context := mk_kps {
  kps_initialized : bool;
  number_of_keyboards : Z;
  active_port : Z;
  active_irq : Z;
  active_interrupt_vector : Z;
  active_scancode_set : Z;
}.

Definition kps_boot : keyboard_porting_state_context := mk_kps false 0 0 0 0 0.

Record keyboard_globals := mk_keyboard {
  kps : keyboard_porting_state_context;
  keyboard_idt : idt_globals;
}.

Definition set_kps (k : keyboard_porting_state_context) (g : keyboard_globals) : keyboard_globals :=
  mk_keyboard k (keyboard_idt g).
Definition set_keyboard_idt (i : idt_globals) (g : keyboard_globals) : keyboard_globals :=
  mk_keyboard (kps g) i.

(** ** Validation *)

Definition validate_keyboard_command (cmd : Z) : bool :=
  existsb (Z.eqb cmd)
    [KCB_setLEDs; KCB_echo; KCB_get_set_ScanCodeSet; KCB_identify_keyboard;
     KCB_set_typematic_rate_delay; KCB_enable_scanning; KCB_disable_scanning;
     KCB_set_default_parameters; KCB_set_all_to_typematic_autorepeat;
     KCB_set_all_to_make_release; KCB_set_all_to_make_only;
     KCB_set_all_to_typematic_autorepeat_make_release;
     KCB_set_specific_to_typematic_autorepeat_only; KCB_set_specific_to_make_release;
     KCB_set_specific_to_make_only; KCB_resend_last_byte; KCB_reset_and_self_test].

Definition validate_scan_code_set (set : Z) : bool := (0 <=? set) && (set <=? 3).
Definition validate_key_repeat_delay (delay : Z) : bool :=
  (KRD_250ms <=? delay) && (delay <=? KRD_1000ms).

(** ** The active keyboard *)

Definition _set_irq_and_vector (k : keyboard_porting_state_context) :
    keyboard_porting_state_context :=
  let '(irq, vector) :=
    if active_port k =? 1 then (PS2_PORT1_IRQ, PS2_PORT1_INTERUPT_VECTOR)
    else (PS2_PORT2_IRQ, PS2_PORT2_INTERUPT_VECTOR) in
  mk_kps (kps_initialized k) (number_of_keyboards k) (active_port k) irq vector
    (active_scancode_set k).

Definition with_port (port number : Z) (k : keyboard_porting_state_context) :
    keyboard_porting_state_context :=
  mk_kps (kps_initialized k) number port (active_irq k) (active_interrupt_vector k)
    (active_scancode_set k).

Definition with_initialized (k : keyboard_porting_state_context) : keyboard_porting_state_context :=
  mk_kps true (number_of_keyboards k) (active_port k) (active_irq k) (active_interrupt_vector k)
    (active_scancode_set k).

Definition with_scancode_set (n : Z) (k : keyboard_porting_state_context) :
    keyboard_porting_state_context :=
  mk_kps (kps_initialized k) (number_of_keyboards k) (active_port k) (active_irq k)
    (active_interrupt_vector k) n.

Section keyboard.
Context {D : Type} `{PortDevice D}.
Local Abbreviation C A := (M D keyboard_globals A).

Definition set_single_keyboard_port (single_keyboard_port : Z) : C unit :=
  modify (fun g =>
    set_kps (with_initialized (_set_irq_and_vector (with_port single_keyboard_port 1 (kps g)))) g).

Definition quick_k_init : C unit :=
  set_single_keyboard_port 1;;
  modify (fun g => set_kps (with_scancode_set 1 (kps g)) g).

Definition set_dual_keyboard_port : C unit :=
  modify (fun g => set_kps (with_port (active_port (kps g)) 2 (kps g)) g);;
  kprintf "[PANIC-WARNING] Dual keyboard ports commands works by setting the active keyboard\n" [];;
  kprintf "[PANIC-WARNING] No currently selected keyboard" [];;
  kprintf "[PANIC-WARNING] Need to do: set_active_keyboard_for_commands(1 or 2);\n" [].

Definition set_active_keyboard_for_commands (keyboard_idx : Z) : C unit :=
  number ← gets (fun g => number_of_keyboards (kps g));
  assert_handler_fmt (1 <? number)
    "Makes no sense to change the active keyboard when there's just 1!\nThis was wrongly called with: keyboard_idx = %u, _number_of_keyboard = %u\n"
    [PNum keyboard_idx; PNum number];;
  assert_handler_fmt (keyboard_idx <=? number)
    "keyboard_idx (%u) must be <= _number_of_keyboard (%u)!\n" [PNum keyboard_idx; PNum number];;
  modify (fun g => set_kps (_set_irq_and_vector (with_port keyboard_idx number (kps g))) g).

(** A function of [idt.c] called from here. *)
Definition idt_call {A} (m : M D idt_globals A) : C A := zoom keyboard_idt set_keyboard_idt m.

Definition disable_keyboard_interrupts : C unit :=
  v ← gets (fun g => active_interrupt_vector (kps g)); idt_call (disable_idt_entry v).
Definition enable_keyboard_interrupts : C unit :=
  v ← gets (fun g => active_interrupt_vector (kps g)); idt_call (enable_idt_entry v).

(** ** Sending bytes *)

Definition _send_command_or_data_to_ps2_keyboard (command : Z) : C ps2_controller_error_code :=
  port ← gets (fun g => active_port (kps g));
  send_command_or_data_to_ps2_port port (u8 command).

(** The loop; [tries] is [max_response_repeat - response_count]. *)
Fixpoint send_data_loop (tries : nat) (data : Z) : C kb_response :=
  match tries with
  | O => mret (mk_kb PS2_KB_ERR_resend_too_much minus_one)
  | S tries =>
      c_err ← _send_command_or_data_to_ps2_keyboard data;
      if is_err c_err then mret (mk_kb PS2_KB_ERR_could_not_send_command minus_one) else
      c_err ← wait_till_ready_for_response;
      if is_err c_err then
        kprintf "The ps2_controller error: %d, |%s|\n"
          [PNum (err_value c_err); PStr (PS2_OS_Error_to_string c_err)];;
        mret (mk_kb PS2_KB_ERR_could_not_recieve_response minus_one)
      else
      response ← ps2_recieve_raw_response;
      if response =? KRB_resend then send_data_loop tries data
      else if response =? KRB_command_acknowledged then mret (mk_kb PS2_KB_ERR_none response)
      else mret (mk_kb PS2_KB_ERR_non_ack_response response)
  end.

Definition send_data_to_ps2_keyboard (data : Z) : C kb_response := send_data_loop 3 data.

Definition send_command_to_ps2_keyboard (command : Z) : C kb_response :=
  if negb (validate_keyboard_command (u8 command)) then mret (mk_kb PS2_KB_ERR_invalid_command 0)
  else send_data_to_ps2_keyboard command.

Definition send_setter_subcommand_to_ps2_keyboard (subcommand_data : Z) : C kb_response :=
  send_data_to_ps2_keyboard subcommand_data.

(** The wait and the read that follow an acknowledged byte. *)
Definition receive_byte (k : Z -> kb_response) : C kb_response :=
  c_err ← wait_till_ready_for_response;
  if is_err c_err then
    kprintf "The ps2_controller error: %d, |%s|\n"
      [PNum (err_value c_err); PStr (PS2_OS_Error_to_string c_err)];;
    mret (mk_kb PS2_KB_ERR_could_not_recieve_response minus_one)
  else
  response ← ps2_recieve_raw_response;
  mret (k response).

Definition send_getter_subcommand_to_ps2_keyboard (subcommand_data : Z) : C kb_response :=
  verified_response ← send_data_to_ps2_keyboard subcommand_data;
  if is_kb_err (kb_err verified_response) then mret (mk_kb (kb_err verified_response) minus_one)
  else receive_byte (mk_kb PS2_KB_ERR_none).

(** ** The commands *)

(** A command without data, and one with a data byte: the error is returned. *)
Definition plain_command (command : Z) : C ps2_keyboard_error_code :=
  obtained ← send_command_to_ps2_keyboard command;
  if is_kb_err (kb_err obtained) then mret (kb_err obtained) else mret PS2_KB_ERR_none.

Definition command_with_data (command data : Z) : C ps2_keyboard_error_code :=
  obtained ← send_command_to_ps2_keyboard command;
  if is_kb_err (kb_err obtained) then mret (kb_err obtained) else
  obtained ← send_setter_subcommand_to_ps2_keyboard data;
  if is_kb_err (kb_err obtained) then mret (kb_err obtained) else mret PS2_KB_ERR_none.

Definition set_leds (led_sate : kcb_led_state_t) : C ps2_keyboard_error_code :=
  command_with_data KCB_setLEDs (led_raw led_sate).

Definition echo_keyboard : C ps2_keyboard_error_code :=
  obtained ← send_command_to_ps2_keyboard KCB_echo;
  if negb (bool_decide (kb_err obtained = PS2_KB_ERR_non_ack_response))
  then mret (kb_err obtained) else
  if negb (kb_value obtained =? KRB_echo_response) then mret PS2_KB_ERR_response_was_not_echo else
  kprintf "The echo response: %h\n" [PNum (kb_value obtained)];;
  mret PS2_KB_ERR_none.

Definition set_scan_code_set (scan_code_set : Z) : C ps2_keyboard_error_code :=
  if (scan_code_set =? 0) || (3 <? scan_code_set) then
    kprintf "can't set with scancode = %u\n" [PNum scan_code_set];;
    abort_msg "Invalid scan code set! Must be 1,2 or 3\n" []
  else
  obtained ← send_command_to_ps2_keyboard KCB_get_set_ScanCodeSet;
  if is_kb_err (kb_err obtained) then
    kprintf "Error sending the command to set scancode set!\n" [];; mret (kb_err obtained)
  else
  obtained ← send_setter_subcommand_to_ps2_keyboard (u8 scan_code_set);
  if is_kb_err (kb_err obtained) then
    kprintf "Error sending the special scan code set\n!" [];; mret (kb_err obtained)
  else
  modify (fun g => set_kps (with_scancode_set (u8 scan_code_set) (kps g)) g);;
  mret PS2_KB_ERR_none.

Definition get_scan_code_set : C kb_response :=
  obtained ← send_command_to_ps2_keyboard KCB_get_set_ScanCodeSet;
  if is_kb_err (kb_err obtained) then mret (mk_kb (kb_err obtained) minus_one) else
  obtained ← send_getter_subcommand_to_ps2_keyboard 0;
  if is_kb_err (kb_err obtained) then mret (mk_kb (kb_err obtained) minus_one) else
  if (kb_value obtained =? 0) || (3 <? kb_value obtained)
  then mret (mk_kb PS2_KB_ERR_invalid_scancode minus_one)
  else mret (mk_kb PS2_KB_ERR_none (kb_value obtained)).

Definition identify_device : C kb_response := abort_msg "!Not implemented!\n" [].

Definition set_typematic (rate_and_delay : kcb_typematic_rate_and_delay_t) :
    C ps2_keyboard_error_code :=
  command_with_data KCB_set_typematic_rate_delay (typematic_raw rate_and_delay).

Definition enable_scanning : C ps2_keyboard_error_code := plain_command KCB_enable_scanning.

(** The command sent is the one that enables scanning. *)
Definition disable_scanning : C ps2_keyboard_error_code := plain_command KCB_enable_scanning.

Definition set_default_parameters : C ps2_keyboard_error_code :=
  plain_command KCB_set_default_parameters.
Definition set_all_keycode_to_make_release : C ps2_keyboard_error_code :=
  plain_command KCB_set_all_to_make_release.

Definition set_all_keycode_to_make_only : C ps2_keyboard_error_code :=
  current ← get_scan_code_set;
  assert_handler_fmt (kb_value current =? 3) "Need to be in scancode 3\n" [];;
  plain_command KCB_set_all_to_make_only.

Definition set_all_keycode_to_typematic_autorepeat_make_release : C ps2_keyboard_error_code :=
  plain_command KCB_set_all_to_typematic_autorepeat_make_release.
Definition set_specific_key_to_typematic_autorepeat_only (key_scancode : Z) :
    C ps2_keyboard_error_code :=
  command_with_data KCB_set_specific_to_typematic_autorepeat_only key_scancode.
Definition set_specific_key_to_make_release (key_scancode : Z) : C ps2_keyboard_error_code :=
  command_with_data KCB_set_specific_to_make_release key_scancode.
Definition set_specific_key_to_make_only (key_scancode : Z) : C ps2_keyboard_error_code :=
  command_with_data KCB_set_specific_to_make_only key_scancode.

Definition resend_last_byte : C kb_response :=
  obtained ← send_command_to_ps2_keyboard KCB_resend_last_byte;
  if is_kb_err (kb_err obtained) then mret (mk_kb (kb_err obtained) minus_one)
  else mret (mk_kb PS2_KB_ERR_none (kb_value obtained)).

Definition reset_and_self_test : C kb_response :=
  obtained ← send_command_to_ps2_keyboard KCB_reset_and_self_test;
  if is_kb_err (kb_err obtained) then mret (mk_kb (kb_err obtained) minus_one) else
  receive_byte (fun response =>
    if negb (response =? KRB_self_test_passed) then mk_kb PS2_KB_ERR_self_test_failed response
    else mk_kb PS2_KB_ERR_none response).

(** ** Switching the keyboard

    The line masked is the number of the port, not the [active_irq]. *)

Definition disable_keyboard : C unit :=
  kprintf "Disabling keyboard\n" [];;
  port ← gets (fun g => active_port (kps g));
  IRQ_set_mask port;;
  disable_keyboard_interrupts;;
  disable_scanning;;
  mret tt.

Definition enable_keyboard : C unit :=
  kprintf "Enabling keyboard\n" [];;
  enable_scanning;;
  enable_keyboard_interrupts;;
  port ← gets (fun g => active_port (kps g));
  IRQ_clear_mask port.

Definition test_ps2_keyboard_commands : C unit :=
  disable_keyboard;;
  kprintf "\n\n============= Keyboard commands ===============\n\n" [];;
  ke_err ← echo_keyboard;
  (if is_kb_err ke_err then
     kprintf "Error sending echo command: %d, |%s|\n"
       [PNum (kb_err_value ke_err); PStr (ps2_keyboard_error_to_string ke_err)]
   else kprintf "Echo command succeededd successfully" []);;
  kprintf "\n\n============= Scan code sets ===============\n\n" [];;
  k_err ← set_scan_code_set 3;
  (if is_kb_err k_err then
     kprintf "Error setting the scan code set %d: Error %d, Error Name: |%s|\n"
       [PNum 3; PNum (kb_err_value k_err); PStr (ps2_keyboard_error_to_string k_err)];;
     abort_msg "abort() called" []
   else mret tt);;
  scan_code_set ← get_scan_code_set;
  (if is_kb_err (kb_err scan_code_set) then
     kprintf "Error getting the scan code set back. Error: %d, Error Name: |%s|\n"
       [PNum (kb_err_value (kb_err scan_code_set));
        PStr (ps2_keyboard_error_to_string (kb_err scan_code_set))]
   else mret tt);;
  kprintf "The current scan code set (after changing it): %u\n" [PNum (kb_value scan_code_set)];;
  enable_keyboard.
End keyboard.
