(* ===== verification/KeyboardFacts.v ===== *)
(** * Facts about the keyboard driver

    Sending a byte to the keyboard always returns, retries at most three times, obeys the
    handshake of the controller and leaves the globals alone; the state of the active
    keyboard is consistent; and what happens with two keyboards. *)

From S2P Require Import Prelude Machine Ps2Types Ps2Controller Ps2Setup Sim8042 Ps2ControllerFacts.
From S2P Require Import Pic Idt Keyboard.

(** ** Runs that only use ports and print *)

(** No call leaves the modelled code, and the globals are unchanged. *)
Definition port_event (e : event) : Prop :=
  match e with ECall _ _ => False | _ => True end.
Definition local {D G A} (m : M D G A) : Prop :=
  forall d g, Forall port_event (o_events (m d g)) /\ o_glob (m d g) = g.

Section local_rules.
Context {D G : Type} `{PortDevice D}.

Lemma local_ret {A} (a : A) : local (D:=D) (G:=G) (mret a).
Proof. by intros d g. Qed.
Lemma local_bind {A B} (m : M D G A) (k : A -> M D G B) :
  local m -> (forall a, local (k a)) -> local (m ≫= k).
Proof.
  intros Hm Hk d g. destruct (Hm d g) as [He Hg]. unfold mbind, M_bind.
  destruct (o_exit (m d g)) as [a| | |]; try done.
  rewrite Hg. destruct (Hk a (o_dev (m d g)) g) as [He' Hg'].
  split; [by apply Forall_app|done].
Qed.
Lemma local_if {A} (b : bool) (m m' : M D G A) : local m -> local m' -> local (if b then m else m').
Proof. by destruct b. Qed.
Lemma local_inb p : local (G:=G) (inb p).
Proof. intros d g. unfold inb. destruct (port_in p d). repeat constructor. Qed.
Lemma local_outb p v : local (G:=G) (outb p v).
Proof. intros d g. repeat constructor. Qed.
Lemma local_kprintf fmt args : local (D:=D) (G:=G) (kprintf fmt args).
Proof. intros d g. repeat constructor. Qed.
Lemma local_gets {A} (f : G -> A) : local (D:=D) (gets f).
Proof. by intros d g. Qed.
End local_rules.

Create HintDb locality discriminated.
#[export] Hint Constants Opaque : locality.
#[export] Hint Resolve local_ret local_inb local_outb local_kprintf local_gets : locality.

Ltac local_auto :=
  repeat match goal with
  | |- local (if _ then _ else _) => apply local_if
  | |- local _ => solve [eauto with locality]
  | |- local (_ ≫= _) => apply local_bind; [|intros ?]
  end.

Section driver_local.
Context {D G : Type} `{PortDevice D}.

Lemma local_wait_input_loop n : local (G:=G) (wait_input_loop n).
Proof. induction n; simpl; unfold io_wait, read_ps2_status; local_auto. Qed.
Lemma local_wait_response_loop n : local (G:=G) (wait_response_loop n).
Proof. induction n; simpl; unfold io_wait, read_ps2_status; local_auto. Qed.
Lemma local_wait_response : local (G:=G) wait_till_ready_for_response.
Proof. apply local_wait_response_loop. Qed.
Lemma local_wait_input : local (G:=G) wait_till_ready_for_more_input.
Proof. apply local_wait_input_loop. Qed.
Lemma local_receive : local (G:=G) ps2_recieve_raw_response.
Proof. apply local_inb. Qed.
Hint Resolve local_wait_input : locality.

Lemma local_send_port p v : local (G:=G) (send_command_or_data_to_ps2_port p v).
Proof.
  unfold send_command_or_data_to_ps2_port, send_command_to_first_ps2_port,
    send_command_to_second_ps2_port. local_auto.
Qed.
End driver_local.
#[export] Hint Resolve local_wait_response local_wait_input local_receive local_send_port : locality.

(** ** Sending a byte *)

(** What a response says: the value is the acknowledgement exactly when there is no error,
    and an unexpected byte is handed to the caller. *)
Definition kb_response_ok (r : kb_response) : Prop :=
  match kb_err r with
  | PS2_KB_ERR_none => kb_value r = KRB_command_acknowledged
  | PS2_KB_ERR_non_ack_response =>
      is_u8 (kb_value r) /\ kb_value r <> KRB_command_acknowledged /\ kb_value r <> KRB_resend
  | PS2_KB_ERR_invalid_command => kb_value r = 0
  | PS2_KB_ERR_could_not_send_command | PS2_KB_ERR_could_not_recieve_response
  | PS2_KB_ERR_resend_too_much => kb_value r = minus_one
  | _ => False
  end.

Section sending.
Context {D : Type} `{PortDevice D}.
Local Abbreviation K := keyboard_globals.

Lemma total_send_data_loop n v : total (D:=D) (G:=K) (send_data_loop n v) kb_response_ok.
Proof.
  induction n as [|n IH]; simpl; [by apply total_ret|].
  unfold _send_command_or_data_to_ps2_keyboard.
  eapply total_bind; [eapply total_bind; [apply total_gets|intros port _];
    apply total_send_port|intros e _].
  total_step; [by apply total_ret|].
  eapply total_bind; [apply total_wait_response|intros e' _].
  total_step; [eapply total_bind; [apply total_kprintf|intros _ _]; by apply total_ret|].
  eapply total_bind; [apply total_receive|intros r Hr].
  destruct (Z.eqb_spec r KRB_resend) as [|Hne]; [done|].
  destruct (Z.eqb_spec r KRB_command_acknowledged) as [->|Hne']; by apply total_ret.
Qed.

Lemma local_send_data_loop n v : local (D:=D) (send_data_loop n v).
Proof.
  induction n; simpl; unfold _send_command_or_data_to_ps2_keyboard; local_auto.
Qed.

Lemma obeys_gets {A} (f : K -> A) b : obeys (D:=D) b (gets f).
Proof. apply monitored_gets. Qed.

Lemma obeys_send_data_loop b n v : obeys (D:=D) (G:=K) b (send_data_loop n v).
Proof.
  induction n as [|n IH]; simpl; [apply obeys_ret|].
  unfold _send_command_or_data_to_ps2_keyboard.
  apply obeys_bind; [apply obeys_bind; [apply obeys_gets|intros p; apply obeys_send_port]|].
  intros e. destruct (is_err e); [apply obeys_ret|].
  apply (obeys_wait_then_receive b (fun e =>
    kprintf "The ps2_controller error: %d, |%s|\n"
      [PNum (err_value e); PStr (PS2_OS_Error_to_string e)];;
    mret (mk_kb PS2_KB_ERR_could_not_recieve_response minus_one))).
  - intros e'. apply obeys_bind; [apply obeys_kprintf|intros _; apply obeys_ret].
  - intros r. obeys_auto.
Qed.

Lemma total_send_command_kb c :
  total (D:=D) (G:=K) (send_command_to_ps2_keyboard c) kb_response_ok.
Proof.
  unfold send_command_to_ps2_keyboard. total_step; [by apply total_ret|].
  apply total_send_data_loop.
Qed.

Lemma local_send_command_kb c : local (D:=D) (send_command_to_ps2_keyboard c).
Proof.
  unfold send_command_to_ps2_keyboard. apply local_if; [apply local_ret|].
  apply local_send_data_loop.
Qed.

Lemma total_command_with_data c v :
  total (D:=D) (G:=K) (command_with_data c v) (fun _ => True).
Proof.
  unfold command_with_data, send_setter_subcommand_to_ps2_keyboard, send_data_to_ps2_keyboard.
  eapply total_bind; [apply total_send_command_kb|intros r _].
  total_step; [by apply total_ret|].
  eapply total_bind; [apply total_send_data_loop|intros r' _]. total_auto.
Qed.

Lemma local_command_with_data c v : local (D:=D) (command_with_data c v).
Proof.
  unfold command_with_data, send_setter_subcommand_to_ps2_keyboard, send_data_to_ps2_keyboard.
  apply local_bind; [apply local_send_command_kb|intros r].
  apply local_if; [apply local_ret|].
  apply local_bind; [apply local_send_data_loop|intros r']. local_auto.
Qed.

Lemma total_set_leds l : total (D:=D) (G:=K) (set_leds l) (fun _ => True).
Proof. apply total_command_with_data. Qed.
Lemma local_set_leds l : local (D:=D) (set_leds l).
Proof. apply local_command_with_data. Qed.
End sending.

(** ** At most three attempts

    The monitor holds a budget of writes to the data port and rejects one more. *)

Definition data_writes : monitor := Monitor nat (fun e n =>
  match e with
  | EOut p _ => if p =? PS2_DATA_PORT_RW then match n with O => None | S n => Some n end else Some n
  | _ => Some n
  end).

Definition has_budget (n : nat) (s : nat) : Prop := (n <= s)%nat.

Definition within {D G A} (n : nat) (m : M D G A) (k : nat) : Prop :=
  monitored data_writes (has_budget n) m (fun _ => has_budget k).

Section budget.
Context {D : Type} `{PortDevice D}.
Local Abbreviation K := keyboard_globals.

Lemma within_ret {A} (a : A) n : within (D:=D) (G:=K) n (mret a) n.
Proof. by apply monitored_ret. Qed.
Lemma within_less {A} (m : M D K A) n k k' : within n m k -> (k' <= k)%nat -> within n m k'.
Proof. intros Hm Hk. eapply monitored_weaken; [exact Hm|done|]. unfold has_budget. lia. Qed.
Lemma within_kprintf fmt args n : within (D:=D) (G:=K) n (kprintf fmt args) n.
Proof. apply monitored_emit. intros s Hs. by exists s. Qed.
Lemma within_inb p n : within (G:=K) n (inb p) n.
Proof. apply monitored_inb. intros v s _ Hs. by exists s. Qed.
Lemma within_outb_other p v n : (p =? PS2_DATA_PORT_RW) = false -> within (G:=K) n (outb p v) n.
Proof. intros Hp. apply monitored_outb. intros s Hs. exists s. cbn [data_writes mo_step]. by rewrite Hp. Qed.
Lemma within_outb_data v n : within (G:=K) (S n) (outb PS2_DATA_PORT_RW v) n.
Proof.
  apply monitored_outb. intros s Hs. unfold has_budget in *. destruct s as [|s]; [lia|].
  exists s. split; [done|lia].
Qed.

Lemma within_wait_input_loop k n : within (G:=K) n (wait_input_loop k) n.
Proof.
  induction k; simpl; [apply within_ret|].
  eapply monitored_bind; [by apply within_outb_other|intros ?].
  eapply monitored_bind; [eapply monitored_bind; [apply within_inb|intros ?; apply within_ret]|intros st].
  repeat case_match; try apply within_ret. done.
Qed.
Lemma within_wait_response_loop k n : within (G:=K) n (wait_response_loop k) n.
Proof.
  induction k; simpl; [apply within_ret|].
  eapply monitored_bind; [by apply within_outb_other|intros ?].
  eapply monitored_bind; [eapply monitored_bind; [apply within_inb|intros ?; apply within_ret]|intros st].
  repeat case_match; try apply within_ret. done.
Qed.

Lemma within_send_port p v n : within (G:=K) (S n) (send_command_or_data_to_ps2_port p v) n.
Proof.
  unfold send_command_or_data_to_ps2_port, send_command_to_first_ps2_port,
    send_command_to_second_ps2_port.
  repeat case_match; try (apply within_less with (S n); [apply within_ret|lia]).
  - eapply monitored_bind; [apply within_wait_input_loop|intros e].
    case_match; [apply within_less with (S n); [apply within_ret|lia]|].
    eapply monitored_bind; [apply within_outb_data|intros ?; apply within_ret].
  - eapply monitored_bind; [apply within_wait_input_loop|intros e].
    case_match; [apply within_less with (S n); [apply within_ret|lia]|].
    eapply monitored_bind; [by apply within_outb_other|intros ?].
    eapply monitored_bind; [apply within_wait_input_loop|intros e'].
    case_match; [apply within_less with (S n); [apply within_ret|lia]|].
    eapply monitored_bind; [apply within_outb_data|intros ?; apply within_ret].
Qed.

Lemma within_send_data_loop n v : within (D:=D) n (send_data_loop n v) 0.
Proof.
  induction n as [|n IH]; simpl; [apply within_ret|].
  assert (Hz : forall A (a : A), within (D:=D) (G:=K) n (mret a) 0).
  { intros A a. apply within_less with n; [apply within_ret|lia]. }
  unfold _send_command_or_data_to_ps2_keyboard.
  eapply monitored_bind; [eapply monitored_bind; [apply monitored_gets|
    intros port; apply (within_send_port port (u8 v) n)]|intros e].
  case_match; [apply Hz|].
  eapply monitored_bind; [apply within_wait_response_loop|intros e'].
  case_match; [eapply monitored_bind; [apply within_kprintf|intros ?; apply Hz]|].
  eapply monitored_bind; [apply within_inb|intros r].
  repeat case_match; [exact IH|apply Hz|apply Hz].
Qed.
End budget.

(** ** The active keyboard *)

(** Vector and interrupt line are those of the port. *)
Definition kps_consistent (k : keyboard_porting_state_context) : Prop :=
  (active_port k = 1 -> active_irq k = 1 /\ active_interrupt_vector k = 33) /\
  (active_port k = 2 -> active_irq k = 12 /\ active_interrupt_vector k = 44).

Lemma set_irq_consistent k : kps_consistent (_set_irq_and_vector k).
Proof.
  unfold kps_consistent, _set_irq_and_vector. destruct (Z.eqb_spec (active_port k) 1); simpl;
    split; intros; (split; [|]); try reflexivity; lia.
Qed.

(** ** Properties *)

(** C20: Sending a byte to the keyboard returns whatever the hardware answers, obeys the
    handshake in both directions, writes the data port at most three times, leaves the
    globals alone, and reports no error exactly with the acknowledgement 0xFA. *)
Theorem send_data_to_ps2_keyboard_spec {D} `{PortDevice D} v :
  total (send_data_to_ps2_keyboard v) kb_response_ok /\
  disciplined true (send_data_to_ps2_keyboard v) /\
  local (send_data_to_ps2_keyboard v) /\
  (forall d g, accepts data_writes (o_events (send_data_to_ps2_keyboard v d g)) 3%nat).
Proof.
  unfold send_data_to_ps2_keyboard. split; [apply total_send_data_loop|].
  split; [apply obeys_disciplined, obeys_send_data_loop|].
  split; [apply local_send_data_loop|].
  intros d g. destruct (within_send_data_loop 3 v d g 3%nat) as (s & Hs & _); [|by exists s].
  unfold has_budget. lia.
Qed.

(** Choosing the active keyboard keeps the interrupt line and vector consistent with
    the port; a keyboard that was never announced as the second one cannot be chosen. *)
Theorem active_keyboard_consistent {D} (d : D) g port :
  kps_consistent (kps (o_glob (set_single_keyboard_port port d g))) /\
  (number_of_keyboards (kps g) <= 1 ->
   o_exit (set_active_keyboard_for_commands port d g) = Aborted) /\
  (number_of_keyboards (kps g) = 2 -> port <= 2 ->
   o_exit (set_active_keyboard_for_commands port d g) = Done tt /\
   active_port (kps (o_glob (set_active_keyboard_for_commands port d g))) = port /\
   kps_consistent (kps (o_glob (set_active_keyboard_for_commands port d g)))).
Proof.
  split; [|split].
  - exact (set_irq_consistent (with_port port 1 (kps g))).
  - intros Hn. unfold set_active_keyboard_for_commands.
    erewrite (bind_done (gets _)) by reflexivity.
    by replace (1 <? number_of_keyboards (kps g)) with false by lia.
  - intros Hn Hp. unfold set_active_keyboard_for_commands.
    erewrite (bind_done (gets _)) by reflexivity. rewrite Hn.
    replace (port <=? 2) with true by lia. cbn zeta.
    split; [reflexivity|]. split; [|exact (set_irq_consistent (with_port port 2 (kps g)))].
    change (active_port (_set_irq_and_vector (with_port port 2 (kps g))) = port).
    unfold _set_irq_and_vector. by case_match; simplify_eq.
Qed.

Definition two_keyboards : keyboard_globals := mk_keyboard (with_port 0 2 kps_boot) idt_boot.

Lemma active_keyboard_witness :
  active_port (kps (o_glob (set_active_keyboard_for_commands 2 tt two_keyboards))) = 2.
Proof.
  exact (proj1 (proj2 (proj2 (proj2 (active_keyboard_consistent tt two_keyboards 2))
    eq_refl ltac:(lia)))).
Defined.

(** The function that is to stop the keyboard from sending scan codes is, byte for
    byte, the one that makes it send them. *)
Theorem disable_scanning_enables {D} `{PortDevice D} :
  disable_scanning (D:=D) ≡ enable_scanning.
Proof. reflexivity. Qed.
