(* ===== verification/Scancodes.v ===== *)
(** * Scan codes

    The X-macro tables of [drivers/ps2/keyboard/scancode.h] and
    [extended_scancode.h] with the enumerations, the names and the validity checks the
    preprocessor generates from them. *)

From S2P Require Import Prelude.

(** [SCANCODES(X)]: name and code, presses first, then releases. *)
Definition SCANCODES : list (string * Z) :=
  [
    ("ESCAPE", 0x01); ("1", 0x02); ("2", 0x03); ("3", 0x04); ("4", 0x05); ("5", 0x06);
    ("6", 0x07); ("7", 0x08); ("8", 0x09); ("9", 0x0A); ("0", 0x0B); ("MINUS", 0x0C);
    ("EQUALS", 0x0D); ("BACKSPACE", 0x0E); ("TAB", 0x0F); ("Q", 0x10); ("W", 0x11); ("E", 0x12);
    ("R", 0x13); ("T", 0x14); ("Y", 0x15); ("U", 0x16); ("I", 0x17); ("O", 0x18); ("P", 0x19);
    ("LBRACKET", 0x1A); ("RBRACKET", 0x1B); ("ENTER", 0x1C); ("LEFT_CTRL", 0x1D); ("A", 0x1E);
    ("S", 0x1F); ("D", 0x20); ("F", 0x21); ("G", 0x22); ("H", 0x23); ("J", 0x24); ("K", 0x25);
    ("L", 0x26); ("SEMICOLON", 0x27); ("QUOTE", 0x28); ("BACKTICK", 0x29); ("LEFT_SHIFT", 0x2A);
    ("BACKSLASH", 0x2B); ("Z", 0x2C); ("X_", 0x2D); ("C", 0x2E); ("V", 0x2F); ("B", 0x30);
    ("N", 0x31); ("M", 0x32); ("COMMA", 0x33); ("DOT", 0x34); ("SLASH", 0x35);
    ("RIGHT_SHIFT", 0x36); ("KP_ASTERISK", 0x37); ("LEFT_ALT", 0x38); ("SPACE", 0x39);
    ("CAPSLOCK", 0x3A); ("F1", 0x3B); ("F2", 0x3C); ("F3", 0x3D); ("F4", 0x3E); ("F5", 0x3F);
    ("F6", 0x40); ("F7", 0x41); ("F8", 0x42); ("F9", 0x43); ("F10", 0x44); ("NUMLOCK", 0x45);
    ("SCROLLLOCK", 0x46); ("KP_7", 0x47); ("KP_8", 0x48); ("KP_9", 0x49); ("KP_MINUS", 0x4A);
    ("KP_4", 0x4B); ("KP_5", 0x4C); ("KP_6", 0x4D); ("KP_PLUS", 0x4E); ("KP_1", 0x4F);
    ("KP_2", 0x50); ("KP_3", 0x51); ("KP_0", 0x52); ("KP_DOT", 0x53); ("F11", 0x57);
    ("F12", 0x58); ("ESCAPE_R", 0x81); ("1_R", 0x82); ("2_R", 0x83); ("3_R", 0x84); ("4_R", 0x85);
    ("5_R", 0x86); ("6_R", 0x87); ("7_R", 0x88); ("8_R", 0x89); ("9_R", 0x8A); ("0_R", 0x8B);
    ("MINUS_R", 0x8C); ("EQUAL_R", 0x8D); ("BACKSPACE_R", 0x8E); ("TAB_R", 0x8F); ("Q_R", 0x90);
    ("W_R", 0x91); ("E_R", 0x92); ("R_R", 0x93); ("T_R", 0x94); ("Y_R", 0x95); ("U_R", 0x96);
    ("I_R", 0x97); ("O_R", 0x98); ("P_R", 0x99); ("LBRACKET_R", 0x9A); ("RBRACKET_R", 0x9B);
    ("ENTER_R", 0x9C); ("LEFT_CTRL_R", 0x9D); ("A_R", 0x9E); ("S_R", 0x9F); ("D_R", 0xA0);
    ("F_R", 0xA1); ("G_R", 0xA2); ("H_R", 0xA3); ("J_R", 0xA4); ("K_R", 0xA5); ("L_R", 0xA6);
    ("SEMICOLON_R", 0xA7); ("QUOTE_R", 0xA8); ("BACKTICK_R", 0xA9); ("LEFT_SHIFT_R", 0xAA);
    ("BACKSLASH_R", 0xAB); ("Z_R", 0xAC); ("X_R", 0xAD); ("C_R", 0xAE); ("V_R", 0xAF);
    ("B_R", 0xB0); ("N_R", 0xB1); ("M_R", 0xB2); ("COMMA_R", 0xB3); ("DOT_R", 0xB4);
    ("SLASH_R", 0xB5); ("RIGHT_SHIFT_R", 0xB6); ("KP_ASTERISK_R", 0xB7); ("LEFT_ALT_R", 0xB8);
    ("SPACE_R", 0xB9); ("CAPSLOCK_R", 0xBA); ("F1_R", 0xBB); ("F2_R", 0xBC); ("F3_R", 0xBD);
    ("F4_R", 0xBE); ("F5_R", 0xBF); ("F6_R", 0xC0); ("F7_R", 0xC1); ("F8_R", 0xC2);
    ("F9_R", 0xC3); ("F10_R", 0xC4); ("NUMLOCK_R", 0xC5); ("SCROLLLOCK_R", 0xC6);
    ("KP_7_R", 0xC7); ("KP_8_R", 0xC8); ("KP_9_R", 0xC9); ("KP_MINUS_R", 0xCA); ("KP_4_R", 0xCB);
    ("KP_5_R", 0xCC); ("KP_6_R", 0xCD); ("KP_PLUS_R", 0xCE); ("KP_1_R", 0xCF); ("KP_2_R", 0xD0);
    ("KP_3_R", 0xD1); ("KP_0_R", 0xD2); ("KP_DOT_R", 0xD3); ("F11_R", 0xD7); ("F12_R", 0xD8)
  ].

(** [EXTENDED_SCANCODES(X)]: the second byte of the sequences that start with 0xE0. *)
Definition EXTENDED_SCANCODES : list (string * Z) :=
  [
    ("PREV_TRACK", 0x10); ("NEXT_TRACK", 0x19); ("KP_ENTER", 0x1C); ("RIGHT_CTRL", 0x1D);
    ("MUTE", 0x20); ("CALCULATOR", 0x21); ("PLAY", 0x22); ("STOP", 0x24); ("VOLUME_DOWN", 0x2E);
    ("VOLUME_UP", 0x30); ("WWW_HOME", 0x32); ("KP_SLASH", 0x35); ("RIGHT_ALT", 0x38);
    ("HOME", 0x47); ("UP", 0x48); ("PAGE_UP", 0x49); ("LEFT", 0x4B); ("RIGHT", 0x4D);
    ("END", 0x4F); ("DOWN", 0x50); ("PAGE_DOWN", 0x51); ("INSERT", 0x52); ("DELETE", 0x53);
    ("LEFT_META", 0x5B); ("RIGHT_META", 0x5C); ("APPS", 0x5D); ("POWER", 0x5E); ("SLEEP", 0x5F);
    ("WAKE", 0x63); ("WWW_SEARCH", 0x65); ("WWW_FAVORITES", 0x66); ("WWW_REFRESH", 0x67);
    ("WWW_STOP", 0x68); ("WWW_FORWARD", 0x69); ("WWW_BACK", 0x6A); ("MY_COMPUTER", 0x6B);
    ("EMAIL", 0x6C); ("MEDIA_SELECT", 0x6D); ("PREV_TRACK_R", 0x90); ("NEXT_TRACK_R", 0x99);
    ("KP_ENTER_R", 0x9C); ("RIGHT_CTRL_R", 0x9D); ("MUTE_R", 0xA0); ("CALCULATOR_R", 0xA1);
    ("PLAY_R", 0xA2); ("STOP_R", 0xA4); ("VOLUME_DOWN_R", 0xAE); ("VOLUME_UP_R", 0xB0);
    ("WWW_HOME_R", 0xB2); ("KP_SLASH_R", 0xB5); ("RIGHT_ALT_R", 0xB8); ("HOME_R", 0xC7);
    ("UP_R", 0xC8); ("PAGE_UP_R", 0xC9); ("LEFT_R", 0xCB); ("RIGHT_R", 0xCD); ("END_R", 0xCF);
    ("DOWN_R", 0xD0); ("PAGE_DOWN_R", 0xD1); ("INSERT_R", 0xD2); ("DELETE_R", 0xD3);
    ("LEFT_GUI_R", 0xDB); ("RIGHT_GUI_R", 0xDC); ("APPS_R", 0xDD); ("POWER_R", 0xDE);
    ("SLEEP_R", 0xDF); ("WAKE_R", 0xE3); ("WWW_SEARCH_R", 0xE5); ("WWW_FAVORITES_R", 0xE6);
    ("WWW_REFRESH_R", 0xE7); ("WWW_STOP_R", 0xE8); ("WWW_FORWARD_R", 0xE9); ("WWW_BACK_R", 0xEA);
    ("MY_COMPUTER_R", 0xEB); ("EMAIL_R", 0xEC); ("MEDIA_SELECT_R", 0xED)
  ].

(** The generated [switch]es. *)
Definition name_of_code (table : list (string * Z)) (unknown : string) (code : Z) : string :=
  match List.find (fun e => snd e =? code) table with
  | Some e => fst e
  | None => unknown
  end.

Definition scancode_to_string (scancode : Z) : string := name_of_code SCANCODES "UNKNOWN" scancode.
Definition extended_scancode_to_string (scancode : Z) : string :=
  name_of_code EXTENDED_SCANCODES "UNKNOWN_EXT" scancode.

Definition validate_scancode (scancode : Z) : bool :=
  existsb (fun e => snd e =? scancode) SCANCODES.
Definition validate_extended_scancode (scancode : Z) : bool :=
  existsb (fun e => snd e =? scancode) EXTENDED_SCANCODES.

(** The enumerators the drivers name. *)
Definition SC_R : Z := 0x13.
Definition SC_LEFT_CTRL : Z := 0x1D.
Definition SC_A : Z := 0x1E.
Definition SC_F : Z := 0x21.
Definition SC_LEFT_SHIFT : Z := 0x2A.
Definition SC_RIGHT_SHIFT : Z := 0x36.
Definition SC_LEFT_ALT : Z := 0x38.
Definition SC_CAPSLOCK : Z := 0x3A.
Definition SC_NUMLOCK : Z := 0x45.
Definition SC_SCROLLLOCK : Z := 0x46.
Definition SC_F12 : Z := 0x58.
Definition SCE_RIGHT_CTRL : Z := 0x1D.
Definition SCE_RIGHT_ALT : Z := 0x38.
Definition SCE_UP : Z := 0x48.
Definition SCE_LEFT : Z := 0x4B.
Definition SCE_RIGHT : Z := 0x4D.
Definition SCE_DOWN : Z := 0x50.
Definition SCE_LEFT_META : Z := 0x5B.
Definition SCE_RIGHT_META : Z := 0x5C.
Definition SCE_APPS : Z := 0x5D.
Definition SCE_MEDIA_SELECT : Z := 0x6D.

Definition SCANCODE_LEN : Z := SC_F12 + 1.
Definition SCANCODE_RELEASE_OFFSET : Z := 0x80.
Definition SCANCODE_RELEASE_START : Z := 0x81.
Definition EXTENED_SCANCODE_LEN : Z := SCE_MEDIA_SELECT + 1.
Definition EXTENED_SCANCODE_RELEASE_OFFSET : Z := 0x80.
Definition EXTENED_SCANCODE_RELEASE_START : Z := 0x90.

(** The enumerators are the codes of the tables. *)
Lemma enumerators_in_tables :
  map scancode_to_string [SC_R; SC_LEFT_CTRL; SC_A; SC_F; SC_LEFT_SHIFT; SC_RIGHT_SHIFT; SC_LEFT_ALT;
    SC_CAPSLOCK; SC_NUMLOCK; SC_SCROLLLOCK; SC_F12] =
  ["R"; "LEFT_CTRL"; "A"; "F"; "LEFT_SHIFT"; "RIGHT_SHIFT"; "LEFT_ALT"; "CAPSLOCK"; "NUMLOCK";
   "SCROLLLOCK"; "F12"]%string /\
  map extended_scancode_to_string [SCE_RIGHT_CTRL; SCE_RIGHT_ALT; SCE_UP; SCE_LEFT; SCE_RIGHT; SCE_DOWN;
    SCE_LEFT_META; SCE_RIGHT_META; SCE_APPS; SCE_MEDIA_SELECT] =
  ["RIGHT_CTRL"; "RIGHT_ALT"; "UP"; "LEFT"; "RIGHT"; "DOWN"; "LEFT_META"; "RIGHT_META"; "APPS";
   "MEDIA_SELECT"]%string.
Proof. vm_compute. done. Qed.
