(* ===== verification/KeyboardHandler.v ===== *)
(** * The keyboard interrupt handler

    [drivers/ps2/keyboard/ps2_keyboard_handler.c], [ps2_keyboard_key_functions.c] and
    [setup_keyboard] of [ps2_keyboard.c]: the decoder of scan code set 1, one byte per
    interrupt, the state of the keys and the functions tied to keys.  The C++ key-code
    functions are parameters, their handler is an event; the terminal the key functions
    act on is an interface. *)

From S2P Require Import Prelude Machine Ps2Types Ps2Controller Pic Idt Keyboard.
From S2P Require Import Scancodes.

(** ** Data *)

(** The functions the tables [key_functions] and [extended_key_functions] point to;
    [KF_null] is the null pointer the static tables start with. *)
Inductive key_function :=
| KF_null | KF_nop
| KF_pressed_a | KF_pressed_caps_lock | KF_pressed_num_lock | KF_pressed_scroll_lock
| KF_pressed_up | KF_pressed_down | KF_pressed_left | KF_pressed_right
| KF_pressed_r | KF_pressed_f.

(** The globals and function statics.  The two-element arrays [previous_extended_signal],
    [four_long_sequence], [six_long_sequence] and [current_sequence_length] are indexed
    by the port number, 1 or 2. *)
Record handler_globals (T : Type) := mk_handler {
  h_keyboard : keyboard_globals;
  led_keys : kcb_led_state_t;
  is_key_pressed : list bool;
  is_print_screen_pressed : bool;
  key_functions : list key_function;
  is_key_tied_to_function : list bool;
  is_extended_key_pressed : list bool;
  extended_key_functions : list key_function;
  is_extended_key_tied_to_function : list bool;
  previous_extended_signal : list bool;
  four_long_sequence : list bool;
  six_long_sequence : list bool;
  current_sequence_length : list Z;
  h_terminal : T;
}.
Arguments mk_handler {T}.
Arguments h_keyboard {T}.
Arguments led_keys {T}.
Arguments is_key_pressed {T}.
Arguments is_print_screen_pressed {T}.
Arguments key_functions {T}.
Arguments is_key_tied_to_function {T}.
Arguments is_extended_key_pressed {T}.
Arguments extended_key_functions {T}.
Arguments is_extended_key_tied_to_function {T}.
Arguments previous_extended_signal {T}.
Arguments four_long_sequence {T}.
Arguments six_long_sequence {T}.
Arguments current_sequence_length {T}.
Arguments h_terminal {T}.

Definition handler_boot {T} (t : T) : handler_globals T :=
  mk_handler (mk_keyboard kps_boot idt_boot) (mk_leds false false false 0)
    (repeat false (Z.to_nat SCANCODE_LEN)) false (repeat KF_null 256) (repeat false 256)
    (repeat false (Z.to_nat EXTENED_SCANCODE_LEN)) (repeat KF_null 256) (repeat false 256)
    (repeat false 2) (repeat false 2) (repeat false 2) (repeat 0 2) t.

(** The groups of globals that a step changes. *)
Record sequence_state := mk_seq {
  sq_prev : list bool; sq_four : list bool; sq_six : list bool; sq_length : list Z }.

Section updates.
Context {T : Type}.
Implicit Types h : handler_globals T.

Definition set_h_keyboard (k : keyboard_globals) h : handler_globals T :=
  mk_handler k (led_keys h) (is_key_pressed h) (is_print_screen_pressed h) (key_functions h)
    (is_key_tied_to_function h) (is_extended_key_pressed h) (extended_key_functions h)
    (is_extended_key_tied_to_function h) (previous_extended_signal h) (four_long_sequence h)
    (six_long_sequence h) (current_sequence_length h) (h_terminal h).
Definition set_h_terminal (t : T) h : handler_globals T :=
  mk_handler (h_keyboard h) (led_keys h) (is_key_pressed h) (is_print_screen_pressed h)
    (key_functions h) (is_key_tied_to_function h) (is_extended_key_pressed h)
    (extended_key_functions h) (is_extended_key_tied_to_function h)
    (previous_extended_signal h) (four_long_sequence h) (six_long_sequence h)
    (current_sequence_length h) t.
Definition set_leds_state (l : kcb_led_state_t) h : handler_globals T :=
  mk_handler (h_keyboard h) l (is_key_pressed h) (is_print_screen_pressed h) (key_functions h)
    (is_key_tied_to_function h) (is_extended_key_pressed h) (extended_key_functions h)
    (is_extended_key_tied_to_function h) (previous_extended_signal h) (four_long_sequence h)
    (six_long_sequence h) (current_sequence_length h) (h_terminal h).
Definition set_keys (pressed : list bool) (print : bool) (extended : list bool) h :
    handler_globals T :=
  mk_handler (h_keyboard h) (led_keys h) pressed print (key_functions h)
    (is_key_tied_to_function h) extended (extended_key_functions h)
    (is_extended_key_tied_to_function h) (previous_extended_signal h) (four_long_sequence h)
    (six_long_sequence h) (current_sequence_length h) (h_terminal h).
Definition set_tables (kf : list key_function) (kt : list bool) (ef : list key_function)
    (et : list bool) h : handler_globals T :=
  mk_handler (h_keyboard h) (led_keys h) (is_key_pressed h) (is_print_screen_pressed h) kf kt
    (is_extended_key_pressed h) ef et (previous_extended_signal h) (four_long_sequence h)
    (six_long_sequence h) (current_sequence_length h) (h_terminal h).
Definition set_seq (s : sequence_state) h : handler_globals T :=
  mk_handler (h_keyboard h) (led_keys h) (is_key_pressed h) (is_print_screen_pressed h)
    (key_functions h) (is_key_tied_to_function h) (is_extended_key_pressed h)
    (extended_key_functions h) (is_extended_key_tied_to_function h) (sq_prev s) (sq_four s)
    (sq_six s) (sq_length s) (h_terminal h).
Definition seq_of h : sequence_state :=
  mk_seq (previous_extended_signal h) (four_long_sequence h) (six_long_sequence h)
    (current_sequence_length h).
End updates.

(** The terminal operations the key functions call ([vga_terminal.c]). *)
Class TerminalKeys (D T : Type) := {
  terminal_arrow_up : M D T unit;
  terminal_arrow_down : M D T unit;
  terminal_arrow_left : M D T unit;
  terminal_arrow_right : M D T unit;
  terminal_ctrl_r : M D T unit;
  terminal_ctrl_f : M D T unit;
}.

(** The functions of [cpp/keycodes.cpp] that turn a scan code into a key code. *)
Record keycode_functions := mk_keycodes {
  scancode_to_keycode : Z -> Z;
  extended_scancode_to_keycode : Z -> Z;
  print_screen_to_keycode : Z;
  pause_to_keycode : Z;
}.

(** [struct KeyModifierState] *)
Record KeyModifierState := mk_mods {
  left_shift : bool; right_shift : bool; left_ctrl : bool; right_ctrl : bool;
  left_meta : bool; right_meta : bool; menu_app : bool; alt : bool; altgr : bool;
  capslock : bool; scroll_lock : bool;
}.
Definition mods_args (m : KeyModifierState) : list Z :=
  map Z.b2z [left_shift m; right_shift m; left_ctrl m; right_ctrl m; left_meta m; right_meta m;
    menu_app m; alt m; altgr m; capslock m; scroll_lock m].

(** ** Modifier keys

    The indices are constants inside the arrays. *)

Definition bit_at (l : list bool) (i : Z) : bool := default false (l !! Z.to_nat i).

Section modifiers.
Context {T : Type}.
Implicit Types h : handler_globals T.

Definition is_shift_held h : bool :=
  bit_at (is_key_pressed h) SC_LEFT_SHIFT || bit_at (is_key_pressed h) SC_RIGHT_SHIFT.
Definition is_ctrl_held h : bool :=
  bit_at (is_key_pressed h) SC_LEFT_CTRL || bit_at (is_extended_key_pressed h) SCE_RIGHT_CTRL.
Definition is_alt_held h : bool := bit_at (is_key_pressed h) SC_LEFT_ALT.
Definition is_altgr_held h : bool := bit_at (is_extended_key_pressed h) SCE_RIGHT_ALT.
Definition is_capslock_on h : bool := CapsLock (led_keys h).
Definition is_caps h : bool := is_shift_held h || is_capslock_on h.
End modifiers.

Definition get_current_mod_state (pressed extended : list bool) : KeyModifierState :=
  mk_mods (bit_at pressed SC_LEFT_SHIFT) (bit_at pressed SC_RIGHT_SHIFT)
    (bit_at pressed SC_LEFT_CTRL) (bit_at extended SCE_RIGHT_CTRL)
    (bit_at extended SCE_LEFT_META) (bit_at extended SCE_RIGHT_META)
    (bit_at extended SCE_APPS) (bit_at pressed SC_LEFT_ALT) (bit_at extended SCE_RIGHT_ALT)
    (bit_at pressed SC_CAPSLOCK) (bit_at pressed SC_SCROLLLOCK).

(** ** The handler *)

Section handler.
Context {D T : Type} `{PortDevice D} `{TerminalKeys D T} (kc : keycode_functions).
Local Abbreviation C A := (M D (handler_globals T) A).

Definition keyboard_call {A} (m : M D keyboard_globals A) : C A :=
  zoom h_keyboard set_h_keyboard m.
Definition terminal_call {A} (m : M D T A) : C A := zoom h_terminal set_h_terminal m.

(** [send_eoi(irq)]: the line is not used, the APIC is told. *)
Definition send_eoi : C unit := emit (ECall "apic_send_eoi" []).

(** Reading and writing an element of an array; out of bounds is undefined. *)
Definition at_index {A} (l : list A) (i : Z) : C A := read_cell (l !! Z.to_nat i).

Definition keycode_handler (keycode : Z) (m : KeyModifierState) (first_press pressed : bool) :
    C unit :=
  emit (ECall "keycode_handler" (keycode :: mods_args m ++ [Z.b2z first_press; Z.b2z pressed])).

Definition mod_state : C KeyModifierState :=
  gets (fun h => get_current_mod_state (is_key_pressed h) (is_extended_key_pressed h)).

(** *** [ps2_keyboard_key_functions.c] *)

Definition toggle_led (f : kcb_led_state_t -> kcb_led_state_t) : C unit :=
  modify (fun h => set_leds_state (f (led_keys h)) h);;
  l ← gets led_keys;
  keyboard_call (set_leds l);;
  mret tt.

Definition pressed_caps_lock : C unit :=
  toggle_led (fun l => mk_leds (ScrollLock l) (NumberLock l) (negb (CapsLock l)) (led_reserved l)).
Definition pressed_num_lock : C unit :=
  toggle_led (fun l => mk_leds (ScrollLock l) (negb (NumberLock l)) (CapsLock l) (led_reserved l)).
Definition pressed_scroll_lock : C unit :=
  toggle_led (fun l => mk_leds (negb (ScrollLock l)) (NumberLock l) (CapsLock l) (led_reserved l)).

Definition pressed_r : C unit :=
  ctrl ← gets is_ctrl_held; if (ctrl : bool) then terminal_call terminal_ctrl_r else mret tt.
Definition pressed_f : C unit :=
  ctrl ← gets is_ctrl_held; if (ctrl : bool) then terminal_call terminal_ctrl_f else mret tt.

Definition call_key_function (f : key_function) : C unit :=
  match f with
  | KF_null => stop Undefined
  | KF_nop | KF_pressed_a => mret tt
  | KF_pressed_caps_lock => pressed_caps_lock
  | KF_pressed_num_lock => pressed_num_lock
  | KF_pressed_scroll_lock => pressed_scroll_lock
  | KF_pressed_up => terminal_call terminal_arrow_up
  | KF_pressed_down => terminal_call terminal_arrow_down
  | KF_pressed_left => terminal_call terminal_arrow_left
  | KF_pressed_right => terminal_call terminal_arrow_right
  | KF_pressed_r => pressed_r
  | KF_pressed_f => pressed_f
  end.

(** *** Parsing *)

Definition write_pressed (sc : Z) (b : bool) : C unit :=
  l ← gets is_key_pressed;
  at_index l sc;;
  modify (fun h => set_keys (<[Z.to_nat sc := b]> (is_key_pressed h)) (is_print_screen_pressed h)
    (is_extended_key_pressed h) h).
Definition write_extended (sc : Z) (b : bool) : C unit :=
  l ← gets is_extended_key_pressed;
  at_index l sc;;
  modify (fun h => set_keys (is_key_pressed h) (is_print_screen_pressed h)
    (<[Z.to_nat sc := b]> (is_extended_key_pressed h)) h).

Definition parse_scan_code (press_scancode : Z) (pressed_not_released : bool) : C unit :=
  if pressed_not_released then
    tied_table ← gets is_key_tied_to_function;
    tied ← at_index tied_table press_scancode;
    (if (tied : bool) then
       functions ← gets key_functions;
       f ← at_index functions press_scancode;
       call_key_function f
     else mret tt);;
    state ← mod_state;
    pressed ← gets is_key_pressed;
    p ← at_index pressed press_scancode;
    keycode_handler (scancode_to_keycode kc press_scancode) state (negb p) true;;
    write_pressed press_scancode true
  else
    write_pressed press_scancode false;;
    state ← mod_state;
    keycode_handler (scancode_to_keycode kc press_scancode) state false false.

Definition parse_extended_scan_code (press_scancode : Z) (pressed_not_released : bool) : C unit :=
  if pressed_not_released then
    tied_table ← gets is_extended_key_tied_to_function;
    tied ← at_index tied_table press_scancode;
    (if (tied : bool) then
       functions ← gets extended_key_functions;
       f ← at_index functions press_scancode;
       call_key_function f
     else mret tt);;
    state ← mod_state;
    pressed ← gets is_extended_key_pressed;
    p ← at_index pressed press_scancode;
    keycode_handler (extended_scancode_to_keycode kc press_scancode) state (negb p) true;;
    write_extended press_scancode true
  else
    write_extended press_scancode false;;
    state ← mod_state;
    keycode_handler (extended_scancode_to_keycode kc press_scancode) state false false.

Definition parse_print_screen (pressed_not_released : bool) : C unit :=
  state ← mod_state;
  was ← gets is_print_screen_pressed;
  (if pressed_not_released
   then keycode_handler (print_screen_to_keycode kc) state (negb was) true
   else keycode_handler (print_screen_to_keycode kc) state false false);;
  modify (fun h => set_keys (is_key_pressed h) pressed_not_released (is_extended_key_pressed h) h).

Definition parse_pause_pressed : C unit :=
  state ← mod_state; keycode_handler (pause_to_keycode kc) state true true.

(** *** Scan code set 1 *)

Definition print_screen_pressed_sequence : list Z := [0xE0; 0x2A; 0xE0; 0x37].
Definition print_screen_released_sequence : list Z := [0xE0; 0xB7; 0xE0; 0xAA].
Definition pause_pressed_sequence : list Z := [0xE1; 0x1D; 0x45; 0xE1; 0x9D; 0xC5].

Definition write_prev (p : Z) (b : bool) : C unit :=
  l ← gets previous_extended_signal; at_index l p;;
  modify (fun h => set_seq (mk_seq (<[Z.to_nat p := b]> (previous_extended_signal h))
    (four_long_sequence h) (six_long_sequence h) (current_sequence_length h)) h).
Definition write_four (p : Z) (b : bool) : C unit :=
  l ← gets four_long_sequence; at_index l p;;
  modify (fun h => set_seq (mk_seq (previous_extended_signal h)
    (<[Z.to_nat p := b]> (four_long_sequence h)) (six_long_sequence h)
    (current_sequence_length h)) h).
Definition write_six (p : Z) (b : bool) : C unit :=
  l ← gets six_long_sequence; at_index l p;;
  modify (fun h => set_seq (mk_seq (previous_extended_signal h) (four_long_sequence h)
    (<[Z.to_nat p := b]> (six_long_sequence h)) (current_sequence_length h)) h).
Definition write_length (p : Z) (n : Z) : C unit :=
  l ← gets current_sequence_length; at_index l p;;
  modify (fun h => set_seq (mk_seq (previous_extended_signal h) (four_long_sequence h)
    (six_long_sequence h) (<[Z.to_nat p := n]> (current_sequence_length h))) h).

Definition read_prev (p : Z) : C bool := l ← gets previous_extended_signal; at_index l p.
Definition read_four (p : Z) : C bool := l ← gets four_long_sequence; at_index l p.
Definition read_six (p : Z) : C bool := l ← gets six_long_sequence; at_index l p.
Definition read_length (p : Z) : C Z := l ← gets current_sequence_length; at_index l p.

Definition next_length (p : Z) : C unit := n ← read_length p; write_length p (u8 (n + 1)).

(** The 4-byte part, entered when [four_long_sequence] is set. *)
Definition four_long_byte (scancode p : Z) : C unit :=
  write_prev p false;;
  i ← read_length p;
  pressed ← at_index print_screen_pressed_sequence i;
  if scancode =? pressed then
    if i =? 3 then
      write_length p 0;; write_four p false;; parse_print_screen true;; send_eoi
    else next_length p;; send_eoi
  else
    released ← at_index print_screen_released_sequence i;
    if scancode =? released then
      if i =? 3 then
        write_length p 0;; write_four p false;; parse_print_screen false;; send_eoi
      else next_length p;; send_eoi
    else write_length p 0;; write_four p false;; send_eoi.

(** The last part: a plain byte or the byte after 0xE0. *)
Definition two_long_byte (scancode p : Z) (extended_signal : bool) : C unit :=
  prev ← read_prev p;
  (if (prev : bool) then
     if EXTENED_SCANCODE_RELEASE_START <=? scancode
     then parse_extended_scan_code (scancode - EXTENED_SCANCODE_RELEASE_OFFSET) false
     else parse_extended_scan_code scancode true
   else
     if SCANCODE_RELEASE_START <=? scancode
     then parse_scan_code (scancode - SCANCODE_RELEASE_OFFSET) false
     else parse_scan_code scancode true);;
  write_prev p extended_signal;;
  send_eoi.

(** The 6-byte part and what follows it. *)
Definition six_or_two_byte (scancode p : Z) (extended_signal : bool) : C unit :=
  if scancode =? 0xE1 then
    write_six p true;; next_length p;; write_prev p false;; send_eoi
  else
    six ← read_six p;
    if (six : bool) then
      write_prev p false;;
      i ← read_length p;
      expected ← at_index pause_pressed_sequence i;
      if scancode =? expected then
        if i =? 5 then write_length p 0;; parse_pause_pressed;; send_eoi
        else next_length p;; send_eoi
      else two_long_byte scancode p extended_signal
    else two_long_byte scancode p extended_signal.

Definition keyboard_handler_scs1 (scancode port_number : Z) : C unit :=
  let extended_signal := scancode =? 0xE0 in
  prelude ← (if extended_signal then
               four ← read_four port_number;
               if (four : bool) then mret false else
               six ← read_six port_number;
               mret (negb six)
             else mret false);
  if (prelude : bool) then write_prev port_number true;; send_eoi else
  prev ← read_prev port_number;
  starts ← (if (prev : bool) then
              four ← read_four port_number;
              mret (negb four && ((scancode =? 0x2A) || (scancode =? 0xB7)))
            else mret false);
  if (starts : bool) then
    write_four port_number true;; write_length port_number 2;;
    write_prev port_number false;; send_eoi
  else
  four ← read_four port_number;
  if (four : bool) then four_long_byte scancode port_number
  else six_or_two_byte scancode port_number extended_signal.

Definition keyboard_handler_scs2 (scancode port_number : Z) : C unit :=
  kprintf "[PANIC-WARNING] scan code 2 handling not supported!\n" [].
Definition keyboard_handler_scs3 (scancode port_number : Z) : C unit :=
  kprintf "[PANIC-WARNING] scan code 3 handling not supported!\n" [].

Definition keyboard_handler (scancode port_number : Z) : C unit :=
  set ← gets (fun h => active_scancode_set (kps (h_keyboard h)));
  if set =? 1 then keyboard_handler_scs1 scancode port_number
  else if set =? 2 then keyboard_handler_scs3 scancode port_number
  else if set =? 3 then keyboard_handler_scs3 scancode port_number
  else abort_msg "Impossible scan scode set (%u)\n" [PNum set].

(** *** Setting up *)

Definition set_key_function (key : Z) (func : key_function) : C unit :=
  assert_handler_fmt (validate_scancode key) "key should be inside the thing\n" [];;
  modify (fun h => set_tables (<[Z.to_nat key := func]> (key_functions h))
    (<[Z.to_nat key := true]> (is_key_tied_to_function h)) (extended_key_functions h)
    (is_extended_key_tied_to_function h) h).

Definition set_extended_key_function (scancode : Z) (func : key_function) : C unit :=
  assert_handler_fmt (validate_extended_scancode scancode) "key should be inside the thing\n" [];;
  modify (fun h => set_tables (key_functions h) (is_key_tied_to_function h)
    (<[Z.to_nat scancode := func]> (extended_key_functions h))
    (<[Z.to_nat scancode := true]> (is_extended_key_tied_to_function h)) h).

(** The loop writes all 256 elements of the four tables. *)
Definition clear_key_tables (i : Z) : C unit :=
  modify (fun h => set_tables (<[Z.to_nat i := KF_nop]> (key_functions h))
    (<[Z.to_nat i := false]> (is_key_tied_to_function h))
    (<[Z.to_nat i := KF_nop]> (extended_key_functions h))
    (<[Z.to_nat i := false]> (is_extended_key_tied_to_function h)) h).

Definition setup_keyboard_extra : C unit :=
  for_range 256 0 clear_key_tables;;
  set_key_function SC_CAPSLOCK KF_pressed_caps_lock;;
  set_key_function SC_NUMLOCK KF_pressed_num_lock;;
  set_key_function SC_SCROLLLOCK KF_pressed_scroll_lock;;
  set_key_function SC_A KF_pressed_a;;
  set_extended_key_function SCE_UP KF_pressed_up;;
  set_extended_key_function SCE_DOWN KF_pressed_down;;
  set_extended_key_function SCE_LEFT KF_pressed_left;;
  set_extended_key_function SCE_RIGHT KF_pressed_right;;
  set_key_function SC_R KF_pressed_r;;
  set_key_function SC_F KF_pressed_f;;
  modify (set_leds_state (mk_leds false false false 0));;
  l ← gets led_keys;
  keyboard_call (set_leds l);;
  emit (ECall "ps2_keyboard_cpp_init" []).

(** [setup_keyboard] of [ps2_keyboard.c] *)
Definition setup_keyboard : C ps2_keyboard_error_code :=
  initialized ← gets (fun h => kps_initialized (kps (h_keyboard h)));
  assert_handler_fmt initialized "The command must target a keyboard\n!" [];;
  keyboard_call disable_keyboard;;
  err ← keyboard_call (set_scan_code_set 1);
  if is_kb_err err then mret err else
  setup_keyboard_extra;;
  keyboard_call enable_keyboard;;
  mret PS2_KB_ERR_none.
End handler.
