(* ===== verification/KeyboardHandlerFacts.v ===== *)
(** * Facts about the keyboard interrupt handler

    The decoder of scan code set 1 implements an abstract keyboard: fed the bytes of any
    sequence of key events, one interrupt per byte, it reports exactly those events, in
    order, with the modifier state of the keys held, and acknowledges every interrupt.
    Where the code departs from that (the pause key, the second port) is stated too. *)

From S2P Require Import Prelude Machine Ps2Types Ps2Controller Ps2Setup Sim8042 Ps2ControllerFacts.
From S2P Require Import Pic Idt Keyboard KeyboardFacts Scancodes KeyboardHandler.

(** ** The abstract keyboard *)

(** An event of a key with a one-byte code, with an extended code, of print screen. *)
Inductive key_event :=
| Key (code : Z) (pressed : bool)
| Ext (code : Z) (pressed : bool)
| PrintScreen (pressed : bool).

(** The bytes a keyboard sends for it in scan code set 1. *)
Definition encode_event (e : key_event) : list Z :=
  let byte c (p : bool) := if p then c else c + 0x80 in
  match e with
  | Key c p => [byte c p]
  | Ext c p => [0xE0; byte c p]
  | PrintScreen true => [0xE0; 0x2A; 0xE0; 0x37]
  | PrintScreen false => [0xE0; 0xB7; 0xE0; 0xAA]
  end.

(** The codes inside the arrays of the handler; 0x2A and 0x37 belong to print screen,
    0x60 and 0x61 would collide with the prefixes 0xE0 and 0xE1. *)
Definition valid_event (e : key_event) : bool :=
  match e with
  | Key c _ => (1 <=? c) && (c <=? SC_F12)
  | Ext c _ => (0x10 <=? c) && (c <=? SCE_MEDIA_SELECT) &&
               negb (existsb (Z.eqb c) [0x2A; 0x37; 0x60; 0x61])
  | PrintScreen _ => true
  end.

(** Which keys are down. *)
Record keys_down := mk_down { down : list bool; down_ext : list bool; down_print : bool }.

(** What the keyboard reports for an event, and the keys afterwards.  A press is reported
    with the keys held before it, a release with those still held. *)
Definition report (keycode : Z) (s : keys_down) (first pressed : bool) : event :=
  ECall "keycode_handler"
    (keycode :: mods_args (get_current_mod_state (down s) (down_ext s)) ++
     [Z.b2z first; Z.b2z pressed]).

Definition abstract_step (kc : keycode_functions) (e : key_event) (s : keys_down) :
    event * keys_down :=
  match e with
  | Key c true =>
      (report (scancode_to_keycode kc c) s (negb (bit_at (down s) c)) true,
       mk_down (<[Z.to_nat c := true]> (down s)) (down_ext s) (down_print s))
  | Key c false =>
      let s := mk_down (<[Z.to_nat c := false]> (down s)) (down_ext s) (down_print s) in
      (report (scancode_to_keycode kc c) s false false, s)
  | Ext c true =>
      (report (extended_scancode_to_keycode kc c) s (negb (bit_at (down_ext s) c)) true,
       mk_down (down s) (<[Z.to_nat c := true]> (down_ext s)) (down_print s))
  | Ext c false =>
      let s := mk_down (down s) (<[Z.to_nat c := false]> (down_ext s)) (down_print s) in
      (report (extended_scancode_to_keycode kc c) s false false, s)
  | PrintScreen true =>
      (report (print_screen_to_keycode kc) s (negb (down_print s)) true,
       mk_down (down s) (down_ext s) true)
  | PrintScreen false =>
      (report (print_screen_to_keycode kc) s false false, mk_down (down s) (down_ext s) false)
  end.

Fixpoint abstract_run (kc : keycode_functions) (es : list key_event) (s : keys_down) :
    list event * keys_down :=
  match es with
  | [] => ([], s)
  | e :: es =>
      let '(r, s) := abstract_step kc e s in
      let '(rs, s) := abstract_run kc es s in (r :: rs, s)
  end.

(** ** What is observed of the handler *)

Definition is_report (e : event) : bool :=
  match e with ECall n _ => bool_decide (n = "keycode_handler"%string) | _ => false end.
Definition is_eoi (e : event) : bool :=
  match e with ECall n _ => bool_decide (n = "apic_send_eoi"%string) | _ => false end.
Definition reports (es : list event) : list event := List.filter is_report es.
Definition eois (es : list event) : nat := length (List.filter is_eoi es).

Definition keys_of {T} (h : handler_globals T) : keys_down :=
  mk_down (is_key_pressed h) (is_extended_key_pressed h) (is_print_screen_pressed h).

(** The interrupts of a keyboard on port 1. *)
Section interrupts.
Context {D T : Type} `{PortDevice D} `{TerminalKeys D T} (kc : keycode_functions).
Fixpoint interrupts (bytes : list Z) : M D (handler_globals T) unit :=
  match bytes with
  | [] => mret tt
  | b :: bytes => keyboard_handler kc b 1;; interrupts bytes
  end.
End interrupts.

(** The terminal operations return and call nothing outside. *)
Definition well_behaved {D G} (m : M D G unit) : Prop :=
  forall d g, o_exit (m d g) = Done tt /\ Forall port_event (o_events (m d g)).
Class TerminalLaws (D T : Type) `{TerminalKeys D T} := {
  arrow_up_ok : well_behaved (D:=D) (G:=T) terminal_arrow_up;
  arrow_down_ok : well_behaved (D:=D) (G:=T) terminal_arrow_down;
  arrow_left_ok : well_behaved (D:=D) (G:=T) terminal_arrow_left;
  arrow_right_ok : well_behaved (D:=D) (G:=T) terminal_arrow_right;
  ctrl_r_ok : well_behaved (D:=D) (G:=T) terminal_ctrl_r;
  ctrl_f_ok : well_behaved (D:=D) (G:=T) terminal_ctrl_f;
}.

(** The handler is set up: the arrays have their C sizes, no table entry is null, scan code
    set 1 is active. *)
Record handler_ready {T} (h : handler_globals T) : Prop := {
  hr_set : active_scancode_set (kps (h_keyboard h)) = 1;
  hr_pressed : length (is_key_pressed h) = 89%nat;
  hr_extended : length (is_extended_key_pressed h) = 110%nat;
  hr_tied : length (is_key_tied_to_function h) = 256%nat;
  hr_ext_tied : length (is_extended_key_tied_to_function h) = 256%nat;
  hr_functions : length (key_functions h) = 256%nat /\ Forall (.≠ KF_null) (key_functions h);
  hr_ext_functions : length (extended_key_functions h) = 256%nat /\
    Forall (.≠ KF_null) (extended_key_functions h);
}.

(** The decoder of port 1 is in the state [prev], [four], [six], [n]. *)
Definition decoder_at {T} (h : handler_globals T) (prev four six : bool) (n : Z) : Prop :=
  exists p0 f0 s0 n0, seq_of h = mk_seq [p0; prev] [f0; four] [s0; six] [n0; n].
Definition idle {T} (h : handler_globals T) : Prop := exists n, decoder_at h false false false n.

(** ** Runs, observed through the reports and the acknowledgements *)

Definition runs {D G A} (m : M D G A) (g : G) (Q : A -> G -> Prop) (rs : list event) (n : nat) :
    Prop :=
  forall d, exists a, o_exit (m d g) = Done a /\ Q a (o_glob (m d g)) /\
    reports (o_events (m d g)) = rs /\ eois (o_events (m d g)) = n.

Section runs_rules.
Context {D G : Type}.

Lemma runs_bind {A B} (m : M D G A) (k : A -> M D G B) g P Q r1 r2 n1 n2 :
  runs m g P r1 n1 -> (forall a g', P a g' -> runs (k a) g' Q r2 n2) ->
  runs (m ≫= k) g Q (r1 ++ r2) (n1 + n2).
Proof.
  intros Hm Hk d. destruct (Hm d) as (a & He & HP & Hr & Hn).
  destruct (Hk a _ HP (o_dev (m d g))) as (b & He' & HQ & Hr' & Hn').
  exists b. unfold mbind, M_bind. rewrite He. simpl. unfold reports, eois in *.
  rewrite !List.filter_app, length_app. by rewrite Hr, Hn, Hr', Hn'.
Qed.

Lemma runs_quiet {A B} (m : M D G A) (k : A -> M D G B) g P Q r n :
  runs m g P [] 0 -> (forall a g', P a g' -> runs (k a) g' Q r n) -> runs (m ≫= k) g Q r n.
Proof. apply runs_bind. Qed.

Lemma runs_weaken {A} (m : M D G A) g (P Q : A -> G -> Prop) r n :
  runs m g P r n -> (forall a g', P a g' -> Q a g') -> runs m g Q r n.
Proof. intros Hm HPQ d. destruct (Hm d) as (a & ? & ? & ?). eauto. Qed.

Lemma runs_ret {A} (a : A) g (Q : A -> G -> Prop) : Q a g -> runs (D:=D) (mret a) g Q [] 0.
Proof. intros HQ d. by exists a. Qed.

Lemma runs_gets_bind {A B} (f : G -> A) (k : A -> M D G B) g Q r n :
  runs (k (f g)) g Q r n -> runs (gets f ≫= k) g Q r n.
Proof.
  intros Hk. apply (runs_quiet _ _ _ (fun a g' => a = f g /\ g' = g)).
  - intros d. by exists (f g).
  - by intros a g' [-> ->].
Qed.

Lemma runs_cell_bind {A B} (c : option A) a (k : A -> M D G B) g Q r n :
  c = Some a -> runs (k a) g Q r n -> runs (read_cell c ≫= k) g Q r n.
Proof.
  intros -> Hk. apply (runs_quiet _ _ _ (fun a' g' => a' = a /\ g' = g)).
  - by apply runs_ret.
  - by intros a' g' [-> ->].
Qed.

Lemma runs_modify f g (Q : unit -> G -> Prop) : Q tt (f g) -> runs (D:=D) (modify f) g Q [] 0.
Proof. intros HQ d. by exists tt. Qed.

Lemma runs_emit e g (Q : unit -> G -> Prop) :
  Q tt g -> runs (D:=D) (emit e) g Q (reports [e]) (eois [e]).
Proof. intros HQ d. by exists tt. Qed.
End runs_rules.

Lemma port_events_quiet es : Forall port_event es -> reports es = [] /\ eois es = 0%nat.
Proof.
  induction 1 as [|e es He _ [IH1 IH2]]; [done|].
  destruct e; try done; unfold reports, eois in *; simpl in *; by rewrite IH1, IH2.
Qed.

(** ** The state after an event *)

Section upd.
Context {T : Type}.

(** [h] with another terminal, LEDs, keys and decoder state. *)
Definition upd (t : T) (l : kcb_led_state_t) (ks : keys_down) (s : sequence_state)
    (h : handler_globals T) : handler_globals T :=
  set_seq s (set_keys (down ks) (down_print ks) (down_ext ks)
    (set_leds_state l (set_h_terminal t h))).

Lemma upd_refl (h : handler_globals T) : h = upd (h_terminal h) (led_keys h) (keys_of h) (seq_of h) h.
Proof. by destruct h. Qed.

Lemma keys_of_upd t l ks s (h : handler_globals T) : keys_of (upd t l ks s h) = ks.
Proof. by destruct ks. Qed.

Lemma ready_upd t l ks s (h : handler_globals T) :
  handler_ready h -> length (down ks) = 89%nat -> length (down_ext ks) = 110%nat ->
  handler_ready (upd t l ks s h).
Proof. intros []. by constructor. Qed.
End upd.

(** The only change is to the terminal and the LEDs, to the keys and to the decoder. *)
Definition goes_to {T A} (ks : keys_down) (s : sequence_state) (h : handler_globals T)
    (_ : A) (h' : handler_globals T) : Prop :=
  exists t l, h' = upd t l ks s h.

Section decoder.
Context {D T : Type} `{PortDevice D} `{TerminalLaws D T} (kc : keycode_functions).
Implicit Types h : handler_globals T.

Lemma runs_terminal (m : M D T unit) h :
  well_behaved m -> runs (terminal_call m) h (goes_to (keys_of h) (seq_of h) h) [] 0.
Proof.
  intros Hm d. destruct (Hm d (h_terminal h)) as [He Hp].
  destruct (port_events_quiet _ Hp) as [Hr Hn].
  exists tt. split; [done|]. split; [|done].
  exists (o_glob (m d (h_terminal h))), (led_keys h). by destruct h.
Qed.

Lemma runs_toggle_led f h :
  runs (D:=D) (toggle_led f) h (goes_to (keys_of h) (seq_of h) h) [] 0.
Proof.
  unfold toggle_led. eapply runs_quiet; [by apply (runs_modify _ _
    (fun _ h' => h' = set_leds_state (f (led_keys h)) h))|intros _ h1 ->].
  apply runs_gets_bind.
  eapply (runs_quiet _ _ _ (fun _ => eq (set_leds_state (f (led_keys h)) h)));
    [|intros a h2 <-; apply runs_ret; exists (h_terminal h), (f (led_keys h)); by destruct h].
  intros d. unfold keyboard_call, zoom. cbn [o_exit o_glob o_events].
  set (k := h_keyboard _). set (l := led_keys _).
  destruct (total_set_leds l d k) as (e & He & _).
  destruct (local_set_leds l d k) as [Hp Hg].
  exists e. rewrite He, Hg. split; [done|]. split; [by destruct h|by apply port_events_quiet].
Qed.

Lemma runs_key_function f h :
  f <> KF_null -> runs (D:=D) (call_key_function f) h (goes_to (keys_of h) (seq_of h) h) [] 0.
Proof.
  assert (Hret : runs (D:=D) (mret tt) h (goes_to (keys_of h) (seq_of h) h) [] 0).
  { apply runs_ret. exists (h_terminal h), (led_keys h). apply upd_refl. }
  intros Hf. destruct f; try done; try apply runs_toggle_led; try apply runs_terminal;
    try apply arrow_up_ok; try apply arrow_down_ok; try apply arrow_left_ok;
    try apply arrow_right_ok.
  - unfold call_key_function, pressed_r. apply runs_gets_bind.
    destruct (is_ctrl_held h); [apply runs_terminal, ctrl_r_ok|done].
  - unfold call_key_function, pressed_f. apply runs_gets_bind.
    destruct (is_ctrl_held h); [apply runs_terminal, ctrl_f_ok|done].
Qed.
End decoder.

Lemma bit_at_lookup l i : (Z.to_nat i < length l)%nat -> l !! Z.to_nat i = Some (bit_at l i).
Proof. intros Hi. unfold bit_at. destruct (lookup_lt_is_Some_2 l _ Hi) as [b ->]. done. Qed.

Lemma function_at (l : list key_function) i :
  length l = 256%nat /\ Forall (.≠ KF_null) l -> 0 <= i < 256 ->
  exists f, l !! Z.to_nat i = Some f /\ f <> KF_null.
Proof.
  intros [Hl Hf] Hi. destruct (lookup_lt_is_Some_2 l (Z.to_nat i)) as [f Hlf]; [lia|].
  exists f. split; [done|]. by apply (proj1 (Forall_lookup _ _) Hf (Z.to_nat i)).
Qed.

Section parse.
Context {D T : Type} `{PortDevice D} `{TerminalLaws D T} (kc : keycode_functions).
Implicit Types h : handler_globals T.

(** A report followed by an update. *)
Lemma runs_report_then keycode h first pressed (m : M D (handler_globals T) unit) Q :
  runs m h Q [] 0 ->
  runs (keycode_handler keycode
          (get_current_mod_state (is_key_pressed h) (is_extended_key_pressed h)) first pressed;; m)
    h Q [report keycode (keys_of h) first pressed] 0.
Proof.
  intros Hm. change [report keycode (keys_of h) first pressed]
    with ([report keycode (keys_of h) first pressed] ++ []).
  eapply (runs_bind _ _ _ (fun _ h' => h' = h) _ _ _ 0 0).
  - by apply runs_emit.
  - by intros _ h' ->.
Qed.

(** The key function of a pressed key, if it is tied to one. *)
Lemma runs_tied (tied : bool) functions f h c :
  functions h !! Z.to_nat c = Some f -> f <> KF_null ->
  runs (D:=D) (if tied then functions ← gets functions; f ← at_index functions c;
                            call_key_function f else mret tt)
    h (goes_to (keys_of h) (seq_of h) h) [] 0.
Proof.
  intros Hf Hn. destruct tied.
  - apply runs_gets_bind. eapply runs_cell_bind; [exact Hf|]. by apply runs_key_function.
  - apply runs_ret. exists (h_terminal h), (led_keys h). apply upd_refl.
Qed.

Lemma runs_write_pressed c b t l ks s h :
  (Z.to_nat c < length (down ks))%nat ->
  runs (D:=D) (write_pressed c b) (upd t l ks s h)
    (goes_to (mk_down (<[Z.to_nat c := b]> (down ks)) (down_ext ks) (down_print ks)) s h) [] 0.
Proof.
  intros Hc. unfold write_pressed. apply runs_gets_bind.
  eapply runs_cell_bind; [by apply bit_at_lookup|]. apply runs_modify. by exists t, l.
Qed.

Lemma runs_write_extended c b t l ks s h :
  (Z.to_nat c < length (down_ext ks))%nat ->
  runs (D:=D) (write_extended c b) (upd t l ks s h)
    (goes_to (mk_down (down ks) (<[Z.to_nat c := b]> (down_ext ks)) (down_print ks)) s h) [] 0.
Proof.
  intros Hc. unfold write_extended. apply runs_gets_bind.
  eapply runs_cell_bind; [by apply bit_at_lookup|]. apply runs_modify. by exists t, l.
Qed.

Lemma runs_parse_scan_code c pressed h :
  handler_ready h -> 0 <= c <= 88 ->
  let '(r, ks) := abstract_step kc (Key c pressed) (keys_of h) in
  runs (D:=D) (parse_scan_code kc c pressed) h (goes_to ks (seq_of h) h) [r] 0.
Proof.
  intros Hr Hc. pose proof (hr_pressed h Hr) as Hlen. unfold parse_scan_code.
  destruct pressed; cbn [abstract_step].
  - apply runs_gets_bind.
    eapply runs_cell_bind; [apply bit_at_lookup; rewrite (hr_tied h Hr); lia|].
    destruct (function_at _ c (hr_functions h Hr)) as (f & Hf & Hn); [lia|].
    eapply runs_quiet; [by eapply runs_tied|intros _ h1 (t & l & ->)].
    apply runs_gets_bind, runs_gets_bind.
    eapply runs_cell_bind; [apply bit_at_lookup; cbn; lia|].
    apply (runs_report_then _ (upd _ _ _ _ _)). apply runs_write_pressed. cbn. lia.
  - rewrite (upd_refl h) at 1.
    eapply runs_quiet; [apply runs_write_pressed; cbn; lia|intros _ h1 (t & l & ->)].
    apply runs_gets_bind. unfold keycode_handler. apply runs_emit. by exists t, l.
Qed.

Lemma runs_parse_extended c pressed h :
  handler_ready h -> 0 <= c <= 109 ->
  let '(r, ks) := abstract_step kc (Ext c pressed) (keys_of h) in
  runs (D:=D) (parse_extended_scan_code kc c pressed) h (goes_to ks (seq_of h) h) [r] 0.
Proof.
  intros Hr Hc. pose proof (hr_extended h Hr) as Hlen. unfold parse_extended_scan_code.
  destruct pressed; cbn [abstract_step].
  - apply runs_gets_bind.
    eapply runs_cell_bind; [apply bit_at_lookup; rewrite (hr_ext_tied h Hr); lia|].
    destruct (function_at _ c (hr_ext_functions h Hr)) as (f & Hf & Hn); [lia|].
    eapply runs_quiet; [by eapply runs_tied|intros _ h1 (t & l & ->)].
    apply runs_gets_bind, runs_gets_bind.
    eapply runs_cell_bind; [apply bit_at_lookup; cbn; lia|].
    apply (runs_report_then _ (upd _ _ _ _ _)). apply runs_write_extended. cbn. lia.
  - rewrite (upd_refl h) at 1.
    eapply runs_quiet; [apply runs_write_extended; cbn; lia|intros _ h1 (t & l & ->)].
    apply runs_gets_bind. unfold keycode_handler. apply runs_emit. by exists t, l.
Qed.

Lemma runs_parse_print_screen pressed h :
  let '(r, ks) := abstract_step kc (PrintScreen pressed) (keys_of h) in
  runs (D:=D) (parse_print_screen kc pressed) h (goes_to ks (seq_of h) h) [r] 0.
Proof.
  unfold parse_print_screen.
  destruct pressed; cbn [abstract_step]; apply runs_gets_bind, runs_gets_bind;
    apply runs_report_then, runs_modify; exists (h_terminal h), (led_keys h); by destruct h.
Qed.
End parse.

(** ** Bytes *)

Section bytes.
Context {D T : Type} `{PortDevice D} `{TerminalLaws D T} (kc : keycode_functions).
Variables (t : T) (l : kcb_led_state_t) (ks : keys_down) (h : handler_globals T).
Variables (p0 f0 s0 : bool) (n0 : Z).

Definition state_at (prev four six : bool) (n : Z) : handler_globals T :=
  upd t l ks (mk_seq [p0; prev] [f0; four] [s0; six] [n0; n]) h.

Lemma byte_prefix prev n :
  runs (D:=D) (keyboard_handler_scs1 kc 0xE0 1) (state_at prev false false n)
    (fun _ h' => h' = state_at true false false n) [] 1.
Proof. intros d. by exists tt. Qed.

Lemma byte_print_start n b :
  b = 0x2A \/ b = 0xB7 ->
  runs (D:=D) (keyboard_handler_scs1 kc b 1) (state_at true false false n)
    (fun _ h' => h' = state_at false true false 2) [] 1.
Proof. intros [-> | ->] d; by exists tt. Qed.

Lemma byte_print_middle :
  runs (D:=D) (keyboard_handler_scs1 kc 0xE0 1) (state_at false true false 2)
    (fun _ h' => h' = state_at false true false 3) [] 1.
Proof. intros d. by exists tt. Qed.

Lemma byte_print_end pressed :
  let '(r, ks') := abstract_step kc (PrintScreen pressed) ks in
  runs (D:=D) (keyboard_handler_scs1 kc (if pressed then 0x37 else 0xAA) 1)
    (state_at false true false 3)
    (fun _ h' => h' = upd t l ks' (mk_seq [p0; false] [f0; false] [s0; false] [n0; 0]) h) [r] 1.
Proof. destruct pressed; intros d; by exists tt. Qed.

Lemma runs_ret_bind {A B} (a : A) (k : A -> M D (handler_globals T) B) g Q r n :
  runs (k a) g Q r n -> runs (mret a ≫= k) g Q r n.
Proof.
  intros Hk. apply (runs_quiet _ _ _ (fun a' g' => a' = a /\ g' = g)); [by apply runs_ret|].
  by intros a' g' [-> ->].
Qed.

Lemma runs_read_bind {A B} (f : handler_globals T -> list A) i a
    (k : A -> M D (handler_globals T) B) g Q r n :
  f g !! Z.to_nat i = Some a -> runs (k a) g Q r n ->
  runs ((ls ← gets f; at_index ls i) ≫= k) g Q r n.
Proof.
  intros Hf Hk. apply (runs_quiet _ _ _ (fun a' g' => a' = a /\ g' = g)).
  - apply runs_gets_bind. unfold at_index. rewrite Hf. by apply runs_ret.
  - by intros a' g' [-> ->].
Qed.

(** Outside the sequences a byte is a plain one, or the one after 0xE0. *)
Lemma byte_two_long sc prev n Q r k :
  sc <> 0xE0 -> sc <> 0xE1 -> (prev = true -> sc <> 0x2A /\ sc <> 0xB7) ->
  runs (D:=D) (two_long_byte kc sc 1 false) (state_at prev false false n) Q r k ->
  runs (keyboard_handler_scs1 kc sc 1) (state_at prev false false n) Q r k.
Proof.
  intros Hn0 Hn1 Hp Hk. unfold keyboard_handler_scs1.
  replace (sc =? 0xE0) with false by lia. apply runs_ret_bind.
  eapply runs_read_bind; [reflexivity|].
  assert (Hs : forall Q' r' k' (m : bool -> M D (handler_globals T) unit),
    runs (m false) (state_at prev false false n) Q' r' k' ->
    runs (starts ← (if prev then four ← read_four 1;
                      mret (negb four && ((sc =? 0x2A) || (sc =? 0xB7))) else mret false); m starts)
      (state_at prev false false n) Q' r' k').
  { intros Q' r' k' m Hm. destruct prev; [|by apply runs_ret_bind].
    destruct (Hp eq_refl). eapply runs_quiet.
    - eapply runs_read_bind; [reflexivity|]. cbn [negb andb].
      replace ((sc =? 0x2A) || (sc =? 0xB7)) with false by lia.
      apply (runs_ret _ _ (fun a g => a = false /\ g = state_at true false false n)). done.
    - by intros a g' [-> ->]. }
  apply Hs. eapply runs_read_bind; [reflexivity|]. unfold six_or_two_byte.
  replace (sc =? 0xE1) with false by lia.
  eapply runs_read_bind; [reflexivity|]. done.
Qed.
End bytes.

Section events.
Context {D T : Type} `{PortDevice D} `{TerminalLaws D T} (kc : keycode_functions).
Implicit Types h : handler_globals T.

(** The end of an event: the flag of 0xE0 is cleared and the interrupt acknowledged. *)
Lemma runs_finish t l ks p0 p f s n h :
  runs (D:=D) (write_prev 1 false;; send_eoi) (upd t l ks (mk_seq [p0; p] f s n) h)
    (goes_to ks (mk_seq [p0; false] f s n) h) [] 1.
Proof. intros d. exists tt. repeat split. by exists t, l. Qed.

Lemma runs_then_finish (m : M D (handler_globals T) unit) t l ks ks' p0 p f s n h r :
  runs m (upd t l ks (mk_seq [p0; p] f s n) h)
    (goes_to ks' (mk_seq [p0; p] f s n) (upd t l ks (mk_seq [p0; p] f s n) h)) [r] 0 ->
  runs (m;; write_prev 1 false;; send_eoi) (upd t l ks (mk_seq [p0; p] f s n) h)
    (goes_to ks' (mk_seq [p0; false] f s n) h) [r] 1.
Proof.
  intros Hm. change [r] with ([r] ++ []).
  eapply (runs_bind _ _ _ _ _ _ _ 0 1); [exact Hm|]. intros _ h1 (t' & l' & ->).
  exact (runs_finish t' l' ks' p0 p f s n h).
Qed.

Lemma runs_key_byte c pressed t l ks p0 f0 s0 n0 n h :
  handler_ready (upd t l ks (mk_seq [p0; false] [f0; false] [s0; false] [n0; n]) h) ->
  1 <= c <= 88 ->
  let '(r, ks') := abstract_step kc (Key c pressed) ks in
  runs (D:=D) (two_long_byte kc (if pressed then c else c + 0x80) 1 false)
    (state_at t l ks h p0 f0 s0 n0 false false false n)
    (goes_to ks' (mk_seq [p0; false] [f0; false] [s0; false] [n0; n]) h) [r] 1.
Proof.
  intros Hr Hc. pose proof (runs_parse_scan_code kc c pressed _ Hr ltac:(lia)) as Hp.
  destruct (abstract_step kc (Key c pressed) ks) as [r ks'] eqn:He.
  rewrite keys_of_upd, He in Hp.
  unfold two_long_byte. eapply runs_read_bind; [reflexivity|]. cbv beta iota.
  unfold SCANCODE_RELEASE_START, SCANCODE_RELEASE_OFFSET. apply runs_then_finish.
  destruct pressed.
  - by replace (0x81 <=? c) with false by lia.
  - replace (0x81 <=? c + 0x80) with true by lia. by replace (c + 0x80 - 0x80) with c by lia.
Qed.

Lemma runs_ext_byte c pressed t l ks p0 f0 s0 n0 n h :
  handler_ready (upd t l ks (mk_seq [p0; true] [f0; false] [s0; false] [n0; n]) h) ->
  0x10 <= c <= 109 ->
  let '(r, ks') := abstract_step kc (Ext c pressed) ks in
  runs (D:=D) (two_long_byte kc (if pressed then c else c + 0x80) 1 false)
    (state_at t l ks h p0 f0 s0 n0 true false false n)
    (goes_to ks' (mk_seq [p0; false] [f0; false] [s0; false] [n0; n]) h) [r] 1.
Proof.
  intros Hr Hc. pose proof (runs_parse_extended kc c pressed _ Hr ltac:(lia)) as Hp.
  destruct (abstract_step kc (Ext c pressed) ks) as [r ks'] eqn:He.
  rewrite keys_of_upd, He in Hp.
  unfold two_long_byte. eapply runs_read_bind; [reflexivity|]. cbv beta iota.
  unfold EXTENED_SCANCODE_RELEASE_START, EXTENED_SCANCODE_RELEASE_OFFSET.
  apply runs_then_finish. destruct pressed.
  - by replace (0x90 <=? c) with false by lia.
  - replace (0x90 <=? c + 0x80) with true by lia. by replace (c + 0x80 - 0x80) with c by lia.
Qed.

(** The interrupt of one byte, when the handler is ready. *)
Lemma runs_interrupt b h Q r n bytes Q' r' n' :
  active_scancode_set (kps (h_keyboard h)) = 1 ->
  runs (D:=D) (keyboard_handler_scs1 kc b 1) h Q r n ->
  (forall a h', Q a h' -> runs (interrupts kc bytes) h' Q' r' n') ->
  runs (interrupts kc (b :: bytes)) h Q' (r ++ r') (n + n').
Proof.
  intros Hset Hm Hk. simpl. eapply runs_bind; [|exact Hk].
  unfold keyboard_handler. apply runs_gets_bind. by rewrite Hset.
Qed.

Lemma runs_interrupts_app b1 b2 h Q r n Q' r' n' :
  runs (D:=D) (interrupts kc b1) h Q r n ->
  (forall a h', Q a h' -> runs (interrupts kc b2) h' Q' r' n') ->
  runs (interrupts kc (b1 ++ b2)) h Q' (r ++ r') (n + n').
Proof.
  intros Hb1 Hb2 d. destruct (runs_bind _ (fun _ => interrupts kc b2) h Q Q' r r' n n' Hb1 Hb2 d)
    as (a & He & HQ & Hr & Hn).
  exists a. assert (Heq : interrupts (D:=D) (T:=T) kc (b1 ++ b2) ≡ (interrupts kc b1;; interrupts kc b2)).
  { clear. induction b1 as [|b b1 IH]; simpl; [by rewrite bind_ret_l|].
    rewrite bind_bind. apply bind_proper; [intros ?; exact IH|done]. }
  rewrite (Heq d h). done.
Qed.

Definition keys_wf (ks : keys_down) : Prop :=
  length (down ks) = 89%nat /\ length (down_ext ks) = 110%nat.

Lemma abstract_step_wf e ks : keys_wf ks -> keys_wf (snd (abstract_step kc e ks)).
Proof.
  intros [H1' H2']. destruct e as [c []|c []|[]]; split; simpl; by rewrite ?length_insert.
Qed.

(** One event. *)
Lemma runs_event e ks h :
  handler_ready h -> keys_of h = ks -> idle h -> valid_event e = true ->
  let '(r, ks') := abstract_step kc e ks in
  runs (D:=D) (interrupts kc (encode_event e)) h
    (fun _ h' => handler_ready h' /\ keys_of h' = ks' /\ idle h') [r]
    (length (encode_event e)).
Proof.
  intros Hr Hks (n & p0 & f0 & s0 & n0 & Hseq) Hv.
  pose proof (upd_refl h) as Hh. rewrite Hks, Hseq in Hh.
  set (t := h_terminal h) in Hh. set (l := led_keys h) in Hh.
  pose proof (hr_set h Hr) as Hset.
  assert (Hwf : keys_wf ks) by (subst ks; destruct Hr; done).
  pose proof (abstract_step_wf e ks Hwf) as Hwf'.
  assert (Hdone : forall h1 n' a ks', snd (abstract_step kc e ks) = ks' ->
    goes_to (A:=unit) ks' (mk_seq [p0; false] [f0; false] [s0; false] [n0; n']) h a h1 ->
    handler_ready h1 /\ keys_of h1 = ks' /\ idle h1).
  { intros h1 n' a ks' <- (t' & l' & ->). destruct Hwf'.
    split; [by apply ready_upd|]. split; [apply keys_of_upd|]. exists n', p0, f0, s0, n0. done. }
  destruct (abstract_step kc e ks) as [r ks'] eqn:Hstep. simpl in Hwf', Hdone.
  assert (Hfin : forall h1 a n', goes_to (A:=unit) ks' (mk_seq [p0; false] [f0; false] [s0; false]
    [n0; n']) h a h1 -> runs (D:=D) (interrupts kc []) h1
      (fun _ h' => handler_ready h' /\ keys_of h' = ks' /\ idle h') [] 0).
  { intros h1 a n' Hg. apply runs_ret. by eapply Hdone. }
  assert (Hseta : forall pv fr sx n', active_scancode_set (kps (h_keyboard
    (upd t l ks (mk_seq [p0; pv] [f0; fr] [s0; sx] [n0; n']) h))) = 1) by done.
  assert (Hra : forall pv fr sx n', handler_ready
    (upd t l ks (mk_seq [p0; pv] [f0; fr] [s0; sx] [n0; n']) h)).
  { intros. destruct Hwf. by apply ready_upd. }
  destruct e as [c pr|c pr|pr]; cbn [encode_event length].
  - pose proof (runs_key_byte c pr t l ks p0 f0 s0 n0 n h (Hra _ _ _ _)) as Hk.
    cbn [valid_event] in Hv. unfold SC_F12 in Hv.
    specialize (Hk ltac:(lia)). rewrite Hstep in Hk. rewrite Hh at 1.
    eapply (runs_interrupt _ _ _ [r] 1 [] _ [] 0); [done| |intros; by eapply Hfin].
    apply byte_two_long; [destruct pr; lia..|done|exact Hk].
  - cbn [valid_event existsb] in Hv. unfold SCE_MEDIA_SELECT in Hv.
    pose proof (runs_ext_byte c pr t l ks p0 f0 s0 n0 n h (Hra _ _ _ _)) as Hk.
    specialize (Hk ltac:(lia)). rewrite Hstep in Hk. rewrite Hh at 1.
    eapply (runs_interrupt _ _ _ [] 1 _ _ [r] 1); [done|apply byte_prefix|intros _ h1 ->].
    eapply (runs_interrupt _ _ _ [r] 1 [] _ [] 0); [done| |intros; by eapply Hfin].
    apply byte_two_long; [destruct pr; lia..|destruct pr; lia|exact Hk].
  - pose proof (byte_print_end (D:=D) kc t l ks h p0 f0 s0 n0 pr) as Hk. rewrite Hstep in Hk.
    rewrite Hh at 1.
    assert (Hrun : runs (D:=D) (interrupts kc [0xE0; if pr then 0x2A else 0xB7; 0xE0;
        if pr then 0x37 else 0xAA]) (state_at t l ks h p0 f0 s0 n0 false false false n)
        (fun _ h' => handler_ready h' /\ keys_of h' = ks' /\ idle h') [r] 4).
    { eapply (runs_interrupt _ _ _ [] 1 _ _ [r] 3); [done|apply byte_prefix|intros _ h1 ->].
      eapply (runs_interrupt _ _ _ [] 1 _ _ [r] 2); [done|apply byte_print_start; destruct pr; auto|intros _ h1 ->].
      eapply (runs_interrupt _ _ _ [] 1 _ _ [r] 1); [done|apply byte_print_middle|intros _ h1 ->].
      eapply (runs_interrupt _ _ _ [r] 1 [] _ [] 0); [done|exact Hk|intros a h1 ->].
      apply (Hfin _ a 0). by exists t, l. }
    destruct pr; exact Hrun.
Qed.

(** A sequence of events. *)
Lemma runs_events es ks h :
  handler_ready h -> keys_of h = ks -> idle h -> Forall (fun e => valid_event e = true) es ->
  let '(rs, ks') := abstract_run kc es ks in
  let bytes := concat (map encode_event es) in
  runs (D:=D) (interrupts kc bytes) h
    (fun _ h' => handler_ready h' /\ keys_of h' = ks' /\ idle h') rs (length bytes).
Proof.
  revert ks h. induction es as [|e es IH]; intros ks h Hr Hks Hi Hv; simpl.
  - by apply runs_ret.
  - apply Forall_cons_1 in Hv as [Hv Hvs].
    pose proof (runs_event e ks h Hr Hks Hi Hv) as He.
    destruct (abstract_step kc e ks) as [r ks1].
    destruct (abstract_run kc es ks1) as [rs ks2] eqn:Hrun.
    rewrite length_app. change (r :: rs) with ([r] ++ rs).
    eapply runs_interrupts_app; [exact He|]. intros _ h1 (Hr1 & Hk1 & Hi1).
    specialize (IH ks1 h1 Hr1 Hk1 Hi1 Hvs). by rewrite Hrun in IH.
Qed.
End events.

(** ** Setting the handler up *)

(** Where [m] returns, started where [P] holds, [Q] holds. *)
Definition lands {D G A} (P : G -> Prop) (m : M D G A) (Q : A -> G -> Prop) : Prop :=
  forall d g a, P g -> o_exit (m d g) = Done a -> Q a (o_glob (m d g)).

Section lands_rules.
Context {D G : Type}.

Lemma lands_bind {A B} P (m : M D G A) R (k : A -> M D G B) Q :
  lands P m R -> (forall a, lands (R a) (k a) Q) -> lands P (m ≫= k) Q.
Proof.
  intros Hm Hk d g b HP. unfold mbind, M_bind.
  destruct (o_exit (m d g)) as [a| | |] eqn:He; try done. simpl. intros Hb.
  by apply (Hk a _ _ b (Hm d g a HP He)).
Qed.
Lemma lands_ret {A} (P : G -> Prop) (a : A) (Q : A -> G -> Prop) :
  (forall g, P g -> Q a g) -> lands (D:=D) P (mret a) Q.
Proof. intros HQ d g a' HP [= <-]. auto. Qed.
Lemma lands_modify P f (Q : unit -> G -> Prop) :
  (forall g, P g -> Q tt (f g)) -> lands (D:=D) P (modify f) Q.
Proof. intros HQ d g [] HP _. by apply HQ. Qed.
Lemma lands_gets {A} P (f : G -> A) : lands (D:=D) P (gets f) (fun a g => P g /\ a = f g).
Proof. intros d g a HP [= <-]. done. Qed.
Lemma lands_assert P b fmt args : lands (D:=D) (G:=G) P (assert_handler_fmt b fmt args) (fun _ => P).
Proof. intros d g a HP He. by destruct b. Qed.
Lemma lands_emit P e : lands (D:=D) (G:=G) P (emit e) (fun _ => P).
Proof. by intros d g a HP _. Qed.
End lands_rules.

(** The arrays have their sizes. *)
Record handler_sized {T} (h : handler_globals T) : Prop := {
  hs_pressed : length (is_key_pressed h) = 89%nat;
  hs_extended : length (is_extended_key_pressed h) = 110%nat;
  hs_tied : length (is_key_tied_to_function h) = 256%nat;
  hs_ext_tied : length (is_extended_key_tied_to_function h) = 256%nat;
  hs_functions : length (key_functions h) = 256%nat;
  hs_ext_functions : length (extended_key_functions h) = 256%nat;
}.

(** After the first [n] rounds of the clearing loop no entry below [n] is null. *)
Definition cleared_below (n : nat) (l : list key_function) : Prop :=
  length l = 256%nat /\ forall i, (i < n)%nat -> l !! i <> Some KF_null.

Lemma cleared_all l : cleared_below 256 l -> length l = 256%nat /\ Forall (.≠ KF_null) l.
Proof.
  intros [Hl Hc]. split; [done|]. apply Forall_lookup. intros i f Hf ->.
  apply (Hc i); [|done]. apply lookup_lt_Some in Hf. lia.
Qed.

Lemma cleared_insert n l f i :
  cleared_below n l -> f <> KF_null -> cleared_below n (<[i := f]> l).
Proof.
  intros [Hl Hc] Hf. split; [by rewrite length_insert|]. intros j Hj.
  destruct (decide (i = j)) as [->|Hne]; [|by rewrite list_lookup_insert_ne; auto].
  destruct (decide (j < length l)%nat); [rewrite list_lookup_insert_eq by done; congruence|].
  rewrite list_insert_ge by lia. auto.
Qed.

Lemma cleared_next n l : cleared_below n l -> cleared_below (S n) (<[n := KF_nop]> l).
Proof.
  intros Hc. pose proof (cleared_insert n l KF_nop n Hc) as [Hl Hc']; [done|]. split; [done|].
  intros i Hi. destruct (decide (i = n)) as [->|Hne]; [|apply Hc'; lia].
  destruct (decide (n < length l)%nat); [by rewrite list_lookup_insert_eq|].
  rewrite list_insert_ge by lia. rewrite lookup_ge_None_2 by lia. done.
Qed.

Definition tables_cleared {T} (n : nat) (h : handler_globals T) : Prop :=
  handler_sized h /\ cleared_below n (key_functions h) /\ cleared_below n (extended_key_functions h).

Section setup.
Context {D T : Type} `{PortDevice D} `{TerminalKeys D T}.

Lemma lands_clear_from n i :
  lands (D:=D) (G:=handler_globals T) (tables_cleared i) (for_range n (Z.of_nat i) clear_key_tables)
    (fun _ => tables_cleared (i + n)).
Proof.
  revert i. induction n as [|n IH]; intros i; simpl.
  - apply lands_ret. by rewrite Nat.add_0_r.
  - eapply (lands_bind _ _ (fun _ => tables_cleared (S i))).
    + apply lands_modify. intros h ([] & Hc & He). rewrite Nat2Z.id.
      split; [constructor; simpl; by rewrite ?length_insert|].
      by split; apply cleared_next.
    + intros ?. replace (Z.of_nat i + 1) with (Z.of_nat (S i)) by lia.
      replace (i + S n)%nat with (S i + n)%nat by lia. apply IH.
Qed.

Lemma lands_clear :
  lands (D:=D) (G:=handler_globals T) handler_sized (for_range 256 0 clear_key_tables)
    (fun _ => tables_cleared 256).
Proof.
  intros d h a Hs. apply (lands_clear_from 256 0 d h a).
  split; [done|]. destruct Hs. split; (split; [done|lia]).
Qed.

Lemma lands_set_key key f :
  f <> KF_null -> lands (D:=D) (G:=handler_globals T) (tables_cleared 256) (set_key_function key f)
    (fun _ => tables_cleared 256).
Proof.
  intros Hf. eapply lands_bind; [apply lands_assert|]. intros ?. apply lands_modify.
  intros h ([] & Hc & He). split; [constructor; simpl; by rewrite ?length_insert|].
  split; [by apply cleared_insert|done].
Qed.

Lemma lands_set_extended key f :
  f <> KF_null -> lands (D:=D) (G:=handler_globals T) (tables_cleared 256) (set_extended_key_function key f)
    (fun _ => tables_cleared 256).
Proof.
  intros Hf. eapply lands_bind; [apply lands_assert|]. intros ?. apply lands_modify.
  intros h ([] & Hc & He). split; [constructor; simpl; by rewrite ?length_insert|].
  split; [done|by apply cleared_insert].
Qed.

(** A call of the keyboard driver, seen from the handler. *)
Lemma lands_keyboard {A} (P : handler_globals T -> Prop) (Q : A -> handler_globals T -> Prop)
    (m : M D keyboard_globals A) :
  (forall h, P h -> lands (eq (h_keyboard h)) m (fun a k => Q a (set_h_keyboard k h))) ->
  lands P (keyboard_call m) Q.
Proof. intros HP d h a Hh He. exact (HP h Hh d _ a eq_refl He). Qed.

Lemma lands_local {A} (m : M D keyboard_globals A) k : local m -> lands (eq k) m (fun _ => eq k).
Proof. intros Hm d g a <- _. by rewrite (proj2 (Hm d k)). Qed.

Definition prepared (n : nat) (h : handler_globals T) : Prop :=
  tables_cleared n h /\ active_scancode_set (kps (h_keyboard h)) = 1.

(** Calls that leave the tables and the scan code set alone. *)
Lemma lands_keyboard_same {A} (m : M D keyboard_globals A) n :
  (forall k, active_scancode_set (kps k) = 1 ->
     lands (eq k) m (fun _ k' => active_scancode_set (kps k') = 1)) ->
  lands (prepared n) (keyboard_call m) (fun _ => prepared n).
Proof.
  intros Hm. apply lands_keyboard. intros h [([] & Hc & He) Hset] d k a <- Ha.
  split; [split; [by constructor|done]|]. exact (Hm _ Hset d _ a eq_refl Ha).
Qed.

Lemma set_key_keyboard key f (d : D) (h : handler_globals T) :
  h_keyboard (o_glob (set_key_function key f d h)) = h_keyboard h.
Proof. unfold set_key_function. by destruct (validate_scancode key). Qed.
Lemma set_extended_keyboard key f (d : D) (h : handler_globals T) :
  h_keyboard (o_glob (set_extended_key_function key f d h)) = h_keyboard h.
Proof. unfold set_extended_key_function. by destruct (validate_extended_scancode key). Qed.

Lemma lands_setup_extra :
  lands (D:=D) (fun h : handler_globals T => handler_sized h /\
      active_scancode_set (kps (h_keyboard h)) = 1)
    setup_keyboard_extra (fun _ => prepared 256).
Proof.
  assert (Hframe : forall m : M D (handler_globals T) unit,
    lands (tables_cleared 256) m (fun _ => tables_cleared 256) ->
    (forall d h, active_scancode_set (kps (h_keyboard (o_glob (m d h)))) =
       active_scancode_set (kps (h_keyboard h))) ->
    lands (prepared 256) m (fun _ => prepared 256)).
  { intros m Hm Hk d h a [Ht Hs] Ha. split; [by eapply Hm|]. by rewrite Hk. }
  unfold setup_keyboard_extra.
  eapply (lands_bind _ _ (fun _ => prepared 256)).
  { intros d h a [Hs Hset] Ha. split; [by eapply lands_clear|].
    assert (Hk : forall n i, h_keyboard (o_glob (for_range n i clear_key_tables d h)) = h_keyboard h).
    { clear. intros n. revert h. induction n as [|n IH]; intros h i; [done|].
      exact (eq_trans (IH _ (i + 1)) eq_refl). }
    by rewrite Hk. }
  intros ?.
  assert (Hkey : forall key f, f <> KF_null ->
    lands (D:=D) (prepared 256) (set_key_function key f) (fun _ => prepared 256)).
  { intros key f Hf. apply Hframe; [by apply lands_set_key|intros; by rewrite set_key_keyboard]. }
  assert (Hext : forall key f, f <> KF_null ->
    lands (D:=D) (prepared 256) (set_extended_key_function key f) (fun _ => prepared 256)).
  { intros key f Hf. apply Hframe; [by apply lands_set_extended|intros; by rewrite set_extended_keyboard]. }
  do 10 (eapply lands_bind; [lazymatch goal with
    | |- lands _ (set_key_function _ _) _ => by apply Hkey
    | |- lands _ (set_extended_key_function _ _) _ => by apply Hext end|intros ?]).
  eapply (lands_bind _ _ (fun _ => prepared 256));
    [apply lands_modify; intros h [([] & Hc & He) Hs]; split; [split; [by constructor|done]|done]|intros ?].
  eapply lands_bind; [apply lands_gets|intros l].
  eapply (lands_bind _ _ (fun _ => prepared 256)); [|intros ?; apply lands_emit].
  intros d h b [Hp _] Ha. refine (lands_keyboard_same _ _ _ d h b Hp Ha).
  intros k Hk d' k' a' <- _. by rewrite (proj2 (local_set_leds l d' k)).
Qed.

Lemma lands_set_scan_code_set n :
  lands (D:=D) (fun _ => True) (set_scan_code_set n)
    (fun e k => e = PS2_KB_ERR_none -> active_scancode_set (kps k) = u8 n).
Proof.
  unfold set_scan_code_set. destruct (_ || _); [intros d k e _ He; discriminate He|].
  apply (lands_bind (fun _ => True) _ (fun _ _ => True)); [done|intros r].
  destruct (is_kb_err (kb_err r)) eqn:E1.
  { eapply (lands_bind _ _ (fun _ _ => True)); [done|intros ?].
    apply lands_ret. intros g _ He. by rewrite He in E1. }
  apply (lands_bind (fun _ => True) _ (fun _ _ => True)); [done|intros r'].
  destruct (is_kb_err (kb_err r')) eqn:E2.
  { eapply (lands_bind _ _ (fun _ _ => True)); [done|intros ?].
    apply lands_ret. intros g _ He. by rewrite He in E2. }
  eapply (lands_bind _ _ (fun _ k => active_scancode_set (kps k) = u8 n)); [by apply lands_modify|].
  intros ?. apply lands_ret. auto.
Qed.

Lemma lands_enable_keyboard k :
  active_scancode_set (kps k) = 1 ->
  lands (D:=D) (eq k) enable_keyboard (fun _ k' => active_scancode_set (kps k') = 1).
Proof.
  intros Hk. unfold enable_keyboard.
  eapply lands_bind; [apply lands_emit|intros ?].
  eapply (lands_bind _ _ (fun _ => eq k)).
  { apply lands_local. unfold enable_scanning, plain_command.
    apply local_bind; [apply local_send_command_kb|intros r]. local_auto. }
  intros ?. eapply (lands_bind _ _ (fun _ k' => active_scancode_set (kps k') = 1)).
  { intros d g b <- _. unfold enable_keyboard_interrupts. by erewrite (bind_done (gets _)) by reflexivity. }
  intros ?. eapply lands_bind; [apply lands_gets|intros port].
  intros d g b [Hg _] _. unfold IRQ_clear_mask.
  destruct (31 <=? mask_line port); unfold inb, outb, mbind, M_bind; by destruct (port_in _ d).
Qed.

Lemma lands_setup_keyboard :
  lands (D:=D) handler_sized setup_keyboard
    (fun e (h : handler_globals T) => e = PS2_KB_ERR_none -> handler_ready h).
Proof.
  unfold setup_keyboard.
  eapply lands_bind; [apply lands_gets|intros i].
  eapply lands_bind; [apply lands_assert|intros ?].
  eapply (lands_bind _ _ (fun _ => handler_sized)).
  { apply lands_keyboard. intros h [[] _] d k b _ _. by constructor. }
  intros ?. eapply (lands_bind _ _ (fun e h => handler_sized h /\
      (e = PS2_KB_ERR_none -> active_scancode_set (kps (h_keyboard h)) = 1))).
  { apply lands_keyboard. intros h [] d k e _ He. split; [by constructor|].
    exact (lands_set_scan_code_set 1 d k e I He). }
  intros e. destruct (is_kb_err e) eqn:E.
  { apply lands_ret. intros h _ ->. done. }
  eapply (lands_bind _ _ (fun _ => prepared 256)).
  { intros d h b [Hs He] Hb. eapply lands_setup_extra; [|exact Hb]. split; [done|].
    apply He. clear -E; by destruct e. }
  intros ?. eapply (lands_bind _ _ (fun _ => prepared 256)).
  { apply lands_keyboard_same. apply lands_enable_keyboard. }
  intros ?. apply lands_ret. intros h [([] & Hc & He) Hset] _.
  by constructor; try apply cleared_all.
Qed.
End setup.

(** ** Departures *)

(** Runs that end in undefined behaviour. *)
Definition undef {D G A} (m : M D G A) (g : G) : Prop := forall d, o_exit (m d g) = Undefined.

Section undef_rules.
Context {D G : Type}.

Lemma undef_now {A B} (m : M D G A) (k : A -> M D G B) g : undef m g -> undef (m ≫= k) g.
Proof. intros Hm d. unfold mbind, M_bind. by rewrite (Hm d). Qed.

Lemma undef_after {A B} (m : M D G A) (k : A -> M D G B) g P r n :
  runs m g P r n -> (forall a g', P a g' -> undef (k a) g') -> undef (m ≫= k) g.
Proof.
  intros Hm Hk d. destruct (Hm d) as (a & He & HP & _). unfold mbind, M_bind. rewrite He.
  apply (Hk a _ HP).
Qed.

Lemma undef_gets {A B} (f : G -> A) (k : A -> M D G B) g : undef (k (f g)) g -> undef (gets f ≫= k) g.
Proof. intros Hk d. exact (Hk d). Qed.

Lemma undef_ret {A B} (a : A) (k : A -> M D G B) g : undef (k a) g -> undef (mret a ≫= k) g.
Proof. intros Hk d. exact (Hk d). Qed.
End undef_rules.

Section undef_reads.
Context {D T : Type}.

Lemma undef_read {A B} (f : handler_globals T -> list A) i a
    (k : A -> M D (handler_globals T) B) g :
  f g !! Z.to_nat i = Some a -> undef (k a) g ->
  undef ((ls ← gets f; at_index ls i) ≫= k) g.
Proof.
  intros Hf Hk d. specialize (Hk d). unfold at_index, mbind, M_bind. simpl. by rewrite Hf.
Qed.

Lemma undef_out {A B} (f : handler_globals T -> list A) i
    (k : A -> M D (handler_globals T) B) g :
  f g !! Z.to_nat i = None -> undef ((ls ← gets f; at_index ls i) ≫= k) g.
Proof. intros Hf d. unfold at_index, mbind, M_bind. simpl. by rewrite Hf. Qed.
End undef_reads.

Definition pause_bytes : list Z := [0xE1; 0x1D; 0x45; 0xE1; 0x9D; 0xC5].

Section departures.
Context {D T : Type} `{PortDevice D} `{TerminalKeys D T} (kc : keycode_functions).
Variables (t : T) (l : kcb_led_state_t) (ks : keys_down) (h : handler_globals T).
Variables (p0 f0 s0 : bool) (n0 : Z).
Hypothesis Hset : active_scancode_set (kps (h_keyboard h)) = 1.

Lemma keyboard_handler_set1 b p (d : D) (h0 : handler_globals T) :
  active_scancode_set (kps (h_keyboard h0)) = 1 ->
  keyboard_handler kc b p d h0 = keyboard_handler_scs1 kc b p d h0.
Proof.
  intros Hs. unfold keyboard_handler. erewrite (bind_done (gets _)) by reflexivity.
  rewrite Hs. change (1 =? 1) with true. cbv beta iota zeta.
  destruct (keyboard_handler_scs1 kc b p d h0). reflexivity.
Qed.

Local Abbreviation at_ := (state_at t l ks h p0 f0 s0 n0).

Lemma pause_run :
  runs (D:=D) (interrupts kc pause_bytes) (at_ false false false 0)
    (fun _ h' => h' = at_ false false true 0)
    [report (pause_to_keycode kc) ks true true] 6.
Proof.
  assert (Hstep : forall b n six n', n' = n + 1 -> 
    In (b, six, n) [(0xE1, false, 0); (0x1D, true, 1); (0x45, true, 2); (0xE1, true, 3);
                    (0x9D, true, 4)] ->
    runs (D:=D) (keyboard_handler_scs1 kc b 1) (at_ false false six n)
      (fun _ h' => h' = at_ false false true n') [] 1).
  { intros b n six n' -> Hin. simpl in Hin.
    repeat destruct Hin as [[= <- <- <-]|Hin]; try done; intros d; by exists tt. }
  assert (Hlast : runs (D:=D) (keyboard_handler_scs1 kc 0xC5 1) (at_ false false true 5)
    (fun _ h' => h' = at_ false false true 0) [report (pause_to_keycode kc) ks true true] 1).
  { intros d. by exists tt. }
  unfold pause_bytes.
  do 5 (eapply (runs_interrupt kc _ _ _ [] 1 _ _ [_] _);
    [done|eapply Hstep; [reflexivity|simpl; tauto]|intros _ ? ->]).
  eapply (runs_interrupt kc _ _ _ [_] 1 [] _ [] 0); [done|exact Hlast|intros _ ? ->].
  by apply runs_ret.
Qed.

(** After a pause the next 0xE0 is taken for the release of code 0x60. *)
Lemma prefix_after_pause :
  length (down ks) = 89%nat ->
  undef (D:=D) (keyboard_handler_scs1 kc 0xE0 1) (at_ false false true 0).
Proof.
  intros Hl. unfold keyboard_handler_scs1. change (0xE0 =? 0xE0) with true. cbv iota.
  eapply (undef_after _ _ _ (fun a h' => a = false /\ h' = at_ false false true 0) [] 0);
    [intros d; by exists false|intros a h' [-> ->]].
  eapply undef_read; [reflexivity|]. apply undef_ret.
  eapply undef_read; [reflexivity|]. cbv iota. unfold six_or_two_byte.
  change (0xE0 =? 0xE1) with false. cbv iota.
  eapply undef_read; [reflexivity|]. cbv iota.
  eapply (undef_after _ _ _ (fun _ h' => h' = at_ false false true 0) [] 0);
    [intros d; by exists tt|intros _ h' ->].
  eapply undef_read; [reflexivity|]. cbv beta.
  eapply (undef_after _ _ _ (fun a h' => a = 0xE1 /\ h' = at_ false false true 0) [] 0);
    [intros d; by exists 0xE1|intros a h' [-> ->]].
  change (0xE0 =? 0xE1) with false. cbv iota.
  unfold two_long_byte. eapply undef_read; [reflexivity|]. cbv iota.
  change (SCANCODE_RELEASE_START <=? 0xE0) with true. cbv iota.
  apply undef_now. unfold parse_scan_code, write_pressed. apply undef_now, undef_gets, undef_now.
  intros d. unfold at_index.
  assert (Hn : down ks !! Z.to_nat (0xE0 - SCANCODE_RELEASE_OFFSET) = None);
    [|by replace (is_key_pressed (at_ false false true 0)) with (down ks) by done; rewrite Hn].
  apply lookup_ge_None_2. rewrite Hl. unfold SCANCODE_RELEASE_OFFSET. lia.
Qed.
End departures.

Lemma second_port_undefined {D T} `{PortDevice D} `{TerminalKeys D T} kc sc (h : handler_globals T) :
  length (previous_extended_signal h) = 2%nat -> length (four_long_sequence h) = 2%nat ->
  undef (D:=D) (keyboard_handler_scs1 kc sc 2) h.
Proof.
  intros Hp Hf. unfold keyboard_handler_scs1. destruct (sc =? 0xE0).
  - apply undef_now, undef_out. apply lookup_ge_None_2. cbn. lia.
  - apply undef_ret. apply undef_out. apply lookup_ge_None_2. cbn. lia.
Qed.

(** ** Properties *)

(** A terminal that ignores the keys, for the witnesses. *)
#[export] Instance no_terminal D : TerminalKeys D unit := {
  terminal_arrow_up := mret tt; terminal_arrow_down := mret tt; terminal_arrow_left := mret tt;
  terminal_arrow_right := mret tt; terminal_ctrl_r := mret tt; terminal_ctrl_f := mret tt;
}.
#[export] Instance no_terminal_laws D : TerminalLaws D unit.
Proof. by constructor; intros d g. Qed.

Definition sample_keycodes : keycode_functions := mk_keycodes id (Z.add 0x100) 0x200 0x201.

(** A handler set up for scan code set 1 on port 1. *)
Definition sample_handler : handler_globals unit :=
  let k := with_scancode_set 1 (with_initialized (_set_irq_and_vector (with_port 1 1 kps_boot))) in
  let kf := <[Z.to_nat SC_CAPSLOCK := KF_pressed_caps_lock]> (repeat KF_nop 256) in
  let kt := <[Z.to_nat SC_CAPSLOCK := true]> (repeat false 256) in
  set_h_keyboard (mk_keyboard k idt_boot)
    (set_tables kf kt (repeat KF_nop 256) (repeat false 256) (handler_boot tt)).

Lemma sample_handler_ready : handler_ready sample_handler.
Proof.
  constructor; try reflexivity; (split; [reflexivity|]); vm_compute; repeat constructor; discriminate.
Qed.

(** C1: The decoder of scan code set 1 is correct: from a ready handler between two keys,
    the bytes of any sequence of valid key events (plain keys, extended keys, print
    screen; presses and releases) are all handled, the reports are exactly those of the
    abstract keyboard, in order, every byte is acknowledged once, and the handler is ready
    and between two keys again, with the keys of the abstract keyboard down. *)
Theorem scan_codes_decoded {D T} `{PortDevice D} `{TerminalLaws D T} kc es (h : handler_globals T) :
  handler_ready h -> idle h -> Forall (fun e => valid_event e = true) es ->
  let r := abstract_run kc es (keys_of h) in
  let bytes := concat (map encode_event es) in
  runs (D:=D) (interrupts kc bytes) h
    (fun _ h' => handler_ready h' /\ keys_of h' = snd r /\ idle h') (fst r) (length bytes).
Proof.
  intros Hr Hi Hv. pose proof (runs_events (D:=D) kc es _ h Hr eq_refl Hi Hv) as He.
  by destruct (abstract_run kc es (keys_of h)).
Qed.

Definition sample_events : list key_event :=
  [Key SC_LEFT_SHIFT true; Key SC_A true; Key SC_CAPSLOCK true; Ext SCE_UP true; Key SC_A false;
   PrintScreen true; Ext SCE_UP false; PrintScreen false; Key SC_LEFT_SHIFT false].

Lemma scan_codes_decoded_witness :
  eois (o_events (interrupts sample_keycodes (concat (map encode_event sample_events))
    sim_keyboard_mouse sample_handler)) = 17%nat.
Proof.
  destruct (scan_codes_decoded (D:=sim) sample_keycodes sample_events sample_handler
    sample_handler_ready ltac:(exists 0, false, false, false, 0; reflexivity)
    ltac:(repeat constructor) sim_keyboard_mouse) as (_ & _ & _ & _ & Hn). exact Hn.
Defined.

(** A pause is reported once and all its bytes acknowledged, but the decoder is not
    back between two keys: the next byte 0xE0, with which every extended key starts, is
    taken for the release of code 0x60 and stored outside the array of keys. *)
Theorem pause_breaks_decoder {D T} `{PortDevice D} `{TerminalKeys D T} kc
    (t : T) l ks (h : handler_globals T) p0 f0 s0 n0 :
  active_scancode_set (kps (h_keyboard h)) = 1 -> length (down ks) = 89%nat ->
  let st six := state_at t l ks h p0 f0 s0 n0 false false six 0 in
  runs (D:=D) (interrupts kc pause_bytes) (st false) (fun _ h' => h' = st true)
    [report (pause_to_keycode kc) ks true true] 6 /\
  undef (D:=D) (keyboard_handler kc 0xE0 1) (st true).
Proof.
  intros Hset Hl st. split; [by apply pause_run|].
  intros d. rewrite keyboard_handler_set1 by done. by apply prefix_after_pause.
Qed.

Lemma pause_breaks_witness :
  o_exit (keyboard_handler sample_keycodes 0xE0 1 sim_keyboard_mouse
    (state_at tt (led_keys sample_handler) (keys_of sample_handler) sample_handler
       false false false 0 false false true 0)) = Undefined.
Proof.
  exact (proj2 (pause_breaks_decoder (D:=sim) sample_keycodes tt (led_keys sample_handler)
    (keys_of sample_handler) sample_handler false false false 0 eq_refl eq_refl) sim_keyboard_mouse).
Defined.

(** On the second port every byte indexes the two-element decoder arrays out of
    bounds, although the driver means to serve a keyboard there. *)
Theorem second_port_out_of_bounds {D T} `{PortDevice D} `{TerminalKeys D T} kc sc
    (h : handler_globals T) :
  active_scancode_set (kps (h_keyboard h)) = 1 ->
  length (previous_extended_signal h) = 2%nat -> length (four_long_sequence h) = 2%nat ->
  undef (D:=D) (keyboard_handler kc sc 2) h.
Proof.
  intros Hs Hp Hf d. rewrite keyboard_handler_set1 by done. by apply second_port_undefined.
Qed.

Lemma second_port_witness :
  o_exit (keyboard_handler sample_keycodes SC_A 2 sim_keyboard_mouse sample_handler) = Undefined.
Proof.
  exact (second_port_out_of_bounds (D:=sim) sample_keycodes SC_A sample_handler
    eq_refl eq_refl eq_refl sim_keyboard_mouse).
Defined.

(** When [setup_keyboard] reports success the handler is ready for scan code set 1:
    no table entry is null and the set is the active one; without an announced keyboard
    it halts the kernel. *)
Theorem setup_keyboard_ready {D T} `{PortDevice D} `{TerminalKeys D T} (d : D)
    (h : handler_globals T) :
  handler_sized h ->
  (o_exit (setup_keyboard d h) = Done PS2_KB_ERR_none -> handler_ready (o_glob (setup_keyboard d h))) /\
  (kps_initialized (kps (h_keyboard h)) = false -> o_exit (setup_keyboard d h) = Aborted).
Proof.
  intros Hs. split.
  - intros He. by apply (lands_setup_keyboard d h _ Hs He).
  - intros Hi. unfold setup_keyboard. erewrite (bind_done (gets _)) by reflexivity. by rewrite Hi.
Qed.

(** The handler's globals after [idt_init] and with a keyboard announced on port 1. *)
Definition announced_handler : handler_globals unit :=
  set_h_keyboard (mk_keyboard (with_initialized (_set_irq_and_vector (with_port 1 1 kps_boot)))
    (o_glob (idt_init sample_isrs false tt idt_boot))) (handler_boot tt).

Lemma setup_keyboard_witness :
  handler_ready (o_glob (setup_keyboard sim_keyboard_mouse announced_handler)) /\
  o_exit (setup_keyboard sim_keyboard_mouse (handler_boot tt)) = Aborted.
Proof.
  split.
  - apply (proj1 (setup_keyboard_ready sim_keyboard_mouse announced_handler
      ltac:(constructor; vm_compute; reflexivity))). vm_compute. reflexivity.
  - apply (proj2 (setup_keyboard_ready sim_keyboard_mouse (handler_boot tt)
      ltac:(constructor; vm_compute; reflexivity))). vm_compute. reflexivity.
Defined.
