(* ===== verification/Bits.v ===== *)
(** * Bit fields of a 32-bit word ([cpu/gdt/f1_binary_operation.c])

    The masks, [getBits] and [setBits] with the shifts at their width, and the laws
    that make the field [endBig .. startSmall] of a word a lens: it is read back as
    written, writing it leaves the other bits alone, fields that do not overlap are
    independent.  A shift by a negative count or by 32 and more is undefined in C:
    [None]. *)

From S2P Require Import Prelude.

(** [value << count] and [value >> count] of [uint32_t] values. *)
Definition shl32 (value count : Z) : option Z :=
  if (0 <=? count) && (count <? 32) then Some (u32 (value ≪ count)) else None.
Definition shr32 (value count : Z) : option Z :=
  if (0 <=? count) && (count <? 32) then Some (value ≫ count) else None.

Definition generateMask (endBig startSmall : Z) : option Z :=
  let width := u8 (endBig - startSmall + 1) in
  mask ← (if 32 <=? width then Some 0xFFFFFFFF
          else mask_plus_one ← shl32 1 (endBig - startSmall + 1); Some (u32 (mask_plus_one - 1)));
  shl32 mask startSmall.

Definition generateAntiMask (endBig startSmall : Z) : option Z :=
  mask ← generateMask endBig startSmall; Some (u32 (Z.lnot mask)).

Definition getBits (value endBig startSmall : Z) : option Z :=
  mask_left ← generateMask endBig startSmall;
  let value_left := value .& mask_left in
  shr32 value_left startSmall.

(** What [getBits2] does: the bits, or the message it writes and [(uint32_t)-1]. *)
Inductive getBits2_result :=
| Bits2 (bits : Z)
| Bits2Error (message : string) (value : Z).

Definition getBits2 (value endBig startSmall : Z) : option getBits2_result :=
  if endBig <? startSmall then Some (Bits2Error "[ERROR]: big >= small " (u32 (-1)))
  else
    shifted_value ← shr32 value startSmall;
    mask_plus_one ← shl32 1 (endBig - startSmall + 1);
    let mask := u32 (mask_plus_one - 1) in
    Some (Bits2 (shifted_value .& mask)).

Definition setBits (a_dest b_value endBig startSmall : Z) : option Z :=
  b_shifted ← shl32 b_value startSmall;
  a_reverse_mask ← generateAntiMask endBig startSmall;
  Some ((a_dest .& a_reverse_mask) .| b_shifted).

(** [*a_dest = ...]: the new contents of the word. *)
Definition setBitsModify (a_dest b_value endBig startSmall : Z) : option Z :=
  setBits a_dest b_value endBig startSmall.

(** ** Fields, as mathematics *)

Definition field_mask (e s : Z) : Z := Z.ones (e - s + 1) ≪ s.
Definition field_get (e s v : Z) : Z := (v ≫ s) .& Z.ones (e - s + 1).
Definition field_set (e s b v : Z) : Z := Z.lor (Z.ldiff v (field_mask e s)) (b ≪ s).

(** A field of a 32-bit word, and the values it holds. *)
Definition is_field (e s : Z) : Prop := 0 <= s <= e /\ e < 32.
Definition fits (e s b : Z) : Prop := 0 <= b < 2 ^ (e - s + 1).

#[export] Instance is_field_dec e s : Decision (is_field e s).
Proof. unfold is_field. apply _. Defined.
#[export] Instance fits_dec e s b : Decision (fits e s b).
Proof. unfold fits. apply _. Defined.

Lemma ones_testbit n i : 0 <= n -> Z.testbit (Z.ones n) i = (0 <=? i) && (i <? n).
Proof.
  intros Hn. destruct (decide (i < 0)) as [Hi|Hi]; [by rewrite Z.testbit_neg_r, (proj2 (Z.leb_gt _ _)) by lia|].
  destruct (decide (i < n)).
  - rewrite Z.ones_spec_low by lia. symmetry. apply andb_true_intro. lia.
  - rewrite Z.ones_spec_high by lia. symmetry. apply andb_false_intro2. lia.
Qed.

Lemma field_mask_testbit e s i : 0 <= s <= e + 1 ->
  Z.testbit (field_mask e s) i = (s <=? i) && (i <=? e).
Proof.
  intros Hs. unfold field_mask. destruct (decide (i < 0)) as [Hi|Hi].
  { rewrite Z.testbit_neg_r by lia. symmetry. apply andb_false_intro1. lia. }
  rewrite Z.shiftl_spec, ones_testbit by lia.
  destruct (decide (s <= i)), (decide (i <= e));
    rewrite ?(proj2 (Z.leb_le _ _)), ?(proj2 (Z.ltb_lt _ _)), ?(proj2 (Z.leb_gt _ _)), ?(proj2 (Z.ltb_ge _ _)) by lia; done.
Qed.

Lemma field_get_testbit e s v i : 0 <= s <= e -> 0 <= i ->
  Z.testbit (field_get e s v) i = Z.testbit v (i + s) && (i <=? e - s).
Proof.
  intros Hs Hi. unfold field_get. rewrite Z.land_spec, Z.shiftr_spec, ones_testbit by lia.
  f_equal. lia.
Qed.

(** Bit by bit, for any value: bits of [b] above the field are not masked out. *)
Lemma field_set_testbit_gen e s b v i : 0 <= s <= e -> 0 <= i ->
  Z.testbit (field_set e s b v) i =
    (Z.testbit v i && negb ((s <=? i) && (i <=? e))) || ((s <=? i) && Z.testbit b (i - s)).
Proof.
  intros Hs Hi. unfold field_set.
  rewrite Z.lor_spec, Z.ldiff_spec, field_mask_testbit, Z.shiftl_spec by lia. f_equal.
  destruct (decide (s <= i)).
  - by rewrite (proj2 (Z.leb_le s i)) by lia.
  - rewrite (proj2 (Z.leb_gt s i)) by lia. rewrite Z.testbit_neg_r; [done|lia].
Qed.

Lemma field_set_testbit e s b v i : 0 <= s <= e -> 0 <= i -> fits e s b ->
  Z.testbit (field_set e s b v) i =
    if (s <=? i) && (i <=? e) then Z.testbit b (i - s) else Z.testbit v i.
Proof.
  intros Hs Hi Hb. rewrite field_set_testbit_gen by done.
  destruct (decide (s <= i)); [rewrite (proj2 (Z.leb_le s i)) by lia|rewrite (proj2 (Z.leb_gt s i)) by lia];
    simpl; rewrite ?andb_true_r, ?orb_false_r; [|done].
  destruct (decide (i <= e)); [rewrite (proj2 (Z.leb_le i e)) by lia|rewrite (proj2 (Z.leb_gt i e)) by lia];
    simpl; rewrite ?andb_false_r, ?andb_true_r; [done|].
  rewrite (testbit_high (e - s + 1) b) by (unfold fits in Hb; lia). apply orb_false_r.
Qed.

(** ** The lens laws *)

Section fields.
Context (e s : Z) (Hf : 0 <= s <= e).
Implicit Types v b : Z.

Lemma field_get_fits v : fits e s (field_get e s v).
Proof.
  unfold fits, field_get. rewrite Z.land_ones by lia. apply Z.mod_pos_bound.
  apply Z.pow_pos_nonneg; lia.
Qed.

Lemma field_get_set b v : fits e s b -> field_get e s (field_set e s b v) = b.
Proof.
  intros Hb. apply Z.bits_inj'. intros i Hi.
  rewrite field_get_testbit, field_set_testbit by (done || lia).
  replace (i + s - s) with i by lia.
  destruct (decide (i <= e - s)).
  - rewrite (proj2 (Z.leb_le i _)), (proj2 (Z.leb_le s _)), (proj2 (Z.leb_le (i + s) _)) by lia.
    apply andb_true_r.
  - rewrite (proj2 (Z.leb_gt i _)) by lia.
    rewrite (testbit_high (e - s + 1) b) by (unfold fits in Hb; lia). apply andb_false_r.
Qed.

Lemma field_set_get v : field_set e s (field_get e s v) v = v.
Proof.
  apply Z.bits_inj'. intros i Hi.
  rewrite field_set_testbit by (lia || apply field_get_fits).
  destruct (s <=? i) eqn:H1, (i <=? e) eqn:H2; simpl; try done.
  rewrite field_get_testbit by lia. replace (i - s + s) with i by lia.
  rewrite (proj2 (Z.leb_le _ _)) by lia. apply andb_true_r.
Qed.

Lemma field_set_set b b' v : fits e s b -> fits e s b' ->
  field_set e s b (field_set e s b' v) = field_set e s b v.
Proof.
  intros Hb Hb'. apply Z.bits_inj'. intros i Hi. rewrite !field_set_testbit by done.
  by destruct ((s <=? i) && (i <=? e)).
Qed.

Lemma field_get_other e' s' b v : 0 <= s' <= e' -> e < s' \/ e' < s -> fits e s b ->
  field_get e' s' (field_set e s b v) = field_get e' s' v.
Proof.
  intros Hf' Hd Hb. apply Z.bits_inj'. intros i Hi.
  rewrite !field_get_testbit, field_set_testbit by (done || lia).
  destruct (i <=? e' - s') eqn:Hle; [|by rewrite !andb_false_r].
  by rewrite (proj2 (andb_false_iff (s <=? i + s') _)) by lia.
Qed.

Lemma field_set_comm e' s' b b' v : 0 <= s' <= e' -> e < s' \/ e' < s -> fits e s b -> fits e' s' b' ->
  field_set e s b (field_set e' s' b' v) = field_set e' s' b' (field_set e s b v).
Proof.
  intros Hf' Hd Hb Hb'. apply Z.bits_inj'. intros i Hi. rewrite !field_set_testbit by done.
  destruct ((s <=? i) && (i <=? e)) eqn:H1, ((s' <=? i) && (i <=? e')) eqn:H2; try done. lia.
Qed.

Lemma field_set_u32 b v : e < 32 -> fits e s b -> is_u32 v -> is_u32 (field_set e s b v).
Proof.
  intros He Hb Hv. unfold is_u32. apply bounded_of_testbit; [lia| |].
  - unfold field_set. apply Z.lor_nonneg. split.
    + apply Z.ldiff_nonneg. unfold is_u32 in Hv. lia.
    + apply Z.shiftl_nonneg. unfold fits in Hb. lia.
  - intros i Hi. rewrite field_set_testbit by (done || lia).
    rewrite (proj2 (andb_false_iff _ _)) by lia. apply testbit_u32; [done|lia].
Qed.
End fields.

(** ** The functions of the source compute fields *)

Lemma shl32_small value count : 0 <= count < 32 -> shl32 value count = Some (u32 (value ≪ count)).
Proof. intros Hc. unfold shl32. by rewrite (proj2 (andb_true_iff _ _)) by lia. Qed.

Lemma shr32_small value count : 0 <= count < 32 -> shr32 value count = Some (value ≫ count).
Proof. intros Hc. unfold shr32. by rewrite (proj2 (andb_true_iff _ _)) by lia. Qed.

Lemma shl32_wide value count : 32 <= count -> shl32 value count = None.
Proof. intros Hc. unfold shl32. by rewrite (proj2 (andb_false_iff _ _)) by lia. Qed.

Lemma field_mask_u32 e s : is_field e s -> is_u32 (field_mask e s).
Proof.
  intros [Hs He]. apply bounded_of_testbit; [lia| |].
  - apply Z.shiftl_nonneg. rewrite Z.ones_equiv. pose proof (Z.pow_pos_nonneg 2 (e - s + 1)). lia.
  - intros i Hi. rewrite field_mask_testbit by lia. rewrite (proj2 (andb_false_iff _ _)) by lia. done.
Qed.

Lemma ones_of_shift n : 0 <= n < 32 -> u32 (u32 (1 ≪ n) - 1) = Z.ones n.
Proof.
  intros Hn. rewrite Z.ones_equiv, Z.shiftl_1_l.
  assert (1 <= 2 ^ n < 2 ^ 32) by (split; [apply (Z.pow_le_mono_r 2 0); lia|apply Z.pow_lt_mono_r; lia]).
  rewrite (u32_small (2 ^ n)) by width. rewrite u32_small by width. lia.
Qed.

Lemma generateMask_eq e s : is_field e s -> generateMask e s = Some (field_mask e s).
Proof.
  intros [Hs He]. unfold generateMask. rewrite u8_small by width.
  destruct (decide (32 <= e - s + 1)).
  - assert (e = 31 /\ s = 0) as [-> ->] by lia. reflexivity.
  - rewrite (proj2 (Z.leb_gt 32 _)) by lia. rewrite shl32_small by lia. simpl.
    rewrite ones_of_shift by lia. rewrite shl32_small by lia.
    f_equal. apply u32_small. by apply field_mask_u32.
Qed.

Lemma getBits_eq v e s : is_field e s -> getBits v e s = Some (field_get e s v).
Proof.
  intros Hf. unfold getBits. rewrite generateMask_eq by done. simpl. destruct Hf as [Hs He].
  rewrite shr32_small by lia. f_equal. apply Z.bits_inj'. intros i Hi.
  rewrite Z.shiftr_spec, Z.land_spec, field_mask_testbit, field_get_testbit by lia.
  f_equal. lia.
Qed.

(** Without the guard of [generateMask] the full word is an undefined shift. *)
Lemma getBits2_eq v e s : is_field e s -> e - s < 31 ->
  getBits2 v e s = Some (Bits2 (field_get e s v)).
Proof.
  intros [Hs He] Hn. unfold getBits2. rewrite (proj2 (Z.ltb_ge e s)) by lia.
  rewrite shr32_small by lia. simpl. rewrite shl32_small by lia. simpl.
  by rewrite ones_of_shift by lia.
Qed.

Lemma setBits_eq_gen a b e s : is_field e s -> is_u32 a -> 0 <= b ->
  setBits a b e s = Some (u32 (field_set e s b a)).
Proof.
  intros Hf Ha Hb. unfold setBits, generateAntiMask. rewrite generateMask_eq by done.
  destruct Hf as [Hs He]. rewrite shl32_small by lia. simpl. f_equal.
  apply Z.bits_inj'. intros i Hi. unfold u32.
  destruct (decide (i < 32)).
  - rewrite Z.mod_pow2_bits_low, Z.lor_spec, Z.land_spec by lia.
    rewrite !Z.mod_pow2_bits_low by lia. unfold field_set.
    by rewrite Z.lor_spec, Z.ldiff_spec, Z.lnot_spec by lia.
  - rewrite Z.mod_pow2_bits_high, Z.lor_spec, Z.land_spec by lia.
    rewrite !Z.mod_pow2_bits_high by lia. by rewrite andb_false_r.
Qed.

Lemma setBits_eq a b e s : is_field e s -> is_u32 a -> fits e s b ->
  setBits a b e s = Some (field_set e s b a).
Proof.
  intros Hf Ha Hb. rewrite setBits_eq_gen by (done || unfold fits in Hb; lia).
  f_equal. apply u32_small. destruct Hf. by apply field_set_u32.
Qed.

(** ** Fields and arithmetic *)

Lemma field_get_div e s v : 0 <= s <= e -> field_get e s v = (v / 2 ^ s) mod 2 ^ (e - s + 1).
Proof. intros Hs. unfold field_get. by rewrite Z.shiftr_div_pow2, Z.land_ones by lia. Qed.

(** Joining a low part and a shifted high part is an addition. *)
Lemma lor_shift_add k x y : 0 <= k -> 0 <= x < 2 ^ k -> x .| (y ≪ k) = x + y * 2 ^ k.
Proof.
  intros Hk Hx. rewrite <- Z.shiftl_mul_pow2 by lia.
  assert (Hl : x .& (y ≪ k) = 0).
  { apply Z.bits_inj'. intros i Hi. rewrite Z.land_spec, Z.shiftl_spec, Z.bits_0 by lia.
    destruct (decide (i < k)); [by rewrite (Z.testbit_neg_r y), andb_false_r by lia|].
    by rewrite (testbit_high k x) by lia. }
  pose proof (Z.add_lor_land x (y ≪ k)). lia.
Qed.

(** writing a value that fits into a field of a 32-bit word leaves a 32-bit word
    from which [getBits] reads the value back, in which every field that does not
    overlap reads as before, and writing what was there changes nothing.  A value that
    does not fit is not masked: bit [i] of the result above the field is the old bit
    or the bit of the shifted value. *)
Theorem setBits_lens a endBig startSmall :
  is_field endBig startSmall -> is_u32 a ->
  (forall b, fits endBig startSmall b ->
     exists r, setBits a b endBig startSmall = Some r /\ is_u32 r /\
       getBits r endBig startSmall = Some b /\
       (forall endBig' startSmall', is_field endBig' startSmall' ->
          endBig < startSmall' \/ endBig' < startSmall ->
          getBits r endBig' startSmall' = getBits a endBig' startSmall')) /\
  (exists b, getBits a endBig startSmall = Some b /\ setBits a b endBig startSmall = Some a) /\
  (forall b, 0 <= b -> exists r, setBits a b endBig startSmall = Some r /\
     forall i, endBig < i < 32 -> Z.testbit r i = Z.testbit a i || Z.testbit b (i - startSmall)).
Proof.
  intros Hf Ha. pose proof Hf as [Hs He]. split; [|split].
  - intros b Hb. exists (field_set endBig startSmall b a).
    split; [by apply setBits_eq|]. split; [by apply field_set_u32|]. split.
    + rewrite getBits_eq by done. by rewrite field_get_set.
    + intros e' s' Hf' Hd. rewrite !getBits_eq by done. f_equal.
      apply field_get_other; [lia|destruct Hf'; lia|done..].
  - exists (field_get endBig startSmall a). split; [by apply getBits_eq|].
    rewrite setBits_eq by (done || by apply field_get_fits). by rewrite field_set_get.
  - intros b Hb. exists (u32 (field_set endBig startSmall b a)).
    split; [by apply setBits_eq_gen|]. intros i Hi.
    unfold u32. rewrite Z.mod_pow2_bits_low, field_set_testbit_gen by lia.
    rewrite (proj2 (Z.leb_le startSmall i)), (proj2 (Z.leb_gt i endBig)) by lia.
    by rewrite andb_true_r.
Qed.

(** The example of the source: the nibble E of 0xFACEB007 replaced by D; and a
    five-bit value, written to the same four bits, spills into the nibble above. *)
Lemma setBits_lens_witness :
  setBits 0xFACEB007 0xD 19 16 = Some 0xFACDB007 /\ setBits 0xFACEB007 0x1D 19 16 = Some 0xFADDB007 /\
  exists b, getBits 0xFACEB007 19 16 = Some b /\ setBits 0xFACEB007 b 19 16 = Some 0xFACEB007.
Proof.
  split; [reflexivity|]. split; [reflexivity|].
  apply (setBits_lens 0xFACEB007 19 16); by vm_compute.
Defined.
