(* ===== verification/Multicore.v ===== *)
(** * The reentrant lock of the kernel ([cpu/multicore/multicore.c])

    The lock word and the three operations, as the interleaved steps of any number of
    cores: each access to the word (a load, a compare-and-swap) is one step, a weak
    compare-and-swap may fail for no reason.  The abstract lock is an owner and a
    depth; every interleaving is one of its histories. *)

From S2P Require Import Prelude Bits.

(** ** The lock word *)

Definition LOCK_FLAG : Z := 1 ≪ 31.
Definition RECURSION_SHIFT : Z := 16.
Definition RECURSION_MASK : Z := 0x7FFF ≪ RECURSION_SHIFT.
Definition OWNER_MASK : Z := 0xFFFF.

(** [reentrant_lock_t] *)
Record reentrant_lock_t := ReentrantLock { state : Z }.

(** One round of the loop of [reentrant_trylock]: the word to swap in, or [return false]. *)
Definition trylock_desired (cpu_id expected : Z) : option Z :=
  let is_locked := expected .& LOCK_FLAG in
  let owner := expected .& OWNER_MASK in
  let recursion := (expected .& RECURSION_MASK) ≫ RECURSION_SHIFT in
  if negb (is_locked =? 0) && (owner =? cpu_id) then
    if recursion =? 0x7FFF then None else Some (u32 (expected + (1 ≪ RECURSION_SHIFT)))
  else if is_locked =? 0 then Some (LOCK_FLAG .| cpu_id .| (1 ≪ RECURSION_SHIFT))
  else None.

(** The condition of the fast path of [reentrant_lock], and one round of its loop: the
    word to swap in, or [break]. *)
Definition lock_owned (cpu_id current : Z) : bool :=
  (current .& (LOCK_FLAG .| OWNER_MASK)) =? (LOCK_FLAG .| cpu_id).
Definition fast_desired (expected : Z) : option Z :=
  let recursion := (expected .& RECURSION_MASK) ≫ RECURSION_SHIFT in
  if recursion =? 0x7FFF then None else Some (u32 (expected + (1 ≪ RECURSION_SHIFT))).

(** One round of the loop of [reentrant_unlock]: the word to swap in, or [return]. *)
Definition unlock_desired (cpu_id expected : Z) : option Z :=
  let is_locked := expected .& LOCK_FLAG in
  let owner := expected .& OWNER_MASK in
  let recursion := (expected .& RECURSION_MASK) ≫ RECURSION_SHIFT in
  if (is_locked =? 0) || negb (owner =? cpu_id) then None
  else if 1 <? recursion then Some (u32 (expected - (1 ≪ RECURSION_SHIFT)))
  else Some 0.

(** ** The cores *)

(** Where a core is, with the local [expected]: before the access named.
    [try] tells whether [reentrant_trylock] was called by [reentrant_lock]. *)
Inductive point :=
| Outside
| LockLoad                            (* reentrant_lock: the load of current *)
| FastSwap (expected : Z)             (* reentrant_lock: the swap of the fast path *)
| TryLoad (in_lock : bool)            (* reentrant_trylock: the load of expected *)
| TrySwap (in_lock : bool) (expected : Z)
| Spin                                (* reentrant_lock: the read-only spinning *)
| UnlockLoad                          (* reentrant_unlock: the load of expected *)
| UnlockSwap (expected : Z).

Inductive call := CallLock | CallTryLock | CallUnlock.

(** What a step decides from outside: the function an idle core calls, and whether a
    weak compare-and-swap fails although the word is the expected one. *)
Record choice := Choice { ch_call : call; ch_spurious : bool }.

(** What is seen of a step. *)
Inductive label :=
| Silent
| Acquired      (* reentrant_lock returns, reentrant_trylock returns true *)
| Refused       (* reentrant_trylock returns false *)
| Released      (* reentrant_unlock has swapped *)
| Ignored.      (* reentrant_unlock returns without touching the lock *)

Section cores.
Context {core : Type} `{EqDecision core}.

(** [apic_get_core_id] of [cpu/apic/apic.cpp] *)
Context (apic_get_core_id : core -> Z).

Record machine := Machine {
  m_lock : reentrant_lock_t;
  m_point : core -> point;
}.

Definition cpu_id (c : core) : Z := apic_get_core_id c .& OWNER_MASK.

Definition move (c : core) (p : point) (f : core -> point) : core -> point :=
  fun o => if decide (o = c) then p else f o.
Definition goto (c : core) (p : point) (w : Z) (m : machine) : machine :=
  Machine (ReentrantLock w) (move c p (m_point m)).

(** [atomic_compare_exchange_weak_explicit]: the new word and, on failure, the word
    that was read into [expected]. *)
Definition compare_exchange (spurious : bool) (w expected desired : Z) : Z * option Z :=
  if (w =? expected) && negb spurious then (desired, None) else (w, Some w).

(** [reentrant_lock]: its fast path goes round again while the lock looks owned. *)
Definition fast_again (c : core) (v : Z) : point :=
  if lock_owned (cpu_id c) v then FastSwap v else TryLoad true.

Definition core_step (c : core) (ch : choice) (m : machine) : machine * label :=
  let w := state (m_lock m) in
  match m_point m c with
  | Outside =>
      (goto c match ch_call ch with
              | CallLock => LockLoad | CallTryLock => TryLoad false | CallUnlock => UnlockLoad
              end w m, Silent)
  | LockLoad => (goto c (fast_again c w) w m, Silent)
  | FastSwap expected =>
      match fast_desired expected with
      | None => (goto c (TryLoad true) w m, Silent)
      | Some desired =>
          match compare_exchange (ch_spurious ch) w expected desired with
          | (w', None) => (goto c Outside w' m, Acquired)
          | (w', Some expected') => (goto c (fast_again c expected') w' m, Silent)
          end
      end
  | TryLoad in_lock => (goto c (TrySwap in_lock w) w m, Silent)
  | TrySwap in_lock expected =>
      match trylock_desired (cpu_id c) expected with
      | None =>
          if in_lock then (goto c Spin w m, Silent) else (goto c Outside w m, Refused)
      | Some desired =>
          match compare_exchange (ch_spurious ch) w expected desired with
          | (w', None) => (goto c Outside w' m, Acquired)
          | (w', Some expected') => (goto c (TrySwap in_lock expected') w' m, Silent)
          end
      end
  | Spin => (goto c (if (w .& LOCK_FLAG) =? 0 then TryLoad true else Spin) w m, Silent)
  | UnlockLoad => (goto c (UnlockSwap w) w m, Silent)
  | UnlockSwap expected =>
      match unlock_desired (cpu_id c) expected with
      | None => (goto c Outside w m, Ignored)
      | Some desired =>
          match compare_exchange false w expected desired with
          | (w', None) => (goto c Outside w' m, Released)
          | (w', Some expected') => (goto c (UnlockSwap expected') w' m, Silent)
          end
      end
  end.

(** A schedule says which core takes the next step. *)
Abbreviation schedule := (list (core * choice)).
Abbreviation history := (list (core * label)).

Fixpoint run (sch : schedule) (m : machine) : machine * history :=
  match sch with
  | [] => (m, [])
  | (c, ch) :: sch =>
      let '(m', l) := core_step c ch m in
      let '(m'', h) := run sch m' in (m'', (c, l) :: h)
  end.

(** [reentrant_lock_t kprintf_lock = {.state = 0}] *)
Definition kprintf_lock : reentrant_lock_t := ReentrantLock 0.
Definition boot : machine := Machine kprintf_lock (fun _ => Outside).

(** ** The abstract lock *)

Abbreviation owner := (option (core * Z)).

Definition max_depth : Z := 0x7FFF.

(** How the abstract lock answers a step; [None]: the step is not one of its own. *)
Definition abstract_step (c : core) (l : label) (a : owner) : option owner :=
  match l, a with
  | Silent, _ => Some a
  | Acquired, None => Some (Some (c, 1))
  | Acquired, Some (o, n) =>
      if decide (o = c) then if n <? max_depth then Some (Some (c, n + 1)) else None else None
  | Refused, Some (o, n) => if decide (o = c) then if n =? max_depth then Some a else None else Some a
  | Refused, None => Some None
  | Released, None => None
  | Released, Some (o, n) =>
      if decide (o = c) then Some (if n =? 1 then None else Some (c, n - 1)) else None
  | Ignored, Some (o, n) => if decide (o = c) then None else Some a
  | Ignored, None => Some None
  end.

Fixpoint abstract_run (h : history) (a : owner) : option owner :=
  match h with
  | [] => Some a
  | (c, l) :: h => a' ← abstract_step c l a; abstract_run h a'
  end.

(** The acquisitions of a core that it has not released yet. *)
Definition delta (l : label) : Z :=
  match l with Acquired => 1 | Released => -1 | _ => 0 end.
Fixpoint held (c : core) (h : history) : Z :=
  match h with
  | [] => 0
  | (o, l) :: h => (if decide (o = c) then delta l else 0) + held c h
  end.

Definition word (a : owner) : Z :=
  match a with
  | None => 0
  | Some (c, n) => 2 ^ 31 + n * 2 ^ 16 + cpu_id c
  end.
Definition valid (a : owner) : Prop :=
  match a with None => True | Some (_, n) => 1 <= n <= max_depth end.

(** ** The bits of the word *)

Lemma lock_flag_div v : is_u32 v -> v .& LOCK_FLAG = (v / 2 ^ 31) * 2 ^ 31.
Proof.
  intros Hv. change LOCK_FLAG with (Z.ones 1 ≪ 31). apply Z.bits_inj'. intros i Hi.
  rewrite <- Z.shiftr_div_pow2, <- Z.shiftl_mul_pow2 by lia.
  rewrite Z.land_spec, !Z.shiftl_spec by lia. destruct (decide (i < 31)).
  - rewrite (Z.testbit_neg_r (Z.ones 1)), (Z.testbit_neg_r (v ≫ 31)) by lia. apply andb_false_r.
  - rewrite Z.shiftr_spec, ones_testbit by lia. replace (i - 31 + 31) with i by lia.
    destruct (decide (i < 32)).
    + rewrite (proj2 (andb_true_iff (0 <=? i - 31) _)) by lia. apply andb_true_r.
    + rewrite testbit_u32 by (done || lia). done.
Qed.

Lemma owner_mod v : v .& OWNER_MASK = v mod 2 ^ 16.
Proof. change OWNER_MASK with (Z.ones 16). by rewrite Z.land_ones. Qed.

Lemma recursion_div v : (v .& RECURSION_MASK) ≫ RECURSION_SHIFT = (v / 2 ^ 16) mod 2 ^ 15.
Proof.
  change RECURSION_MASK with (Z.ones 15 ≪ 16). change RECURSION_SHIFT with 16.
  rewrite <- Z.shiftr_div_pow2, <- Z.land_ones by lia.
  apply Z.bits_inj'. intros i Hi.
  rewrite Z.shiftr_spec, !Z.land_spec, Z.shiftl_spec, Z.shiftr_spec by lia.
  do 2 f_equal. lia.
Qed.

Lemma cpu_id_range c : 0 <= cpu_id c < 2 ^ 16.
Proof. unfold cpu_id. rewrite owner_mod. apply Z.mod_pos_bound. lia. Qed.

(** ** What the operations make of a well-formed word *)

Definition owns (a : owner) (c : core) : Prop := fst <$> a = Some c.
#[local] Instance owns_dec a c : Decision (owns a c).
Proof. unfold owns. apply _. Defined.

Lemma word_u32 a : valid a -> is_u32 (word a).
Proof.
  unfold is_u32. destruct a as [[c n]|]; simpl; [|lia].
  pose proof (cpu_id_range c). unfold max_depth. lia.
Qed.

Lemma word_fields c n : 1 <= n <= max_depth ->
  word (Some (c, n)) / 2 ^ 31 = 1 /\ word (Some (c, n)) mod 2 ^ 16 = cpu_id c /\
  (word (Some (c, n)) / 2 ^ 16) mod 2 ^ 15 = n.
Proof.
  intros Hn. simpl. pose proof (cpu_id_range c). unfold max_depth in Hn.
  assert (Hd : (2 ^ 31 + n * 2 ^ 16 + cpu_id c) / 2 ^ 16 = 2 ^ 15 + n).
  { symmetry. apply Z.div_unique with (r := cpu_id c); lia. }
  split; [symmetry; apply Z.div_unique with (r := n * 2 ^ 16 + cpu_id c); lia|].
  split; [symmetry; apply Z.mod_unique with (q := 2 ^ 15 + n); lia|].
  rewrite Hd. symmetry. apply Z.mod_unique with (q := 1); lia.
Qed.

(** The three fields the operations look at. *)
Lemma word_masks a : valid a ->
  ((word a .& LOCK_FLAG) =? 0) = match a with Some _ => false | None => true end /\
  word a .& OWNER_MASK = match a with Some (o, _) => cpu_id o | None => 0 end /\
  (word a .& RECURSION_MASK) ≫ RECURSION_SHIFT = match a with Some (_, n) => n | None => 0 end.
Proof.
  intros Hv. rewrite lock_flag_div, owner_mod, recursion_div by by apply word_u32.
  destruct a as [[o n]|]; [|done]. by destruct (word_fields o n Hv) as (-> & -> & ->).
Qed.

Context {ids_differ : Inj (=) (=) cpu_id}.

Lemma same_core o c : (cpu_id o =? cpu_id c) = bool_decide (o = c).
Proof.
  case_bool_decide as E; [subst; apply Z.eqb_refl|]. apply Z.eqb_neq. intros Hi. by apply E, ids_differ.
Qed.

Lemma next_word c n : 1 <= n < max_depth ->
  u32 (word (Some (c, n)) + (1 ≪ RECURSION_SHIFT)) = word (Some (c, n + 1)).
Proof.
  intros Hn. change (1 ≪ RECURSION_SHIFT) with (2 ^ 16).
  replace (word (Some (c, n)) + 2 ^ 16) with (word (Some (c, n + 1))) by (simpl; lia).
  apply u32_small, (word_u32 (Some (c, n + 1))). simpl. lia.
Qed.

Lemma first_word c : LOCK_FLAG .| cpu_id c .| (1 ≪ RECURSION_SHIFT) = word (Some (c, 1)).
Proof.
  pose proof (cpu_id_range c). rewrite (Z.lor_comm LOCK_FLAG), <- Z.lor_assoc.
  change (LOCK_FLAG .| (1 ≪ RECURSION_SHIFT)) with ((2 ^ 15 + 1) ≪ 16).
  rewrite lor_shift_add by lia. simpl. lia.
Qed.

Lemma trylock_word c a : valid a ->
  trylock_desired (cpu_id c) (word a) =
    match a with
    | None => Some (word (Some (c, 1)))
    | Some (o, n) =>
        if decide (o = c) then if n =? max_depth then None else Some (word (Some (c, n + 1)))
        else None
    end.
Proof.
  intros Hv. unfold trylock_desired. destruct (word_masks a Hv) as (-> & -> & ->).
  rewrite first_word. destruct a as [[o n]|]; [|done]. rewrite same_core. simpl in Hv.
  case_decide as E; [rewrite bool_decide_true by done|by rewrite bool_decide_false by done].
  subst o. cbn [negb andb]. change 0x7FFF with max_depth.
  destruct (n =? max_depth) eqn:E; [done|]. by rewrite next_word by lia.
Qed.

Lemma fast_word c n : 1 <= n <= max_depth ->
  fast_desired (word (Some (c, n))) =
    if n =? max_depth then None else Some (word (Some (c, n + 1))).
Proof.
  intros Hn. unfold fast_desired. destruct (word_masks (Some (c, n)) Hn) as (_ & _ & ->).
  change 0x7FFF with max_depth. destruct (n =? max_depth) eqn:E; [done|]. by rewrite next_word by lia.
Qed.

Lemma unlock_word c a : valid a ->
  unlock_desired (cpu_id c) (word a) =
    match a with
    | None => None
    | Some (o, n) =>
        if decide (o = c) then Some (word (if n =? 1 then None else Some (c, n - 1))) else None
    end.
Proof.
  intros Hv. unfold unlock_desired. destruct (word_masks a Hv) as (-> & -> & ->).
  destruct a as [[o n]|]; [|done]. rewrite same_core. simpl in Hv.
  case_decide as E; [rewrite bool_decide_true by done|by rewrite bool_decide_false by done].
  subst o. cbn [negb orb]. destruct (n =? 1) eqn:E; [by rewrite (proj2 (Z.ltb_ge 1 n)) by lia|].
  rewrite (proj2 (Z.ltb_lt 1 n)) by lia. f_equal.
  replace (word (Some (c, n))) with (word (Some (c, n - 1)) + 2 ^ 16) by (simpl; lia).
  change (1 ≪ RECURSION_SHIFT) with (2 ^ 16).
  rewrite Z.add_simpl_r. apply u32_small, (word_u32 (Some (c, n - 1))). simpl. lia.
Qed.

Lemma lock_owned_word c a : valid a -> lock_owned (cpu_id c) (word a) = bool_decide (owns a c).
Proof.
  intros Hv. unfold lock_owned, owns. rewrite Z.land_lor_distr_r.
  pose proof (word_masks a Hv) as (Hf & -> & _). rewrite lock_flag_div in * by by apply word_u32.
  assert (Hl : forall q i, 0 <= i < 2 ^ 16 -> (q * 2 ^ 31) .| i = i + q * 2 ^ 31).
  { intros q i Hi. rewrite Z.lor_comm, <- (lor_shift_add 31) by lia.
    by rewrite Z.shiftl_mul_pow2 by lia. }
  change LOCK_FLAG with (1 * 2 ^ 31). pose proof (cpu_id_range c).
  destruct a as [[o n]|]; cbn [fmap option_fmap option_map fst].
  - pose proof (cpu_id_range o). destruct (word_fields o n Hv) as (-> & _ & _).
    rewrite !Hl by done.
    transitivity (cpu_id o =? cpu_id c); [lia|]. rewrite same_core.
    apply bool_decide_ext. split; [by intros ->|by intros [= ->]].
  - rewrite (Hl 1) by done. rewrite bool_decide_false by done. apply Z.eqb_neq.
    change (word None / 2 ^ 31 * 2 ^ 31 .| 0) with 0. lia.
Qed.

(** ** The invariant

    The word encodes the abstract owner; the value a core has loaded encodes one too,
    and agrees with the present one wherever it is about that core, since only the
    core itself takes or gives up the lock in its name. *)

Definition loaded (a : owner) (c : core) (e : Z) : Prop :=
  exists a', e = word a' /\ valid a' /\ (owns a' c \/ owns a c -> a' = a).

Definition located (a : owner) (c : core) (p : point) : Prop :=
  match p with
  | FastSwap e => e = word a /\ owns a c
  | TrySwap _ e | UnlockSwap e => loaded a c e
  | _ => True
  end.

Record invariant (a : owner) (m : machine) : Prop := {
  inv_word : state (m_lock m) = word a;
  inv_valid : valid a;
  inv_located : forall c, located a c (m_point m c);
}.

Lemma loaded_now a c : valid a -> loaded a c (word a).
Proof. intros Hv. by exists a. Qed.

Lemma word_inj a a' : valid a -> valid a' -> word a = word a' -> a = a'.
Proof.
  intros Hv Hv' He.
  destruct a as [[o n]|], a' as [[o' n']|]; simpl in Hv, Hv'; [| | |done].
  - destruct (word_fields o n Hv) as (_ & H2 & H3), (word_fields o' n' Hv') as (_ & H2' & H3').
    rewrite He, H2' in H2. rewrite He, H3' in H3. apply ids_differ in H2. by subst.
  - exfalso. pose proof (cpu_id_range o). simpl in He. lia.
  - exfalso. pose proof (cpu_id_range o'). simpl in He. lia.
Qed.

(** A step in the name of one core does not touch what another core knows. *)
Lemma abstract_other c l a a' o : abstract_step c l a = Some a' -> o <> c ->
  a' = a \/ (~ owns a o /\ ~ owns a' o).
Proof.
  unfold owns. intros Ha Ho.
  destruct l, a as [[o' n]|]; simpl in Ha; repeat case_decide; repeat case_match;
    simplify_eq; auto; right; split; simpl; congruence.
Qed.

Lemma located_other c l a a' o p : abstract_step c l a = Some a' -> o <> c ->
  located a o p -> located a' o p.
Proof.
  intros Ha Ho. destruct (abstract_other _ _ _ _ _ Ha Ho) as [->|[H1 H2]]; [done|].
  destruct p; simpl; try done; [by intros [_ ?]|..]; intros (a1 & -> & Hv & Hl); exists a1;
    (split; [done|split; [done|]]); intros [Hc|Hc]; try done;
    rewrite Hl in Hc by auto; done.
Qed.

Lemma move_same c p f : move c p f c = p.
Proof. unfold move. by rewrite decide_True by done. Qed.
Lemma move_other c o p f : o <> c -> move c p f o = f o.
Proof. intros. unfold move. by rewrite decide_False by done. Qed.

Lemma invariant_step c l p a a' m :
  invariant a m -> abstract_step c l a = Some a' -> valid a' -> located a' c p ->
  invariant a' (goto c p (word a') m).
Proof.
  intros [Hw Hv Hl] Ha Hv' Hp. split; [done|done|]. intros o. simpl.
  destruct (decide (o = c)) as [->|Ho]; [by rewrite move_same|].
  rewrite move_other by done. by eapply located_other.
Qed.

Lemma silent_step c p a m : invariant a m -> located a c p ->
  exists a', abstract_step c Silent a = Some a' /\ invariant a' (goto c p (word a) m).
Proof.
  intros Hi Hp. exists a. split; [done|].
  apply (invariant_step c Silent p a a); [done..|apply Hi|done].
Qed.

Lemma fast_again_located a c : valid a -> located a c (fast_again c (word a)).
Proof.
  intros Hv. unfold fast_again. rewrite lock_owned_word by done. by case_bool_decide.
Qed.

(** A compare-and-swap: it fails and reloads, or the expected word was the present one. *)
Lemma compare_exchange_spec a c sp e d : valid a -> loaded a c e ->
  (compare_exchange sp (word a) e d = (d, None) /\ e = word a) \/
  (compare_exchange sp (word a) e d = (word a, Some (word a))).
Proof.
  intros Hv (a' & -> & Hv' & _). unfold compare_exchange.
  destruct (word a =? word a') eqn:E; [|by right]. destruct sp; [by right|left].
  split; [done|]. lia.
Qed.

Lemma abstract_refused a c : valid a -> (trylock_desired (cpu_id c) (word a) = None) ->
  abstract_step c Refused a = Some a.
Proof.
  intros Hv. rewrite trylock_word by done. destruct a as [[o n]|]; [|done]. simpl.
  case_decide; [|done]. by destruct (n =? max_depth).
Qed.

(** What a stale word of another owner says about the core stays true. *)
Lemma trylock_refused a c e : valid a -> loaded a c e -> trylock_desired (cpu_id c) e = None ->
  abstract_step c Refused a = Some a.
Proof.
  intros Hv (a' & -> & Hv' & Hl) Ht. destruct (decide (owns a c)) as [Ho|Ho].
  - rewrite Hl in Ht by auto. by apply abstract_refused.
  - destruct a as [[o n]|]; [|done]. simpl. case_decide; [|done]. subst o. by destruct Ho.
Qed.

Lemma unlock_ignored a c e : valid a -> loaded a c e -> unlock_desired (cpu_id c) e = None ->
  abstract_step c Ignored a = Some a.
Proof.
  intros Hv (a' & -> & Hv' & Hl) Ht. destruct (decide (owns a c)) as [Ho|Ho].
  - rewrite Hl, unlock_word in Ht by auto. destruct a as [[o n]|]; [|done]. simpl.
    case_decide; [done|done].
  - destruct a as [[o n]|]; [|done]. simpl. case_decide; [|done]. subst o. by destruct Ho.
Qed.

(** A successful swap is a step of the abstract lock. *)
Lemma swap_acquires a c d : valid a -> trylock_desired (cpu_id c) (word a) = Some d ->
  exists a', d = word a' /\ valid a' /\ abstract_step c Acquired a = Some a'.
Proof.
  intros Hv. rewrite trylock_word by done. destruct a as [[o n]|].
  - simpl in *. case_decide; [subst o|done]. destruct (n =? max_depth) eqn:E; [done|].
    intros [= <-]. exists (Some (c, n + 1)). rewrite (proj2 (Z.ltb_lt n _)) by lia.
    split; [done|]. split; [simpl; lia|done].
  - intros [= <-]. by exists (Some (c, 1)).
Qed.

Lemma fast_acquires a c d : valid a -> owns a c -> fast_desired (word a) = Some d ->
  trylock_desired (cpu_id c) (word a) = Some d.
Proof.
  intros Hv Ho Hd. rewrite trylock_word by done. destruct a as [[o n]|]; [|done].
  injection Ho as ->. simpl in Hv. rewrite fast_word in Hd by done. by rewrite decide_True.
Qed.

Lemma swap_releases a c d : valid a -> unlock_desired (cpu_id c) (word a) = Some d ->
  exists a', d = word a' /\ valid a' /\ abstract_step c Released a = Some a'.
Proof.
  intros Hv. rewrite unlock_word by done. destruct a as [[o n]|]; [|done].
  simpl in *. case_decide; [subst o|done]. intros [= <-]. eexists. split; [done|].
  split; [|done]. destruct (n =? 1) eqn:E; simpl; [done|lia].
Qed.

Lemma step_invariant c ch a m :
  invariant a m ->
  exists a', abstract_step c (snd (core_step c ch m)) a = Some a' /\
    invariant a' (fst (core_step c ch m)).
Proof.
  intros Hi. pose proof Hi as [Hw Hv Hl]. specialize (Hl c). unfold core_step. rewrite Hw.
  destruct (m_point m c) as [| |e|il|il e| | |e] eqn:Hp; cbn beta iota zeta in Hl |- *.
  - apply silent_step; [done|]. by destruct (ch_call ch).
  - apply silent_step; [done|]. by apply fast_again_located.
  - destruct Hl as [-> Ho]. destruct (fast_desired (word a)) as [d|] eqn:Hd; [|by apply silent_step].
    destruct (compare_exchange_spec a c (ch_spurious ch) (word a) d Hv) as [[-> _]| ->];
      [by apply loaded_now| |].
    + destruct (swap_acquires a c d Hv) as (a' & -> & Hv' & Ha); [by apply fast_acquires|].
      exists a'. split; [done|]. by eapply invariant_step.
    + apply silent_step; [done|]. by apply fast_again_located.
  - apply silent_step; [done|]. by apply loaded_now.
  - destruct (trylock_desired (cpu_id c) e) as [d|] eqn:Hd.
    + destruct (compare_exchange_spec a c (ch_spurious ch) e d Hv Hl) as [[-> ->]| ->].
      * destruct (swap_acquires a c d Hv Hd) as (a' & -> & Hv' & Ha).
        exists a'. split; [done|]. by eapply invariant_step.
      * apply silent_step; [done|]. by apply loaded_now.
    + destruct il; [by apply silent_step|]. exists a.
      split; [by eapply trylock_refused|].
      apply (invariant_step c Silent Outside a a); done.
  - apply silent_step; [done|]. by destruct (_ =? 0).
  - apply silent_step; [done|]. by apply loaded_now.
  - destruct (unlock_desired (cpu_id c) e) as [d|] eqn:Hd.
    + destruct (compare_exchange_spec a c false e d Hv Hl) as [[-> ->]| ->].
      * destruct (swap_releases a c d Hv Hd) as (a' & -> & Hv' & Ha).
        exists a'. split; [done|]. by eapply invariant_step.
      * apply silent_step; [done|]. by apply loaded_now.
    + exists a. split; [by eapply unlock_ignored|].
      apply (invariant_step c Silent Outside a a); done.
Qed.

(** ** Runs *)

Lemma run_cons c ch sch m :
  run ((c, ch) :: sch) m =
    (fst (run sch (fst (core_step c ch m))),
     (c, snd (core_step c ch m)) :: snd (run sch (fst (core_step c ch m)))).
Proof. simpl. destruct (core_step c ch m) as [m' l]. simpl. by destruct (run sch m'). Qed.

Lemma run_invariant sch a m : invariant a m ->
  exists a', abstract_run (snd (run sch m)) a = Some a' /\ invariant a' (fst (run sch m)).
Proof.
  revert a m. induction sch as [|[c ch] sch IH]; intros a m Hi; [by exists a|].
  rewrite run_cons. simpl. destruct (step_invariant c ch a m Hi) as (a1 & Ha1 & Hi1).
  rewrite Ha1. by apply IH.
Qed.

Lemma boot_invariant : invariant None boot.
Proof. by split. Qed.

Definition depth (a : owner) (c : core) : Z :=
  match a with Some (o, n) => if decide (o = c) then n else 0 | None => 0 end.

Lemma abstract_depth o l a a' c : abstract_step o l a = Some a' ->
  depth a' c = depth a c + (if decide (o = c) then delta l else 0).
Proof.
  intros Ha. destruct l, a as [[o' n]|]; simpl in Ha |- *; repeat case_decide; simplify_eq; simpl;
    repeat case_match; simplify_eq; simpl; repeat case_decide; simplify_eq; try lia; done.
Qed.

(** The depth of the abstract lock is the number of acquisitions not yet released. *)
Lemma abstract_held h a a' c : abstract_run h a = Some a' -> depth a' c = depth a c + held c h.
Proof.
  revert a. induction h as [|[o l] h IH]; intros a; simpl; [intros [= ->]; lia|].
  destruct (abstract_step o l a) as [a1|] eqn:E; simpl; [|done]. intros Ha.
  rewrite (IH a1 Ha), (abstract_depth _ _ _ _ c E). lia.
Qed.

Lemma valid_depth a c : valid a -> 0 <= depth a c <= max_depth /\ (0 < depth a c <-> owns a c).
Proof.
  unfold owns, max_depth. destruct a as [[o n]|]; simpl; [|split; [lia|split; [lia|done]]].
  unfold max_depth. intros Hn. case_decide; split; try lia; split; try lia; congruence.
Qed.

(** The lock of a reachable machine, and what each core holds of it. *)
Lemma reachable_owner sch m h : run sch boot = (m, h) ->
  exists a, abstract_run h None = Some a /\ invariant a m /\ forall c, held c h = depth a c.
Proof.
  intros Hr. destruct (run_invariant sch None boot boot_invariant) as (a & Ha & Hi).
  rewrite Hr in Ha, Hi. exists a. split; [done|]. split; [done|].
  intros c. rewrite (abstract_held _ _ _ c Ha). simpl. lia.
Qed.

(** ** Progress *)

(** A core that is inside [reentrant_lock] although it holds the lock at the greatest depth. *)
Definition stuck_at (a : owner) (p : point) : Prop :=
  match p with
  | LockLoad | TryLoad true | Spin => True
  | FastSwap e | TrySwap true e => e = word a
  | _ => False
  end.

Lemma stuck_round c ch m :
  invariant (Some (c, max_depth)) m -> stuck_at (Some (c, max_depth)) (m_point m c) ->
  exists p, core_step c ch m = (goto c p (word (Some (c, max_depth))) m, Silent) /\
    stuck_at (Some (c, max_depth)) p.
Proof.
  intros [Hw Hv _] Hs. destruct (word_masks _ Hv) as (Hf & _).
  unfold core_step. rewrite Hw. clear Hw. remember (word (Some (c, max_depth))) as w eqn:Ew.
  assert (Hfast : fast_desired w = None) by (subst w; rewrite fast_word by done; done).
  assert (Htry : trylock_desired (cpu_id c) w = None)
    by (subst w; rewrite trylock_word, decide_True by done; done).
  assert (Hown : lock_owned (cpu_id c) w = true)
    by (subst w; rewrite lock_owned_word by done; by apply bool_decide_true).
  destruct (m_point m c) as [| |e|[]|[] e| | |e]; cbn [stuck_at] in Hs; try (exfalso; exact Hs);
    rewrite <- ?Ew in Hs; try subst e; eexists; (split; [|shelve]).
  - unfold fast_again. by rewrite Hown.
  - by rewrite Hfast.
  - done.
  - by rewrite Htry.
  - by rewrite Hf.
  Unshelve. all: cbn [stuck_at]; by rewrite <- ?Ew.
Qed.

Lemma stuck_step c o ch m :
  invariant (Some (c, max_depth)) m -> stuck_at (Some (c, max_depth)) (m_point m c) ->
  (o = c -> snd (core_step o ch m) = Silent) /\
  invariant (Some (c, max_depth)) (fst (core_step o ch m)) /\
  stuck_at (Some (c, max_depth)) (m_point (fst (core_step o ch m)) c).
Proof.
  intros Hi Hs. destruct (step_invariant o ch _ m Hi) as (a' & Ha' & Hi').
  destruct (decide (o = c)) as [->|Ho].
  - assert (Hs' : exists p, core_step c ch m = (goto c p (word (Some (c, max_depth))) m, Silent) /\
      stuck_at (Some (c, max_depth)) p) by by apply stuck_round.
    destruct Hs' as (p & He & Hp). rewrite He in Ha', Hi' |- *. cbn [fst snd] in *.
    injection Ha' as <-. split; [done|]. split; [done|].
    cbn [goto m_point]. by rewrite move_same.
  - split; [done|]. destruct (abstract_other _ _ _ _ c Ha') as [->|[Hn _]]; [done| |by destruct Hn].
    split; [done|]. replace (m_point (fst (core_step o ch m)) c) with (m_point m c); [done|].
    unfold core_step, compare_exchange.
    repeat case_match; simplify_eq; simpl; by rewrite move_other by done.
Qed.

Lemma stuck_run c sch m :
  invariant (Some (c, max_depth)) m -> stuck_at (Some (c, max_depth)) (m_point m c) ->
  forall l, (c, l) ∈ snd (run sch m) -> l = Silent.
Proof.
  revert m. induction sch as [|[o ch] sch IH]; intros m Hi Hs l; [by intros ?%elem_of_nil|].
  destruct (stuck_step c o ch m Hi Hs) as (Hl & Hi' & Hs').
  rewrite run_cons. simpl. intros [[= <- ->]|Hin]%elem_of_cons; [by apply Hl|by eapply IH].
Qed.

(** Alone, [reentrant_lock] takes a lock that is free or its own within three steps. *)
Lemma solo_lock c m a call :
  invariant a m -> m_point m c = LockLoad -> (forall o, owns a o -> o = c) ->
  depth a c < max_depth ->
  exists k m', (k <= 3)%nat /\
    run (replicate k (c, Choice call false)) m = (m', replicate (k - 1) (c, Silent) ++ [(c, Acquired)]) /\
    m_point m' c = Outside.
Proof.
  intros [Hw Hv _] Hp Ho Hd. destruct a as [[o n]|].
  - pose proof (Ho o eq_refl) as ->. simpl in Hd, Hv. rewrite decide_True in Hd by done.
    remember (word (Some (c, n))) as w eqn:Ew.
    assert (Hown : lock_owned (cpu_id c) w = true)
      by (subst w; rewrite lock_owned_word by done; by apply bool_decide_true).
    assert (Hfast : fast_desired w = Some (word (Some (c, n + 1)))).
    { subst w. rewrite fast_word by done. by rewrite (proj2 (Z.eqb_neq n max_depth)) by lia. }
    exists 2%nat. eexists. split; [lia|]. cbn [replicate run].
    unfold core_step at 1. rewrite Hp, Hw. unfold fast_again. rewrite Hown.
    unfold core_step. cbn [goto m_point m_lock state ch_spurious]. rewrite move_same, Hfast.
    unfold compare_exchange. rewrite Z.eqb_refl. cbn [andb negb].
    split; [reflexivity|]. cbn [goto m_point]. apply move_same.
  - assert (Hown : lock_owned (cpu_id c) (word None) = false)
      by (rewrite lock_owned_word by done; by apply bool_decide_false).
    exists 3%nat. eexists. split; [lia|]. cbn [replicate run].
    unfold core_step at 1. rewrite Hp, Hw. unfold fast_again. rewrite Hown.
    unfold core_step at 1. cbn [goto m_point m_lock state]. rewrite move_same.
    unfold core_step. cbn [goto m_point m_lock state ch_spurious]. rewrite move_same, trylock_word by done.
    unfold compare_exchange. rewrite Z.eqb_refl. cbn [andb negb].
    split; [reflexivity|]. cbn [goto m_point]. apply move_same.
Qed.

(** C8: every interleaving of any number of cores with different numbers, whatever
    they call, is a history of the abstract reentrant lock, an owner with a depth of at
    most 0x7FFF: an acquisition succeeds only when the lock is free or the core's own,
    [reentrant_unlock] is ignored only when the lock is not the core's, and the last
    release frees the lock; the lock word encodes owner and depth throughout.  Hence
    two cores never both have acquisitions that they have not released. *)
Theorem reentrant_lock_refines sch m h :
  run sch boot = (m, h) ->
  exists a, abstract_run h None = Some a /\ state (m_lock m) = word a /\ valid a /\
    (forall c, held c h = depth a c) /\
    (forall c c', 0 < held c h -> 0 < held c' h -> c = c').
Proof.
  intros Hr. destruct (reachable_owner sch m h Hr) as (a & Ha & [Hw Hv _] & Hh).
  exists a. do 4 (split; [done|]). intros c c'. rewrite !Hh.
  rewrite !(proj2 (valid_depth a _ Hv)). unfold owns. congruence.
Qed.

(** C26: a core that enters [reentrant_lock] and runs alone acquires the lock within
    three steps, provided nobody else holds it and its own depth is below 0x7FFF.  At
    depth 0x7FFF [reentrant_lock] never returns, however the cores are scheduled, where
    [reentrant_trylock] would refuse. *)
Theorem reentrant_lock_progress sch m h c :
  run sch boot = (m, h) -> m_point m c = LockLoad ->
  ((forall o, 0 < held o h -> o = c) -> held c h < max_depth -> forall call,
     exists k m', (k <= 3)%nat /\ m_point m' c = Outside /\
       run (replicate k (c, Choice call false)) m = (m', replicate (k - 1) (c, Silent) ++ [(c, Acquired)])) /\
  (held c h = max_depth -> forall sch' l, (c, l) ∈ snd (run sch' m) -> l = Silent).
Proof.
  intros Hr Hp. destruct (reachable_owner sch m h Hr) as (a & Ha & Hi & Hh).
  pose proof (inv_valid _ _ Hi) as Hv. split.
  - intros Ho Hd call. rewrite Hh in Hd.
    destruct (solo_lock c m a call Hi Hp) as (k & m' & ? & ? & ?); [|done|by exists k, m'].
    intros o Hown. apply Ho. rewrite Hh. by apply (valid_depth a o Hv).
  - intros Hd sch'. rewrite Hh in Hd. destruct a as [[o n]|]; [|done].
    simpl in Hd. case_decide; [subst o n|done]. apply stuck_run; [done|]. by rewrite Hp.
Qed.
End cores.

(** ** Two cores *)

Definition core_number (b : bool) : Z := Z.b2z b.

#[export] Instance core_number_inj : Inj (=) (=) (cpu_id core_number).
Proof. by intros [] [] ?. Qed.

(** Core 0 locks twice and unlocks once while core 1 tries in between. *)
Definition contended : list (bool * choice) :=
  let lock := Choice CallLock false in let try := Choice CallTryLock false in
  let unlock := Choice CallUnlock false in
  [(false, lock); (true, try); (false, lock); (false, lock); (true, try); (false, lock);
   (true, try); (true, try); (false, lock); (false, lock); (false, lock);
   (false, unlock); (false, unlock); (false, unlock)].

Lemma reentrant_lock_refines_witness :
  held true (snd (run core_number contended boot)) = 0 /\
  held false (snd (run core_number contended boot)) = 1 /\
  (exists a, abstract_run (snd (run core_number contended boot)) None = Some a /\
     state (m_lock (fst (run core_number contended boot))) = word core_number a).
Proof.
  split; [reflexivity|]. split; [reflexivity|].
  destruct (reentrant_lock_refines core_number contended _ _ (surjective_pairing _))
    as (a & Ha & Hw & _). by exists a.
Defined.

(** Core 0 holds the lock once and enters [reentrant_lock] again. *)
Lemma reentrant_lock_progress_witness :
  exists k m', (k <= 3)%nat /\ m_point m' false = Outside /\
    run core_number (replicate k (false, Choice CallLock false))
      (fst (run core_number (replicate 5 (false, Choice CallLock false)) boot)) =
    (m', replicate (k - 1) (false, Silent) ++ [(false, Acquired)]).
Proof.
  apply (reentrant_lock_progress core_number (replicate 5 (false, Choice CallLock false)) _
           (snd (run core_number (replicate 5 (false, Choice CallLock false)) boot)) false).
  - by apply surjective_pairing.
  - reflexivity.
  - intros []; [|done]. intros Hh. vm_compute in Hh. done.
  - reflexivity.
Defined.
