(* ===== verification/StringHelper.v ===== *)
(** * Numbers and strings ([stdio/string_helper.c])

    The conversions write into a buffer of the caller; a C object of characters is the
    list of its bytes, and an access outside of it is undefined: [None].  The loops are
    written out, the reversal of the digits in place included; what they compute is
    stated against [digits], the usual digits of a number. *)

From S2P Require Import Prelude.

(** ** Objects of characters *)

Abbreviation bytes := (list Z).

(** [buffer[i]] *)
Definition load (b : bytes) (i : Z) : option Z :=
  if 0 <=? i then b !! Z.to_nat i else None.

(** [buffer[i] = v] *)
Definition store (b : bytes) (i v : Z) : option bytes :=
  if (0 <=? i) && (i <? Z.of_nat (length b)) then Some (<[Z.to_nat i := v]> b) else None.

(** [strlen]: the scan from [str[len]] on. *)
Fixpoint strlen_loop (str : bytes) (len : Z) : option Z :=
  match str with
  | [] => None
  | c :: str => if c =? 0 then Some len else strlen_loop str (len + 1)
  end.
Definition strlen (str : bytes) : option Z := strlen_loop str 0.

(** ** Decimal *)

(** [while (value > 0) { buffer[pos++] = '0' + (value % 10); value /= 10; }] *)
Fixpoint write_digits (fuel : nat) (value : Z) (buffer : bytes) (pos : Z) : option (bytes * Z) :=
  if value >? 0 then
    match fuel with
    | O => None
    | S fuel =>
        buffer' ← store buffer pos (48 + value mod 10);
        write_digits fuel (value / 10) buffer' (pos + 1)
    end
  else Some (buffer, pos).

(** [while (start < end) { swap; start++; end--; }] *)
Fixpoint reverse_loop (fuel : nat) (buffer : bytes) (start end_ : Z) : option bytes :=
  if start <? end_ then
    match fuel with
    | O => None
    | S fuel =>
        tmp ← load buffer start;
        c ← load buffer end_;
        buffer1 ← store buffer start c;
        buffer2 ← store buffer1 end_ tmp;
        reverse_loop fuel buffer2 (start + 1) (end_ - 1)
    end
  else Some buffer.

(** The digits of a 32-bit number are at most ten. *)
Definition digit_rounds : nat := 10.

(** [uitoa]: the buffer, and the length that is returned. *)
Definition uitoa (value : Z) (buffer : bytes) : option (bytes * Z) :=
  let pos := 0 in
  if value =? 0 then
    buffer ← store buffer pos 48;
    let pos := pos + 1 in
    buffer ← store buffer pos 0;
    Some (buffer, pos)
  else
    let start := pos in
    '(buffer, pos) ← write_digits digit_rounds value buffer pos;
    buffer ← store buffer pos 0;
    let end_ := pos - 1 in
    buffer ← reverse_loop (S digit_rounds) buffer start end_;
    Some (buffer, pos).

(** The least [int]. *)
Definition INT_MIN : Z := - 2 ^ 31.

(** [itoa].  The negation of the least [int] is undefined. *)
Definition itoa (value : Z) (buffer : bytes) : option (bytes * Z) :=
  let pos := 0 in
  if value =? 0 then
    buffer ← store buffer pos 48;
    let pos := pos + 1 in
    buffer ← store buffer pos 0;
    Some (buffer, pos)
  else
    let negative := value <? 0 in
    value ← (if value <? 0 then if value =? INT_MIN then None else Some (- value) else Some value);
    let start := pos in
    '(buffer, pos) ← write_digits digit_rounds value buffer pos;
    '(buffer, pos) ← (if (negative : bool) then b ← store buffer pos 45; Some (b, pos + 1)
                     else Some (buffer, pos));
    buffer ← store buffer pos 0;
    let end_ := pos - 1 in
    buffer ← reverse_loop (S digit_rounds) buffer start end_;
    Some (buffer, pos).

Definition is_digit (c : Z) : bool := (48 <=? c) && (c <=? 57).

Definition CHAR_TO_UINT_INVALID : Z := 11.

Definition char_to_uint (c : Z) : Z :=
  if negb (is_digit c) then CHAR_TO_UINT_INVALID else u8 (c - 48).

(** The loop of [string_to_uint], backwards from [*str] to a NUL: [str] is an index
    into the object [mem] that holds the string. *)
Fixpoint string_to_uint_loop (fuel : nat) (mem : bytes) (str power sum : Z) : option Z :=
  match fuel with
  | O => None
  | S fuel =>
      c ← load mem str;
      if c =? 0 then Some sum
      else
        let digit := char_to_uint c in
        if digit =? CHAR_TO_UINT_INVALID then Some (u32 (-1))
        else string_to_uint_loop fuel mem (str - 1) (u32 (power * 10)) (u32 (sum + digit * power))
  end.

(** [string_to_uint] of the string that starts at index [str] of [mem]. *)
Definition string_to_uint (mem : bytes) (str : Z) : option Z :=
  let power := 1 in
  let sum := 0 in
  len ← strlen (drop (Z.to_nat str) mem);
  let str_length := u8 len in
  let str := str + (str_length - 1) in
  string_to_uint_loop (S (length mem)) mem str power sum.

(** ** Hexadecimal *)

Definition hex_digit (uppercase : bool) (nibble : Z) : Z :=
  if nibble <? 10 then 48 + nibble else (if uppercase then 65 else 97) + (nibble - 10).

(** [for (i = 7; i >= 0; i--)]: the nibbles into [temp]; [n] is [i + 1]. *)
Fixpoint hex_nibbles (n : nat) (uppercase : bool) (value : Z) (temp : bytes) : option bytes :=
  match n with
  | O => Some temp
  | S i =>
      let nibble := value .& 0xF in
      temp' ← store temp (Z.of_nat i) (hex_digit uppercase nibble);
      hex_nibbles i uppercase (value ≫ 4) temp'
  end.

(** [while (temp[i] == '0') i++;] *)
Fixpoint skip_zeros (temp : bytes) (i : Z) : option Z :=
  match temp with
  | [] => None
  | c :: temp => if c =? 48 then skip_zeros temp (i + 1) else Some i
  end.

(** [while (temp[i] != 0) buffer[j++] = temp[i++];] *)
Fixpoint copy_string (temp : bytes) (buffer : bytes) (j : Z) : option (bytes * Z) :=
  match temp with
  | [] => None
  | c :: temp =>
      if c =? 0 then Some (buffer, j)
      else buffer' ← store buffer j c; copy_string temp buffer' (j + 1)
  end.

(** [uint_to_hex], and [ptr_to_hex] with pointers of four bytes. *)
Definition uint_to_hex (value : Z) (buffer : bytes) (uppercase : bool) : option (bytes * Z) :=
  if value =? 0 then
    buffer ← store buffer 0 48;
    buffer ← store buffer 1 0;
    Some (buffer, 1)
  else
    temp ← hex_nibbles 8 uppercase value (replicate 8 0 ++ [0]);
    i ← skip_zeros temp 0;
    '(buffer, j) ← copy_string (drop (Z.to_nat i) temp) buffer 0;
    buffer ← store buffer j 0;
    Some (buffer, j).
Definition ptr_to_hex (ptr : Z) (buffer : bytes) (uppercase : bool) : option (bytes * Z) :=
  uint_to_hex ptr buffer uppercase.

Example uitoa_1206 : uitoa 1206 (replicate 6 7) = Some ([49; 50; 48; 54; 0; 7], 4).
Proof. reflexivity. Qed.
Example itoa_neg : itoa (-35) (replicate 6 7) = Some ([45; 51; 53; 0; 7; 7], 3).
Proof. reflexivity. Qed.
Example hex_dead : uint_to_hex 0xdead (replicate 6 7) false = Some ([100; 101; 97; 100; 0; 7], 4).
Proof. reflexivity. Qed.

(** ** Accesses at a known place *)

Lemma load_mid pre x post i : i = Z.of_nat (length pre) -> load (pre ++ x :: post) i = Some x.
Proof.
  intros ->. unfold load. rewrite (proj2 (Z.leb_le 0 _)), Nat2Z.id by lia.
  by apply list_lookup_middle.
Qed.

Lemma store_mid pre x post i v :
  i = Z.of_nat (length pre) -> store (pre ++ x :: post) i v = Some (pre ++ v :: post).
Proof.
  intros ->. unfold store. rewrite length_app. simpl.
  rewrite (proj2 (andb_true_iff _ _)), Nat2Z.id by lia. by rewrite insert_app_r_alt, Nat.sub_diag by lia.
Qed.

Lemma store_past b i v : Z.of_nat (length b) <= i -> store b i v = None.
Proof. intros Hi. unfold store. by rewrite (proj2 (andb_false_iff _ _)) by lia. Qed.

(** ** The reference: the digits of a number *)

(** Decimal digits from the last to the first; none for 0. *)
Fixpoint digits_lsb (fuel : nat) (v : Z) : bytes :=
  match fuel with
  | O => []
  | S fuel => if v >? 0 then (48 + v mod 10) :: digits_lsb fuel (v / 10) else []
  end.
Definition digits (v : Z) : bytes := if v =? 0 then [48] else reverse (digits_lsb digit_rounds v).

(** The value of digits, from the first to the last. *)
Definition value_of (base : Z) (digit : Z -> Z) (ds : bytes) : Z :=
  foldl (fun acc c => acc * base + digit c) 0 ds.

Lemma value_of_reverse base digit ds :
  value_of base digit (reverse ds) = foldr (fun c acc => acc * base + digit c) 0 ds.
Proof.
  unfold value_of. induction ds as [|d ds IH]; [done|]. by rewrite reverse_cons, foldl_app; simpl; rewrite IH.
Qed.

Lemma digits_lsb_length n v : (length (digits_lsb n v) <= n)%nat.
Proof. revert v. induction n; intros v; simpl; [lia|]. case_match; simpl; [|lia]. specialize (IHn (v / 10)). lia. Qed.

Lemma digits_lsb_digits n v : Forall (fun c => is_digit c = true) (digits_lsb n v).
Proof.
  revert v. induction n; intros v; simpl; [constructor|]. case_match; constructor; [|done].
  unfold is_digit. pose proof (Z.mod_pos_bound v 10). lia.
Qed.

Lemma digits_lsb_value n v : 0 <= v < 10 ^ Z.of_nat n ->
  foldr (fun c acc => acc * 10 + (c - 48)) 0 (digits_lsb n v) = v.
Proof.
  revert v. induction n as [|n IH]; intros v Hv; [simpl in *; lia|].
  cbn [digits_lsb]. destruct (v >? 0) eqn:E; [|simpl; lia]. cbn [foldr].
  rewrite Nat2Z.inj_succ, Z.pow_succ_r in Hv by lia.
  rewrite IH; [pose proof (Z.div_mod v 10); lia|].
  split; [apply Z.div_pos; lia|apply Z.div_lt_upper_bound; lia].
Qed.

Lemma digits_lsb_last n v : 0 < v < 10 ^ Z.of_nat n ->
  exists ds d, digits_lsb n v = ds ++ [d] /\ d <> 48.
Proof.
  revert v. induction n as [|n IH]; intros v Hv; [simpl in *; lia|].
  cbn [digits_lsb]. rewrite (proj2 (Z.gtb_lt v 0)) by lia.
  rewrite Nat2Z.inj_succ, Z.pow_succ_r in Hv by lia.
  destruct (decide (v / 10 = 0)) as [Hz|Hz].
  - rewrite Hz. assert (digits_lsb n 0 = []) as -> by by destruct n.
    exists [], (48 + v mod 10). split; [done|]. pose proof (Z.div_mod v 10). lia.
  - assert (0 <= v / 10) by (apply Z.div_pos; lia).
    destruct (IH (v / 10)) as (ds & d & -> & Hd); [split; [lia|apply Z.div_lt_upper_bound; lia]|].
    by exists ((48 + v mod 10) :: ds), d.
Qed.

Lemma digits_spec v : is_u32 v ->
  value_of 10 (fun c => c - 48) (digits v) = v /\
  Forall (fun c => is_digit c = true) (digits v) /\
  (1 <= length (digits v) <= 10)%nat /\
  (v <> 0 -> head (digits v) <> Some 48).
Proof.
  unfold is_u32. intros Hv. unfold digits. destruct (v =? 0) eqn:E.
  { assert (v = 0) as -> by lia. repeat split; simpl; try lia. by repeat constructor. }
  destruct (digits_lsb_last digit_rounds v) as (ds & d & He & Hd); [unfold digit_rounds; lia|].
  split; [|split; [|split]].
  - rewrite value_of_reverse. apply digits_lsb_value. unfold digit_rounds. lia.
  - apply Forall_reverse, digits_lsb_digits.
  - rewrite length_reverse. pose proof (digits_lsb_length digit_rounds v).
    split; [rewrite He, length_app; simpl; lia|done].
  - intros _. rewrite He, reverse_app. simpl. congruence.
Qed.

Lemma digits_nonnul v c : is_u32 v -> c ∈ digits v -> c <> 0 /\ c <> 45.
Proof.
  intros Hv Hc. destruct (digits_spec v Hv) as (_ & Hd & _).
  rewrite Forall_forall in Hd. apply list_elem_of_In in Hc. specialize (Hd c Hc). unfold is_digit in Hd. lia.
Qed.

(** ** The loops *)

Lemma digits_lsb_nil n v : (v >? 0) = false -> digits_lsb n v = [].
Proof. intros E. destruct n; simpl; [done|]. by rewrite E. Qed.

(** The digits are written where they fit, and not at all where they do not. *)
Lemma write_digits_spec n v pre rest : 0 <= v < 10 ^ Z.of_nat n ->
  write_digits n v (pre ++ rest) (Z.of_nat (length pre)) =
    if Nat.leb (length (digits_lsb n v)) (length rest) then
      Some (pre ++ digits_lsb n v ++ drop (length (digits_lsb n v)) rest,
            Z.of_nat (length pre + length (digits_lsb n v)))
    else None.
Proof.
  revert v pre rest. induction n as [|n IH]; intros v pre rest Hv; cbn [write_digits digits_lsb].
  { assert ((v >? 0) = false) as -> by (simpl in Hv; lia). simpl. by rewrite Nat.add_0_r. }
  destruct (v >? 0) eqn:E; [|simpl; by rewrite Nat.add_0_r].
  destruct rest as [|x rest]; [by rewrite app_nil_r, store_past by lia|].
  rewrite store_mid by done. simpl mbind.
  rewrite Nat2Z.inj_succ, Z.pow_succ_r in Hv by lia.
  assert (0 <= v / 10 < 10 ^ Z.of_nat n)
    by (split; [apply Z.div_pos; lia|apply Z.div_lt_upper_bound; lia]).
  rewrite cons_middle, (assoc_L (++)).
  replace (Z.of_nat (length pre) + 1) with (Z.of_nat (length (pre ++ [48 + v mod 10])))
    by (rewrite length_app; simpl; lia).
  rewrite IH by done. cbn [length Nat.leb]. case_match; [|done].
  rewrite <- (assoc_L (++)), length_app. simpl. do 2 f_equal. lia.
Qed.

Lemma list_ends {A} (l : list A) : length l <> 0%nat -> length l <> 1%nat ->
  exists x m y, l = x :: m ++ [y].
Proof.
  destruct l as [|x l]; [done|]. intros _ Hl. destruct l as [|z l _] using rev_ind; [done|].
  by exists x, l, z.
Qed.

Lemma reverse_loop_spec n mid pre post : (length mid <= 2 * n + 1)%nat ->
  reverse_loop n (pre ++ mid ++ post) (Z.of_nat (length pre))
    (Z.of_nat (length pre) + Z.of_nat (length mid) - 1) = Some (pre ++ reverse mid ++ post).
Proof.
  revert mid pre post. induction n as [|n IH]; intros mid pre post Hn;
    destruct (decide (length mid < 2)%nat) as [Hs|Hs].
  1,3: assert (reverse mid = mid) as -> by (destruct mid as [|? [|]]; simpl in Hs; done || lia);
    cbn [reverse_loop]; by rewrite (proj2 (Z.ltb_ge _ _)) by lia.
  { lia. }
  destruct (list_ends mid) as (x & m & y & ->); [lia..|].
  cbn [reverse_loop]. cbn [length] in *. rewrite length_app in *. cbn [length] in *.
  rewrite (proj2 (Z.ltb_lt _ _)) by lia.
  assert (Hm : forall a b, pre ++ a :: m ++ b :: post = (pre ++ a :: m) ++ b :: post)
    by (intros; by rewrite <- (assoc_L (++))).
  replace (pre ++ (x :: m ++ [y]) ++ post) with (pre ++ x :: m ++ y :: post)
    by (simpl; by rewrite <- (assoc_L (++))).
  rewrite (load_mid pre x (m ++ y :: post) _ eq_refl). cbn [mbind option_bind].
  rewrite Hm, load_mid, <- Hm by (rewrite length_app; simpl; lia). cbn [mbind option_bind].
  rewrite (store_mid pre x (m ++ y :: post) _ _ eq_refl). cbn [mbind option_bind].
  rewrite Hm, store_mid, <- Hm by (rewrite length_app; simpl; lia). cbn [mbind option_bind].
  rewrite cons_middle, (assoc_L (++)).
  replace (Z.of_nat (length pre) + 1) with (Z.of_nat (length (pre ++ [y])))
    by (rewrite length_app; simpl; lia).
  match goal with |- reverse_loop _ _ _ ?e = _ =>
    replace e with (Z.of_nat (length (pre ++ [y])) + Z.of_nat (length m) - 1)
      by (rewrite length_app; simpl; lia) end.
  rewrite IH by lia. f_equal. rewrite reverse_cons, reverse_app. simpl.
  by rewrite <- !(assoc_L (++)).
Qed.

(** ** The conversions *)

(** A buffer into which the string [s] and its NUL have been written. *)
Definition written (s buffer : bytes) : bytes := s ++ 0 :: drop (S (length s)) buffer.

(** The buffer after the digits, its next byte set to NUL and the digits turned around. *)
Lemma finish_spec n rs buffer : (length rs <= 2 * n + 1)%nat -> (1 <= length rs <= length buffer)%nat ->
  (b ← store (rs ++ drop (length rs) buffer) (Z.of_nat (length rs)) 0;
   b ← reverse_loop n b 0 (Z.of_nat (length rs) - 1);
   Some (b, Z.of_nat (length rs))) =
  if Nat.ltb (length rs) (length buffer)
  then Some (written (reverse rs) buffer, Z.of_nat (length rs)) else None.
Proof.
  intros Hn Hl. destruct (drop (length rs) buffer) as [|x post] eqn:E.
  - assert (length buffer - length rs = 0)%nat as Hz by by rewrite <- length_drop, E.
    rewrite (proj2 (Nat.ltb_ge _ _)) by lia. rewrite store_past; [done|]. rewrite app_nil_r. lia.
  - assert (length buffer - length rs = S (length post))%nat as Hz by by rewrite <- length_drop, E.
    rewrite (proj2 (Nat.ltb_lt _ _)) by lia. rewrite store_mid by done. cbn [mbind option_bind].
    pose proof (reverse_loop_spec n rs [] (0 :: post) Hn) as Hr. cbn [length app] in Hr.
    change (Z.of_nat 0) with 0 in Hr. rewrite Z.add_0_l in Hr.
    rewrite Hr. cbn [mbind option_bind]. unfold written. rewrite length_reverse.
    assert (drop (S (length rs)) buffer = post) as ->; [|done].
    replace (S (length rs)) with (length rs + 1)%nat by lia. by rewrite <- drop_drop, E.
Qed.

Lemma zero_spec buffer :
  (b ← store buffer 0 48; b ← store b 1 0; Some (b, 1)) =
  if Nat.ltb 1 (length buffer) then Some (written [48] buffer, 1) else None.
Proof.
  destruct buffer as [|x [|y post]]; [done..|].
  assert (store (x :: y :: post) 0 48 = Some (48 :: y :: post)) as -> by by apply (store_mid []).
  cbn [mbind option_bind].
  assert (store (48 :: y :: post) 1 0 = Some (48 :: 0 :: post)) as -> by by apply (store_mid [48]).
  unfold written. cbn [length app]. by destruct post.
Qed.

(** [uitoa] writes the digits and a NUL, and needs room for both. *)
Lemma uitoa_spec v buffer : is_u32 v ->
  uitoa v buffer =
    if Nat.ltb (length (digits v)) (length buffer)
    then Some (written (digits v) buffer, Z.of_nat (length (digits v))) else None.
Proof.
  unfold is_u32. intros Hv. unfold uitoa, digits. destruct (v =? 0) eqn:E; [apply zero_spec|].
  pose proof (write_digits_spec digit_rounds v [] buffer ltac:(unfold digit_rounds; lia)) as Hw.
  cbn [length app Nat.add] in Hw. change (Z.of_nat 0) with 0 in Hw. rewrite Hw, length_reverse.
  pose proof (digits_lsb_length digit_rounds v).
  destruct (digits_lsb_last digit_rounds v ltac:(unfold digit_rounds; lia)) as (ds & d & Hd & _).
  destruct (Nat.leb _ _) eqn:Hle.
  - apply Nat.leb_le in Hle. cbn [mbind option_bind].
    apply (finish_spec (S digit_rounds) (digits_lsb digit_rounds v)); [unfold digit_rounds in *; lia|].
    split; [rewrite Hd, length_app; simpl; lia|done].
  - apply Nat.leb_gt in Hle. by rewrite (proj2 (Nat.ltb_ge _ _)) by lia.
Qed.

(** The text of an [int]. *)
Definition int_text (v : Z) : bytes := if v <? 0 then 45 :: digits (- v) else digits v.

Definition is_int (v : Z) : Prop := INT_MIN <= v < 2 ^ 31.

(** [itoa] likewise, with the sign; of the least [int] it is undefined. *)
Lemma itoa_spec v buffer : is_int v ->
  itoa v buffer =
    if (v =? INT_MIN) || negb (Nat.ltb (length (int_text v)) (length buffer)) then None
    else Some (written (int_text v) buffer, Z.of_nat (length (int_text v))).
Proof.
  unfold is_int. intros Hv. unfold int_text.
  destruct (v <? 0) eqn:Hs; unfold itoa; rewrite Hs.
  - rewrite (proj2 (Z.eqb_neq v 0)) by lia.
    destruct (v =? INT_MIN) eqn:Hm; [done|]. cbn [mbind option_bind orb].
    pose proof (write_digits_spec digit_rounds (- v) [] buffer) as Hw.
    cbn [length app Nat.add] in Hw. change (Z.of_nat 0) with 0 in Hw. rewrite Hw by (unfold digit_rounds, INT_MIN in *; lia).
    unfold digits. rewrite (proj2 (Z.eqb_neq (- v) 0)) by lia.
    pose proof (digits_lsb_length digit_rounds (- v)).
    set (rs := digits_lsb digit_rounds (- v)) in *. cbn [length]. rewrite length_reverse.
    destruct (Nat.leb _ _) eqn:Hle; [|apply Nat.leb_gt in Hle;
      by rewrite (proj2 (Nat.ltb_ge (S (length rs)) _)) by lia].
    apply Nat.leb_le in Hle. cbn [mbind option_bind].
    destruct (drop (length rs) buffer) as [|x post] eqn:E.
    + assert (length buffer - length rs = 0)%nat as Hz by by rewrite <- length_drop, E.
      rewrite (proj2 (Nat.ltb_ge _ _)) by lia. rewrite store_past; [done|]. rewrite app_nil_r. lia.
    + assert (length buffer - length rs = S (length post))%nat as Hz by by rewrite <- length_drop, E.
      rewrite store_mid by done. cbn [mbind option_bind].
      replace (rs ++ 45 :: post) with ((rs ++ [45]) ++ drop (length (rs ++ [45])) buffer).
      2: { rewrite length_app, <- drop_drop, E. by rewrite <- (assoc_L (++)). }
      pose proof (finish_spec (S digit_rounds) (rs ++ [45]) buffer) as Hf.
      rewrite length_app in Hf |- *. cbn [length] in Hf |- *.
      replace (Z.of_nat (length rs) + 1) with (Z.of_nat (length rs + 1)) by lia.
      rewrite Hf by (unfold digit_rounds in *; lia).
      rewrite reverse_app. change (reverse [45] ++ reverse rs) with (45 :: reverse rs).
      replace (length rs + 1)%nat with (S (length rs)) by lia. by destruct (Nat.ltb (S (length rs)) (length buffer)).
  - rewrite (proj2 (Z.eqb_neq v INT_MIN)) by (unfold INT_MIN; lia). cbn [orb].
    transitivity (uitoa v buffer); [|rewrite uitoa_spec by (unfold is_u32; lia); by destruct (Nat.ltb _ _)].
    unfold uitoa. destruct (v =? 0) eqn:E; [done|]. cbn [mbind option_bind].
    by destruct (write_digits digit_rounds v buffer 0) as [[b p]|].
Qed.

(** ** Hexadecimal digits *)

(** [n] nibbles of [v], from the highest. *)
Fixpoint nibbles (n : nat) (uppercase : bool) (v : Z) : bytes :=
  match n with
  | O => []
  | S n => nibbles n uppercase (v ≫ 4) ++ [hex_digit uppercase (v .& 0xF)]
  end.

Fixpoint strip_zeros (s : bytes) : bytes :=
  match s with c :: s' => if c =? 48 then strip_zeros s' else s | [] => [] end.

Definition hex_text (uppercase : bool) (v : Z) : bytes :=
  if v =? 0 then [48] else strip_zeros (nibbles 8 uppercase v).

(** The value of a hexadecimal digit. *)
Definition hex_value (uppercase : bool) (c : Z) : Z :=
  if c <? 58 then c - 48 else c - (if uppercase then 65 else 97) + 10.

Lemma nibble_range v : 0 <= v .& 0xF < 16.
Proof. change 0xF with (Z.ones 4). rewrite Z.land_ones by lia. apply Z.mod_pos_bound. lia. Qed.

Lemma hex_value_digit up n : 0 <= n < 16 -> hex_value up (hex_digit up n) = n.
Proof. intros Hn. unfold hex_value, hex_digit. destruct up; repeat case_match; lia. Qed.

Lemma hex_digit_range up n : 0 <= n < 16 -> 48 <= hex_digit up n <= 102.
Proof. intros Hn. unfold hex_digit. destruct up; case_match; lia. Qed.

Lemma hex_digit_zero up n : 0 <= n < 16 -> hex_digit up n = 48 <-> n = 0.
Proof. intros Hn. unfold hex_digit. destruct up; case_match; lia. Qed.

Lemma nibbles_length n up v : length (nibbles n up v) = n.
Proof. revert v. induction n; intros v; simpl; [done|]. rewrite length_app, IHn. simpl. lia. Qed.

Lemma nibbles_value n up v : 0 <= v < 16 ^ Z.of_nat n -> value_of 16 (hex_value up) (nibbles n up v) = v.
Proof.
  revert v. induction n as [|n IH]; intros v Hv; [simpl in *; unfold value_of; simpl; lia|].
  simpl. rewrite Nat2Z.inj_succ, Z.pow_succ_r in Hv by lia.
  pose proof (nibble_range v). unfold value_of in *. rewrite foldl_app, IH.
  - simpl. rewrite hex_value_digit by done.
    change 15 with (Z.ones 4). rewrite Z.land_ones, Z.shiftr_div_pow2 by lia.
    pose proof (Z.div_mod v (2 ^ 4)). lia.
  - rewrite Z.shiftr_div_pow2 by lia.
    split; [apply Z.div_pos; lia|apply Z.div_lt_upper_bound; lia].
Qed.

Lemma nibbles_chars n up v : Forall (fun c => 48 <= c <= 102) (nibbles n up v).
Proof.
  revert v. induction n; intros v; simpl; [constructor|]. apply Forall_app. split; [done|].
  repeat constructor; apply (hex_digit_range up (v .& 15)), nibble_range.
Qed.

Lemma strip_value up s : value_of 16 (hex_value up) (strip_zeros s) = value_of 16 (hex_value up) s.
Proof.
  unfold value_of. induction s as [|c s IH]; [done|]. simpl. destruct (c =? 48) eqn:E; [|done].
  assert (c = 48) as -> by lia. rewrite IH. done.
Qed.

Lemma strip_app s : exists zs, s = zs ++ strip_zeros s /\ Forall (fun c => c = 48) zs.
Proof.
  induction s as [|c s (zs & Hs & Hz)]; [by exists []|]. simpl. destruct (c =? 48) eqn:E.
  - exists (c :: zs). split; [by rewrite Hs at 1|]. constructor; [lia|done].
  - by exists [].
Qed.

(** The hexadecimal text has the value, at most eight digits and no zero in front. *)
Lemma hex_text_spec up v : is_u32 v ->
  value_of 16 (hex_value up) (hex_text up v) = v /\
  (1 <= length (hex_text up v) <= 8)%nat /\ Forall (fun c => 48 <= c <= 102) (hex_text up v) /\
  (v <> 0 -> head (hex_text up v) <> Some 48).
Proof.
  unfold is_u32. intros Hv. unfold hex_text. destruct (v =? 0) eqn:E.
  { assert (v = 0) as -> by lia. split; [done|]. simpl. split; [lia|]. split; [|done].
    constructor; [lia|constructor]. }
  assert (Hval : value_of 16 (hex_value up) (strip_zeros (nibbles 8 up v)) = v).
  { rewrite strip_value. apply nibbles_value. lia. }
  destruct (strip_app (nibbles 8 up v)) as (zs & Hs & _).
  pose proof (nibbles_length 8 up v) as Hl. pose proof (nibbles_chars 8 up v) as Hc.
  rewrite Hs in Hl, Hc. rewrite length_app in Hl. apply Forall_app in Hc as [_ Hc].
  split; [done|]. split; [split; [|lia]|split; [done|]].
  - destruct (strip_zeros (nibbles 8 up v)); [|simpl; lia]. unfold value_of in Hval. simpl in Hval. lia.
  - intros _. clear. induction (nibbles 8 up v) as [|c s IH]; [done|]. simpl.
    destruct (c =? 48) eqn:E; [done|]. simpl. intros [= ->]. done.
Qed.

(** ** The loops of the hexadecimal conversion *)

Lemma hex_nibbles_spec n up v pre post : length pre = n ->
  hex_nibbles n up v (pre ++ post) = Some (nibbles n up v ++ post).
Proof.
  revert v pre post. induction n as [|n IH]; intros v pre post Hl; [by destruct pre|].
  destruct pre as [|x pre _] using rev_ind; [done|]. rewrite length_app in Hl. simpl in Hl.
  cbn [hex_nibbles nibbles]. rewrite <- (assoc_L (++)). cbn [app].
  rewrite store_mid by lia. cbn [mbind option_bind]. rewrite IH by lia.
  by rewrite <- (assoc_L (++)).
Qed.

Lemma skip_zeros_spec zs c rest i : Forall (fun d => d = 48) zs -> c <> 48 ->
  skip_zeros (zs ++ c :: rest) i = Some (i + Z.of_nat (length zs)).
Proof.
  intros Hz Hc. revert i. induction Hz as [|d zs -> Hz IH]; intros i; simpl.
  - rewrite (proj2 (Z.eqb_neq c 48)) by done. f_equal. lia.
  - rewrite IH. f_equal. lia.
Qed.

Lemma copy_string_spec s tail pre rest : Forall (fun c => c <> 0) s ->
  copy_string (s ++ 0 :: tail) (pre ++ rest) (Z.of_nat (length pre)) =
    if Nat.leb (length s) (length rest) then
      Some (pre ++ s ++ drop (length s) rest, Z.of_nat (length pre + length s)) else None.
Proof.
  intros Hs. revert pre rest. induction Hs as [|c s Hc Hs IH]; intros pre rest; simpl.
  { by rewrite Nat.add_0_r. }
  rewrite (proj2 (Z.eqb_neq c 0)) by done.
  destruct rest as [|x rest]; [by rewrite app_nil_r, store_past by lia|].
  rewrite store_mid by done. cbn [mbind option_bind].
  replace (pre ++ c :: rest) with ((pre ++ [c]) ++ rest) by by rewrite <- (assoc_L (++)).
  replace (Z.of_nat (length pre) + 1) with (Z.of_nat (length (pre ++ [c])))
    by (rewrite length_app; simpl; lia).
  rewrite IH. cbn [length Nat.leb]. case_match; [|done].
  rewrite <- (assoc_L (++)), length_app. simpl. do 2 f_equal. lia.
Qed.

(** [uint_to_hex] writes the hexadecimal text and a NUL, and needs room for both. *)
Lemma uint_to_hex_spec v buffer up : is_u32 v ->
  uint_to_hex v buffer up =
    if Nat.ltb (length (hex_text up v)) (length buffer)
    then Some (written (hex_text up v) buffer, Z.of_nat (length (hex_text up v))) else None.
Proof.
  intros Hv. destruct (hex_text_spec up v Hv) as (_ & Hl & Hc & Hz).
  unfold uint_to_hex. unfold hex_text in *. destruct (v =? 0) eqn:E; [apply zero_spec|].
  rewrite (hex_nibbles_spec 8 up v (replicate 8 0) [0]) by done. cbn [mbind option_bind].
  destruct (strip_app (nibbles 8 up v)) as (zs & Hs & Hzs).
  destruct (strip_zeros (nibbles 8 up v)) as [|c s] eqn:Hst; [cbn [length] in Hl; lia|].
  rewrite Hs, <- (assoc_L (++)). cbn [app]. assert (c <> 48) by (intros ->; by apply Hz; [lia|]).
  rewrite skip_zeros_spec by done. cbn [mbind option_bind].
  rewrite Z.add_0_l, Nat2Z.id, drop_app_length.
  pose proof (copy_string_spec (c :: s) [] [] buffer) as Hcp. cbn [length app Nat.add] in Hcp.
  change (Z.of_nat 0) with 0 in Hcp. rewrite Hcp by (eapply Forall_impl; [|exact Hc]; simpl; intros; lia).
  cbn [length] in Hl |- *.
  destruct (Nat.leb (S (length s)) (length buffer)) eqn:Hle; [|apply Nat.leb_gt in Hle;
    by rewrite (proj2 (Nat.ltb_ge _ _)) by lia].
  apply Nat.leb_le in Hle. cbn [mbind option_bind].
  destruct (drop (S (length s)) buffer) as [|x post] eqn:Ed.
  - assert (length buffer - S (length s) = 0)%nat as Hz0 by by rewrite <- length_drop, Ed.
    rewrite (proj2 (Nat.ltb_ge _ _)) by (cbn [length]; lia). rewrite app_nil_r.
    rewrite (store_past (c :: s)); [done|cbn [length]; lia].
  - assert (length buffer - S (length s) = S (length post))%nat as Hz0 by by rewrite <- length_drop, Ed.
    rewrite (proj2 (Nat.ltb_lt _ _)) by (cbn [length]; lia).
    assert (store (c :: s ++ x :: post) (Z.of_nat (S (length s))) 0 = Some (c :: s ++ 0 :: post)) as ->
      by by apply (store_mid (c :: s)).
    cbn [mbind option_bind]. unfold written.
    cbn [length]. assert (drop (S (S (length s))) buffer = post) as ->; [|done].
    replace (S (S (length s))) with (S (length s) + 1)%nat by (cbn [length]; lia). by rewrite <- drop_drop, Ed.
Qed.

(** ** Reading a number back *)

Lemma strlen_loop_spec s rest n : Forall (fun c => c <> 0) s ->
  strlen_loop (s ++ 0 :: rest) n = Some (n + Z.of_nat (length s)).
Proof.
  intros Hs. revert n. induction Hs as [|c s Hc Hs IH]; intros n; simpl; [f_equal; lia|].
  rewrite (proj2 (Z.eqb_neq c 0)) by done. rewrite IH. f_equal. lia.
Qed.

Lemma strlen_spec s rest : Forall (fun c => c <> 0) s ->
  strlen (s ++ 0 :: rest) = Some (Z.of_nat (length s)).
Proof. intros Hs. unfold strlen. by rewrite strlen_loop_spec. Qed.

Lemma digit_nonnul s : Forall (fun c => is_digit c = true) s -> Forall (fun c => c <> 0) s.
Proof. intros Hs. eapply Forall_impl; [|exact Hs]. unfold is_digit. simpl. lia. Qed.

(** From the last digit of [s] down to the byte before it. *)
Lemma string_to_uint_loop_spec s : forall pre rest fuel power sum,
  Forall (fun c => is_digit c = true) s -> (length s < fuel)%nat ->
  exists q, forall base, pre = base ++ [0] ->
    string_to_uint_loop fuel (pre ++ s ++ rest) (Z.of_nat (length pre + length s) - 1) power (u32 sum) =
      Some (u32 (sum + power * value_of 10 (fun c => c - 48) s + 2 ^ 32 * q)).
Proof.
  induction s as [|d s IH] using rev_ind; intros pre rest fuel power sum Hs Hf.
  - exists 0. intros base ->. destruct fuel as [|fuel]; [simpl in Hf; lia|]. cbn [string_to_uint_loop].
    rewrite <- (assoc_L (++) base). cbn [app].
    rewrite load_mid by (rewrite length_app; simpl; lia). cbn [mbind option_bind].
    unfold value_of. simpl. do 2 f_equal. lia.
  - apply Forall_app in Hs as [Hs Hd]. apply Forall_inv in Hd. unfold is_digit in Hd.
    rewrite length_app in Hf. cbn [length] in Hf. destruct fuel as [|fuel]; [lia|].
    destruct (IH pre ([d] ++ rest) fuel (u32 (power * 10)) (sum + (d - 48) * power) Hs ltac:(lia))
      as [q Hq].
    exists (q - power * 10 / 2 ^ 32 * value_of 10 (fun c => c - 48) s). intros base Hb.
    specialize (Hq base Hb). cbn [string_to_uint_loop].
    assert (load (pre ++ (s ++ [d]) ++ rest) (Z.of_nat (length pre + length (s ++ [d])) - 1) = Some d) as ->.
    { rewrite <- (assoc_L (++)), (assoc_L (++)). cbn [app]. apply load_mid.
      rewrite !length_app. simpl. lia. }
    cbn [mbind option_bind]. rewrite (proj2 (Z.eqb_neq d 0)) by lia.
    assert (char_to_uint d = d - 48) as ->.
    { unfold char_to_uint, is_digit. rewrite (proj2 (andb_true_iff _ _)) by lia. cbn [negb].
      apply u8_small. width. }
    unfold CHAR_TO_UINT_INVALID. rewrite (proj2 (Z.eqb_neq (d - 48) 11)) by lia.
    assert (u32 (u32 sum + (d - 48) * power) = u32 (sum + (d - 48) * power)) as ->
      by (unfold u32; by rewrite Zplus_mod_idemp_l).
    rewrite <- (assoc_L (++) s), length_app. cbn [length].
    replace (Z.of_nat (length pre + (length s + 1)) - 1 - 1) with (Z.of_nat (length pre + length s) - 1) by lia.
    rewrite Hq. f_equal. f_equal. unfold value_of at 2. rewrite foldl_app. simpl.
    change (foldl (fun acc c => acc * 10 + (c - 48)) 0 s) with (value_of 10 (fun c => c - 48) s).
    set (x := value_of 10 (fun c => c - 48) s). unfold u32.
    pose proof (Z.div_mod (power * 10) (2 ^ 32)). nia.
Qed.

(** Digits between two NULs are read as their number, modulo 2^32. *)
Lemma string_to_uint_spec pre s rest :
  Forall (fun c => is_digit c = true) s -> Z.of_nat (length s) < 256 ->
  string_to_uint (pre ++ 0 :: s ++ 0 :: rest) (Z.of_nat (length pre) + 1) =
    Some (u32 (value_of 10 (fun c => c - 48) s)).
Proof.
  intros Hs Hl. unfold string_to_uint.
  assert (drop (Z.to_nat (Z.of_nat (length pre) + 1)) (pre ++ 0 :: s ++ 0 :: rest) = s ++ 0 :: rest) as ->.
  { replace (Z.to_nat _) with (length pre + 1)%nat by lia.
    rewrite <- drop_drop, drop_app_length. done. }
  rewrite strlen_spec by by apply digit_nonnul. cbn [mbind option_bind]. rewrite u8_small by width.
  assert (Hf : (length s < S (length (pre ++ 0%Z :: s ++ 0%Z :: rest)))%nat)
    by (rewrite length_app; cbn [length]; rewrite length_app; lia).
  remember (S (length (pre ++ 0 :: s ++ 0 :: rest))) as fuel.
  destruct (string_to_uint_loop_spec s (pre ++ [0]) (0 :: rest) fuel 1 0 Hs Hf) as [q Hq].
  specialize (Hq pre eq_refl). rewrite <- (assoc_L (++)) in Hq. cbn [app] in Hq.
  change (u32 0) with 0 in Hq. rewrite (length_app pre [0]) in Hq. cbn [length] in Hq.
  replace (Z.of_nat (length pre) + 1 + (Z.of_nat (length s) - 1))
    with (Z.of_nat (length pre + 1 + length s) - 1) by lia.
  rewrite Hq. f_equal. unfold u32. rewrite Z.mul_1_l, Z.add_0_l, (Z.mul_comm (2 ^ 32)). by apply Z_mod_plus_full.
Qed.

(** A string at the start of its object is read past the start. *)
Lemma string_to_uint_loop_start s : forall fuel rest power sum,
  Forall (fun c => is_digit c = true) s ->
  string_to_uint_loop fuel (s ++ rest) (Z.of_nat (length s) - 1) power sum = None.
Proof.
  induction s as [|d s IH] using rev_ind; intros fuel rest power sum Hs;
    (destruct fuel as [|fuel]; [done|]); cbn [string_to_uint_loop]; [done|].
  apply Forall_app in Hs as [Hs Hd]. apply Forall_inv in Hd.
  rewrite length_app. cbn [length]. rewrite <- (assoc_L (++)). cbn [app].
  rewrite load_mid by lia. cbn [mbind option_bind].
  unfold is_digit in Hd. rewrite (proj2 (Z.eqb_neq d 0)) by lia.
  assert (char_to_uint d <> CHAR_TO_UINT_INVALID) as Hd'%Z.eqb_neq.
  { unfold char_to_uint, is_digit, CHAR_TO_UINT_INVALID. rewrite (proj2 (andb_true_iff _ _)) by lia.
    cbn [negb]. rewrite u8_small by width. lia. }
  rewrite Hd'. replace (Z.of_nat (length s + 1) - 1 - 1) with (Z.of_nat (length s) - 1) by lia.
  by apply IH.
Qed.

Lemma string_to_uint_start s rest : Forall (fun c => is_digit c = true) s ->
  Z.of_nat (length s) < 256 -> string_to_uint (s ++ 0 :: rest) 0 = None.
Proof.
  intros Hs Hl. unfold string_to_uint. rewrite drop_0, strlen_spec by by apply digit_nonnul.
  cbn [mbind option_bind]. rewrite u8_small, Z.add_0_l by width. by apply string_to_uint_loop_start.
Qed.

(** A byte before the digits that is neither a digit nor NUL makes the number invalid. *)
Lemma string_to_uint_loop_junk s : forall base b fuel rest power sum,
  Forall (fun c => is_digit c = true) s -> (length s < fuel)%nat -> b <> 0 -> is_digit b = false ->
  string_to_uint_loop fuel ((base ++ [b]) ++ s ++ rest) (Z.of_nat (length (base ++ [b]) + length s) - 1)
    power sum = Some (u32 (-1)).
Proof.
  induction s as [|d s IH] using rev_ind; intros base b fuel rest power sum Hs Hf Hb Hd;
    (destruct fuel as [|fuel]; [lia|]); cbn [string_to_uint_loop].
  - rewrite <- (assoc_L (++)). cbn [app].
    rewrite load_mid by (rewrite length_app; simpl; lia). cbn [mbind option_bind].
    rewrite (proj2 (Z.eqb_neq b 0)) by done. unfold char_to_uint. by rewrite Hd.
  - apply Forall_app in Hs as [Hs Hdd]. apply Forall_inv in Hdd.
    rewrite length_app in Hf. cbn [length] in Hf.
    assert (load ((base ++ [b]) ++ (s ++ [d]) ++ rest)
      (Z.of_nat (length (base ++ [b]) + length (s ++ [d])) - 1) = Some d) as ->.
    { rewrite <- (assoc_L (++) s), (assoc_L (++) (base ++ [b])). cbn [app]. apply load_mid.
      rewrite (length_app s), (length_app (base ++ [b]) s). cbn [length]. lia. }
    cbn [mbind option_bind]. pose proof Hdd as Hdr. unfold is_digit in Hdr.
    rewrite (proj2 (Z.eqb_neq d 0)) by lia.
    assert (char_to_uint d <> CHAR_TO_UINT_INVALID) as Hd'%Z.eqb_neq.
    { unfold char_to_uint, CHAR_TO_UINT_INVALID. rewrite Hdd. cbn [negb]. rewrite u8_small by width. lia. }
    rewrite Hd', <- (assoc_L (++) s), (length_app s [d]). cbn [length app].
    replace (Z.of_nat (length (base ++ [b]) + (length s + 1)) - 1 - 1)
      with (Z.of_nat (length (base ++ [b]) + length s) - 1) by lia.
    apply IH; [done|lia|done|done].
Qed.

Lemma string_to_uint_junk base b s rest :
  Forall (fun c => is_digit c = true) s -> Z.of_nat (length s) < 256 -> b <> 0 -> is_digit b = false ->
  string_to_uint ((base ++ [b]) ++ s ++ 0 :: rest) (Z.of_nat (length (base ++ [b]))) = Some (u32 (-1)).
Proof.
  intros Hs Hl Hb Hd. unfold string_to_uint. rewrite Nat2Z.id, drop_app_length.
  rewrite strlen_spec by by apply digit_nonnul. cbn [mbind option_bind]. rewrite u8_small by width.
  replace (Z.of_nat (length (base ++ [b])) + (Z.of_nat (length s) - 1))
    with (Z.of_nat (length (base ++ [b]) + length s) - 1) by lia.
  apply string_to_uint_loop_junk; [done| |done|done].
  rewrite (length_app (base ++ [b])), (length_app s). lia.
Qed.

(** [uitoa] turns every 32-bit number into its decimal digits with a NUL behind them, at
    most ten digits and no zero in front, leaves the rest of the buffer alone, and is undefined
    exactly when the buffer has no room for them; [string_to_uint] reads the number back when a
    NUL happens to lie before the string, and reads out of bounds when the string starts its
    object. *)
Theorem uitoa_roundtrip v buffer : is_u32 v ->
  let n := length (digits v) in
  ((length buffer <= n)%nat -> uitoa v buffer = None) /\
  ((n < length buffer)%nat -> exists b, uitoa v buffer = Some (b, Z.of_nat n) /\
     take n b = digits v /\ strlen b = Some (Z.of_nat n) /\ drop (S n) b = drop (S n) buffer /\
     (forall pre, string_to_uint (pre ++ 0 :: b) (Z.of_nat (length pre) + 1) = Some v) /\
     string_to_uint b 0 = None) /\
  (n <= 10)%nat /\ value_of 10 (fun c => c - 48) (digits v) = v /\
  (v <> 0 -> head (digits v) <> Some 48).
Proof.
  intros Hv. destruct (digits_spec v Hv) as (Hval & Hd & Hl & Hz). cbn zeta.
  rewrite uitoa_spec by done. split; [|split; [|split; [lia|done]]].
  - intros Hb. by rewrite (proj2 (Nat.ltb_ge _ _)).
  - intros Hb. rewrite (proj2 (Nat.ltb_lt _ _)) by done. eexists. split; [done|].
    unfold written. rewrite take_app_length. split; [done|].
    split; [apply strlen_spec; by apply digit_nonnul|].
    split; [by rewrite drop_app_ge, Nat.sub_succ_l, Nat.sub_diag by lia|].
    split; [|apply string_to_uint_start; [done|lia]].
    intros pre. rewrite string_to_uint_spec by (done || lia). f_equal. rewrite Hval. by apply u32_small.
Qed.

Lemma uitoa_roundtrip_witness :
  uitoa 4294967295 (replicate 10 7) = None /\
  exists b, uitoa 4294967295 (replicate 12 7) = Some (b, 10) /\ strlen b = Some 10.
Proof.
  split; [by apply (uitoa_roundtrip 4294967295 (replicate 10 7)); [|compute; lia]|].
  destruct (uitoa_roundtrip 4294967295 (replicate 12 7)) as (_ & H & _); [done|].
  destruct H as (b & Hb & _ & Hs & _); [compute; lia|]. by exists b.
Defined.

(** [uint_to_hex] turns every 32-bit number into its hexadecimal digits and a NUL, at most
    eight digits and no zero in front, in the case asked for, and is undefined exactly when the
    buffer is too small.  [itoa] writes the sign and the digits of every [int] but the least,
    at most eleven characters; so the twelve bytes that [print_int_var] sets aside, for the
    text, a newline and a NUL, do not hold every number. *)
Theorem hex_and_int_text v buffer :
  (forall up, is_u32 v ->
     ((length buffer <= length (hex_text up v))%nat -> uint_to_hex v buffer up = None) /\
     ((length (hex_text up v) < length buffer)%nat -> exists b,
        uint_to_hex v buffer up = Some (b, Z.of_nat (length (hex_text up v))) /\
        take (length (hex_text up v)) b = hex_text up v /\
        strlen b = Some (Z.of_nat (length (hex_text up v)))) /\
     (length (hex_text up v) <= 8)%nat /\ value_of 16 (hex_value up) (hex_text up v) = v /\
     (v <> 0 -> head (hex_text up v) <> Some 48)) /\
  (is_int v -> (length (int_text v) <= 11)%nat /\
     ((length (int_text v) < length buffer)%nat ->
        itoa v buffer = if v =? INT_MIN then None
                        else Some (written (int_text v) buffer, Z.of_nat (length (int_text v))))) /\
  length (int_text (-2147483647)) = 11%nat.
Proof.
  split; [|split; [|reflexivity]].
  - intros up Hv. destruct (hex_text_spec up v Hv) as (Hval & Hl & Hc & Hz).
    rewrite uint_to_hex_spec by done. split; [|split; [|by split; [lia|]]].
    + intros Hb. by rewrite (proj2 (Nat.ltb_ge _ _)).
    + intros Hb. rewrite (proj2 (Nat.ltb_lt _ _)) by done. eexists. split; [done|].
      unfold written. rewrite take_app_length. split; [done|].
      apply strlen_spec. eapply Forall_impl; [|exact Hc]. simpl. intros; lia.
  - intros Hv. split.
    + unfold int_text, is_int, INT_MIN in *. case_match.
      * destruct (digits_spec (- v)) as (_ & _ & Hl & _); [unfold is_u32; lia|]. simpl. lia.
      * destruct (digits_spec v) as (_ & _ & Hl & _); [unfold is_u32; lia|]. lia.
    + intros Hb. rewrite itoa_spec by done. rewrite (proj2 (Nat.ltb_lt _ _)) by done.
      cbn [negb]. by rewrite orb_false_r.
Qed.

Lemma hex_and_int_text_witness :
  (exists b, uint_to_hex 0xBEEF (replicate 9 7) true = Some (b, 4) /\ take 4 b = [66; 69; 69; 70]) /\
  itoa (-35) (replicate 12 7) = Some ([45; 51; 53; 0] ++ replicate 8 7, 3).
Proof.
  split.
  - destruct (hex_and_int_text 0xBEEF (replicate 9 7)) as [H _].
    destruct (H true) as (_ & H1 & _); [done|].
    destruct H1 as (b & Hb & Ht & _); [compute; lia|]. by exists b.
  - apply (hex_and_int_text (-35) (replicate 12 7)); [done|compute; lia].
Defined.
