(* ===== verification/Terminal.v ===== *)
(** * The text terminal ([stdio/vga_terminal.c])

    The scrollable memory of 1000 lines, its window of 25 lines in the VGA memory, the
    serial line that receives every character as well, and the helpers that print
    numbers.  An index outside of the two arrays, a write through the null
    [vga_buffer], and a buffer that is too small are undefined behaviour. *)

From stdpp Require Import gmap.
From S2P Require Import Prelude Machine StringHelper.

(** ** State *)

Definition VGA_MMIO_BASE : Z := 0xB8000.
Definition VGA_WIDTH : Z := 80.
Definition VGA_HEIGHT : Z := 25.
Definition VGA_MEM_HEIGHT : Z := 1000.
Definition COM1 : Z := 0x3F8.
Definition VGA_COLOR_BLACK : Z := 0.
Definition VGA_COLOR_LIGHT_GREY : Z := 7.

(** Rows of 16-bit cells, 0 where nothing was written: by row and column. *)
Abbreviation grid := (gmap (Z * Z) Z).
Definition cell (g : grid) (y x : Z) : Z := default 0 (g !! (y, x)).

(** [TerminalContext], and the VGA memory behind [vga_buffer]. *)
Record Terminal := mk_terminal {
  current_write_row : Z;
  current_write_column : Z;
  scroll_row : Z;
  color : Z;
  vga_buffer : Z;
  big_scrollable_buffer : grid;
  vga_memory : grid;
}.

(** [TerminalContext term = {0}] *)
Definition term : Terminal := mk_terminal 0 0 0 0 0 ∅ ∅.

Section setters.
Implicit Types t : Terminal.
Definition set_write_row v t :=
  mk_terminal v (current_write_column t) (scroll_row t) (color t) (vga_buffer t)
    (big_scrollable_buffer t) (vga_memory t).
Definition set_write_column v t :=
  mk_terminal (current_write_row t) v (scroll_row t) (color t) (vga_buffer t)
    (big_scrollable_buffer t) (vga_memory t).
Definition set_scroll_row v t :=
  mk_terminal (current_write_row t) (current_write_column t) v (color t) (vga_buffer t)
    (big_scrollable_buffer t) (vga_memory t).
Definition set_color v t :=
  mk_terminal (current_write_row t) (current_write_column t) (scroll_row t) v (vga_buffer t)
    (big_scrollable_buffer t) (vga_memory t).
Definition set_vga_buffer v t :=
  mk_terminal (current_write_row t) (current_write_column t) (scroll_row t) (color t) v
    (big_scrollable_buffer t) (vga_memory t).
Definition set_big v t :=
  mk_terminal (current_write_row t) (current_write_column t) (scroll_row t) (color t) (vga_buffer t)
    v (vga_memory t).
Definition set_vga v t :=
  mk_terminal (current_write_row t) (current_write_column t) (scroll_row t) (color t) (vga_buffer t)
    (big_scrollable_buffer t) v.
End setters.

Definition vga_entry_color (fg bg : Z) : Z := u8 ((bg ≪ 4) .| fg).
Definition vga_entry (uc color : Z) : Z := u16 ((u16 color ≪ 8) .| u16 uc).

(** The rounds of a polling loop of the serial line before it counts as not ending. *)
Definition serial_polls : nat := 1000.

(** The bytes of a C string literal. *)
Definition cstr (s : string) : bytes :=
  map (fun c => Z.of_N (Ascii.N_of_ascii c)) (String.list_ascii_of_string s) ++ [0].

Section terminal.
Context {D : Type} `{PortDevice D}.
Abbreviation T A := (M D Terminal A).

(** [set_vga_element]: row [pos_y] and column [pos_x] of the VGA memory, the positions being [uint8_t]. *)
Definition set_vga_element (pos_x pos_y c : Z) : T unit :=
  buffer ← gets vga_buffer;
  if negb (buffer =? VGA_MMIO_BASE) then stop Undefined
  else if (u8 pos_y <? VGA_HEIGHT) && (u8 pos_x <? VGA_WIDTH) then
    modify (fun t => set_vga (<[(u8 pos_y, u8 pos_x) := c]> (vga_memory t)) t)
  else stop Undefined.

(** [term.big_scrollable_buffer[y][x]] *)
Definition in_big (y x : Z) : bool :=
  (0 <=? y) && (y <? VGA_MEM_HEIGHT) && (0 <=? x) && (x <? VGA_WIDTH).
Definition read_big (y x : Z) : T Z :=
  if in_big y x then gets (fun t => cell (big_scrollable_buffer t) y x) else stop Undefined.
Definition write_big (y x c : Z) : T unit :=
  if in_big y x then modify (fun t => set_big (<[(y, x) := c]> (big_scrollable_buffer t)) t)
  else stop Undefined.

(** [for (size_t y = 0; y < rows; y++) for (size_t x = 0; x < VGA_WIDTH; x++)] *)
Definition for_cells (rows : Z) (body : Z -> Z -> T unit) : T unit :=
  for_range (Z.to_nat rows) 0 (fun y => for_range (Z.to_nat VGA_WIDTH) 0 (fun x => body y x)).

Definition clear_visible_terminal : T unit :=
  for_cells VGA_HEIGHT (fun y x =>
    c ← gets color; set_vga_element x y (vga_entry_color 32 c)).

Definition initialize_terminal : T unit :=
  modify (set_write_row 0);;
  modify (set_write_column 0);;
  modify (set_color (vga_entry_color VGA_COLOR_LIGHT_GREY VGA_COLOR_BLACK));;
  modify (set_vga_buffer VGA_MMIO_BASE);;
  clear_visible_terminal;;
  modify (set_scroll_row 0);;
  for_cells VGA_MEM_HEIGHT (fun y x =>
    c ← gets color; write_big y x (vga_entry 32 c)).

Definition terminal_update_vga_mem : T unit :=
  for_cells VGA_HEIGHT (fun y x =>
    scroll ← gets scroll_row;
    c ← read_big (u32 (y + scroll)) x;
    set_vga_element x y c).

Definition terminal_set_scroll (row : Z) : T unit :=
  let max := VGA_MEM_HEIGHT - VGA_HEIGHT in
  let row := if row >? max then max else row in
  let row := if row <? 0 then 0 else row in
  modify (set_scroll_row row);;
  terminal_update_vga_mem.

Definition terminal_scroll_down (scroll_amount : Z) : T unit :=
  current_scroll ← gets scroll_row;
  terminal_set_scroll (u32 (current_scroll + scroll_amount)).

Definition terminal_scroll_up (scroll_amount : Z) : T unit :=
  terminal_scroll_down (- scroll_amount).

Definition terminal_setcolor (c : Z) : T unit := modify (set_color c).

Definition terminal_putentryat (c col pos_x pos_y : Z) : T unit :=
  write_big pos_y pos_x (vga_entry (u8 c) col);;
  scroll ← gets scroll_row;
  if u32 (pos_y - scroll) >=? VGA_HEIGHT then mret tt
  else
    colored_c ← read_big (u32 (pos_y - scroll)) pos_x;
    set_vga_element pos_x (u32 (pos_y - scroll)) colored_c.

Definition terminal_increase_row : T unit :=
  modify (fun t => set_write_row (u32 (current_write_row t + 1)) t);;
  row ← gets current_write_row;
  scroll ← gets scroll_row;
  (if u32 (row - scroll) >? VGA_HEIGHT then terminal_scroll_down 1 else mret tt);;
  row ← gets current_write_row;
  if row >=? VGA_MEM_HEIGHT then
    modify (set_write_row 0);;
    modify (set_write_column 0);;
    terminal_set_scroll 0;;
    clear_visible_terminal
  else mret tt.

(** ** The keys that move the window *)

Definition terminal_arrow_left : T unit := mret tt.
Definition terminal_arrow_right : T unit := mret tt.

Definition terminal_arrow_up : T unit :=
  modify (fun t => set_write_row (u32 (current_write_row t - 1)) t);;
  t ← get;
  if current_write_row t <? scroll_row t then
    modify (set_write_row (scroll_row t));;
    terminal_scroll_up 1
  else mret tt.

Definition terminal_arrow_down : T unit :=
  modify (fun t => set_write_row (u32 (current_write_row t + 1)) t);;
  t ← get;
  if current_write_row t >? u32 (scroll_row t + VGA_HEIGHT) then
    modify (set_write_row (u32 (scroll_row t + VGA_HEIGHT)));;
    terminal_scroll_down 1
  else mret tt.

Definition terminal_ctrl_f : T unit :=
  scroll ← gets scroll_row;
  (if u32 (scroll + VGA_HEIGHT) <? VGA_MEM_HEIGHT then terminal_scroll_down 1 else mret tt);;
  t ← get;
  if current_write_row t <? scroll_row t then modify (set_write_row (scroll_row t)) else mret tt.

Definition terminal_ctrl_r : T unit :=
  scroll ← gets scroll_row;
  (if scroll >? 0 then terminal_scroll_up 1 else mret tt);;
  t ← get;
  if current_write_row t >? u32 (scroll_row t + VGA_HEIGHT)
  then modify (set_write_row (u32 (scroll_row t + VGA_HEIGHT))) else mret tt.
End terminal.

(** ** Output *)

Section output.
Context {D : Type} `{PortDevice D}.
Abbreviation T A := (M D Terminal A).

(** [while (!(__inb(COM1 + 5) & 0x20)) ;] *)
Fixpoint serial_wait (fuel : nat) : T unit :=
  v ← inb (COM1 + 5);
  if v .& 0x20 =? 0 then
    match fuel with O => stop Spinning | S fuel => serial_wait fuel end
  else mret tt.

Definition serial_write_char (c : Z) : T unit :=
  serial_wait serial_polls;; outb COM1 c.

(** [while ( *str) serial_write_char( *str++);] *)
Fixpoint serial_write_string (str : bytes) : T unit :=
  match str with
  | [] => stop Undefined
  | c :: str => if c =? 0 then mret tt else serial_write_char c;; serial_write_string str
  end.

(** [terminal_putchar] of a character that is neither NUL nor a tab. *)
Definition putchar_plain (c : Z) : T unit :=
  serial_write_char c;;
  if c =? 10 then
    modify (set_write_column 0);; terminal_increase_row
  else
    t ← get;
    terminal_putentryat c (color t) (current_write_column t) (current_write_row t);;
    modify (fun t => set_write_column (u32 (current_write_column t + 1)) t);;
    col ← gets current_write_column;
    if col =? VGA_WIDTH then
      modify (set_write_column 0);; terminal_increase_row
    else mret tt.

Definition terminal_putchar (c : Z) : T unit :=
  if c =? 0 then mret tt
  else if c =? 9 then
    col ← gets current_write_column;
    let diff := u8 (VGA_WIDTH - col) in
    let spaceToAdd := if 4 >? diff then diff else 4 in
    for_range (Z.to_nat spaceToAdd) 0 (fun _ => putchar_plain 32)
  else putchar_plain c.

(** [for (i = 0; i < size; i++) terminal_putchar(data[i]);] *)
Fixpoint write_from (data : bytes) (i : Z) (n : nat) : T unit :=
  match n with
  | O => mret tt
  | S n => c ← read_cell (load data i); terminal_putchar c;; write_from data (i + 1) n
  end.
Definition terminal_write (data : bytes) (size : Z) : T unit :=
  write_from data 0 (Z.to_nat size).

Definition terminal_writestring (data : bytes) : T unit :=
  size ← read_cell (strlen data); terminal_write data size.

(** A string literal of the source. *)
Definition write_literal (s : string) : T unit := terminal_writestring (cstr s).

(** ** Printing numbers

    Each of the helpers has its own buffer; the bytes it finds there are indeterminate
    and are never read. *)

Definition char_array (n : nat) : bytes := replicate n 0.

(** Text, then [res_buff[len] = '\n'; res_buff[len + 1] = 0;] *)
Definition print_line (r : option (bytes * Z)) : T unit :=
  '(res_buff, len) ← read_cell r;
  res_buff ← read_cell (store res_buff len 10);
  res_buff ← read_cell (store res_buff (len + 1) 0);
  terminal_writestring res_buff.

(** Text, then [res_buff[len] = 0;] *)
Definition print_text (r : option (bytes * Z)) : T unit :=
  '(res_buff, len) ← read_cell r;
  res_buff ← read_cell (store res_buff len 0);
  terminal_writestring res_buff.

Definition print_int_var (var : Z) : T unit := print_line (itoa var (char_array 12)).
Definition print_int_var_no_newline (var : Z) : T unit := print_text (itoa var (char_array 12)).
Definition print_hex_var (var : Z) : T unit := print_line (uint_to_hex var (char_array 12) true).
Definition print_hex_var_no_newline (var : Z) : T unit :=
  print_text (uint_to_hex var (char_array 12) true).
Definition print_hex_ptr (ptr : Z) : T unit := print_line (ptr_to_hex ptr (char_array 12) true).
Definition print_uint_var (var : Z) : T unit := print_line (uitoa var (char_array 12)).
Definition print_uint_var_no_newline (var : Z) : T unit := print_text (uitoa var (char_array 20)).

Definition terminal_write_uint (str : bytes) (val : Z) : T unit :=
  terminal_writestring str;; print_uint_var val.
Definition terminal_write_uint_no_newline (str : bytes) (val : Z) : T unit :=
  terminal_writestring str;; print_uint_var_no_newline val.
Definition terminal_write_hex (str : bytes) (val : Z) : T unit :=
  terminal_writestring str;; print_hex_var val.
Definition terminal_write_ptr (str : bytes) (val : Z) : T unit :=
  terminal_writestring str;; print_hex_ptr val.

(** [wait] is a function of [timers/pit/pit.cpp]; its argument is in tenths of a second. *)
Definition wait (tenths : Z) : T unit := emit (ECall "wait" [tenths]).

Definition print_something : T unit :=
  for_range 10 0 (fun i => print_line (itoa i (char_array 12));; wait 1).

(** The loop that [print_array_terminal] and [terminal_write_uint16_array] share. *)
Fixpoint print_elements (arr : list Z) (i n : Z) : T unit :=
  match arr with
  | [] => mret tt
  | a :: arr =>
      '(buf, _) ← read_cell (itoa a (char_array 12));
      terminal_writestring buf;;
      (if negb (i =? u32 (n - 1)) then write_literal ", " else mret tt);;
      (if (i + 1) mod 10 =? 0 then terminal_writestring [10; 0];; wait 1 else mret tt);;
      print_elements arr (i + 1) n
  end.

Definition print_array_terminal (arr : list Z) : T unit :=
  write_literal "[";;
  print_elements arr 0 (Z.of_nat (length arr));;
  terminal_writestring [93; 10; 0].

Definition terminal_write_uint16_array (arr : list Z) (array_name : bytes) : T unit :=
  terminal_writestring array_name;;
  write_literal " = [";;
  print_elements arr 0 (Z.of_nat (length arr));;
  terminal_writestring [93; 10; 0].

Fixpoint write_uint16_lines (arr : list Z) (array_name : bytes) (i : Z) : T unit :=
  match arr with
  | [] => mret tt
  | a :: arr =>
      terminal_writestring array_name;;
      terminal_write_uint_no_newline (cstr "[") i;;
      terminal_write_uint (cstr "] = ") a;;
      write_uint16_lines arr array_name (i + 1)
  end.
Definition terminal_write_uint16_array_newlines (arr : list Z) (array_name : bytes) : T unit :=
  write_uint16_lines arr array_name 0.

(** [print_extern_address] and [print_extern_address16]: [func] is what the function
    passed in returns. *)
Definition print_extern_address (str : bytes) (func : T Z) : T Z :=
  terminal_writestring str;;
  address_value ← func;
  print_hex_ptr address_value;;
  terminal_writestring [10; 0];;
  mret address_value.
Definition print_extern_address16 (str : bytes) (func : T Z) : T unit :=
  terminal_writestring str;;
  address_value ← func;
  print_int_var address_value.
End output.
