(* ===== verification/TerminalFacts.v ===== *)
(** * What the terminal does

    On a serial line that is ready to send, writing a string to an open terminal
    returns, sends the characters, and lays them out as an abstract terminal does; the
    window shows the lines it should.  The file ends with the cases in which the code
    does not do what it means to. *)

From stdpp Require Import gmap.
From S2P Require Import Prelude Machine StringHelper KeyboardFacts KeyboardHandler KeyboardHandlerFacts Terminal.

(** The transmitter holding register of the serial line is always empty. *)
Class SerialReady (D : Type) `{PortDevice D} :=
  serial_ready : forall d, ((u8 (fst (port_in (COM1 + 5) d)) .& 0x20) =? 0) = false.

(** The characters sent on the serial line. *)
Definition sent (es : list event) : bytes :=
  omap (fun e => match e with EOut p v => if p =? COM1 then Some v else None | _ => None end) es.

(** [prints m t Q out]: whatever the device, [m] returns from [t] with [Q], having sent [out]
    and called nothing. *)
Definition prints {D G A} (m : M D G A) (t : G) (Q : A -> G -> Prop) (out : bytes) : Prop :=
  forall d, exists a, o_exit (m d t) = Done a /\ Q a (o_glob (m d t)) /\
    sent (o_events (m d t)) = out /\ Forall port_event (o_events (m d t)).

(** ** Rules *)

Section rules.
Context {D G : Type}.

Lemma prints_bind {A B} (m : M D G A) (k : A -> M D G B) t P Q o1 o2 :
  prints m t P o1 -> (forall a t', P a t' -> prints (k a) t' Q o2) -> prints (m ≫= k) t Q (o1 ++ o2).
Proof.
  intros Hm Hk d. destruct (Hm d) as (a & He & HP & Ho & Hp).
  destruct (Hk a _ HP (o_dev (m d t))) as (b & He' & HQ & Ho' & Hp').
  exists b. unfold mbind, M_bind. rewrite He. simpl. unfold sent in *. rewrite omap_app, Ho, Ho'.
  split; [done|]. split; [done|]. split; [done|]. by apply Forall_app.
Qed.

Lemma prints_then {A B} (m : M D G A) (k : A -> M D G B) t P Q o :
  prints m t P [] -> (forall a t', P a t' -> prints (k a) t' Q o) -> prints (m ≫= k) t Q o.
Proof. apply prints_bind. Qed.

Lemma prints_weaken {A} (m : M D G A) t (P Q : A -> G -> Prop) o :
  prints m t P o -> (forall a t', P a t' -> Q a t') -> prints m t Q o.
Proof. intros Hm HPQ d. destruct (Hm d) as (a & ? & ? & ?). eauto. Qed.

Lemma prints_ret {A} (a : A) t (Q : A -> G -> Prop) : Q a t -> prints (D:=D) (mret a) t Q [].
Proof. intros HQ d. by exists a. Qed.

Lemma prints_gets {A B} (f : G -> A) (k : A -> M D G B) t Q o :
  prints (k (f t)) t Q o -> prints (gets f ≫= k) t Q o.
Proof.
  intros Hk. apply (prints_then _ _ _ (fun a t' => a = f t /\ t' = t)).
  - intros d. by exists (f t).
  - by intros a t' [-> ->].
Qed.

Lemma prints_get {B} (k : G -> M D G B) t Q o : prints (k t) t Q o -> prints (get ≫= k) t Q o.
Proof. apply (prints_gets (fun t => t)). Qed.

Lemma prints_cell {A B} (c : option A) a (k : A -> M D G B) t Q o :
  c = Some a -> prints (k a) t Q o -> prints (read_cell c ≫= k) t Q o.
Proof.
  intros -> Hk. apply (prints_then _ _ _ (fun a' t' => a' = a /\ t' = t)).
  - by apply prints_ret.
  - by intros a' t' [-> ->].
Qed.

Lemma prints_modify f t (Q : unit -> G -> Prop) : Q tt (f t) -> prints (D:=D) (modify f) t Q [].
Proof. intros HQ d. by exists tt. Qed.

Lemma prints_modify_then {B} f (k : unit -> M D G B) t Q o :
  prints (k tt) (f t) Q o -> prints (modify f ≫= k) t Q o.
Proof.
  intros Hk. apply (prints_then _ _ _ (fun _ t' => t' = f t)); [by apply prints_modify|].
  by intros [] t' ->.
Qed.

Lemma prints_for n : forall i body (I : Z -> G -> Prop) t, I i t ->
  (forall j t, i <= j < i + Z.of_nat n -> I j t -> prints (D:=D) (body j) t (fun _ => I (j + 1)) []) ->
  prints (D:=D) (for_range n i body) t (fun _ => I (i + Z.of_nat n)) [].
Proof.
  induction n as [|n IH]; intros i body I t Hi Hb; cbn [for_range].
  { apply prints_ret. by rewrite Z.add_0_r. }
  eapply prints_then; [by apply Hb; [lia|]|]. intros [] t1 Ht1.
  replace (i + Z.of_nat (S n)) with (i + 1 + Z.of_nat n) by lia.
  apply IH; [done|]. intros j t2 Hj. apply Hb. lia.
Qed.
End rules.

(** ** The loops over the cells *)

Lemma cell_insert g y x c y' x' :
  cell (<[(y, x) := c]> g) y' x' = if (y' =? y) && (x' =? x) then c else cell g y' x'.
Proof.
  unfold cell. destruct (decide ((y, x) = (y', x'))) as [[= -> ->]|Hne].
  - by rewrite lookup_insert_eq, !Z.eqb_refl.
  - rewrite lookup_insert_ne by done. destruct (y' =? y) eqn:E1, (x' =? x) eqn:E2; simpl; try done.
    exfalso. apply Hne. f_equal; lia.
Qed.

(** The cells before row [y], column [x] in reading order have their new value. *)
Definition filled (f : Z -> Z -> Z) (g g' : grid) (y x : Z) : Prop :=
  forall y' x', cell g' y' x' =
    if (0 <=? y') && (0 <=? x') && (x' <? VGA_WIDTH) && ((y' <? y) || ((y' =? y) && (x' <? x)))
    then f y' x' else cell g y' x'.

Section cells.
Context {D : Type} `{PortDevice D}.

Lemma for_cells_spec (rows : Z) (body : Z -> Z -> M D Terminal unit)
    (over : grid -> Terminal -> Terminal) (g : grid) (t : Terminal) (f : Z -> Z -> Z) :
  0 <= rows ->
  (forall y x g', 0 <= y < rows -> 0 <= x < VGA_WIDTH ->
     prints (D:=D) (body y x) (over g' t) (fun _ t' => t' = over (<[(y, x) := f y x]> g') t) []) ->
  prints (D:=D) (for_cells rows body) (over g t)
    (fun _ t' => exists g', t' = over g' t /\ forall y x,
       cell g' y x = if (0 <=? y) && (y <? rows) && (0 <=? x) && (x <? VGA_WIDTH) then f y x else cell g y x)
    [].
Proof.
  intros Hrows Hbody. unfold for_cells.
  eapply prints_weaken.
  - apply (prints_for _ _ _ (fun y t' => exists g', t' = over g' t /\ filled f g g' y 0)).
    + exists g. split; [done|]. intros y' x'. case_match; [lia|done].
    + intros y t1 Hy (g1 & -> & Hg1). rewrite Z2Nat.id in Hy by done.
      eapply prints_weaken.
      * apply (prints_for _ _ _ (fun x t' => exists g', t' = over g' t /\ filled f g g' y x)); [by exists g1|].
        intros x t2 Hx (g2 & -> & Hg2). rewrite Z2Nat.id in Hx by done.
        eapply prints_weaken; [apply Hbody; lia|]. intros _ t3 ->. eexists. split; [done|].
        intros y' x'. rewrite cell_insert, Hg2. unfold VGA_WIDTH in *.
        repeat case_match; try lia; try done. f_equal; lia.
      * intros _ t3 (g3 & -> & Hg3). exists g3. split; [done|]. intros y' x'. rewrite Hg3.
        unfold VGA_WIDTH in *. repeat case_match; lia || done.
  - intros _ t' (g' & -> & Hg'). exists g'. split; [done|]. intros y' x'. rewrite Hg'.
    unfold VGA_WIDTH in *. repeat case_match; lia || done.
Qed.
End cells.

(** ** States *)

Definition max_scroll : Z := VGA_MEM_HEIGHT - VGA_HEIGHT.

(** [initialize_terminal] has run and the window lies in the scrollable memory. *)
Definition terminal_ok (t : Terminal) : Prop :=
  vga_buffer t = VGA_MMIO_BASE /\ 0 <= scroll_row t <= max_scroll.

(** The position of the next character lies in the scrollable memory too. *)
Definition writable (t : Terminal) : Prop :=
  terminal_ok t /\ 0 <= current_write_row t < VGA_MEM_HEIGHT /\ 0 <= current_write_column t < VGA_WIDTH.

(** A cell of the window shows the line it stands for, or is blank since the last clearing. *)
Definition in_window (y x : Z) : Prop := 0 <= y < VGA_HEIGHT /\ 0 <= x < VGA_WIDTH.
Definition blank (t : Terminal) : Z := vga_entry_color 32 (color t).
Definition window_ok (t : Terminal) : Prop :=
  forall y x, in_window y x ->
    cell (vga_memory t) y x = cell (big_scrollable_buffer t) (y + scroll_row t) x \/
    cell (vga_memory t) y x = blank t.

(** The next line to write is on the first page, or just below the window. *)
Definition following (t : Terminal) : Prop :=
  (scroll_row t = 0 /\ current_write_row t <= VGA_HEIGHT) \/
  current_write_row t = scroll_row t + VGA_HEIGHT.

(** The abstract terminal: the place of the next character and the lines. *)
Record screen := mk_screen { s_row : Z; s_column : Z; s_cells : grid }.
Definition screen_of (t : Terminal) : screen :=
  mk_screen (current_write_row t) (current_write_column t) (big_scrollable_buffer t).

Definition abstract_newline (s : screen) : screen :=
  mk_screen (if s_row s + 1 <? VGA_MEM_HEIGHT then s_row s + 1 else 0) 0 (s_cells s).
Definition abstract_put (col c : Z) (s : screen) : screen :=
  if c =? 10 then abstract_newline s
  else
    let s' := mk_screen (s_row s) (s_column s + 1)
                (<[(s_row s, s_column s) := vga_entry (u8 c) col]> (s_cells s)) in
    if s_column s' =? VGA_WIDTH then abstract_newline s' else s'.
Definition tab_width (s : screen) : nat := Z.to_nat (Z.min 4 (VGA_WIDTH - s_column s)).

(** What a character becomes: nothing, up to four blanks, or itself. *)
Definition expand (c : Z) (s : screen) : bytes :=
  if c =? 0 then [] else if c =? 9 then replicate (tab_width s) 32 else [c].
Definition abstract_write (col : Z) (cs : bytes) (s : screen) : screen :=
  foldl (fun s c => abstract_put col c s) s cs.
Definition abstract_putchar (col c : Z) (s : screen) : screen := abstract_write col (expand c s) s.
Fixpoint abstract_string (col : Z) (str : bytes) (s : screen) : screen * bytes :=
  match str with
  | [] => (s, [])
  | c :: str =>
      let '(s', out) := abstract_string col str (abstract_putchar col c s) in
      (s', expand c s ++ out)
  end.

(** ** The operations on the window *)

Section window.
Context {D : Type} `{PortDevice D}.
Implicit Types t : Terminal.
Abbreviation prints := (prints (D:=D)).

Lemma set_vga_self t : t = set_vga (vga_memory t) t.
Proof. by destruct t. Qed.

Lemma prints_vga x y c t g : vga_buffer t = VGA_MMIO_BASE -> in_window y x ->
  prints (set_vga_element x y c) (set_vga g t) (fun _ t' => t' = set_vga (<[(y, x) := c]> g) t) [].
Proof.
  unfold in_window, VGA_HEIGHT, VGA_WIDTH. intros Hb Hw. unfold set_vga_element. apply prints_gets.
  cbn [set_vga vga_buffer]. rewrite Hb, Z.eqb_refl. cbn [negb].
  rewrite !u8_small by width. unfold VGA_HEIGHT, VGA_WIDTH.
  rewrite (proj2 (andb_true_iff _ _)) by lia. by apply prints_modify.
Qed.

Lemma prints_read_big {B} y x (k : Z -> M D Terminal B) t Q o :
  0 <= y < VGA_MEM_HEIGHT -> 0 <= x < VGA_WIDTH ->
  prints (k (cell (big_scrollable_buffer t) y x)) t Q o -> prints (read_big y x ≫= k) t Q o.
Proof.
  intros Hy Hx Hk. unfold read_big, in_big.
  assert ((0 <=? y) && (y <? VGA_MEM_HEIGHT) && (0 <=? x) && (x <? VGA_WIDTH) = true) as -> by lia.
  by apply prints_gets.
Qed.

Lemma prints_write_big y x c t (Q : unit -> Terminal -> Prop) :
  0 <= y < VGA_MEM_HEIGHT -> 0 <= x < VGA_WIDTH ->
  Q tt (set_big (<[(y, x) := c]> (big_scrollable_buffer t)) t) -> prints (write_big y x c) t Q [].
Proof.
  intros Hy Hx HQ. unfold write_big, in_big.
  assert ((0 <=? y) && (y <? VGA_MEM_HEIGHT) && (0 <=? x) && (x <? VGA_WIDTH) = true) as -> by lia.
  by apply prints_modify.
Qed.

(** Filling the window cell by cell. *)
Lemma prints_fill (body : Z -> Z -> M D Terminal unit) t (f : Z -> Z -> Z) :
  (forall y x g, in_window y x ->
     prints (body y x) (set_vga g t) (fun _ t' => t' = set_vga (<[(y, x) := f y x]> g) t) []) ->
  prints (for_cells VGA_HEIGHT body) t
    (fun _ t' => exists g, t' = set_vga g t /\ forall y x, in_window y x -> cell g y x = f y x) [].
Proof.
  intros Hb. rewrite (set_vga_self t) at 1. eapply prints_weaken.
  - apply (for_cells_spec VGA_HEIGHT body set_vga (vga_memory t) t f); [done|].
    intros y x g Hy Hx. by apply Hb.
  - intros _ t' (g & -> & Hg). exists g. split; [done|]. intros y x [Hy Hx]. rewrite Hg.
    case_match; [done|]. lia.
Qed.

Lemma clear_spec t : vga_buffer t = VGA_MMIO_BASE ->
  prints clear_visible_terminal t
    (fun _ t' => exists g, t' = set_vga g t /\ forall y x, in_window y x -> cell g y x = blank t) [].
Proof.
  intros Hb. unfold clear_visible_terminal.
  apply (prints_fill _ t (fun _ _ => blank t)). intros y x g Hw.
  apply prints_gets. cbn [set_vga color]. by apply prints_vga.
Qed.

Lemma update_spec t : terminal_ok t ->
  prints terminal_update_vga_mem t
    (fun _ t' => exists g, t' = set_vga g t /\ forall y x, in_window y x ->
       cell g y x = cell (big_scrollable_buffer t) (y + scroll_row t) x) [].
Proof.
  intros [Hb Hs]. unfold terminal_update_vga_mem.
  apply (prints_fill _ t (fun y x => cell (big_scrollable_buffer t) (y + scroll_row t) x)).
  intros y x g Hw. apply prints_gets. cbn [set_vga scroll_row].
  pose proof Hw as [Hy Hx]. unfold max_scroll, VGA_HEIGHT, VGA_MEM_HEIGHT in *.
  rewrite u32_small by width. apply prints_read_big; [unfold VGA_MEM_HEIGHT; lia|done|].
  cbn [set_vga big_scrollable_buffer]. by apply prints_vga.
Qed.

Lemma set_scroll_spec row t : vga_buffer t = VGA_MMIO_BASE ->
  prints (terminal_set_scroll row) t
    (fun _ t' => exists g, t' = set_vga g (set_scroll_row (Z.max 0 (Z.min row max_scroll)) t) /\
       forall y x, in_window y x ->
         cell g y x = cell (big_scrollable_buffer t) (y + Z.max 0 (Z.min row max_scroll)) x) [].
Proof.
  intros Hb. unfold terminal_set_scroll. cbn zeta. change (VGA_MEM_HEIGHT - VGA_HEIGHT) with max_scroll.
  assert ((if (if row >? max_scroll then max_scroll else row) <? 0 then 0
           else if row >? max_scroll then max_scroll else row) = Z.max 0 (Z.min row max_scroll)) as ->.
  { repeat case_match; unfold max_scroll, VGA_MEM_HEIGHT, VGA_HEIGHT in *; lia. }
  apply prints_modify_then. apply (update_spec (set_scroll_row _ t)). split; [done|].
  cbn [set_scroll_row scroll_row]. unfold max_scroll, VGA_MEM_HEIGHT, VGA_HEIGHT. lia.
Qed.

Lemma scroll_down_spec n t : terminal_ok t -> 0 <= scroll_row t + n ->
  0 <= n < 2 ^ 31 \/ -(2 ^ 31) <= n < 0 ->
  prints (terminal_scroll_down n) t
    (fun _ t' => exists g, t' = set_vga g (set_scroll_row (Z.min (scroll_row t + n) max_scroll) t) /\
       forall y x, in_window y x ->
         cell g y x = cell (big_scrollable_buffer t) (y + Z.min (scroll_row t + n) max_scroll) x) [].
Proof.
  intros [Hb Hs] Hn Hr. unfold terminal_scroll_down. apply prints_gets.
  unfold max_scroll, VGA_MEM_HEIGHT, VGA_HEIGHT in *.
  rewrite u32_small by width.
  eapply prints_weaken; [by apply set_scroll_spec|]. intros _ t' (g & -> & Hg).
  unfold max_scroll, VGA_MEM_HEIGHT, VGA_HEIGHT in *.
  rewrite Z.max_r in * by lia. eauto.
Qed.
End window.

(** ** Characters *)

Section putchar.
Context {D : Type} `{PortDevice D}.
Implicit Types t : Terminal.
Abbreviation prints := (prints (D:=D)).

(** What a step does to the terminal: [s'] is its screen, and the window keeps up. *)
Definition becomes {A} (t : Terminal) (s' : screen) (_ : A) (t' : Terminal) : Prop :=
  writable t' /\ screen_of t' = s' /\ color t' = color t /\
  (following t -> window_ok t -> following t' /\ window_ok t').

Lemma window_exact t : (forall y x, in_window y x ->
  cell (vga_memory t) y x = cell (big_scrollable_buffer t) (y + scroll_row t) x) -> window_ok t.
Proof. intros Hw y x Hyx. left. by apply Hw. Qed.

(** Column 0 of the next line; the first line after the last. *)
Lemma increase_row_spec t :
  terminal_ok t -> 0 <= current_write_row t < VGA_MEM_HEIGHT -> current_write_column t = 0 ->
  prints terminal_increase_row t (becomes t (abstract_newline (screen_of t))) [].
Proof.
  intros Hok Hr Hc. pose proof Hok as [Hb Hs].
  unfold max_scroll, VGA_MEM_HEIGHT, VGA_HEIGHT in Hs, Hr.
  unfold terminal_increase_row. apply prints_modify_then.
  rewrite (u32_small (current_write_row t + 1)) by width.
  set (r := current_write_row t + 1). set (t1 := set_write_row r t).
  apply prints_gets, prints_gets. cbn [t1 set_write_row current_write_row scroll_row].
  (** where the window goes *)
  set (sc := if u32 (r - scroll_row t) >? VGA_HEIGHT then Z.min (scroll_row t + 1) max_scroll
             else scroll_row t).
  eapply (prints_then _ _ _ (fun _ t2 => exists g, t2 = set_vga g (set_scroll_row sc t1) /\
    (sc = scroll_row t /\ g = vga_memory t \/ forall y x, in_window y x ->
       cell g y x = cell (big_scrollable_buffer t) (y + sc) x))).
  { subst sc. case_match.
    - eapply prints_weaken; [apply scroll_down_spec; [done|cbn; lia|lia]|].
      intros _ t2 (g & -> & Hg). exists g. split; [done|]. by right.
    - apply prints_ret. exists (vga_memory t). split; [by destruct t|]. by left. }
  intros _ t2 (g & -> & Hg). apply prints_gets.
  cbn [t1 set_vga set_scroll_row set_write_row current_write_row].
  assert (Hsc : 0 <= sc <= 975).
  { unfold sc. destruct (_ >? _); unfold max_scroll, VGA_MEM_HEIGHT, VGA_HEIGHT; lia. }
  unfold abstract_newline. cbn [screen_of s_row s_cells]. fold r.
  destruct (r >=? VGA_MEM_HEIGHT) eqn:Hlast.
  - apply prints_modify_then, prints_modify_then.
    eapply prints_then; [by apply set_scroll_spec|]. intros _ t3 (g3 & -> & _).
    eapply prints_weaken; [by apply clear_spec|]. intros a t4 (g4 & -> & Hg4).
    rewrite (proj2 (Z.ltb_ge r _)) by (unfold VGA_MEM_HEIGHT in *; lia).
    split; [|split; [done|split; [done|]]].
    + split; [|split; cbn; unfold VGA_MEM_HEIGHT, VGA_WIDTH; lia]. split; [done|]. cbn.
      unfold max_scroll, VGA_MEM_HEIGHT, VGA_HEIGHT. lia.
    + intros _ _. split; [left; cbn; unfold VGA_HEIGHT; lia|]. intros y x Hw. right. cbn. by rewrite Hg4.
  - apply prints_ret. rewrite (proj2 (Z.ltb_lt r _)) by (unfold VGA_MEM_HEIGHT in *; lia).
    split; [|split; [by rewrite <- Hc|split; [done|]]].
    + split; [|split; cbn; unfold VGA_MEM_HEIGHT, VGA_WIDTH in *; lia]. split; [done|]. cbn.
      unfold max_scroll, VGA_MEM_HEIGHT, VGA_HEIGHT. lia.
    + unfold following. intros Hf Hw. cbn.
      unfold VGA_MEM_HEIGHT, VGA_HEIGHT, max_scroll in *. split.
      * revert Hsc. unfold sc. rewrite u32_small by (destruct Hf; width).
        unfold VGA_HEIGHT, max_scroll, VGA_MEM_HEIGHT, r.
        destruct (current_write_row t + 1 - scroll_row t >? 25) eqn:E; unfold VGA_HEIGHT; lia.
      * destruct Hg as [[He ->]|Hg]; [|by apply window_exact].
        intros y x Hyx. cbn. rewrite He. by apply Hw.
Qed.

Lemma set_big_vga g g' t : set_vga g (set_big g' t) = set_big g' (set_vga g t).
Proof. done. Qed.

(** The character goes to its cell, and into the window if that shows the first page. *)
Lemma putentryat_spec c t :
  writable t ->
  prints (terminal_putentryat c (color t) (current_write_column t) (current_write_row t)) t
    (fun _ t' => exists g,
       t' = set_vga g (set_big (<[(current_write_row t, current_write_column t) := vga_entry (u8 c) (color t)]>
              (big_scrollable_buffer t)) t) /\
       (following t -> window_ok t -> window_ok t')) [].
Proof.
  intros (Hok & Hr & Hc). pose proof Hok as [Hb Hs].
  set (row := current_write_row t) in *. set (col := current_write_column t) in *.
  set (big := <[(row, col) := vga_entry (u8 c) (color t)]> (big_scrollable_buffer t)).
  unfold terminal_putentryat.
  eapply (prints_then _ _ _ (fun _ t1 => t1 = set_big big t)); [by apply prints_write_big|].
  intros _ t1 ->. apply prints_gets. cbn [set_big scroll_row].
  assert (Hfar : following t -> VGA_HEIGHT <= u32 (row - scroll_row t) -> row = scroll_row t + VGA_HEIGHT).
  { unfold following, VGA_HEIGHT, VGA_MEM_HEIGHT, max_scroll in *. fold row. intros Hf.
    rewrite u32_small by (destruct Hf; width). lia. }
  assert (Hnear : following t -> u32 (row - scroll_row t) < VGA_HEIGHT -> scroll_row t = 0).
  { unfold following, VGA_HEIGHT, VGA_MEM_HEIGHT, max_scroll in *. fold row. intros Hf.
    rewrite u32_small by (destruct Hf; width). lia. }
  destruct (u32 (row - scroll_row t) >=? VGA_HEIGHT) eqn:E.
  - apply prints_ret. exists (vga_memory t). split; [by destruct t|].
    intros Hf Hw y x Hyx. destruct (Hw y x Hyx) as [Hxy|Hxy]; [left|by right].
    cbn. unfold big. rewrite cell_insert. cbn in Hxy. rewrite Hxy.
    rewrite (proj2 (andb_false_iff (y + scroll_row t =? row) _)); [done|].
    left. apply Z.eqb_neq. destruct Hyx. rewrite Hfar by (done || lia). lia.
  - assert (Hiw : in_window (u32 (row - scroll_row t)) col).
    { split; [|done]. pose proof (u32_range (row - scroll_row t)). unfold is_u32 in *. lia. }
    apply prints_read_big; [destruct Hiw; unfold VGA_HEIGHT, VGA_MEM_HEIGHT in *; lia|done|].
    rewrite (set_vga_self (set_big big t)).
    eapply prints_weaken; [by apply prints_vga|]. intros _ t' ->. eexists. split; [done|].
    intros Hf Hw y x Hyx. cbn. rewrite Hnear by (done || lia).
    assert (u32 (row - 0) = row) as Hrow.
    { unfold VGA_MEM_HEIGHT in Hr. rewrite Z.sub_0_r. apply u32_small. width. }
    rewrite Hrow, cell_insert, Z.add_0_r.
    destruct (decide (y = row /\ x = col)) as [[-> ->]|Hne].
    + left. by rewrite !Z.eqb_refl.
    + assert ((y =? row) && (x =? col) = false) as -> by lia.
      destruct (Hw y x Hyx) as [Hxy|Hxy]; [left|by right].
      rewrite Hxy, Hnear by (done || lia). unfold big. rewrite cell_insert, Z.add_0_r.
      by assert ((y =? row) && (x =? col) = false) as -> by lia.
Qed.

Context `{!SerialReady D}.

Lemma serial_wait_done n d t : exists d' v, serial_wait n d t = Outcome d' t [EIn (COM1 + 5) v] (Done tt).
Proof.
  pose proof (serial_ready d) as Hr.
  destruct n; cbn [serial_wait]; unfold mbind, M_bind, inb;
    destruct (port_in (COM1 + 5) d) as [v d']; cbn [fst] in Hr;
    cbn [o_exit o_dev o_glob o_events]; rewrite Hr; cbn; by exists d', (u8 v).
Qed.

Lemma prints_serial c t : prints (serial_write_char c) t (fun _ t' => t' = t) [u8 c].
Proof.
  intros d. exists tt. unfold serial_write_char.
  destruct (serial_wait_done serial_polls d t) as (d' & v & Hw).
  rewrite (bind_done _ _ _ _ _ _ _ _ Hw). cbn. do 3 (split; [done|]). by repeat constructor.
Qed.

Lemma becomes_trans {A B} t s s' (a : A) (b : B) t1 t2 :
  becomes t s a t1 -> becomes t1 s' b t2 -> becomes t s' b t2.
Proof.
  intros (_ & _ & Hc1 & Hk1) (Hw & Hs & Hc2 & Hk2). split; [done|]. split; [done|].
  split; [congruence|]. intros Hf Hwin. destruct (Hk1 Hf Hwin). auto.
Qed.

Lemma newline_spec t :
  terminal_ok t -> 0 <= current_write_row t < VGA_MEM_HEIGHT ->
  prints (modify (set_write_column 0);; terminal_increase_row) t
    (becomes t (abstract_newline (screen_of t))) [].
Proof.
  intros Hok Hr. apply prints_modify_then.
  eapply prints_weaken; [by apply (increase_row_spec (set_write_column 0 t))|].
  intros a t' (Hw & Hs & Hc & Hk). split; [done|]. split; [done|]. by split.
Qed.

Lemma putchar_plain_spec c t : is_u8 c -> writable t ->
  prints (putchar_plain c) t (becomes t (abstract_put (color t) c (screen_of t))) [c].
Proof.
  intros Hc Hw. pose proof Hw as (Hok & Hr & Hcol). unfold putchar_plain.
  assert (Hc8 : [u8 c] = [c]) by (by rewrite u8_small).
  change [c] with ([c] ++ []). rewrite <- Hc8.
  eapply prints_bind; [apply prints_serial|]. intros _ t0 ->.
  unfold abstract_put. destruct (c =? 10) eqn:E; [by apply newline_spec|].
  apply prints_get. eapply prints_then; [by apply putentryat_spec|].
  intros _ t1 (g & -> & Hk). rewrite u8_small in Hk |- * by done.
  set (big := <[_ := _]> _) in *.
  apply prints_modify_then. cbn [set_vga set_big set_write_column current_write_column].
  unfold VGA_WIDTH, VGA_MEM_HEIGHT in *. rewrite u32_small by width.
  apply prints_gets. cbn [set_write_column current_write_column s_column screen_of].
  set (t2 := set_write_column (current_write_column t + 1) _).
  assert (H2 : following t -> window_ok t -> following t2 /\ window_ok t2).
  { intros Hf Hwin. split; [done|]. exact (Hk Hf Hwin). }
  unfold VGA_WIDTH. cbn [s_column]. destruct (current_write_column t + 1 =? 80) eqn:E2.
  - eapply prints_weaken; [by apply (newline_spec t2)|].
    intros a t' (Hw' & Hs' & Hc' & Hk'). split; [done|]. split; [done|]. split; [done|].
    intros Hf Hwin. destruct (H2 Hf Hwin). auto.
  - apply prints_ret. split; [|by split; [|split]].
    split; [done|]. split; [done|]. cbn. unfold VGA_WIDTH. lia.
Qed.

(** Several characters one after the other. *)
Lemma abstract_write_cons col c cs s :
  abstract_write col (c :: cs) s = abstract_write col cs (abstract_put col c s).
Proof. done. Qed.

Lemma becomes_refl t : writable t -> becomes t (screen_of t) tt t.
Proof. intros Hw. by split; [|split; [|split]]. Qed.

Lemma blanks_spec n i t : writable t ->
  prints (for_range n i (fun _ => putchar_plain 32)) t
    (becomes t (abstract_write (color t) (replicate n 32) (screen_of t))) (replicate n 32).
Proof.
  revert i t. induction n as [|n IH]; intros i t Hw; cbn [for_range replicate].
  { by apply prints_ret, becomes_refl. }
  change (32 :: replicate n 32) with ([32] ++ replicate n 32).
  eapply prints_bind; [by apply putchar_plain_spec|].
  intros a t1 Hb. pose proof Hb as (Hw1 & Hs1 & Hc1 & _).
  eapply prints_weaken; [by apply IH|]. intros b t2 Hb2. cbn [app]. rewrite abstract_write_cons, <- Hs1, <- Hc1.
  by eapply becomes_trans.
Qed.

Lemma putchar_spec c t : is_u8 c -> writable t ->
  prints (terminal_putchar c) t (becomes t (abstract_putchar (color t) c (screen_of t)))
    (expand c (screen_of t)).
Proof.
  intros Hc Hw. pose proof Hw as (Hok & Hr & Hcol). unfold VGA_WIDTH in Hcol.
  unfold terminal_putchar, abstract_putchar, expand.
  destruct (c =? 0); [by apply prints_ret, becomes_refl|].
  destruct (c =? 9) eqn:E; [|by apply putchar_plain_spec].
  apply prints_gets. cbn zeta. unfold tab_width, VGA_WIDTH. cbn [screen_of s_column].
  rewrite u8_small by width.
  assert ((if 4 >? 80 - current_write_column t then 80 - current_write_column t else 4)
          = Z.min 4 (80 - current_write_column t)) as -> by (case_match; lia).
  by apply blanks_spec.
Qed.

Lemma write_from_spec str : forall pre post t, Forall is_u8 str -> writable t ->
  prints (write_from (pre ++ str ++ post) (Z.of_nat (length pre)) (length str)) t
    (becomes t (fst (abstract_string (color t) str (screen_of t))))
    (snd (abstract_string (color t) str (screen_of t))).
Proof.
  induction str as [|c str IH]; intros pre post t Hs Hw; cbn [length write_from].
  { by apply prints_ret, becomes_refl. }
  pose proof (Forall_inv Hs) as Hc. apply Forall_inv_tail in Hs. cbn [app].
  eapply prints_cell; [by apply load_mid|].
  cbn [abstract_string]. destruct (abstract_string (color t) str _) as [s' out] eqn:E. cbn [fst snd].
  eapply prints_bind; [by apply putchar_spec|].
  intros a t1 Hb. pose proof Hb as (Hw1 & Hs1 & Hc1 & _).
  replace (Z.of_nat (length pre) + 1) with (Z.of_nat (length (pre ++ [c]))) by (rewrite length_app; simpl; lia).
  replace (pre ++ c :: str ++ post) with ((pre ++ [c]) ++ str ++ post) by by rewrite <- (assoc_L (++)).
  pose proof (IH (pre ++ [c]) post t1 Hs Hw1) as Hrest. rewrite Hs1, Hc1, E in Hrest.
  eapply prints_weaken; [exact Hrest|]. intros b t2 Hb2. by eapply becomes_trans.
Qed.

Lemma is_u8_nonnul str : Forall (fun c => 0 < c < 256) str -> Forall is_u8 str /\ Forall (fun c => c <> 0) str.
Proof. intros Hs. split; (eapply Forall_impl; [|exact Hs]); simpl; intros; width. Qed.

Lemma writestring_spec str rest t : Forall (fun c => 0 < c < 256) str -> writable t ->
  prints (terminal_writestring (str ++ 0 :: rest)) t
    (becomes t (fst (abstract_string (color t) str (screen_of t))))
    (snd (abstract_string (color t) str (screen_of t))).
Proof.
  intros Hs Hw. destruct (is_u8_nonnul str Hs) as [Hs8 Hs0]. unfold terminal_writestring.
  eapply prints_cell; [by apply strlen_spec|]. unfold terminal_write. rewrite Nat2Z.id.
  by apply (write_from_spec str []).
Qed.
End putchar.

(** ** Initialisation *)

Definition light_grey : Z := vga_entry_color VGA_COLOR_LIGHT_GREY VGA_COLOR_BLACK.

(** Every line of the scrollable memory is blank. *)
Definition blank_lines (g : grid) : Prop :=
  forall y x, 0 <= y < VGA_MEM_HEIGHT -> 0 <= x < VGA_WIDTH -> cell g y x = vga_entry 32 light_grey.

Definition fresh (t : Terminal) : Prop :=
  writable t /\ following t /\ window_ok t /\ color t = light_grey /\ scroll_row t = 0 /\
  current_write_row t = 0 /\ current_write_column t = 0 /\ blank_lines (big_scrollable_buffer t).

Section keys.
Context {D : Type} `{PortDevice D}.
Implicit Types t : Terminal.
Abbreviation prints := (prints (D:=D)).

Lemma initialize_spec t : prints initialize_terminal t (fun _ t' => fresh t') [].
Proof.
  unfold initialize_terminal. do 4 apply prints_modify_then.
  set (t1 := set_vga_buffer VGA_MMIO_BASE _).
  eapply prints_then; [by apply clear_spec|]. intros _ t2 (g & -> & Hg).
  apply prints_modify_then. set (t3 := set_scroll_row 0 _).
  replace t3 with (set_big (big_scrollable_buffer t3) t3) at 1 by done.
  eapply prints_weaken.
  - apply (for_cells_spec VGA_MEM_HEIGHT _ set_big (big_scrollable_buffer t3) t3
             (fun _ _ => vga_entry 32 light_grey)); [done|].
    intros y x g' Hy Hx. apply prints_gets. by apply prints_write_big.
  - intros _ t' (g' & -> & Hg').
    split; [|split; [by left|split; [|do 4 (split; [done|])]]].
    + split; [|done]. split; [done|]. cbn. unfold max_scroll, VGA_MEM_HEIGHT, VGA_HEIGHT. lia.
    + intros y x Hw. right. by apply Hg.
    + intros y x Hy Hx. cbn. rewrite Hg'. case_match; [done|lia].
Qed.

(** ** The keys that move the window *)

(** The window shows the scrollable memory from [scroll_row] on. *)
Definition window_exact_at (t : Terminal) : Prop :=
  forall y x, in_window y x ->
    cell (vga_memory t) y x = cell (big_scrollable_buffer t) (y + scroll_row t) x.

(** The effect of a key: the window is [sc] lines down, and exact if it has moved. *)
Definition moved (t : Terminal) (sc : Z) (_ : unit) (t' : Terminal) : Prop :=
  terminal_ok t' /\ scroll_row t' = sc /\ big_scrollable_buffer t' = big_scrollable_buffer t /\
  current_write_column t' = current_write_column t /\ color t' = color t /\
  (window_exact_at t \/ sc <> scroll_row t -> window_exact_at t').

Lemma scroll_moved n t : terminal_ok t -> 0 <= scroll_row t + n -> -1 <= n <= 1 ->
  prints (terminal_scroll_down n) t
    (fun a t' => moved t (Z.min (scroll_row t + n) max_scroll) a t' /\
                 current_write_row t' = current_write_row t) [].
Proof.
  intros Hok Hn Hr. pose proof Hok as [Hb Hs].
  eapply prints_weaken; [apply scroll_down_spec; [done|done|lia]|].
  intros a t' (g & -> & Hg). split; [|done]. split; [|by split; [|split; [|split; [|split]]]].
  split; [done|]. cbn. lia.
Qed.

Lemma not_moved t : terminal_ok t -> moved t (scroll_row t) tt t.
Proof. intros Hok. do 5 (split; [done|]). by intros [|]. Qed.

(** Setting the row does not touch the window. *)
Lemma moved_row r t sc a t' : moved t sc a t' -> moved t sc a (set_write_row r t').
Proof. by intros (? & ? & ? & ? & ? & ?). Qed.
Lemma moved_from_row r t sc a t' : moved (set_write_row r t) sc a t' -> moved t sc a t'.
Proof. by intros (? & ? & ? & ? & ? & ?). Qed.

Lemma arrow_up_spec t : terminal_ok t -> 0 <= current_write_row t < 2 ^ 32 ->
  prints terminal_arrow_up t
    (fun a t' => if (0 <? current_write_row t) && (current_write_row t <=? scroll_row t)
      then moved t (scroll_row t - 1) a t' /\ current_write_row t' = scroll_row t
      else moved t (scroll_row t) a t' /\ current_write_row t' = u32 (current_write_row t - 1)) [].
Proof.
  intros Hok Hr. pose proof Hok as [Hb Hs]. unfold terminal_arrow_up.
  apply prints_modify_then, prints_get. cbn [set_write_row current_write_row scroll_row].
  unfold max_scroll, VGA_MEM_HEIGHT, VGA_HEIGHT in Hs.
  assert ((u32 (current_write_row t - 1) <? scroll_row t) =
          (0 <? current_write_row t) && (current_write_row t <=? scroll_row t)) as ->.
  { destruct (decide (current_write_row t = 0)) as [->|Hne].
    - change (u32 (0 - 1)) with 4294967295. lia.
    - rewrite u32_small by width. lia. }
  destruct (_ && _) eqn:E.
  - apply prints_modify_then. cbn [set_write_row].
    eapply prints_weaken.
    + apply (scroll_moved (-1)); [done| |lia]. cbn. lia.
    + intros a t' [Hm Hrow]. split; [|done]. cbn [set_write_row scroll_row] in Hm.
      rewrite Z.min_l in Hm by (unfold max_scroll, VGA_MEM_HEIGHT, VGA_HEIGHT; lia).
      by apply moved_from_row, moved_from_row in Hm.
  - apply prints_ret. split; [|done]. by apply moved_row, not_moved.
Qed.

Lemma arrow_down_spec t : terminal_ok t -> 0 <= current_write_row t < 2 ^ 32 ->
  prints terminal_arrow_down t
    (fun a t' => if (scroll_row t + VGA_HEIGHT <=? current_write_row t) && (current_write_row t <? 2 ^ 32 - 1)
      then moved t (Z.min (scroll_row t + 1) max_scroll) a t' /\
           current_write_row t' = scroll_row t + VGA_HEIGHT
      else moved t (scroll_row t) a t' /\ current_write_row t' = u32 (current_write_row t + 1)) [].
Proof.
  intros Hok Hr. pose proof Hok as [Hb Hs]. unfold terminal_arrow_down.
  apply prints_modify_then, prints_get. cbn [set_write_row current_write_row scroll_row].
  unfold max_scroll, VGA_MEM_HEIGHT, VGA_HEIGHT in Hs.
  rewrite (u32_small (scroll_row t + VGA_HEIGHT)) by (unfold VGA_HEIGHT; width).
  assert ((u32 (current_write_row t + 1) >? scroll_row t + VGA_HEIGHT) =
     (scroll_row t + VGA_HEIGHT <=? current_write_row t) && (current_write_row t <? 2 ^ 32 - 1)) as ->.
  { unfold VGA_HEIGHT. destruct (decide (current_write_row t = 2 ^ 32 - 1)) as [->|Hne].
    - change (u32 (2 ^ 32 - 1 + 1)) with 0. lia.
    - rewrite u32_small by width. lia. }
  destruct (_ && _) eqn:E.
  - apply prints_modify_then. cbn [set_write_row].
    eapply prints_weaken.
    + apply (scroll_moved 1); [done|cbn; lia|lia].
    + intros a t' [Hm Hrow]. split; [|done]. cbn [set_write_row scroll_row] in Hm.
      by apply moved_from_row, moved_from_row in Hm.
  - apply prints_ret. split; [|done]. by apply moved_row, not_moved.
Qed.

Lemma ctrl_f_spec t : terminal_ok t ->
  prints terminal_ctrl_f t
    (fun a t' => let sc := Z.min (scroll_row t + 1) max_scroll in
       moved t sc a t' /\ current_write_row t' = Z.max (current_write_row t) sc) [].
Proof.
  intros Hok. pose proof Hok as [Hb Hs]. unfold terminal_ctrl_f. cbn zeta. apply prints_gets.
  unfold max_scroll, VGA_MEM_HEIGHT, VGA_HEIGHT in *.
  rewrite u32_small by width.
  eapply (prints_then _ _ _ (fun a t1 => moved t (Z.min (scroll_row t + 1) max_scroll) a t1 /\
            current_write_row t1 = current_write_row t)).
  - destruct (_ <? _) eqn:E; [apply scroll_moved; [done|lia|lia]|].
    apply prints_ret. split; [|done]. unfold max_scroll, VGA_MEM_HEIGHT, VGA_HEIGHT.
    replace (Z.min _ _) with (scroll_row t) by lia. by apply not_moved.
  - intros [] t1 [Hm Hrow]. pose proof Hm as (_ & Hsc & _). apply prints_get. rewrite Hrow, Hsc.
    unfold max_scroll, VGA_MEM_HEIGHT, VGA_HEIGHT in *.
    destruct (_ <? _) eqn:E.
    + apply prints_modify. split; [by apply moved_row|]. cbn. lia.
    + apply prints_ret. split; [done|]. lia.
Qed.

Lemma ctrl_r_spec t : terminal_ok t ->
  prints terminal_ctrl_r t
    (fun a t' => let sc := Z.max (scroll_row t - 1) 0 in
       moved t sc a t' /\ current_write_row t' = Z.min (current_write_row t) (sc + VGA_HEIGHT)) [].
Proof.
  intros Hok. pose proof Hok as [Hb Hs]. unfold terminal_ctrl_r. cbn zeta. apply prints_gets.
  unfold max_scroll, VGA_MEM_HEIGHT, VGA_HEIGHT in *.
  eapply (prints_then _ _ _ (fun a t1 => moved t (Z.max (scroll_row t - 1) 0) a t1 /\
            current_write_row t1 = current_write_row t)).
  - destruct (_ >? _) eqn:E.
    + eapply prints_weaken; [apply (scroll_moved (-1)); [done|lia|lia]|].
      intros a t' [Hm Hrow]. split; [|done].
      unfold max_scroll, VGA_MEM_HEIGHT, VGA_HEIGHT in Hm.
      replace (Z.max _ _) with (Z.min (scroll_row t + -1) (1000 - 25)) by lia. done.
    + apply prints_ret. split; [|done].
      replace (Z.max _ _) with (scroll_row t) by lia. by apply not_moved.
  - intros [] t1 [Hm Hrow]. pose proof Hm as (_ & Hsc & _). apply prints_get. rewrite Hrow, Hsc.
    unfold VGA_HEIGHT. rewrite u32_small by width.
    destruct (_ >? _) eqn:E.
    + apply prints_modify. split; [by apply moved_row|]. cbn. lia.
    + apply prints_ret. split; [done|]. lia.
Qed.
End keys.

(** ** The terminal behind the keyboard *)

(** A terminal that [initialize_terminal] has set up, with any place of the next character. *)
Definition open_ok (t : Terminal) : Prop := terminal_ok t /\ 0 <= current_write_row t < 2 ^ 32.
Definition OpenTerminal : Type := {t : Terminal | open_ok t}.

Section behind_keyboard.
Context {D : Type} `{PortDevice D}.

Definition restrict (m : M D Terminal unit)
    (Hm : forall t, open_ok t -> prints m t (fun _ t' => open_ok t') []) : M D OpenTerminal unit.
Proof.
  intros d t. refine (let r := m d (proj1_sig t) in
    Outcome (o_dev r) (exist _ (o_glob r) _) (o_events r) (o_exit r)).
  abstract (by destruct (Hm (proj1_sig t) (proj2_sig t) d) as (? & ? & ? & _)).
Defined.

Lemma restrict_ok m Hm : well_behaved (restrict m Hm).
Proof.
  intros d t. destruct (Hm (proj1_sig t) (proj2_sig t) d) as ([] & He & _ & _ & Hp). done.
Qed.

Lemma idle_key_ok t : open_ok t -> prints (D:=D) (mret tt) t (fun _ t' => open_ok t') [].
Proof. intros Ht. by apply prints_ret. Qed.

Lemma arrow_up_open t : open_ok t -> prints (D:=D) terminal_arrow_up t (fun _ t' => open_ok t') [].
Proof.
  intros [Hok Hr]. eapply prints_weaken; [by apply arrow_up_spec|]. intros a t'.
  pose proof (u32_range (current_write_row t - 1)). destruct Hok as [_ Hs].
  unfold is_u32, max_scroll, VGA_MEM_HEIGHT, VGA_HEIGHT in *.
  case_match; intros [(Hok' & _) Hr']; (split; [done|lia]).
Qed.

Lemma arrow_down_open t : open_ok t -> prints (D:=D) terminal_arrow_down t (fun _ t' => open_ok t') [].
Proof.
  intros [Hok Hr]. eapply prints_weaken; [by apply arrow_down_spec|]. intros a t'.
  pose proof (u32_range (current_write_row t + 1)). destruct Hok as [_ Hs].
  unfold is_u32, max_scroll, VGA_MEM_HEIGHT, VGA_HEIGHT in *.
  case_match; intros [(Hok' & _) Hr']; (split; [done|lia]).
Qed.

Lemma ctrl_f_open t : open_ok t -> prints (D:=D) terminal_ctrl_f t (fun _ t' => open_ok t') [].
Proof.
  intros [Hok Hr]. eapply prints_weaken; [by apply ctrl_f_spec|]. intros a t' [(Hok' & _) Hr'].
  destruct Hok as [_ Hs]. unfold max_scroll, VGA_MEM_HEIGHT, VGA_HEIGHT in *. split; [done|lia].
Qed.

Lemma ctrl_r_open t : open_ok t -> prints (D:=D) terminal_ctrl_r t (fun _ t' => open_ok t') [].
Proof.
  intros [Hok Hr]. eapply prints_weaken; [by apply ctrl_r_spec|]. intros a t' [(Hok' & _) Hr'].
  destruct Hok as [_ Hs]. unfold max_scroll, VGA_MEM_HEIGHT, VGA_HEIGHT in *. split; [done|lia].
Qed.

(** The terminal of the kernel is one the keyboard handler may call. *)
#[export] Instance kernel_terminal : TerminalKeys D OpenTerminal := {
  KeyboardHandler.terminal_arrow_up := restrict terminal_arrow_up arrow_up_open;
  KeyboardHandler.terminal_arrow_down := restrict terminal_arrow_down arrow_down_open;
  KeyboardHandler.terminal_arrow_left := restrict terminal_arrow_left idle_key_ok;
  KeyboardHandler.terminal_arrow_right := restrict terminal_arrow_right idle_key_ok;
  KeyboardHandler.terminal_ctrl_r := restrict terminal_ctrl_r ctrl_r_open;
  KeyboardHandler.terminal_ctrl_f := restrict terminal_ctrl_f ctrl_f_open;
}.

#[export] Instance kernel_terminal_laws : TerminalLaws D OpenTerminal.
Proof. split; apply restrict_ok. Qed.
End behind_keyboard.

(** ** Strings and columns *)

(** What is sent depends on the column only. *)
Lemma abstract_put_column col c s s' : s_column s = s_column s' ->
  s_column (abstract_put col c s) = s_column (abstract_put col c s').
Proof.
  intros He. unfold abstract_put. destruct (c =? 10); [done|]. cbn [s_column]. rewrite He.
  by destruct (_ =? _); cbn.
Qed.

Lemma abstract_write_column col cs s s' : s_column s = s_column s' ->
  s_column (abstract_write col cs s) = s_column (abstract_write col cs s').
Proof.
  revert s s'. induction cs as [|c cs IH]; intros s s' He; [done|].
  rewrite !abstract_write_cons. by apply IH, abstract_put_column.
Qed.

Lemma expand_column c s s' : s_column s = s_column s' -> expand c s = expand c s'.
Proof. intros He. unfold expand, tab_width. by rewrite He. Qed.

Lemma abstract_string_column col str s s' : s_column s = s_column s' ->
  snd (abstract_string col str s) = snd (abstract_string col str s').
Proof.
  revert s s'. induction str as [|c str IH]; intros s s' He; [done|]. cbn [abstract_string].
  pose proof (IH (abstract_putchar col c s) (abstract_putchar col c s')) as Hi.
  destruct (abstract_string col str (abstract_putchar col c s)),
    (abstract_string col str (abstract_putchar col c s')). cbn [snd] in *.
  rewrite (expand_column c s s' He). f_equal. apply Hi. unfold abstract_putchar.
  rewrite (expand_column c s s' He). by apply abstract_write_column.
Qed.

(** Without tabs a string is sent as it is. *)
Lemma abstract_string_plain col str s : Forall (fun c => 0 < c < 256 /\ c <> 9) str ->
  snd (abstract_string col str s) = str.
Proof.
  intros Hs. revert s. induction Hs as [|c str [Hc H9] Hs IH]; intros s; [done|]. cbn [abstract_string].
  pose proof (IH (abstract_putchar col c s)) as Hi.
  destruct (abstract_string col str (abstract_putchar col c s)). cbn [snd] in *. rewrite Hi.
  unfold expand. by rewrite (proj2 (Z.eqb_neq c 0)), (proj2 (Z.eqb_neq c 9)) by lia.
Qed.

(** ** Undefined behaviour *)

Section faults.
Context {D : Type} `{PortDevice D}.
Implicit Types t : Terminal.

Lemma undef_bind {A B} (m : M D Terminal A) (k : A -> M D Terminal B) t P o :
  prints m t P o -> (forall a t', P a t' -> undef (k a) t') -> undef (m ≫= k) t.
Proof.
  intros Hm Hk d. destruct (Hm d) as (a & He & HP & _). unfold mbind, M_bind. rewrite He.
  apply (Hk a _ HP).
Qed.

(** Writing outside of the scrollable memory. *)
Lemma putentryat_out c col x y t : ~ 0 <= y < VGA_MEM_HEIGHT -> undef (D:=D) (terminal_putentryat c col x y) t.
Proof.
  intros Hy d. unfold terminal_putentryat, write_big, in_big.
  assert ((0 <=? y) && (y <? VGA_MEM_HEIGHT) && (0 <=? x) && (x <? VGA_WIDTH) = false) as ->; [|done].
  destruct ((0 <=? y) && (y <? VGA_MEM_HEIGHT)) eqn:E; [lia|done].
Qed.

Lemma putchar_out `{!SerialReady D} c t : c <> 0 -> c <> 9 -> c <> 10 ->
  ~ 0 <= current_write_row t < VGA_MEM_HEIGHT -> undef (D:=D) (terminal_putchar c) t.
Proof.
  intros H0 H9 H10 Hr. unfold terminal_putchar, putchar_plain.
  rewrite (proj2 (Z.eqb_neq c 0)), (proj2 (Z.eqb_neq c 9)), (proj2 (Z.eqb_neq c 10)) by done.
  eapply undef_bind; [apply prints_serial|]. intros _ t' ->.
  apply (undef_gets (fun t => t)). apply undef_now. by apply putentryat_out.
Qed.
End faults.

(** ** Properties *)

(** C19: Writing a string on an open terminal returns on every device with a ready serial
    line, and refines the abstract terminal: the serial line receives the characters (tabs as
    up to four blanks), the cells, row and column are those of the abstract layout, and the
    terminal can be written on again. *)
Theorem writestring_refines_screen {D} `{SerialReady D} str rest t :
  Forall (fun c => 0 < c < 256) str -> writable t ->
  prints (D:=D) (terminal_writestring (str ++ 0 :: rest)) t
    (fun _ t' => writable t' /\ color t' = color t /\
       screen_of t' = fst (abstract_string (color t) str (screen_of t)))
    (snd (abstract_string (color t) str (screen_of t))) /\
  (9 ∉ str -> snd (abstract_string (color t) str (screen_of t)) = str).
Proof.
  intros Hs Hw. split.
  - eapply prints_weaken; [by apply writestring_spec|]. by intros a t' (? & ? & ? & _).
  - intros H9. apply abstract_string_plain. apply List.Forall_forall. intros c Hc.
    rewrite List.Forall_forall in Hs. split; [by apply Hs|]. intros ->. by apply H9, list_elem_of_In.
Qed.

(** A serial line that is always ready, and an open terminal. *)
Inductive ready_line := RL.
#[export] Instance ready_device : PortDevice ready_line := {
  port_in := fun _ d => (0x20, d); port_out := fun _ _ d => d }.
#[export] Instance ready_device_ready : SerialReady ready_line.
Proof. by intros d. Qed.

Definition sample_terminal : Terminal := mk_terminal 999 78 975 light_grey VGA_MMIO_BASE ∅ ∅.

(** At the end of the last line: a character, a tab, and a newline that leads to the first. *)
Lemma writestring_refines_screen_witness :
  let r := terminal_writestring [65; 9; 10; 66; 0] RL sample_terminal in
  sent (o_events r) = [65; 32; 10; 66] /\ current_write_row (o_glob r) = 1 /\
  writable (o_glob r).
Proof.
  split; [vm_compute; reflexivity|]. split; [vm_compute; reflexivity|].
  destruct (writestring_refines_screen [65; 9; 10; 66] [] sample_terminal) as [Hp _].
  - repeat constructor.
  - by vm_compute.
  - destruct (Hp RL) as (a & _ & Hq & _). apply Hq.
Defined.

(** C27: After [initialize_terminal], whatever is written, every cell of the VGA memory shows
    the cell of the scrollable memory that it stands for or is blank since the last clearing;
    but once the window has moved, the line being written is the one below the window: the
    comparison in [terminal_increase_row] is off by one. *)
Theorem window_follows_writing {D} `{SerialReady D} str rest t :
  Forall (fun c => 0 < c < 256) str ->
  prints (D:=D) (initialize_terminal;; terminal_writestring (str ++ 0 :: rest)) t
    (fun _ t' => writable t' /\ window_ok t' /\
       (0 < scroll_row t' -> current_write_row t' = scroll_row t' + VGA_HEIGHT))
    (snd (abstract_string light_grey str (mk_screen 0 0 ∅))).
Proof.
  intros Hs. eapply prints_then; [apply initialize_spec|].
  intros a t1 (Hw & Hf & Hwin & Hc & _ & Hrow & Hcol & _).
  rewrite (abstract_string_column _ _ (mk_screen 0 0 ∅) (screen_of t1)) by (cbn; by rewrite Hcol).
  rewrite <- Hc. eapply prints_weaken; [by apply writestring_spec|].
  intros b t' (Hw' & _ & _ & Hk). destruct (Hk Hf Hwin) as [Hf' Hwin']. split; [done|]. split; [done|].
  unfold following in Hf'. lia.
Qed.

(** The 27th line scrolls for the first time. *)
Lemma window_follows_writing_witness :
  let r := (initialize_terminal;; terminal_writestring (replicate 26 10 ++ [0])) RL term in
  window_ok (o_glob r) /\ sent (o_events r) = replicate 26 10.
Proof.
  destruct (window_follows_writing (replicate 26 10) [] term ltac:(repeat constructor) RL)
    as (a & _ & (_ & Hw & _) & Hs & _).
  split; [exact Hw|exact Hs].
Defined.

(** Control-F and control-R move the window one line down and up, never outside of the
    scrollable memory, and pull the row of the next character along; the arrow keys move that
    row, and the window where the row would leave it.  Each returns on every device, sends
    nothing, and shows the lines of the window exactly when it has moved. *)
Theorem window_keys {D} `{PortDevice D} t :
  terminal_ok t -> 0 <= current_write_row t < 2 ^ 32 ->
  prints (D:=D) terminal_ctrl_f t
    (fun a t' => let sc := Z.min (scroll_row t + 1) max_scroll in
       moved t sc a t' /\ current_write_row t' = Z.max (current_write_row t) sc) [] /\
  prints (D:=D) terminal_ctrl_r t
    (fun a t' => let sc := Z.max (scroll_row t - 1) 0 in
       moved t sc a t' /\ current_write_row t' = Z.min (current_write_row t) (sc + VGA_HEIGHT)) [] /\
  (0 < current_write_row t -> prints (D:=D) terminal_arrow_up t
    (fun a t' => let sc := if current_write_row t <=? scroll_row t then scroll_row t - 1 else scroll_row t in
       moved t sc a t' /\ current_write_row t' = Z.max (scroll_row t) (current_write_row t - 1)) []) /\
  (current_write_row t < 2 ^ 32 - 1 -> prints (D:=D) terminal_arrow_down t
    (fun a t' => let sc := if scroll_row t + VGA_HEIGHT <=? current_write_row t
                           then Z.min (scroll_row t + 1) max_scroll else scroll_row t in
       moved t sc a t' /\
       current_write_row t' = Z.min (scroll_row t + VGA_HEIGHT) (current_write_row t + 1)) []).
Proof.
  intros Hok Hr. pose proof Hok as [_ Hs]. unfold max_scroll, VGA_MEM_HEIGHT, VGA_HEIGHT in Hs.
  split; [by apply ctrl_f_spec|]. split; [by apply ctrl_r_spec|]. split; intros Hrow.
  - eapply prints_weaken; [by apply arrow_up_spec|]. intros a t'. cbn zeta.
    rewrite (proj2 (Z.ltb_lt 0 _)) by done. cbn [andb].
    destruct (_ <=? _) eqn:E; intros [Hm Hr']; (split; [done|]); [lia|].
    rewrite Hr', u32_small by width. lia.
  - eapply prints_weaken; [by apply arrow_down_spec|]. intros a t'. cbn zeta.
    rewrite (proj2 (Z.ltb_lt (current_write_row t) _)), andb_true_r by done.
    destruct (_ <=? _) eqn:E; intros [Hm Hr']; (split; [done|]); unfold VGA_HEIGHT in *; [lia|].
    rewrite Hr', u32_small by width. lia.
Qed.

Lemma window_keys_witness :
  scroll_row (o_glob (terminal_ctrl_r RL sample_terminal)) = 974 /\
  window_exact_at (o_glob (terminal_ctrl_r RL sample_terminal)).
Proof.
  destruct (window_keys (D:=ready_line) sample_terminal) as (_ & Hp & _).
  - by vm_compute.
  - by vm_compute.
  - destruct (Hp RL) as (a & _ & (Hm & _) & _). destruct Hm as (_ & Hsc & _ & _ & _ & He).
    split; [exact Hsc|]. apply He. right. cbn. lia.
Defined.

(** Where the arrow keys leave the row unchecked, the next character is written out of
    bounds: above the first line the row wraps around, below the last line it is 1000.  And
    on a window that has been moved, a character written to a visible line is not shown: the
    cell shows the line of the scrollable memory that is [scroll_row] lines higher. *)
Theorem arrow_keys_and_writing {D} `{SerialReady D} c t :
  is_u8 c -> c <> 0 -> c <> 9 -> c <> 10 -> writable t ->
  (current_write_row t = 0 -> undef (D:=D) (terminal_arrow_up;; terminal_putchar c) t) /\
  (current_write_row t = 999 -> scroll_row t = 975 ->
     undef (D:=D) (terminal_arrow_down;; terminal_putchar c) t) /\
  (0 < scroll_row t <= current_write_row t -> current_write_row t < scroll_row t + VGA_HEIGHT ->
     prints (D:=D) (terminal_putentryat c (color t) (current_write_column t) (current_write_row t)) t
       (fun _ t' =>
          cell (vga_memory t') (current_write_row t - scroll_row t) (current_write_column t) =
          cell (big_scrollable_buffer t) (current_write_row t - scroll_row t) (current_write_column t)) []).
Proof.
  intros Hc Hn0 Hn9 Hn10 (Hok & Hr & Hcol). pose proof Hok as [Hb Hs].
  unfold max_scroll, VGA_MEM_HEIGHT, VGA_HEIGHT in Hs, Hr. split; [|split].
  - intros Hrow. eapply undef_bind; [apply arrow_up_spec; [done|lia]|]. intros a t'.
    rewrite Hrow. change (0 <? 0) with false. cbn [andb]. intros [_ Hr']. apply putchar_out; [done..|].
    rewrite Hr'. change (u32 (0 - 1)) with 4294967295. unfold VGA_MEM_HEIGHT. lia.
  - intros Hrow Hsc. eapply undef_bind; [apply arrow_down_spec; [done|lia]|]. intros a t'.
    rewrite Hrow, Hsc. change (975 + VGA_HEIGHT <=? 999) with false. cbn [andb].
    intros [_ Hr']. apply putchar_out; [done..|].
    rewrite Hr'. change (u32 (999 + 1)) with 1000. unfold VGA_MEM_HEIGHT. lia.
  - intros Hsc Hvis. set (row := current_write_row t) in *. set (col := current_write_column t) in *.
    unfold VGA_HEIGHT in Hvis. unfold terminal_putentryat.
    eapply (prints_then _ _ _ (fun _ t1 => t1 = set_big (<[(row, col) := vga_entry (u8 c) (color t)]>
        (big_scrollable_buffer t)) t)); [by apply prints_write_big|].
    intros _ t1 ->. apply prints_gets. cbn [set_big scroll_row].
    rewrite u32_small by width.
    assert ((row - scroll_row t >=? VGA_HEIGHT) = false) as -> by (unfold VGA_HEIGHT; lia).
    apply prints_read_big; [unfold VGA_MEM_HEIGHT; lia|done|].
    rewrite (set_vga_self (set_big _ t)).
    eapply prints_weaken; [apply prints_vga; [done|split; [unfold VGA_HEIGHT; lia|done]]|].
    intros _ t' ->. cbn. rewrite !cell_insert, !Z.eqb_refl. cbn [andb].
    by rewrite (proj2 (Z.eqb_neq (row - scroll_row t) row)) by lia.
Qed.

(** The first line: arrow up, then a letter. *)
Lemma arrow_keys_and_writing_witness :
  o_exit ((terminal_arrow_up;; terminal_putchar 65) RL (set_write_row 0 sample_terminal)) = Undefined.
Proof.
  destruct (arrow_keys_and_writing (D:=ready_line) 65 (set_write_row 0 sample_terminal)) as [Hu _];
    [by vm_compute|done|done|done|by vm_compute|].
  exact (Hu eq_refl RL).
Defined.
