(* ===== verification/BitHex.v ===== *)
(** * Printing bits, hexadecimal and padded numbers ([stdio/bit_hex_string.c]) *)

From S2P Require Import Prelude Machine StringHelper Terminal.

(** ** Bit strings *)

(** The rest of [for (bitIndex ...; bitIndex < 32; bitIndex++)], [n] rounds to go. *)
Fixpoint bit_chars (n : nat) (a bitIndex : Z) (output : bytes) : option bytes :=
  match n with
  | O => Some output
  | S n =>
      let c := u8 ((a ≫ bitIndex) .& 1) in
      output' ← store output ((32 - 1) - bitIndex) (48 + c);
      bit_chars n a (bitIndex + 1) output'
  end.
Definition getSpacelessBitString (a : Z) (output : bytes) : option bytes :=
  output ← store output 32 0;
  bit_chars 32 a 0 output.

(** The rest of [while (printIndex < 39)]. *)
Fixpoint spaced_chars (n : nat) (spacelessBits : bytes) (bitIndex printIndex : Z) (output : bytes) :
    option bytes :=
  match n with
  | O => Some output
  | S n =>
      if (printIndex + 1) mod 5 =? 0 then
        output' ← store output printIndex 32;
        spaced_chars n spacelessBits bitIndex (printIndex + 1) output'
      else
        c ← load spacelessBits bitIndex;
        output' ← store output printIndex c;
        spaced_chars n spacelessBits (bitIndex + 1) (printIndex + 1) output'
  end.
Definition addSpacesEvery4bits (spacelessBits output : bytes) : option bytes :=
  output ← spaced_chars 39 spacelessBits 0 0 output;
  store output 39 0.

(** The two arrays that the printing functions fill. *)
Definition spaced_bits (binaryNumber : Z) : option bytes :=
  spacelessBitString ← getSpacelessBitString binaryNumber (char_array 33);
  addSpacesEvery4bits spacelessBitString (char_array 40).

(** ** Sizes *)

Fixpoint binary_size_loop (fuel : nat) (binary_number bits : Z) : Z :=
  match fuel with
  | O => bits
  | S fuel =>
      if binary_number >? 0 then binary_size_loop fuel (binary_number ≫ 1) (bits + 1) else bits
  end.
(** 32 rounds shift every bit out. *)
Definition binary_size (binary_number : Z) : Z :=
  if binary_number =? 0 then 1 else u8 (binary_size_loop 32 binary_number 0).

Definition hexSize (number : Z) : Z :=
  if negb (binary_size number mod 4 =? 0) then u8 (binary_size number / 4 + 1)
  else u8 (binary_size number / 4).

Definition max (a b : Z) : Z := if a >? b then a else b.
Definition max16i (a b : Z) : Z := if a >? b then a else b.
Definition hex_len (i : Z) : Z := u32 (i + u32 (i - 1) / 4).

Section printing.
Context {D : Type} `{PortDevice D}.
Abbreviation T A := (M D Terminal A).

(** A string literal [s] followed by a newline character. *)
Definition newline : T unit := terminal_writestring [10; 0].

(** [terminal_writestring(array + index)] *)
Definition write_at (array : bytes) (index : Z) : T unit :=
  if (0 <=? index) && (index <=? Z.of_nat (length array)) then
    terminal_writestring (drop (Z.to_nat index) array)
  else stop Undefined.

Definition printBinary (binaryNumber : Z) (variableName : bytes) : T unit :=
  spaceSeparatedBits ← read_cell (spaced_bits binaryNumber);
  terminal_writestring variableName;;
  write_literal " = ";;
  terminal_writestring spaceSeparatedBits;;
  write_literal " | ";;
  print_hex_var binaryNumber;;
  newline.

Definition printBinarySize (binaryNumber : Z) (variableName : bytes) (numberOfBits : Z) : T unit :=
  spaceSeparatedBits ← read_cell (spaced_bits binaryNumber);
  let first_index :=
    if numberOfBits >=? 32 then 0 else u8 (39 - (numberOfBits + numberOfBits / 4)) in
  terminal_writestring variableName;;
  write_literal " = ";;
  write_at spaceSeparatedBits first_index;;
  write_literal " | ";;
  print_hex_var binaryNumber.

Definition print_binary_var_no_newline (binaryNumber numberOfBits : Z) : T unit :=
  spaceSeparatedBits ← read_cell (spaced_bits binaryNumber);
  let bitSize := binary_size binaryNumber in
  let numberOfBits := max bitSize (u8 numberOfBits) in
  let first_index :=
    if numberOfBits >=? 32 then 0
    else
      let first_index := u8 (39 - (numberOfBits + numberOfBits / 4)) in
      if numberOfBits mod 4 =? 0 then u8 (first_index + 1) else first_index in
  write_at spaceSeparatedBits first_index.

(** The leading zeros of [print_hex_f], from the [i]-th on; [n] to go. *)
Fixpoint hex_zeros (n : nat) (i number_of_hex_char_to_print : Z) : T unit :=
  match n with
  | O => mret tt
  | S n =>
      terminal_putchar 48;;
      let number_of_char_left_to_print := u8 (number_of_hex_char_to_print - (i + 1)) in
      (if number_of_char_left_to_print mod 4 =? 0 then terminal_putchar 32 else mret tt);;
      hex_zeros n (i + 1) number_of_hex_char_to_print
  end.

(** Its digits, from the [i]-th on. *)
Fixpoint hex_chars (n : nat) (i : Z) (output_array : bytes)
    (number_of_hex_char_to_print number_of_leading_zeros len : Z) : T unit :=
  match n with
  | O => mret tt
  | S n =>
      c_to_print ← read_cell (load output_array i);
      terminal_putchar c_to_print;;
      let j := u8 (number_of_hex_char_to_print - i) in
      let j := u8 (j - number_of_leading_zeros) in
      (if (Z.rem (j - 1) 4 =? 0) && negb (i =? u32 (len - 1)) then terminal_putchar 32 else mret tt);;
      hex_chars n (i + 1) output_array number_of_hex_char_to_print number_of_leading_zeros len
  end.

Definition print_hex_f (hex_number numberOfHex : Z) : T unit :=
  assert_handler_fmt (numberOfHex <=? 16) "Not designed for too big hex (Bounded)" [];;
  let hex_size := hexSize hex_number in
  let number_of_hex_char_to_print := max hex_size numberOfHex in
  '(output_array, len) ← read_cell
    (uint_to_hex hex_number (char_array (Z.to_nat (number_of_hex_char_to_print + 1))) false);
  assert_handler_fmt (hex_size =? len) "If hexSize isn't len, then we are fucked!\n" [];;
  write_literal "0x";;
  let number_of_leading_zeros := u8 (number_of_hex_char_to_print - len) in
  let number_of_leading_zeros :=
    if number_of_hex_char_to_print <? len then 0 else number_of_leading_zeros in
  hex_zeros (Z.to_nat number_of_leading_zeros) 0 number_of_hex_char_to_print;;
  hex_chars (Z.to_nat len) 0 output_array number_of_hex_char_to_print number_of_leading_zeros len.

(** [for (i = 0; i < more_pad; i++) terminal_putchar(' ');] *)
Definition put_blanks (more_pad : Z) : T unit :=
  for_range (Z.to_nat more_pad) 0 (fun _ => terminal_putchar 32).

Definition print_uint_f (number padsize : Z) : T unit :=
  assert_handler_fmt (padsize <=? 16)
    "Not designed for too big uint32_t (Bounded) padsize = %u > 16" [PNum padsize];;
  '(res_buff, len) ← read_cell (uitoa number (char_array 20));
  res_buff ← read_cell (store res_buff len 0);
  let more_pad := u8 (max16i 0 (i16 (i16 padsize - i16 len))) in
  put_blanks more_pad;;
  terminal_writestring res_buff.

Definition print_int_f (number padsize : Z) : T unit :=
  assert_handler_fmt (padsize <=? 16) "Not designed for too big uint32_t (Bounded)" [];;
  '(res_buff, len) ← read_cell (itoa number (char_array 20));
  res_buff ← read_cell (store res_buff len 0);
  if number <? 0 then
    terminal_putchar 45;;
    let more_pad := u8 (max16i 0 (i16 (i16 padsize - i16 (len + 1)))) in
    put_blanks more_pad;;
    write_at res_buff 1
  else
    let more_pad := u8 (max16i 0 (i16 (u32 (padsize - len)))) in
    put_blanks more_pad;;
    terminal_writestring res_buff.
End printing.
