(* ===== verification/BitHexFacts.v ===== *)
(** * The text the number printers write

    [writes m s]: on a ready serial line [m] does to an open terminal what writing the
    characters [s] does.  The printers of [bit_hex_string.c] are shown to write the
    text one expects: digits, padded, in groups of four. *)

From stdpp Require Import gmap.
From S2P Require Import Prelude Machine Bits StringHelper KeyboardFacts KeyboardHandler KeyboardHandlerFacts Terminal TerminalFacts BitHex.

(** ** Writing *)

Lemma abstract_string_app col s1 s2 sc :
  abstract_string col (s1 ++ s2) sc =
    (fst (abstract_string col s2 (fst (abstract_string col s1 sc))),
     snd (abstract_string col s1 sc) ++ snd (abstract_string col s2 (fst (abstract_string col s1 sc)))).
Proof.
  revert sc. induction s1 as [|c s1 IH]; intros sc; cbn [app abstract_string fst snd].
  { by destruct (abstract_string col s2 sc). }
  rewrite IH. destruct (abstract_string col s1 (abstract_putchar col c sc)). cbn [fst snd].
  by rewrite (assoc_L (++)).
Qed.

Section writes.
Context {D : Type} `{SerialReady D}.

Definition writes {A} (m : M D Terminal A) (s : bytes) : Prop :=
  forall t, writable t ->
    prints m t (becomes t (fst (abstract_string (color t) s (screen_of t))))
      (snd (abstract_string (color t) s (screen_of t))).

Lemma writes_bind {A B} (m : M D Terminal A) (k : A -> M D Terminal B) s1 s2 :
  writes m s1 -> (forall a, writes (k a) s2) -> writes (m ≫= k) (s1 ++ s2).
Proof.
  intros Hm Hk t Hw. rewrite abstract_string_app. cbn [fst snd].
  eapply prints_bind; [by apply Hm|]. intros a t1 Hb. pose proof Hb as (Hw1 & Hs1 & Hc1 & _).
  rewrite <- Hs1, <- Hc1. eapply prints_weaken; [by apply Hk|]. intros b t2 Hb2.
  by eapply becomes_trans.
Qed.

Lemma writes_ret {A} (a : A) : writes (mret a) [].
Proof. intros t Hw. apply prints_ret. by split; [|split; [|split]]. Qed.

Lemma writes_cell {A B} (c : option A) a (k : A -> M D Terminal B) s :
  c = Some a -> writes (k a) s -> writes (read_cell c ≫= k) s.
Proof. intros Hc Hk t Hw. eapply prints_cell; [done|]. by apply Hk. Qed.

Lemma writes_then {A B} (m : M D Terminal A) (k : A -> M D Terminal B) s1 s2 s :
  writes m s1 -> (forall a, writes (k a) s2) -> s = s1 ++ s2 -> writes (m ≫= k) s.
Proof. intros Hm Hk ->. by apply writes_bind. Qed.

Lemma writes_if {A} (b : bool) (m m' : M D Terminal A) s s' :
  writes m s -> writes m' s' -> writes (if b then m else m') (if b then s else s').
Proof. by destruct b. Qed.

Lemma writes_assert b fmt args {A} (k : unit -> M D Terminal A) s :
  b = true -> writes (k tt) s -> writes (assert_handler_fmt b fmt args ≫= k) s.
Proof. intros -> Hk. apply (writes_bind _ _ [] s); [apply writes_ret|]. by intros []. Qed.

Lemma writes_putchar c : is_u8 c -> writes (terminal_putchar c) [c].
Proof.
  intros Hc t Hw. cbn [abstract_string fst snd]. rewrite app_nil_r. by apply putchar_spec.
Qed.

Lemma writes_string str rest : Forall (fun c => 0 < c < 256) str ->
  writes (terminal_writestring (str ++ 0 :: rest)) str.
Proof. intros Hs t Hw. by apply writestring_spec. Qed.

Lemma writes_literal s str : cstr s = str ++ [0] -> Forall (fun c => 0 < c < 256) str ->
  writes (write_literal s) str.
Proof. intros He Hs. unfold write_literal. rewrite He. by apply writes_string. Qed.

(** A loop that writes the [i]-th piece in its [i]-th round. *)
Lemma writes_for n i body s : (forall j, writes (body j) s) ->
  writes (for_range n i body) (concat (replicate n s)).
Proof.
  intros Hb. revert i. induction n as [|n IH]; intros i; cbn [for_range replicate concat].
  - apply writes_ret.
  - apply writes_bind; [done|]. intros _. apply IH.
Qed.

Lemma concat_blanks n : concat (replicate n [32]) = replicate n 32.
Proof. induction n; [done|]. simpl. by rewrite IHn. Qed.

Lemma writes_blanks n : writes (put_blanks n) (replicate (Z.to_nat n) 32).
Proof. rewrite <- concat_blanks. apply writes_for. intros _. by apply writes_putchar. Qed.
End writes.

(** ** Groups of four *)

(** A space before every group of four characters but the first, counted from the right. *)
Fixpoint group4 (s : bytes) : bytes :=
  match s with
  | [] => []
  | c :: s' =>
      c :: (if (negb (Nat.eqb (length s') 0)) && Nat.eqb (length s' mod 4) 0 then 32 :: group4 s' else group4 s')
  end.

(** The [n] lowest bits, from the highest. *)
Fixpoint low_bits (n : nat) (v : Z) : bytes :=
  match n with
  | O => []
  | S n => (48 + Z.b2z (Z.testbit v (Z.of_nat n))) :: low_bits n v
  end.

Lemma low_bits_length n v : length (low_bits n v) = n.
Proof. induction n; simpl; congruence. Qed.

Lemma low_bits_drop n m v : (m <= n)%nat -> drop (n - m) (low_bits n v) = low_bits m v.
Proof.
  intros Hm. induction n as [|n IH]; [destruct m; [done|lia]|].
  destruct (decide (m = S n)) as [->|Hne]; [by rewrite Nat.sub_diag, drop_0|].
  replace (S n - m)%nat with (S (n - m)) by lia. simpl. apply IH. lia.
Qed.

Lemma bit_char a i : 0 <= i -> u8 ((a ≫ i) .& 1) = Z.b2z (Z.testbit a i).
Proof.
  intros Hi. assert ((a ≫ i) .& 1 = a / 2 ^ i mod 2) as ->
    by (change 1 with (Z.ones 1); by rewrite Z.land_ones, Z.shiftr_div_pow2 by lia).
  rewrite Z.testbit_spec' by lia. apply u8_small.
  pose proof (Z.mod_pos_bound (a / 2 ^ i) 2). width.
Qed.

(** [n] rounds fill the [n] places before the ones that are done. *)
Lemma bit_chars_spec n a pre post : length pre = n -> (n <= 32)%nat ->
  bit_chars n a (32 - Z.of_nat n) (pre ++ post) =
    Some (rev (map (fun i => 48 + Z.b2z (Z.testbit a (32 - Z.of_nat n + Z.of_nat i))) (seq 0 n)) ++ post).
Proof.
  revert pre post. induction n as [|n IH]; intros pre post Hp Hn; [by destruct pre|].
  destruct pre as [|x pre _] using rev_ind; [done|]. rewrite length_app in Hp. simpl in Hp.
  cbn [bit_chars]. rewrite <- (assoc_L (++)). cbn [app]. rewrite store_mid by lia.
  cbn [mbind option_bind]. replace (32 - Z.of_nat (S n) + 1) with (32 - Z.of_nat n) by lia.
  rewrite IH by lia. f_equal. cbn [seq map rev]. rewrite <- seq_shift, map_map, <- (assoc_L (++)). cbn [app].
  rewrite bit_char by lia. replace (32 - Z.of_nat (S n) + Z.of_nat 0) with (32 - Z.of_nat (S n)) by lia.
  f_equal. f_equal. apply map_ext. intros i.
  by replace (32 - Z.of_nat (S n) + Z.of_nat (S i)) with (32 - Z.of_nat n + Z.of_nat i) by lia.
Qed.

Lemma spaceless_spec a x : getSpacelessBitString a (replicate 32 x ++ [0]) = Some (low_bits 32 a ++ [0]).
Proof.
  unfold getSpacelessBitString.
  rewrite (store_mid (replicate 32 x) 0 [] 32 0) by by rewrite length_replicate. cbn [mbind option_bind].
  pose proof (bit_chars_spec 32 a (replicate 32 x) [0] ltac:(by rewrite length_replicate) ltac:(lia)) as Hb.
  change (32 - Z.of_nat 32) with 0 in Hb. rewrite Hb. done.
Qed.

(** A list of 32 characters, one by one. *)
Ltac explode s Hl :=
  do 32 (destruct s as [|? s]; [discriminate Hl|]; cbn [length] in Hl; injection Hl as Hl);
  destruct s; [|discriminate Hl].

(** The 39 characters: 32 bits in groups. *)
Lemma spaced_bits_spec v : spaced_bits v = Some (group4 (low_bits 32 v) ++ [0]).
Proof.
  unfold spaced_bits. change (char_array 33) with (replicate 32 0 ++ [0]).
  rewrite spaceless_spec. cbn [mbind option_bind].
  pose proof (low_bits_length 32 v) as Hl. revert Hl. generalize (low_bits 32 v). intros s Hl.
  explode s Hl. vm_compute. reflexivity.
Qed.

(** The end of the array: the last [n] bits, in groups. *)
Lemma group4_drop s n : length s = 32%nat -> (1 <= n <= 32)%nat ->
  drop (39 - (n + (n - 1) / 4)) (group4 s) = group4 (drop (32 - n) s).
Proof.
  intros Hl Hn. explode s Hl. clear Hl.
  destruct n as [|n]; [lia|]. do 32 (destruct n as [|n]; [vm_compute; reflexivity|]). lia.
Qed.

(** ** Sizes *)

Lemma binary_size_loop_spec n v b : 0 <= v < 2 ^ Z.of_nat n ->
  binary_size_loop n v b = b + (if v =? 0 then 0 else Z.log2 v + 1).
Proof.
  revert v b. induction n as [|n IH]; intros v b Hv.
  { assert (v = 0) as -> by (simpl in Hv; lia). simpl. lia. }
  cbn [binary_size_loop]. rewrite Z.gtb_ltb. destruct (v =? 0) eqn:E.
  { assert (v = 0) as -> by lia. simpl. lia. }
  rewrite (proj2 (Z.ltb_lt 0 v)) by lia.
  rewrite Nat2Z.inj_succ, Z.pow_succ_r in Hv by lia.
  rewrite IH by (rewrite Z.shiftr_div_pow2 by lia; split;
    [apply Z.div_pos; lia|apply Z.div_lt_upper_bound; lia]).
  destruct (decide (v = 1)) as [->|Hne]; [simpl; lia|].
  assert (v ≫ 1 <> 0) as Hnz%Z.eqb_neq.
  { rewrite Z.shiftr_div_pow2 by lia. intros Hz. apply Z.div_small_iff in Hz; lia. }
  rewrite Hnz, Z.log2_shiftr by lia. pose proof (Z.log2_le_mono 2 v ltac:(lia)).
  change (Z.log2 2) with 1 in *. lia.
Qed.

(** The number of binary digits. *)
Definition bit_length (v : Z) : Z := if v =? 0 then 1 else Z.log2 v + 1.

Lemma bit_length_range v : is_u32 v -> 1 <= bit_length v <= 32.
Proof.
  intros Hv. unfold bit_length, is_u32 in *. case_match; [lia|].
  pose proof (Z.log2_nonneg v). assert (Z.log2 v < 32) by (apply Z.log2_lt_pow2; lia). lia.
Qed.

Lemma binary_size_spec v : is_u32 v -> binary_size v = bit_length v.
Proof.
  intros Hv. pose proof (bit_length_range v Hv) as Hr. unfold binary_size, bit_length in *.
  unfold is_u32 in Hv. destruct (v =? 0) eqn:E; [done|].
  rewrite binary_size_loop_spec by (change (Z.of_nat 32) with 32; lia). rewrite E, Z.add_0_l.
  apply u8_small. width.
Qed.

(** A number with a first digit between 1 and 15 lies between powers of 16. *)
Lemma value_of_bounds (digit : Z -> Z) (s : bytes) (acc : Z) : Forall (fun c => 0 <= digit c < 16) s -> 0 <= acc ->
  acc * 16 ^ Z.of_nat (length s) <= foldl (fun a c => a * 16 + digit c) acc s
    < (acc + 1) * 16 ^ Z.of_nat (length s).
Proof.
  intros Hs. revert acc. induction Hs as [|c s Hc Hs IH]; intros acc Ha.
  - change (16 ^ Z.of_nat (length [])) with 1. cbn [foldl]. lia.
  - cbn [length foldl]. rewrite Nat2Z.inj_succ, Z.pow_succ_r by lia.
    specialize (IH (acc * 16 + digit c) ltac:(lia)).
    pose proof (Z.pow_pos_nonneg 16 (Z.of_nat (length s))). nia.
Qed.

Definition is_hex_digit (up : bool) (c : Z) : Prop := exists n, 0 <= n < 16 /\ c = hex_digit up n.

Lemma nibbles_digits n up v : Forall (is_hex_digit up) (nibbles n up v).
Proof.
  revert v. induction n; intros v; simpl; [constructor|]. apply Forall_app. split; [done|].
  constructor; [|constructor]. exists (v .& 15). split; [apply nibble_range|done].
Qed.

Lemma is_hex_digit_value up c : is_hex_digit up c ->
  0 <= hex_value up c < 16 /\ (c <> 48 -> 0 < hex_value up c).
Proof.
  intros (n & Hn & ->). rewrite hex_value_digit by done. split; [done|].
  rewrite hex_digit_zero by done. lia.
Qed.

Lemma hex_length up v : is_u32 v ->
  16 ^ (Z.of_nat (length (hex_text up v)) - 1) <= Z.max v 1 < 16 ^ Z.of_nat (length (hex_text up v)).
Proof.
  intros Hv. unfold is_u32 in Hv. unfold hex_text. destruct (v =? 0) eqn:E.
  { assert (v = 0) as -> by lia. simpl. lia. }
  assert (Hval : value_of 16 (hex_value up) (strip_zeros (nibbles 8 up v)) = v)
    by (rewrite strip_value; apply nibbles_value; lia).
  destruct (strip_app (nibbles 8 up v)) as (zs & Hs & _).
  pose proof (nibbles_digits 8 up v) as Hd.
  assert (Hh : head (strip_zeros (nibbles 8 up v)) <> Some 48).
  { clear. induction (nibbles 8 up v) as [|c s IH]; [done|]. cbn [strip_zeros].
    destruct (c =? 48) eqn:E; [done|]. intros [= ->]. done. }
  rewrite Hs in Hd. apply Forall_app in Hd as [_ Hd].
  destruct (strip_zeros (nibbles 8 up v)) as [|c s]; [unfold value_of in Hval; simpl in Hval; lia|].
  destruct (is_hex_digit_value up c (Forall_inv Hd)) as [Hdc Hpos]. apply Forall_inv_tail in Hd.
  unfold value_of in Hval. cbn [foldl] in Hval. rewrite Z.mul_0_l, Z.add_0_l in Hval.
  specialize (Hpos ltac:(intros ->; by apply Hh)).
  assert (Hd' : Forall (fun c => 0 <= hex_value up c < 16) s)
    by (eapply Forall_impl; [|exact Hd]; intros ?; apply is_hex_digit_value).
  pose proof (value_of_bounds (hex_value up) s (hex_value up c) Hd' ltac:(lia)) as Hb. rewrite Hval in Hb.
  cbn [length]. replace (Z.of_nat (S (length s)) - 1) with (Z.of_nat (length s)) by lia.
  rewrite Nat2Z.inj_succ, Z.pow_succ_r by lia.
  pose proof (Z.pow_pos_nonneg 16 (Z.of_nat (length s))). nia.
Qed.

(** [hexSize] is the length of what [uint_to_hex] writes. *)
Lemma hexSize_spec up v : is_u32 v -> hexSize v = Z.of_nat (length (hex_text up v)).
Proof.
  intros Hv. pose proof (hex_length up v Hv) as [Hlo Hhi]. pose proof (bit_length_range v Hv) as Hr.
  destruct (hex_text_spec up v Hv) as (_ & Hl & _).
  set (k := Z.of_nat (length (hex_text up v))) in *.
  assert (Hk : 4 * k - 3 <= bit_length v <= 4 * k).
  { unfold bit_length, is_u32 in *. destruct (v =? 0) eqn:E.
    - assert (v = 0) as -> by lia. change (Z.max 0 1) with 1 in *.
      assert (16 ^ (k - 1) <= 16 ^ 0) as Hle%Z.pow_le_mono_r_iff by (simpl; lia); lia.
    - rewrite Z.max_l in * by lia. change 16 with (2 ^ 4) in Hlo, Hhi.
      rewrite <- Z.pow_mul_r in Hlo, Hhi by lia.
      apply Z.log2_le_pow2 in Hlo; [|lia]. apply Z.log2_lt_pow2 in Hhi; [|lia]. lia. }
  unfold hexSize. rewrite binary_size_spec by done.
  pose proof (Z.div_mod (bit_length v) 4). pose proof (Z.mod_pos_bound (bit_length v) 4).
  destruct (bit_length v mod 4 =? 0) eqn:E; cbn [negb]; rewrite u8_small by width; lia.
Qed.

(** ** The printers *)

Section printers.
Context {D : Type} `{SerialReady D}.
Abbreviation writes := (writes (D:=D)).

Lemma writes_at pre str rest i : i = Z.of_nat (length pre) -> Forall (fun c => 0 < c < 256) str ->
  writes (write_at (pre ++ str ++ 0 :: rest) i) str.
Proof.
  intros -> Hs. unfold write_at. rewrite length_app, (proj2 (andb_true_iff _ _)) by lia.
  rewrite Nat2Z.id, drop_app_length. by apply writes_string.
Qed.

Lemma digits_chars v : is_u32 v -> Forall (fun c => 0 < c < 256) (digits v).
Proof.
  intros Hv. destruct (digits_spec v Hv) as (_ & Hd & _). eapply Forall_impl; [|exact Hd].
  unfold is_digit. simpl. intros. lia.
Qed.

Lemma hex_chars_ok up v : is_u32 v -> Forall (fun c => 0 < c < 256) (hex_text up v).
Proof.
  intros Hv. destruct (hex_text_spec up v Hv) as (_ & _ & Hc & _).
  eapply Forall_impl; [|exact Hc]. simpl. intros. lia.
Qed.

(** A NUL where the NUL is. *)
Lemma store_nul s buffer : store (written s buffer) (Z.of_nat (length s)) 0 = Some (written s buffer).
Proof. unfold written. by rewrite (store_mid s 0 _ _ 0 eq_refl). Qed.

Lemma writes_blanks_nat n : writes (put_blanks (Z.of_nat n)) (replicate n 32).
Proof. pose proof (writes_blanks (D:=D) (Z.of_nat n)) as Hb. by rewrite Nat2Z.id in Hb. Qed.

(** The number of blanks, as computed in [int16_t] and as an [uint32_t] difference. *)
Lemma blanks_signed pad len : 0 <= pad <= 16 -> (len <= 20)%nat ->
  u8 (max16i 0 (i16 (i16 pad - i16 (Z.of_nat len)))) = Z.of_nat (Z.to_nat pad - len).
Proof.
  intros Hp Hl.
  assert (Hi : forall x, 0 <= x <= 20 -> i16 x = x) by (intros; unfold i16; rewrite Z.mod_small; lia).
  rewrite (Hi pad), (Hi (Z.of_nat _)) by lia. unfold i16. rewrite Z.mod_small by lia.
  unfold max16i. rewrite u8_small by (case_match; width). case_match; lia.
Qed.

Lemma blanks_unsigned pad len : 0 <= pad <= 16 -> (len <= 20)%nat ->
  u8 (max16i 0 (i16 (u32 (pad - Z.of_nat len)))) = Z.of_nat (Z.to_nat pad - len).
Proof.
  intros Hp Hl. set (l := Z.of_nat len).
  assert (i16 (u32 (pad - l)) = pad - l) as ->.
  { unfold i16, u32. rewrite <- Z.add_mod_idemp_l, Z.mod_mod_divide by (lia || by exists (2 ^ 16)).
    rewrite Z.add_mod_idemp_l by lia. rewrite Z.mod_small by lia. lia. }
  unfold max16i. rewrite u8_small by (case_match; width). case_match; lia.
Qed.

Lemma print_uint_f_spec v pad : is_u32 v -> 0 <= pad <= 16 ->
  writes (print_uint_f v pad) (replicate (Z.to_nat pad - length (digits v)) 32 ++ digits v).
Proof.
  intros Hv Hp. unfold print_uint_f. apply writes_assert; [lia|].
  destruct (digits_spec v Hv) as (_ & _ & Hl & _).
  rewrite uitoa_spec by done. change (length (char_array 20)) with 20%nat.
  rewrite (proj2 (Nat.ltb_lt _ _)) by lia. eapply writes_cell; [done|]. cbn beta iota.
  eapply writes_cell; [apply store_nul|]. cbn zeta. rewrite blanks_signed by lia.
  apply writes_bind; [apply writes_blanks_nat|].
  intros _. apply writes_string. by apply digits_chars.
Qed.

(** A negative number is one place short: the sign is counted twice. *)
Lemma print_int_f_spec v pad : is_int v -> v <> INT_MIN -> 0 <= pad <= 16 ->
  writes (print_int_f v pad)
    (if v <? 0 then 45 :: replicate (Z.to_nat pad - (length (digits (- v)) + 2)) 32 ++ digits (- v)
     else replicate (Z.to_nat pad - length (digits v)) 32 ++ digits v).
Proof.
  intros Hv Hm Hp. unfold print_int_f. apply writes_assert; [lia|].
  rewrite itoa_spec by done. rewrite (proj2 (Z.eqb_neq v INT_MIN)) by done.
  change (length (char_array 20)) with 20%nat. cbn [orb]. unfold is_int, INT_MIN, int_text in *.
  assert (Habs : is_u32 (if v <? 0 then - v else v)) by (unfold is_u32; case_match; lia).
  destruct (v <? 0) eqn:Hs; destruct (digits_spec _ Habs) as (_ & _ & Hl & _); cbn [length];
    rewrite (proj2 (Nat.ltb_lt _ _)) by lia; cbn [negb].
  - eapply writes_cell; [done|]. cbn beta iota.
    eapply writes_cell; [apply (store_nul (45 :: digits (- v)))|].
    change (45 :: ?x ++ ?y) with ([45] ++ x ++ y). apply writes_bind; [by apply writes_putchar|]. intros _.
    replace (Z.of_nat (S (length (digits (- v)))) + 1) with (Z.of_nat (length (digits (- v)) + 2)) by lia.
    cbn zeta. rewrite blanks_signed by lia. apply writes_bind; [apply writes_blanks_nat|].
    intros _. apply (writes_at [45]); [done|]. by apply digits_chars.
  - eapply writes_cell; [done|]. cbn beta iota. eapply writes_cell; [apply store_nul|].
    cbn zeta. rewrite blanks_unsigned by lia. apply writes_bind; [apply writes_blanks_nat|].
    intros _. by apply writes_string, digits_chars.
Qed.

(** ** Hexadecimal in groups of four *)

Lemma group4_cons c s : group4 (c :: s) =
  c :: (if negb (Nat.eqb (length s) 0) && Nat.eqb (length s mod 4) 0 then [32] else []) ++ group4 s.
Proof. cbn [group4]. by destruct (negb _ && _). Qed.

Lemma mod4 n : (Z.of_nat n mod 4 =? 0) = Nat.eqb (n mod 4) 0.
Proof.
  change 4 with (Z.of_nat 4) at 1. rewrite <- Nat2Z.inj_mod. destruct (Nat.eqb_spec (n mod 4) 0) as [->|Hne]; [done|].
  apply Z.eqb_neq. lia.
Qed.

Lemma writes_space (b : bool) : writes (if b then terminal_putchar 32 else mret tt) (if b then [32] else []).
Proof. apply writes_if; [by apply writes_putchar|apply writes_ret]. Qed.

(** Leading zeros with their spaces, [l] characters to come. *)
Fixpoint zeros4 (n l : nat) : bytes :=
  match n with
  | O => []
  | S n => 48 :: (if Nat.eqb ((n + l) mod 4) 0 then [32] else []) ++ zeros4 n l
  end.

Lemma group4_zeros n tail : tail <> [] -> group4 (replicate n 48 ++ tail) = zeros4 n (length tail) ++ group4 tail.
Proof.
  intros Ht. induction n as [|n IH]; [done|]. cbn [replicate app zeros4]. rewrite group4_cons, IH.
  rewrite length_app, length_replicate.
  assert (Nat.eqb (n + length tail) 0 = false) as ->.
  { apply Nat.eqb_neq. destruct tail; [done|]. simpl. lia. }
  cbn [negb andb]. by rewrite (assoc_L (++)).
Qed.

Lemma hex_zeros_spec n i l N : 0 <= i -> N = i + Z.of_nat n + Z.of_nat l -> N < 256 ->
  writes (hex_zeros n i N) (zeros4 n l).
Proof.
  intros Hi HN HN2. revert i Hi HN. induction n as [|n IH]; intros i Hi HN; cbn [hex_zeros zeros4].
  { apply writes_ret. }
  change (48 :: ?x ++ ?y) with ([48] ++ x ++ y). apply writes_bind; [by apply writes_putchar|]. intros _.
  rewrite u8_small by width. replace (N - (i + 1)) with (Z.of_nat (n + l)) by lia. rewrite mod4.
  apply writes_bind; [apply writes_space|]. intros _. apply IH; lia.
Qed.

Lemma hex_digits_spec s : forall pre post N z len,
  Forall (fun c => 0 < c < 256) s -> len = Z.of_nat (length pre + length s) -> len <= 8 ->
  0 <= z -> N = z + len -> N < 256 ->
  writes (hex_chars (length s) (Z.of_nat (length pre)) (pre ++ s ++ post) N z len) (group4 s).
Proof.
  induction s as [|c s IH]; intros pre post N z len Hs Hlen Hl8 Hz HN HN2; cbn [length hex_chars].
  { apply writes_ret. }
  pose proof (Forall_inv Hs) as Hc. apply Forall_inv_tail in Hs. cbn [length] in Hlen.
  cbn [app]. eapply writes_cell; [by apply load_mid|]. rewrite group4_cons.
  change (c :: ?x ++ ?y) with ([c] ++ x ++ y). apply writes_bind; [apply writes_putchar; width|]. intros _.
  cbn zeta. rewrite (u8_small (N - _)), u8_small by width.
  replace (N - Z.of_nat (length pre) - z - 1) with (Z.of_nat (length s)) by lia.
  rewrite Z.rem_mod_nonneg, mod4 by lia.
  assert ((Z.of_nat (length pre) =? u32 (len - 1)) = Nat.eqb (length s) 0) as ->.
  { rewrite u32_small by width. destruct (Nat.eqb_spec (length s) 0); [apply Z.eqb_eq|apply Z.eqb_neq]; lia. }
  rewrite andb_comm. apply writes_bind; [apply writes_space|]. intros _.
  replace (Z.of_nat (length pre) + 1) with (Z.of_nat (length (pre ++ [c]))) by (rewrite length_app; simpl; lia).
  rewrite (assoc_L (++) pre [c] (s ++ post)).
  apply IH; [done| |done..]. rewrite length_app. simpl. lia.
Qed.

Lemma print_hex_f_spec v pad : is_u32 v -> 0 <= pad <= 16 ->
  writes (print_hex_f v pad)
    ([48; 120] ++ group4 (replicate (Z.to_nat pad - length (hex_text false v)) 48 ++ hex_text false v)).
Proof.
  intros Hv Hp. unfold print_hex_f. apply writes_assert; [lia|].
  destruct (hex_text_spec false v Hv) as (_ & Hl & _ & _). pose proof (hex_chars_ok false v Hv) as Hc.
  rewrite (hexSize_spec false v Hv). set (s := hex_text false v) in *. unfold max. cbn zeta.
  set (N := if Z.of_nat (length s) >? pad then Z.of_nat (length s) else pad).
  assert (HN : N = Z.max (Z.of_nat (length s)) pad) by (unfold N; case_match; lia). clearbody N.
  rewrite uint_to_hex_spec by done. fold s. unfold char_array at 1. rewrite length_replicate.
  rewrite (proj2 (Nat.ltb_lt _ _)) by lia. eapply writes_cell; [done|]. cbn beta iota.
  apply writes_assert; [apply Z.eqb_refl|]. apply writes_bind; [apply (writes_literal "0x"); [done|by repeat constructor]|].
  intros _. rewrite (proj2 (Z.ltb_ge N _)), u8_small by width.
  assert (s <> []) by (intros ->; simpl in Hl; lia).
  rewrite group4_zeros by done. apply writes_bind.
  - replace (Z.to_nat pad - length s)%nat with (Z.to_nat (N - Z.of_nat (length s))) by lia.
    apply hex_zeros_spec; lia.
  - intros _. rewrite Nat2Z.id. unfold written. apply (hex_digits_spec s []); [done|simpl; lia..].
Qed.

(** The bits in groups of four, at least [pad] of them and at most 32. *)
Lemma print_binary_spec v pad : is_u32 v -> 0 <= pad < 256 ->
  writes (print_binary_var_no_newline v pad)
    (group4 (low_bits (Z.to_nat (Z.min 32 (Z.max (bit_length v) pad))) v)).
Proof.
  intros Hv Hp. unfold print_binary_var_no_newline. pose proof (bit_length_range v Hv).
  eapply writes_cell; [apply spaced_bits_spec|]. cbn zeta. rewrite binary_size_spec, (u8_small pad) by (done || width).
  unfold max. set (n := if bit_length v >? pad then _ else _).
  assert (Hn : n = Z.max (bit_length v) pad) by (unfold n; case_match; lia). clearbody n.
  set (i := if n >=? 32 then _ else _).
  assert (Hi : i = Z.of_nat (39 - (Z.to_nat (Z.min 32 n) + (Z.to_nat (Z.min 32 n) - 1) / 4))).
  { unfold i. rewrite Nat2Z.inj_sub_max, Nat2Z.inj_add, Nat2Z.inj_div, Nat2Z.inj_sub_max, Z2Nat.id by lia.
    change (Z.of_nat 39) with 39. change (Z.of_nat 1) with 1. change (Z.of_nat 4) with 4.
    pose proof (Z.div_mod n 4). pose proof (Z.mod_pos_bound n 4).
    destruct (n >=? 32) eqn:E; [rewrite (Z.min_l 32 n) by lia; reflexivity|].
    rewrite (Z.min_r 32 n), (Z.max_r 0 (n - 1)) by lia.
    pose proof (Z.div_mod (n - 1) 4). pose proof (Z.mod_pos_bound (n - 1) 4).
    rewrite (u8_small (39 - _)) by width. destruct (n mod 4 =? 0) eqn:E4; [rewrite u8_small by width|]; lia. }
  rewrite Hi. set (m := Z.to_nat (Z.min 32 n)) in *. rewrite <- Hn. fold m.
  assert (Hm : (1 <= m <= 32)%nat) by lia.
  rewrite <- (low_bits_drop 32 m v) by lia.
  rewrite <- group4_drop by (apply low_bits_length || done).
  rewrite <- (take_drop (39 - (m + (m - 1) / 4)) (group4 (low_bits 32 v))) at 1.
  rewrite <- (assoc_L (++)). apply writes_at.
  - rewrite length_take. pose proof (low_bits_length 32 v) as Hlen. revert Hlen. generalize (low_bits 32 v).
    intros s Hlen. assert (length (group4 s) = 39%nat) as -> by (explode s Hlen; done). lia.
  - apply Forall_drop. assert (Hb : forall k, Forall (fun c => 0 < c < 256) (low_bits k v)).
    { induction k; simpl; constructor; [|done]. destruct (Z.testbit v (Z.of_nat k)); simpl; lia. }
    clear - Hb. induction (Hb 32%nat) as [|c s Hcs _ IH]; [constructor|]. rewrite group4_cons.
    constructor; [done|]. apply Forall_app. split; [|done]. case_match; repeat constructor.
Qed.
End printers.

(** ** Properties *)

(** The padded printers write what their name says.  [print_hex_f] writes 0x and the
    hexadecimal digits, filled with zeros to [pad] and grouped by four from the right;
    [print_binary_var_no_newline] the bits, at least [pad] and at most 32 of them, grouped
    by four; [print_uint_f] the digits behind blanks; [print_int_f] the same for a number
    that is not negative.  A negative number gets its blanks between the sign and the
    digits, and one too few of them. *)
Theorem padded_numbers {D} `{SerialReady D} v pad :
  0 <= pad <= 16 ->
  (is_u32 v ->
     writes (D:=D) (print_hex_f v pad)
       ([48; 120] ++ group4 (replicate (Z.to_nat pad - length (hex_text false v)) 48 ++ hex_text false v)) /\
     writes (D:=D) (print_binary_var_no_newline v pad)
       (group4 (low_bits (Z.to_nat (Z.min 32 (Z.max (bit_length v) pad))) v)) /\
     writes (D:=D) (print_uint_f v pad) (replicate (Z.to_nat pad - length (digits v)) 32 ++ digits v)) /\
  (is_int v -> 0 <= v ->
     writes (D:=D) (print_int_f v pad) (replicate (Z.to_nat pad - length (digits v)) 32 ++ digits v)) /\
  (is_int v -> INT_MIN < v < 0 -> exists s,
     writes (D:=D) (print_int_f v pad) (45 :: s) /\
     s = replicate (Z.to_nat pad - (length (digits (- v)) + 2)) 32 ++ digits (- v) /\
     ((length (digits (- v)) + 2 <= Z.to_nat pad)%nat -> length (45 :: s) = (Z.to_nat pad - 1)%nat)).
Proof.
  intros Hp. split; [|split].
  - intros Hv. split; [by apply print_hex_f_spec|]. split; [apply print_binary_spec; [done|lia]|].
    by apply print_uint_f_spec.
  - intros Hv Hpos. pose proof (print_int_f_spec (D:=D) v pad Hv ltac:(unfold INT_MIN; lia) Hp) as Hw.
    by rewrite (proj2 (Z.ltb_ge v 0)) in Hw by done.
  - intros Hv [Hm Hneg]. pose proof (print_int_f_spec (D:=D) v pad Hv ltac:(lia) Hp) as Hw.
    rewrite (proj2 (Z.ltb_lt v 0)) in Hw by done. eexists. split; [exact Hw|]. split; [done|].
    intros Hl. cbn [length]. rewrite length_app, length_replicate. lia.
Qed.

(** -35 in a field of five: four characters. *)
Lemma padded_numbers_witness :
  sent (o_events (print_int_f (-35) 5 RL sample_terminal)) = [45; 32; 51; 53] /\
  sent (o_events (print_hex_f 0xdeadf 7 RL sample_terminal)) = [48; 120; 48; 48; 100; 32; 101; 97; 100; 102].
Proof.
  split.
  - destruct (padded_numbers (D:=ready_line) (-35) 5 ltac:(lia)) as (_ & _ & Hn).
    destruct Hn as (s & Hw & -> & _); [by vm_compute|by vm_compute|].
    destruct (Hw sample_terminal ltac:(by vm_compute) RL) as (a & _ & _ & Hs & _). exact Hs.
  - destruct (padded_numbers (D:=ready_line) 0xdeadf 7 ltac:(lia)) as (Hu & _).
    destruct Hu as (Hw & _); [by vm_compute|].
    destruct (Hw sample_terminal ltac:(by vm_compute) RL) as (a & _ & _ & Hs & _). exact Hs.
Defined.
