(* ===== verification/FloatText.v ===== *)
(** * Floats as text ([ftoa] of [stdio/string_helper.c], the float printers of
    [stdio/vga_terminal.c])

    The build computes in the SSE registers, in IEEE binary32 with rounding to nearest:
    the operations are those of the Standard Library's [SpecFloat] at that precision. *)

From Stdlib Require Export SpecFloat.
From S2P Require Import Prelude Machine StringHelper Terminal BitHex.

(** ** [float] *)

Definition fsub : spec_float -> spec_float -> spec_float := SFsub 24 128.
Definition fmul : spec_float -> spec_float -> spec_float := SFmul 24 128.

(** The conversion of an integer to [float]. *)
Definition float_of (n : Z) : spec_float := binary_normalize 24 128 n 0 false.

(** The conversion of a [double] to [float]. *)
Definition float_of_double (d : spec_float) : spec_float :=
  match d with
  | S754_finite s m e => binary_normalize 24 128 (cond_Zopp s (Zpos m)) e s
  | _ => d
  end.

(** [m] times two to the [e], towards zero. *)
Definition truncate (m : positive) (e : Z) : Z := if 0 <=? e then Zpos m ≪ e else Zpos m ≫ (- e).

(** The conversion of a [float] to [uint32_t]; out of range it is undefined. *)
Definition u32_of_float (f : spec_float) : option Z :=
  match f with
  | S754_zero _ => Some 0
  | S754_finite s m e =>
      if e >? 32 then None
      else
        let t := if (s : bool) then - truncate m e else truncate m e in
        if (0 <=? t) && (t <? 2 ^ 32) then Some t else None
  | _ => None
  end.

(** ** [ftoa] *)

(** [for (uint32_t i = 0; i < precision; i++)], [n] rounds to go. *)
Fixpoint fraction_digits (n : nat) (fractional : spec_float) (buffer : bytes) (pos : Z) :
    option (bytes * Z) :=
  match n with
  | O => Some (buffer, pos)
  | S n =>
      let fractional := fmul fractional (float_of 10) in
      digit ← u32_of_float fractional;
      buffer' ← store buffer pos (u8 (48 + digit));
      fraction_digits n (fsub fractional (float_of digit)) buffer' (u32 (pos + 1))
  end.

Definition ftoa (value : spec_float) (buffer : bytes) (precision : Z) : option (bytes * Z) :=
  '(buffer, pos, value) ←
    (if SFltb value (S754_zero false) then b ← store buffer 0 45; Some (b, 1, SFopp value)
     else Some (buffer, 0, value));
  integer_part ← u32_of_float value;
  let fractional := fsub value (float_of integer_part) in
  '(rest, n) ← uitoa integer_part (drop (Z.to_nat pos) buffer);
  let buffer := take (Z.to_nat pos) buffer ++ rest in
  let pos := u32 (pos + n) in
  if precision =? 0 then
    buffer ← store buffer pos 0;
    Some (buffer, pos)
  else
    buffer ← store buffer pos 46;
    let pos := u32 (pos + 1) in
    '(buffer, pos) ← fraction_digits (Z.to_nat precision) fractional buffer pos;
    buffer ← store buffer pos 0;
    Some (buffer, pos).

(** ** The printers *)

(** [min] of [vga_terminal.c] *)
Definition min (a b : Z) : Z := if a <? b then a else b.

Section float_printers.
Context {D : Type} `{PortDevice D}.

Definition print_float_var_no_newline (var : spec_float) : M D Terminal unit :=
  print_text (ftoa var (char_array 20) 6).

Definition print_float_var_no_newline_precision (var : spec_float) (precision : Z) : M D Terminal unit :=
  let max_precision := 6 in
  let precision := min precision max_precision in
  let max_float_exponent := 38 in
  let safety_and_dot_char := 3 + 1 in
  let bounded_size := u8 (max_float_exponent + safety_and_dot_char + max_precision) in
  print_text (ftoa var (char_array (Z.to_nat bounded_size)) precision).
End float_printers.

(** The double nearest to 12.694207. *)
Definition double_12_694207 : spec_float := S754_finite false 7146203239370493 (-49).

Example ftoa_12_694207 : fst <$> ftoa (float_of_double double_12_694207) (char_array 10) 4 =
  Some [49; 50; 46; 54; 57; 52; 50; 0; 0; 0].
Proof. reflexivity. Qed.
