(* ===== verification/Printf.v ===== *)
(** * Formatted output ([stdio/stdio.c], [stdio/stdio.h])

    The parser of format strings and the printing loop, on the terminal.  The calls of
    the lock, which [Multicore] models, and of the interrupt flag are events here. *)

From S2P Require Import Prelude Machine StringHelper Terminal BitHex FloatText.

(** ** Types *)

Inductive PRINTF_FMT_OPTION :=
| FMT_OPTION_NONE | FMT_OPTION_NOT_IMPLEMENTED | FMT_OPTION_COULD_NOT_CONVERT
| FMT_OPTION_PAD | FMT_OPTION_PRECISION | FMT_OPTION_STRLEN.

Inductive PRINTF_TYPE :=
| PRINTF_TAG_INVALID | PRINTF_TAG_CHAR | PRINTF_TAG_STRING | PRINTF_TAG_INT
| PRINTF_TAG_UINT32_T | PRINTF_TAG_FLOAT | PRINTF_TAG_HEX | PRINTF_TAG_BINARY.

#[export] Instance PRINTF_FMT_OPTION_eq_dec : EqDecision PRINTF_FMT_OPTION.
Proof. solve_decision. Defined.
#[export] Instance PRINTF_TYPE_eq_dec : EqDecision PRINTF_TYPE.
Proof. solve_decision. Defined.

(** [struct PRINTF_FIELD_PROPERTIES]; [None]: the field is not assigned. *)
Record PRINTF_FIELD_PROPERTIES := mk_properties {
  f_type : PRINTF_TYPE;
  f_option : PRINTF_FMT_OPTION;
  f_option_num : option Z;
  f_len : option Z;
  f_pos : Z;
}.

(** [struct startAndEnd] *)
Record startAndEnd := mk_range { r_start : Z; r_end : Z }.

(** What [va_arg] finds: a word, a pointer to characters, a [double]. *)
Inductive va_value :=
| AWord (w : Z)
| AString (s : bytes)
| ADouble (f : spec_float).

(** ** Characters *)

(** [count_char]: the rest of the loop. *)
Fixpoint count_char_from (str : bytes) (delimiter count : Z) : option Z :=
  match str with
  | [] => None
  | c :: str =>
      if c =? 0 then Some count
      else count_char_from str delimiter (if c =? delimiter then u8 (count + 1) else count)
  end.
Definition count_char (str : bytes) (delimiter : Z) : option Z := count_char_from str delimiter 0.

Definition is_alpha (c : Z) : bool := ((65 <=? c) && (c <=? 90)) || ((97 <=? c) && (c <=? 122)).
Definition is_alnum (c : Z) : bool := is_alpha c || is_digit c.

Definition char_to_fmt_option (c : Z) : PRINTF_FMT_OPTION :=
  if c =? 58 then FMT_OPTION_PAD
  else if c =? 46 then FMT_OPTION_PRECISION
  else if c =? 59 then FMT_OPTION_STRLEN
  else FMT_OPTION_NONE.

Definition char_to_printf_tag (c : Z) : PRINTF_TYPE :=
  if c =? 99 then PRINTF_TAG_CHAR
  else if c =? 115 then PRINTF_TAG_STRING
  else if c =? 100 then PRINTF_TAG_INT
  else if c =? 117 then PRINTF_TAG_UINT32_T
  else if c =? 102 then PRINTF_TAG_FLOAT
  else if c =? 104 then PRINTF_TAG_HEX
  else if c =? 98 then PRINTF_TAG_BINARY
  else PRINTF_TAG_INVALID.

Definition printf_fmt_option_to_str (opt : PRINTF_FMT_OPTION) : string :=
  match opt with
  | FMT_OPTION_NONE => "FMT_OPTION_NONE"
  | FMT_OPTION_NOT_IMPLEMENTED => "FMT_OPTION_NOT_IMPLEMENTED"
  | FMT_OPTION_COULD_NOT_CONVERT => "FMT_OPTION_COULD_NOT_CONVERT"
  | FMT_OPTION_PAD => "FMT_OPTION_PAD"
  | FMT_OPTION_PRECISION => "FMT_OPTION_PRECISION"
  | FMT_OPTION_STRLEN => "FMT_DEFAULT"
  end.

Definition printf_type_to_str (tag : PRINTF_TYPE) : string :=
  match tag with
  | PRINTF_TAG_CHAR => "PRINTF_TAG_CHAR"
  | PRINTF_TAG_STRING => "PRINTF_TAG_STRING"
  | PRINTF_TAG_INT => "PRINTF_TAG_INT"
  | PRINTF_TAG_UINT32_T => "PRINTF_TAG_UINT32_T"
  | PRINTF_TAG_FLOAT => "PRINTF_TAG_FLOAT"
  | PRINTF_TAG_HEX => "PRINTF_TAG_HEX"
  | PRINTF_TAG_BINARY => "PRINTF_TAG_BINARY"
  | PRINTF_TAG_INVALID => "PRINTF_TAG_INVALID"
  end.

(** ** Parsing *)

(** The digits of an option number into [len_char]: the array and [len]. *)
Fixpoint option_digits (str : bytes) (len_char : bytes) (len : Z) : option (bytes * Z) :=
  match str with
  | [] => None
  | c :: str =>
      if is_digit c then
        len_char' ← store len_char (len - 3) c;
        option_digits str len_char' (u8 (len + 1))
      else Some (len_char, len)
  end.

Section parsing.
(** The bytes of the stack frame below [len_char]; the compiler decides what they are. *)
Context (below : bytes).

(** [get_single_format_properties] of the format at the head of [fmt]; [f_pos] is not
    assigned here and is set by the caller. *)
Definition get_single_format_properties (fmt : bytes) : option PRINTF_FIELD_PROPERTIES :=
  fmt_type ← load fmt 1;
  possible_option ← load fmt 2;
  let type := char_to_printf_tag fmt_type in
  let opt := char_to_fmt_option possible_option in
  if decide (opt = FMT_OPTION_NONE) then Some (mk_properties type opt (Some 0) (Some 2) 0)
  else
    c ← load fmt 3;
    if negb (is_digit c) then Some (mk_properties type FMT_OPTION_NOT_IMPLEMENTED None None 0)
    else
      '(len_char, len) ← option_digits (drop 3 fmt) (replicate 8 0) 3;
      len_char ← store len_char (len - 3) 0;
      len32 ← string_to_uint (below ++ len_char) (Z.of_nat (length below));
      let opt := if len32 =? u32 (-1) then FMT_OPTION_COULD_NOT_CONVERT else opt in
      Some (mk_properties type opt (Some (u8 (len32 .& 0xFF))) (Some len) 0).

Context {D : Type} `{PortDevice D}.
Abbreviation T A := (M D Terminal A).

Definition print_info (properties : PRINTF_FIELD_PROPERTIES) : T unit :=
  write_literal "Type = ";;
  write_literal (printf_type_to_str (f_type properties));;
  newline;;
  write_literal "Option = ";;
  write_literal (printf_fmt_option_to_str (f_option properties));;
  newline;;
  option_num ← read_cell (f_option_num properties);
  terminal_write_uint (cstr "Option num = ") option_num;;
  len ← read_cell (f_len properties);
  terminal_write_uint (cstr "len = ") len;;
  terminal_write_uint (cstr "pos = ") (f_pos properties).

(** [abort()]: the message by [kprintf], the halt. *)
Definition abort : T unit := abort_msg "abort() called" [].

(** [set_types_and_pos]: the rest of the loop; the array [printf_args_properties] up to
    [count].  An offset that wraps around never reaches the end of the string. *)
Fixpoint set_types_from (fuel : nat) (fmt : bytes) (offset percent_count count : Z)
    (printf_args_properties : list PRINTF_FIELD_PROPERTIES) : T (list PRINTF_FIELD_PROPERTIES) :=
  match fuel with
  | O => stop Spinning
  | S fuel =>
      c ← read_cell (load fmt offset);
      if c =? 0 then mret printf_args_properties
      else if c =? 37 then
        (if percent_count =? count then
           terminal_write_uint (cstr "percent_count = ") percent_count;;
           terminal_write_uint (cstr "count = ") count;;
           abort
         else mret tt);;
        properties ← read_cell (get_single_format_properties (drop (Z.to_nat offset) fmt));
        let properties := mk_properties (f_type properties) (f_option properties)
          (f_option_num properties) (f_len properties) offset in
        set_types_from fuel fmt (u16 (offset + 1)) percent_count (u8 (count + 1))
          (printf_args_properties ++ [properties])
      else set_types_from fuel fmt (u16 (offset + 1)) percent_count count printf_args_properties
  end.
Definition set_types_and_pos (fmt : bytes) (percent_count : Z) : T (list PRINTF_FIELD_PROPERTIES) :=
  set_types_from (S (length fmt)) fmt 0 percent_count 0 [].
End parsing.

(** [start_and_ends]: between the fields, the last one up to the end of the format. *)
Definition field_end (p : PRINTF_FIELD_PROPERTIES) : option Z :=
  len ← f_len p; Some (u16 (f_pos p + len)).
Fixpoint ranges_from (start : Z) (infos : list PRINTF_FIELD_PROPERTIES) (format_len : Z) :
    option (list startAndEnd) :=
  match infos with
  | [] => Some [mk_range start (u16 (format_len - 1))]
  | p :: infos =>
      next ← field_end p;
      rest ← ranges_from next infos format_len;
      Some (mk_range start (u16 (f_pos p - 1)) :: rest)
  end.
Definition start_and_ends (infos : list PRINTF_FIELD_PROPERTIES) (format_len : Z) :
    option (list startAndEnd) := ranges_from 0 infos format_len.

(** ** Printing *)

Section printing.
Context {D : Type} `{PortDevice D}.
Abbreviation T A := (M D Terminal A).

(** [for (uint16_t i = start; i < end; i++)], [n] rounds to go. *)
Fixpoint write_offsets (n : nat) (str : bytes) (i : Z) : T unit :=
  match n with
  | O => mret tt
  | S n => c ← read_cell (load str i); terminal_putchar c;; write_offsets n str (i + 1)
  end.
Definition terminal_write_offsets (str : bytes) (start end_ : Z) : T unit :=
  if end_ <=? start then mret tt else write_offsets (Z.to_nat (end_ - start)) str start.

(** [va_arg] at the three types; another type of argument, or none, is undefined. *)
Definition va_word (args : list va_value) : T (Z * list va_value) :=
  match args with AWord w :: args => mret (w, args) | _ => stop Undefined end.
Definition va_string (args : list va_value) : T (bytes * list va_value) :=
  match args with AString s :: args => mret (s, args) | _ => stop Undefined end.
Definition va_double (args : list va_value) : T (spec_float * list va_value) :=
  match args with ADouble f :: args => mret (f, args) | _ => stop Undefined end.

(** The [int] with the representation [w]. *)
Definition to_int (w : Z) : Z := if w <? 2 ^ 31 then w else w - 2 ^ 32.

(** [info.option == opt ? info.option_num : 0] *)
Definition number_if (opt : PRINTF_FMT_OPTION) (info : PRINTF_FIELD_PROPERTIES) : T Z :=
  if decide (f_option info = opt) then read_cell (f_option_num info) else mret 0.

(** One turn of the [switch]; [strlen_option]: [vkprintf] knows the length of a string,
    [kprintf_argc] does not. *)
Definition print_field (strlen_option : bool) (info : PRINTF_FIELD_PROPERTIES) (args : list va_value) :
    T (list va_value) :=
  match f_type info with
  | PRINTF_TAG_CHAR =>
      '(w, args) ← va_word args; terminal_putchar (u8 w);; mret args
  | PRINTF_TAG_STRING =>
      '(v, args) ← va_string args;
      (if strlen_option && bool_decide (f_option info = FMT_OPTION_STRLEN) then
         n ← read_cell (f_option_num info); terminal_write v n
       else terminal_writestring v);;
      mret args
  | PRINTF_TAG_INT =>
      '(w, args) ← va_word args;
      pad ← number_if FMT_OPTION_PAD info; print_int_f (to_int w) pad;; mret args
  | PRINTF_TAG_UINT32_T =>
      '(w, args) ← va_word args;
      pad ← number_if FMT_OPTION_PAD info; print_uint_f w pad;; mret args
  | PRINTF_TAG_FLOAT =>
      '(d, args) ← va_double args;
      let v := float_of_double d in
      (if decide (f_option info = FMT_OPTION_PRECISION) then
         n ← read_cell (f_option_num info); print_float_var_no_newline_precision v n
       else print_float_var_no_newline v);;
      mret args
  | PRINTF_TAG_HEX =>
      '(w, args) ← va_word args;
      pad ← number_if FMT_OPTION_PAD info; print_hex_f w pad;; mret args
  | PRINTF_TAG_BINARY =>
      '(w, args) ← va_word args;
      pad ← number_if FMT_OPTION_PAD info; print_binary_var_no_newline w pad;; mret args
  | PRINTF_TAG_INVALID => mret args
  end.

(** The fields, each followed by the text up to the next. *)
Fixpoint print_fields (strlen_option : bool) (fmt : bytes) (infos : list PRINTF_FIELD_PROPERTIES)
    (ranges : list startAndEnd) (args : list va_value) : T unit :=
  match infos with
  | [] => mret tt
  | info :: infos =>
      args ← print_field strlen_option info args;
      match ranges with
      | [] => stop Undefined
      | r :: ranges =>
          terminal_write_offsets fmt (r_start r) (u16 (r_end r + 1));;
          print_fields strlen_option fmt infos ranges args
      end
  end.

(** The text before the first field, then the fields. *)
Definition print_format (strlen_option : bool) (fmt : bytes) (infos : list PRINTF_FIELD_PROPERTIES)
    (ranges : list startAndEnd) (args : list va_value) : T unit :=
  match ranges with
  | [] => stop Undefined
  | r :: ranges =>
      terminal_write_offsets fmt (r_start r) (u16 (r_end r + 1));;
      print_fields strlen_option fmt infos ranges args
  end.

(** [irq_save] and [reentrant_lock(&kprintf_lock)], and their counterparts; [eflags] is what
    [pushf] finds. *)
Definition lock_kprintf : T unit := emit (ECall "irq_save" []);; emit (ECall "reentrant_lock" []).
Definition unlock_kprintf (eflags : Z) : T unit :=
  emit (ECall "reentrant_unlock" []);; emit (ECall "irq_restore" [eflags]).

Context (below : bytes) (eflags : Z).

Definition vkprintf (fmt : bytes) (args : list va_value) : T unit :=
  lock_kprintf;;
  len ← read_cell (count_char fmt 37);
  if len =? 0 then
    terminal_writestring fmt;; unlock_kprintf eflags
  else
    printf_information ← set_types_and_pos below fmt len;
    format_len ← read_cell (strlen fmt);
    ranges ← read_cell (start_and_ends printf_information (u16 format_len));
    print_format true fmt printf_information ranges args;;
    unlock_kprintf eflags.

Definition kprintf2 (fmt : bytes) (args : list va_value) : T unit := vkprintf fmt args.

Definition kprintf2_argc_check (argc : Z) (fmt : bytes) (args : list va_value) : T unit :=
  len ← read_cell (count_char fmt 37);
  assert_handler_fmt (len =? u32 (argc - 1)) "Len (%u) must match argc(%u)-1\n" [PNum len; PNum argc];;
  vkprintf fmt args.

(** The macro [kprintf]: [PP_NARG] counts the format and its arguments. *)
Definition kprintf_macro (fmt : bytes) (args : list va_value) : T unit :=
  kprintf2_argc_check (Z.of_nat (S (length args))) fmt args.

Definition kprintf_argc (argc : Z) (fmt : bytes) (args : list va_value) : T unit :=
  lock_kprintf;;
  let len := u8 (argc - 1) in
  len_check ← read_cell (count_char fmt 37);
  (if negb (len =? len_check) then
     terminal_writestring (removelast (cstr "len check failed") ++ [10; 0]);;
     terminal_write_uint (cstr "len = ") len;;
     terminal_write_uint (cstr "len_check = ") len_check;;
     unlock_kprintf eflags;;
     abort
   else mret tt);;
  if len =? 0 then
    terminal_writestring fmt;; unlock_kprintf eflags
  else
    printf_information ← set_types_and_pos below fmt len;
    format_len ← read_cell (strlen fmt);
    ranges ← read_cell (start_and_ends printf_information (u16 format_len));
    print_format false fmt printf_information ranges args;;
    unlock_kprintf eflags.
End printing.

(** ** The test of the source *)

(** A literal of the source that ends in a newline character. *)
Definition line (s : string) : bytes := removelast (cstr s) ++ [10; 0].

Section tests.
Context {D : Type} `{PortDevice D} (below : bytes) (eflags : Z).
Abbreviation kprintf f args := (kprintf_macro (D:=D) below eflags (line f) args).

Definition test_printf2 : M D Terminal unit :=
  kprintf "1: No args" [];;
  kprintf "2: int, x = |%d|" [AWord 5];;
  kprintf "3: int negative, x = |%d|" [AWord (u32 (-5))];;
  kprintf "4: uint , y = |%u|" [AWord 13];;
  kprintf "5: hex , z = |%h|" [AWord 0xdeadface];;
  kprintf "6: binary, b = |%b|" [AWord 19];;
  kprintf "7: float, f = |%f|" [ADouble double_12_694207];;
  kprintf_macro (D:=D) below eflags [10; 0] [];;
  kprintf "8: int, x = |%d:5|" [AWord 1206];;
  kprintf "9: uint, x = |%u:2|" [AWord 3];;
  kprintf "10: hex, x = |%h:3|" [AWord 0xab];;
  kprintf "11: bin, x = |%b:7|" [AWord 6];;
  kprintf "12: bin, x = |%b:8|" [AWord 6].

(** [assert(true, ...)] *)
Definition test_assert : M D Terminal unit :=
  assert_handler_fmt true "the int = %d, the float = %f.5, the hex = %h:3\n" [PNum 3; PStr "25.1"; PNum 0x4b].
End tests.
