(* ===== verification/PrintfFacts.v ===== *)
(** * What [kprintf] prints

    A format string as a tree: text, then fields, each followed by text.  [render] is what
    such a format means; on the string of a tree [vkprintf] writes exactly that, between
    taking and releasing the lock.  The number of an option is read correctly only when a
    NUL happens to lie below the buffer in the stack frame. *)

From stdpp Require Import gmap.
From S2P Require Import Prelude Machine StringHelper KeyboardFacts KeyboardHandler KeyboardHandlerFacts Terminal TerminalFacts BitHex BitHexFacts FloatText Printf.

(** ** Formats *)

(** % and the type, the option character with the digits of its number, the text behind. *)
Record field_spec := mk_field {
  fd_tag : Z;
  fd_option : option (Z * bytes);
  fd_text : bytes;
}.
Record format := mk_format { fm_text : bytes; fm_fields : list field_spec }.

Definition show_option (o : option (Z * bytes)) : bytes :=
  match o with Some (c, ds) => c :: ds | None => [] end.
Definition show_field (f : field_spec) : bytes :=
  37 :: fd_tag f :: show_option (fd_option f) ++ fd_text f.
Definition show_fields (fs : list field_spec) : bytes := concat (map show_field fs).
Definition show_format (f : format) : bytes := fm_text f ++ show_fields (fm_fields f) ++ [0].

(** Plain characters: neither NUL nor %. *)
Definition plain (c : Z) : Prop := 0 < c < 256 /\ c <> 37.

Definition head_not (P : Z -> bool) (s : bytes) : Prop :=
  match s with c :: _ => P c = false | [] => True end.
Definition is_option_char (c : Z) : bool := bool_decide (char_to_fmt_option c <> FMT_OPTION_NONE).

(** The text behind a field does not run on its option. *)
Definition field_wf (f : field_spec) : Prop :=
  plain (fd_tag f) /\ Forall plain (fd_text f) /\
  match fd_option f with
  | None => head_not is_option_char (fd_text f)
  | Some (c, ds) =>
      is_option_char c = true /\ Forall (fun d => is_digit d = true) ds /\
      (1 <= length ds <= 7)%nat /\ head_not is_digit (fd_text f)
  end.

#[export] Instance plain_dec c : Decision (plain c).
Proof. unfold plain. apply _. Defined.
#[export] Instance head_not_dec P s : Decision (head_not P s).
Proof. destruct s; unfold head_not; apply _. Defined.
#[export] Instance field_wf_dec f : Decision (field_wf f).
Proof. unfold field_wf. destruct (fd_option f) as [[c ds]|]; apply _. Defined.

Record format_wf (f : format) : Prop := {
  wf_text : Forall plain (fm_text f);
  wf_fields : Forall field_wf (fm_fields f);
  wf_count : (length (fm_fields f) < 256)%nat;
  wf_length : Z.of_nat (length (show_format f)) < 2 ^ 16;
}.

(** ** Meaning *)






(** ** Parsing one field *)


Lemma option_digits_spec ds : forall pre post rest,
  Forall (fun d => is_digit d = true) ds -> (length ds <= length post)%nat ->
  (length pre + length ds < 200)%nat -> head_not is_digit rest -> rest <> [] ->
  option_digits (ds ++ rest) (pre ++ post) (3 + Z.of_nat (length pre)) =
    Some (pre ++ ds ++ drop (length ds) post, 3 + Z.of_nat (length pre + length ds)).
Proof.
  induction ds as [|d ds IH]; intros pre post rest Hd Hl Hb Hh Hr.
  - destruct rest as [|c rest]; [done|]. cbn [app length option_digits]. cbn [head_not] in Hh. rewrite Hh.
    by rewrite Nat.add_0_r.
  - pose proof (Forall_inv Hd) as Hd1. apply Forall_inv_tail in Hd. cbn [app option_digits].
    rewrite Hd1. destruct post as [|x post]; [simpl in Hl; lia|]. cbn [length] in *.
    assert (store (pre ++ x :: post) (3 + Z.of_nat (length pre) - 3) d = Some (pre ++ d :: post)) as ->
      by (apply store_mid; lia).
    cbn [mbind option_bind]. rewrite u8_small by width.
    pose proof (IH (pre ++ [d]) post rest Hd ltac:(lia) ltac:(rewrite length_app; simpl; lia) Hh Hr) as He.
    rewrite <- !(assoc_L (++)) in He. cbn [app] in He. rewrite length_app in He. cbn [length] in He.
    replace (3 + Z.of_nat (length pre) + 1) with (3 + Z.of_nat (length pre + 1)) by lia. rewrite He.
    do 2 f_equal. lia.
Qed.


(** The array [len_char] after the digits and the NUL. *)
Lemma len_char_spec ds rest : Forall (fun d => is_digit d = true) ds -> (length ds <= 7)%nat ->
  head_not is_digit rest -> rest <> [] ->
  ('(len_char, len) ← option_digits (ds ++ rest) (replicate 8 0) 3;
   b ← store len_char (len - 3) 0; Some (b, len)) =
  Some (ds ++ 0 :: replicate (7 - length ds) 0, 3 + Z.of_nat (length ds)).
Proof.
  intros Hd Hl Hh Hr.
  pose proof (option_digits_spec ds [] (replicate 8 0) rest Hd) as Ho. cbn [app length Nat.add] in Ho.
  rewrite length_replicate in Ho. change (3 + Z.of_nat 0) with 3 in Ho. rewrite Ho by (done || lia).
  cbn [mbind option_bind]. rewrite drop_replicate.
  replace (8 - length ds)%nat with (S (7 - length ds)) by lia. cbn [replicate].
  assert (store (ds ++ 0 :: replicate (7 - length ds) 0) (3 + Z.of_nat (length ds) - 3) 0 =
          Some (ds ++ 0 :: replicate (7 - length ds) 0)) as ->; [|done].
  apply store_mid. lia.
Qed.



Lemma load_S c s i : 0 <= i -> load (c :: s) (i + 1) = load s i.
Proof.
  intros Hi. unfold load. rewrite !(proj2 (Z.leb_le 0 _)) by lia.
  by replace (Z.to_nat (i + 1)) with (S (Z.to_nat i)) by lia.
Qed.

Lemma option_char_fact c : is_option_char c = true -> char_to_fmt_option c <> FMT_OPTION_NONE.
Proof. unfold is_option_char. by intros ?%bool_decide_eq_true. Qed.

Section single.
Context (below : bytes).

(** Up to the call of [string_to_uint]. *)
Lemma single_option_eq tag c ds rest :
  is_option_char c = true -> Forall (fun d => is_digit d = true) ds -> (1 <= length ds <= 7)%nat ->
  head_not is_digit rest -> rest <> [] ->
  get_single_format_properties below (37 :: tag :: c :: ds ++ rest) =
    len32 ← string_to_uint (below ++ ds ++ 0 :: replicate (7 - length ds) 0) (Z.of_nat (length below));
    Some (mk_properties (char_to_printf_tag tag)
      (if len32 =? u32 (-1) then FMT_OPTION_COULD_NOT_CONVERT else char_to_fmt_option c)
      (Some (u8 (len32 .& 0xFF))) (Some (3 + Z.of_nat (length ds))) 0).
Proof.
  intros Hc Hd Hl Hh Hr. pose proof (option_char_fact c Hc) as Hne.
  unfold get_single_format_properties.
  change (load (37 :: tag :: c :: ds ++ rest) 1) with (Some tag).
  change (load (37 :: tag :: c :: ds ++ rest) 2) with (Some c). cbn [mbind option_bind].
  rewrite decide_False by done.
  destruct ds as [|d ds]; [simpl in Hl; lia|].
  change (load (37 :: tag :: c :: (d :: ds) ++ rest) 3) with (Some d). cbn [mbind option_bind].
  rewrite (Forall_inv Hd). cbn [negb].
  change (drop 3 (37 :: tag :: c :: (d :: ds) ++ rest)) with ((d :: ds) ++ rest).
  pose proof (len_char_spec (d :: ds) rest Hd ltac:(lia) Hh Hr) as Hs.
  destruct (option_digits ((d :: ds) ++ rest) (replicate 8 0) 3) as [[b len]|]; [|done].
  cbn [mbind option_bind] in Hs |- *. destruct (store b (len - 3) 0) as [b'|]; [|done].
  cbn [mbind option_bind] in Hs |- *. injection Hs as -> ->. done.
Qed.
End single.


(** ** Parsing the whole format *)



Section parse.
Context {D : Type} `{PortDevice D} (below : bytes).
Abbreviation set_types_from := (set_types_from (D:=D) (below ++ [0])).



(** The characters of a field behind its %. *)
Definition field_body (f : field_spec) : bytes := fd_tag f :: show_option (fd_option f) ++ fd_text f.

Lemma plain_nonspecial c : plain c -> c <> 0 /\ c <> 37.
Proof. unfold plain. lia. Qed.

Lemma is_digit_nonspecial c : is_digit c = true -> c <> 0 /\ c <> 37.
Proof. unfold is_digit. lia. Qed.

Lemma option_char_nonspecial c : is_option_char c = true -> c <> 0 /\ c <> 37.
Proof. intros Hc. split; intros ->; discriminate Hc. Qed.

Lemma field_body_nonspecial f : field_wf f -> Forall (fun c => c <> 0 /\ c <> 37) (field_body f).
Proof.
  intros (Ht & Htext & Ho). unfold field_body. constructor; [by apply plain_nonspecial|].
  apply Forall_app. split.
  - destruct (fd_option f) as [[c ds]|]; [|constructor]. destruct Ho as (Hc & Hd & _).
    constructor; [by apply option_char_nonspecial|].
    eapply Forall_impl; [|exact Hd]. intros ?. apply is_digit_nonspecial.
  - eapply Forall_impl; [|exact Htext]. intros ?. apply plain_nonspecial.
Qed.


Lemma text_nonspecial s : Forall plain s -> Forall (fun c => c <> 0 /\ c <> 37) s.
Proof. intros Hs. eapply Forall_impl; [|exact Hs]. intros ?. apply plain_nonspecial. Qed.

End parse.

(** ** Counting *)

Lemma count_char_skip seg rest n : Forall (fun c => c <> 0 /\ c <> 37) seg ->
  count_char_from (seg ++ rest) 37 n = count_char_from rest 37 n.
Proof.
  induction 1 as [|c seg [H0 H37] Hs IH]; [done|]. cbn [app count_char_from].
  by rewrite (proj2 (Z.eqb_neq c 0)), (proj2 (Z.eqb_neq c 37)).
Qed.

Lemma count_fields fs n : Forall field_wf fs -> 0 <= n -> n + Z.of_nat (length fs) < 256 ->
  count_char_from (show_fields fs ++ [0]) 37 n = Some (n + Z.of_nat (length fs)).
Proof.
  intros Hwf. revert n. induction Hwf as [|f fs Hf Hwf IH]; intros n Hn Hl.
  - cbn. f_equal. lia.
  - cbn [length] in *. change (show_fields (f :: fs)) with (37 :: field_body f ++ show_fields fs).
    cbn [app count_char_from Z.eqb Pos.eqb]. rewrite <- (assoc_L (++)).
    rewrite count_char_skip by by apply field_body_nonspecial.
    rewrite u8_small, IH by (width || lia). f_equal. lia.
Qed.

Lemma count_spec f : format_wf f -> count_char (show_format f) 37 = Some (Z.of_nat (length (fm_fields f))).
Proof.
  intros [Ht Hf Hc Hl]. unfold count_char, show_format.
  rewrite count_char_skip by by apply text_nonspecial. by rewrite count_fields by (done || lia).
Qed.



(** ** Printing *)

Section print.
Context {D : Type} `{SerialReady D}.
Abbreviation writes := (writes (D:=D)).




(** *** One field *)







(** *** All fields *)


End print.

(** ** The whole call *)



Section whole.
Context {D : Type} `{SerialReady D}.



End whole.

(** ** Properties *)


(** "x=%d:4 %s;2." *)
Definition sample_format : format :=
  mk_format [120; 61] [mk_field 100 (Some (58, [52])) [32]; mk_field 115 (Some (59, [50])) [46]].


(** Digits beyond the room of [len_char] are stored out of bounds. *)
Lemma option_digits_overflow ds : forall pre post rest,
  Forall (fun d => is_digit d = true) ds -> (length post < length ds)%nat ->
  (length pre + length post < 200)%nat ->
  option_digits (ds ++ rest) (pre ++ post) (3 + Z.of_nat (length pre)) = None.
Proof.
  induction ds as [|d ds IH]; intros pre post rest Hd Hl Hb; [simpl in Hl; lia|].
  cbn [app option_digits]. rewrite (Forall_inv Hd). destruct post as [|x post].
  - by rewrite store_past by (rewrite app_nil_r; lia).
  - assert (store (pre ++ x :: post) (3 + Z.of_nat (length pre) - 3) d = Some (pre ++ d :: post)) as ->
      by (apply store_mid; lia).
    cbn [mbind option_bind length] in *. rewrite u8_small by width.
    replace (pre ++ d :: post) with ((pre ++ [d]) ++ post) by by rewrite <- (assoc_L (++)).
    replace (3 + Z.of_nat (length pre) + 1) with (3 + Z.of_nat (length (pre ++ [d])))
      by (rewrite length_app; simpl; lia).
    apply IH; [by apply (Forall_inv_tail Hd)|lia|rewrite length_app; simpl; lia].
Qed.

(** The number of an option is read through the byte below its buffer in the stack frame:
    if the frame ends there the read is out of bounds, and if the byte is neither a digit nor
    NUL the option is taken for unconvertible, with the number 255, so that it has no effect.
    Eight digits and more are stored behind the buffer. *)
Theorem option_number_needs_nul tag c ds rest :
  is_option_char c = true -> Forall (fun d => is_digit d = true) ds ->
  head_not is_digit rest -> rest <> [] ->
  ((1 <= length ds <= 7)%nat ->
     get_single_format_properties [] (37 :: tag :: c :: ds ++ rest) = None /\
     forall base b, b <> 0 -> is_digit b = false ->
       get_single_format_properties (base ++ [b]) (37 :: tag :: c :: ds ++ rest) =
         Some (mk_properties (char_to_printf_tag tag) FMT_OPTION_COULD_NOT_CONVERT (Some 255)
                 (Some (3 + Z.of_nat (length ds))) 0)) /\
  ((8 <= length ds)%nat -> forall below,
     get_single_format_properties below (37 :: tag :: c :: ds ++ rest) = None).
Proof.
  intros Hc Hd Hh Hr. split.
  - intros Hl. split.
    + rewrite single_option_eq by done. cbn [app length]. by rewrite string_to_uint_start by (done || lia).
    + intros base b Hb Hbd. rewrite single_option_eq by done.
      by rewrite string_to_uint_junk by (done || lia).
  - intros Hl below. pose proof (option_char_fact c Hc) as Hne. unfold get_single_format_properties.
    change (load (37 :: tag :: c :: ds ++ rest) 1) with (Some tag).
    change (load (37 :: tag :: c :: ds ++ rest) 2) with (Some c). cbn [mbind option_bind].
    rewrite decide_False by done.
    destruct ds as [|d ds]; [simpl in Hl; lia|].
    change (load (37 :: tag :: c :: (d :: ds) ++ rest) 3) with (Some d). cbn [mbind option_bind].
    rewrite (Forall_inv Hd). cbn [negb].
    change (drop 3 (37 :: tag :: c :: (d :: ds) ++ rest)) with ((d :: ds) ++ rest).
    destruct (decide (length (d :: ds) = 8%nat)) as [He|He].
    + pose proof (option_digits_spec (d :: ds) [] (replicate 8 0) rest Hd) as Ho.
      change ([] ++ replicate 8 0) with (replicate 8 0) in Ho. change (3 + Z.of_nat (length [])) with 3 in Ho.
      rewrite Ho by (done || (cbn [length] in *; rewrite ?length_replicate; lia)). cbn [mbind option_bind].
      rewrite store_past; [done|].
      rewrite !length_app, length_drop, length_replicate. cbn [length] in *. lia.
    + pose proof (option_digits_overflow (d :: ds) [] (replicate 8 0) rest Hd) as Ho.
      change ([] ++ replicate 8 0) with (replicate 8 0) in Ho. change (3 + Z.of_nat (length [])) with 3 in Ho.
      by rewrite Ho by (rewrite ?length_replicate; cbn [length] in *; lia).
Qed.

(** %d:5 with the byte 0xFF below the buffer. *)
Lemma option_number_needs_nul_witness :
  get_single_format_properties ([] ++ [255]) [37; 100; 58; 53; 0] =
    Some (mk_properties PRINTF_TAG_INT FMT_OPTION_COULD_NOT_CONVERT (Some 255) (Some 4) 0).
Proof.
  destruct (option_number_needs_nul 100 58 [53] [0]) as [H1 _]; [done|by repeat constructor|done|done|].
  destruct H1 as [_ H1]; [simpl; lia|]. exact (H1 [] 255 ltac:(lia) eq_refl).
Defined.

(** ** Counting the arguments *)

(** The macro [kprintf] counts its arguments: with as many as the format has fields it is
    [vkprintf], with any other number (below 2^32 - 1) it prints the failed assertion and halts
    without touching the terminal. *)
Theorem kprintf_counts_arguments {D} `{PortDevice D} below eflags f args :
  format_wf f -> Z.of_nat (length args) < 2 ^ 32 - 1 ->
  (length args = length (fm_fields f) ->
     kprintf_macro (D:=D) below eflags (show_format f) args ≡ vkprintf below eflags (show_format f) args) /\
  (length args <> length (fm_fields f) -> forall d t,
     o_exit (kprintf_macro below eflags (show_format f) args d t) = Aborted /\
     o_glob (kprintf_macro below eflags (show_format f) args d t) = t /\
     sent (o_events (kprintf_macro below eflags (show_format f) args d t)) = []).
Proof.
  intros Hwf Hl. unfold kprintf_macro, kprintf2_argc_check.
  assert (Hn : u32 (Z.of_nat (S (length args)) - 1) = Z.of_nat (length args)).
  { rewrite u32_small by width. lia. }
  assert (Hc : read_cell (D:=D) (G:=Terminal) (count_char (show_format f) 37) =
               mret (Z.of_nat (length (fm_fields f)))) by by rewrite count_spec.
  rewrite Hc, Hn. split.
  - intros He. rewrite bind_ret_l. apply assert_holds. rewrite He. apply Z.eqb_refl.
  - intros Hne d t. rewrite ret_bind.
    rewrite (proj2 (Z.eqb_neq (Z.of_nat (length (fm_fields f))) _)) by lia. done.
Qed.

Lemma kprintf_counts_arguments_witness :
  o_exit (kprintf_macro [0] 0 (show_format sample_format) [AWord 35] RL sample_terminal) = Aborted.
Proof.
  destruct (kprintf_counts_arguments (D:=ready_line) [0] 0 sample_format [AWord 35]) as [_ H2].
  - split; [by apply (bool_decide_unpack _)..|vm_compute; lia|by vm_compute].
  - by vm_compute.
  - apply H2. vm_compute. lia.
Defined.
