(* ===== verification/Paging.v ===== *)
(** * Physical pages, page tables and the kernel heap ([other/virtual_memory.c])

    The bitmap of the 2^20 pages, the two tables of the first 4 MB, the translations and
    [kmalloc].  The tables lie in the memory that the processor reads while it
    translates; every access of the code goes through that translation once paging is
    on.  Accesses outside of [page_bitmap], through a null pointer and to addresses that
    are not mapped are [None]. *)

From stdpp Require Import gmap.
From S2P Require Import Prelude.

(** ** Constants *)

Definition PAGE_PRESENT : Z := 0x1.
Definition PAGE_RW : Z := 0x2.
Definition PAGE_SIZE : Z := 0x1000.
Definition TOTAL_MEMORY : Z := 4 * 1024 * 1024 * 1024.
Definition NUM_PAGES : Z := TOTAL_MEMORY / PAGE_SIZE.
Definition BITMAP_SIZE : Z := NUM_PAGES / 8.

(** ** The bitmap *)

(** [page_bitmap]: the bytes by index, zero where nothing was stored. *)
Abbreviation bitmap := (gmap Z Z).
Definition byte_of (b : bitmap) (i : Z) : Z := default 0 (b !! i).
Definition store_byte (i v : Z) (b : bitmap) : option bitmap :=
  if (0 <=? i) && (i <? BITMAP_SIZE) then Some (<[i := u8 v]> b) else None.
Definition load_byte (i : Z) (b : bitmap) : option Z :=
  if (0 <=? i) && (i <? BITMAP_SIZE) then Some (byte_of b i) else None.

Definition page_index (addr : Z) : Z := addr / PAGE_SIZE.
Definition set_page_present (idx : Z) (b : bitmap) : option bitmap :=
  v ← load_byte (idx / 8) b; store_byte (idx / 8) (v .| (1 ≪ (idx mod 8))) b.
Definition clear_page_present (idx : Z) (b : bitmap) : option bitmap :=
  v ← load_byte (idx / 8) b; store_byte (idx / 8) (v .& Z.lnot (1 ≪ (idx mod 8))) b.
Definition is_page_present (idx : Z) (b : bitmap) : option Z :=
  v ← load_byte (idx / 8) b; Some (v .& (1 ≪ (idx mod 8))).

(** [for (i = first; ...; i++) step(i)], [n] rounds. *)
Fixpoint each {S} (n : nat) (first : Z) (step : Z -> S -> option S) (b : S) : option S :=
  match n with
  | O => Some b
  | S n => b ← step first b; each n (u32 (first + 1)) step b
  end.

Definition init_page_bitmap (b : bitmap) : option bitmap :=
  b ← each (Z.to_nat BITMAP_SIZE) 0 (fun i => store_byte i 0) b;
  each (Z.to_nat 1024) 0 set_page_present b.

Fixpoint alloc_page_loop (rounds : nat) (i : Z) (b : bitmap) : option (Z * bitmap) :=
  match rounds with
  | O => Some (0, b)
  | S rounds =>
      present ← is_page_present i b;
      if present =? 0 then b ← set_page_present i b; Some (u32 (i * PAGE_SIZE), b)
      else alloc_page_loop rounds (i + 1) b
  end.
Definition alloc_page (b : bitmap) : option (Z * bitmap) :=
  alloc_page_loop (Z.to_nat NUM_PAGES) 0 b.

Definition free_page (phys_addr : Z) (b : bitmap) : option bitmap :=
  clear_page_present (page_index phys_addr) b.

Fixpoint alloc_n_loop (rounds : nat) (i start count n : Z) (b : bitmap) : option (Z * bitmap) :=
  match rounds with
  | O => Some (0, b)
  | S rounds =>
      present ← is_page_present i b;
      if present =? 0 then
        let start := if count =? 0 then i else start in
        let count := count + 1 in
        if count =? n then
          b ← each (Z.to_nat n) start set_page_present b; Some (u32 (start * PAGE_SIZE), b)
        else alloc_n_loop rounds (i + 1) start count n b
      else alloc_n_loop rounds (i + 1) start 0 n b
  end.
Definition alloc_n_pages (n : Z) (b : bitmap) : option (Z * bitmap) :=
  if (n =? 0) || (n >? NUM_PAGES) then Some (0, b)
  else alloc_n_loop (Z.to_nat NUM_PAGES) 0 0 0 n b.

Definition free_n_pages (phys_addr n : Z) (b : bitmap) : option bitmap :=
  each (Z.to_nat n) (page_index phys_addr) clear_page_present b.

(** ** The machine *)

(** The words of the memory by physical address, zero where nothing was stored; the
    bitmap; control register 3 and the paging bit of control register 0. *)
Record vm := mk_vm {
  ram : gmap Z Z;
  page_bitmap : bitmap;
  cr3 : Z;
  paging : bool;
}.

Definition word (m : vm) (p : Z) : Z := default 0 (ram m !! p).
Definition frame (entry : Z) : Z := entry .& 0xFFFFF000.

(** What the processor does with an address, on pages of 4 KB. *)
Definition translate (m : vm) (a : Z) : option Z :=
  if negb (paging m) then Some a
  else
    let pd_entry := word m (cr3 m + 4 * (a ≫ 22)) in
    if pd_entry .& PAGE_PRESENT =? 0 then None
    else
      let pt_entry := word m (frame pd_entry + 4 * ((a ≫ 12) .& 0x3FF)) in
      if pt_entry .& PAGE_PRESENT =? 0 then None else Some (frame pt_entry + a .& 0xFFF).

(** A word through a pointer. *)
Definition load_word (a : Z) (m : vm) : option Z :=
  if a =? 0 then None else p ← translate m a; Some (word m p).
Definition store_word (a v : Z) (m : vm) : option vm :=
  if a =? 0 then None
  else p ← translate m a; Some (mk_vm (<[p := v]> (ram m)) (page_bitmap m) (cr3 m) (paging m)).
Definition with_bitmap (b : bitmap) (m : vm) : vm := mk_vm (ram m) b (cr3 m) (paging m).

Section tables.
(** The addresses that the linker gives the two arrays. *)
Context (page_directory first_page_table : Z).

Definition init_paging (m : vm) : option vm :=
  m ← each (Z.to_nat 1024) 0 (fun i =>
        store_word (first_page_table + 4 * i) (u32 (i * PAGE_SIZE) .| PAGE_PRESENT .| PAGE_RW)) m;
  m ← store_word page_directory (first_page_table .| PAGE_PRESENT .| PAGE_RW) m;
  Some (mk_vm (ram m) (page_bitmap m) page_directory true).

Definition virt_to_phys (virt_addr : Z) (m : vm) : option Z :=
  let pd_index := (virt_addr ≫ 22) .& 0x3FF in
  let pt_index := (virt_addr ≫ 12) .& 0x3FF in
  let offset := virt_addr .& 0xFFF in
  pd_entry ← load_word (page_directory + 4 * pd_index) m;
  if pd_entry .& PAGE_PRESENT =? 0 then Some 0
  else
    pt_entry ← load_word (frame pd_entry + 4 * pt_index) m;
    if pt_entry .& PAGE_PRESENT =? 0 then Some 0 else Some (u32 (frame pt_entry + offset)).

(** The inner loop of [phys_to_virt]: the index at which the page table maps [phys_page]. *)
Fixpoint find_in_table (rounds : nat) (pt pt_index phys_page : Z) (m : vm) : option (option Z) :=
  match rounds with
  | O => Some None
  | S rounds =>
      pt_entry ← load_word (pt + 4 * pt_index) m;
      if pt_entry .& PAGE_PRESENT =? 0 then find_in_table rounds pt (pt_index + 1) phys_page m
      else if frame pt_entry =? phys_page then Some (Some pt_index)
      else find_in_table rounds pt (pt_index + 1) phys_page m
  end.

Fixpoint find_in_directory (rounds : nat) (pd_index phys_page offset : Z) (m : vm) : option Z :=
  match rounds with
  | O => Some 0
  | S rounds =>
      pd_entry ← load_word (page_directory + 4 * pd_index) m;
      if pd_entry .& PAGE_PRESENT =? 0 then find_in_directory rounds (pd_index + 1) phys_page offset m
      else
        found ← find_in_table (Z.to_nat 1024) (frame pd_entry) 0 phys_page m;
        match found with
        | Some pt_index => Some (u32 (pd_index ≪ 22) .| (pt_index ≪ 12) .| offset)
        | None => find_in_directory rounds (pd_index + 1) phys_page offset m
        end
  end.

Definition phys_to_virt (phys_addr : Z) (m : vm) : option Z :=
  find_in_directory (Z.to_nat 1024) 0 (frame phys_addr) (phys_addr .& 0xFFF) m.

(** [struct kmalloc_header] is one word, the number of pages. *)
Definition kmalloc (size : Z) (m : vm) : option (Z * vm) :=
  if size =? 0 then Some (0, m)
  else
    let pages_needed := u32 (size + PAGE_SIZE - 1) / PAGE_SIZE in
    '(phys_addr, b) ← alloc_n_pages pages_needed (page_bitmap m);
    let m := with_bitmap b m in
    if phys_addr =? 0 then Some (0, m)
    else
      virt_addr ← phys_to_virt phys_addr m;
      m ← store_word virt_addr pages_needed m;
      Some (u32 (virt_addr + 4), m).

Definition kfree (ptr : Z) (m : vm) : option vm :=
  if ptr =? 0 then Some m
  else
    let header := u32 (ptr - 4) in
    phys_addr ← virt_to_phys header m;
    pages ← load_word header m;
    b ← free_n_pages phys_addr pages (page_bitmap m);
    Some (with_bitmap b m).
End tables.
