(* ===== verification/PagingFacts.v ===== *)
(** * The page allocator and the kernel heap: specification

    [page_allocator_refines]: the bitmap implements first fit on a set of pages.
    [phys_to_virt_sound]: a translation found in the tables translates back.
    [heap_after_init]: with the tables and the bitmap of the initialisation the
    translations are the identity on the first 4 MB and nothing else, so that every
    request to [kmalloc] fails or goes through the null pointer. *)

From stdpp Require Import gmap.
From S2P Require Import Prelude Bits Paging.

(** [lia] with division and remainder. *)
Ltac Zify.zify_post_hook ::= Z.to_euclidean_division_equations.

(** ** The bitmap as a set of pages *)

Definition taken (b : bitmap) (j : Z) : bool := Z.testbit (byte_of b (j / 8)) (j mod 8).

Definition represents (b : bitmap) (P : Z -> bool) : Prop :=
  (forall i, is_u8 (byte_of b i)) /\ forall j, 0 <= j < NUM_PAGES -> taken b j = P j.

(** The pages [s .. s + n - 1] taken or freed. *)
Definition mark (v : bool) (P : Z -> bool) (s n j : Z) : bool :=
  if (s <=? j) && (j <? s + n) then v else P j.

Definition is_run (P : Z -> bool) (s n : Z) : Prop := forall j, s <= j < s + n -> P j = false.
Definition first_fit (P : Z -> bool) (n s : Z) : Prop :=
  0 <= s /\ s + n <= NUM_PAGES /\ is_run P s n /\ forall s', 0 <= s' < s -> ~ is_run P s' n.

Lemma num_pages : NUM_PAGES = 2 ^ 20.
Proof. reflexivity. Qed.
Lemma bitmap_size : BITMAP_SIZE = 2 ^ 17.
Proof. reflexivity. Qed.

(** Keep the number of pages folded: as a [nat] it is a term of a million constructors. *)
#[local] Opaque NUM_PAGES BITMAP_SIZE.

Lemma land_bit x k : 0 <= k -> (x .& (1 ≪ k) =? 0) = negb (Z.testbit x k).
Proof.
  intros Hk. rewrite Z.shiftl_1_l. destruct (Z.testbit x k) eqn:Hb; cbn [negb].
  - apply Z.eqb_neq. intros H0. assert (Z.testbit (x .& 2 ^ k) k = true) as Ht.
    { rewrite Z.land_spec, Hb. by rewrite Z.pow2_bits_true by lia. }
    by rewrite H0, Z.bits_0 in Ht.
  - apply Z.eqb_eq, Z.bits_inj. intros i. rewrite Z.land_spec, Z.bits_0.
    destruct (decide (i = k)) as [->|Hi]; [by rewrite Hb|].
    rewrite Z.pow2_bits_eqb by lia. by rewrite (proj2 (Z.eqb_neq k i)), andb_false_r by lia.
Qed.

Lemma index_bounds j : 0 <= j < NUM_PAGES -> (0 <=? j / 8) && (j / 8 <? BITMAP_SIZE) = true.
Proof. rewrite num_pages, bitmap_size. intros. apply andb_true_iff. lia. Qed.

Lemma byte_of_insert b i v k : byte_of (<[i := v]> b) k = if k =? i then v else byte_of b k.
Proof.
  unfold byte_of. destruct (Z.eqb_spec k i) as [->|Hk].
  - by rewrite lookup_insert_eq.
  - by rewrite lookup_insert_ne by done.
Qed.

Lemma present_spec b P j : represents b P -> 0 <= j < NUM_PAGES ->
  exists v, is_page_present j b = Some v /\ (v =? 0) = negb (P j).
Proof.
  intros [_ Ht] Hj. unfold is_page_present, load_byte. rewrite index_bounds by done.
  cbn [mbind option_bind]. eexists. split; [done|]. rewrite <- Ht by done. apply land_bit. lia.
Qed.

Definition set_page (v : bool) : Z -> bitmap -> option bitmap :=
  if v then set_page_present else clear_page_present.

Lemma set_page_bits (v : bool) x j i : is_u8 x ->
  Z.testbit (u8 (if v then x .| (1 ≪ (j mod 8)) else x .& Z.lnot (1 ≪ (j mod 8)))) (i mod 8) =
    if i mod 8 =? j mod 8 then v else Z.testbit x (i mod 8).
Proof.
  intros Hx. pose proof (Z.mod_pos_bound i 8) as Hi. pose proof (Z.mod_pos_bound j 8) as Hj.
  unfold u8. rewrite Z.mod_pow2_bits_low by lia. rewrite Z.shiftl_1_l.
  destruct v; rewrite ?Z.lor_spec, ?Z.land_spec, ?Z.lnot_spec by lia;
    rewrite Z.pow2_bits_eqb by lia; rewrite (Z.eqb_sym (j mod 8));
    destruct (i mod 8 =? j mod 8); by rewrite ?orb_true_r, ?orb_false_r, ?andb_true_r, ?andb_false_r.
Qed.

Lemma set_page_spec v b P j : represents b P -> 0 <= j < NUM_PAGES ->
  exists b', set_page v j b = Some b' /\ represents b' (mark v P j 1).
Proof.
  intros [Hb Ht] Hj.
  assert (set_page v j b = Some (<[j / 8 := u8 (if v then byte_of b (j / 8) .| (1 ≪ (j mod 8))
            else byte_of b (j / 8) .& Z.lnot (1 ≪ (j mod 8)))]> b)) as ->.
  { destruct v; cbn [set_page]; unfold set_page_present, clear_page_present, load_byte, store_byte;
      by rewrite (index_bounds j) by done. }
  eexists. split; [done|]. split.
  - intros i. rewrite byte_of_insert. destruct (i =? j / 8); [apply u8_range|done].
  - intros i Hi. unfold taken, mark. rewrite byte_of_insert, <- (Ht i Hi).
    destruct (Z.eqb_spec (i / 8) (j / 8)) as [He|He].
    + rewrite set_page_bits by done. destruct (Z.eqb_spec (i mod 8) (j mod 8)) as [Hm|Hm].
      * assert (i = j) as -> by lia. by rewrite (proj2 (andb_true_iff _ _)) by lia.
      * rewrite (proj2 (andb_false_iff _ _)) by lia. unfold taken. by rewrite He.
    + by rewrite (proj2 (andb_false_iff _ _)) by lia.
Qed.

Lemma mark_add v P s n k i : 0 <= n -> 0 <= k -> mark v (mark v P s n) (s + n) k i = mark v P s (n + k) i.
Proof.
  intros Hn Hk. unfold mark.
  destruct ((s + n <=? i) && (i <? s + n + k)) eqn:H1, ((s <=? i) && (i <? s + n)) eqn:H2,
    ((s <=? i) && (i <? s + (n + k))) eqn:H3; done || lia.
Qed.

Lemma mark_ext v P Q s n i : P i = Q i -> mark v P s n i = mark v Q s n i.
Proof. intros H. unfold mark. by rewrite H. Qed.

Lemma mark_free P s n i : is_run P s n -> mark false (mark true P s n) s n i = P i.
Proof.
  intros Hr. unfold mark. destruct ((s <=? i) && (i <? s + n)) eqn:H; [|done].
  symmetry. apply Hr. lia.
Qed.

Lemma represents_ext b P Q : (forall j, 0 <= j < NUM_PAGES -> P j = Q j) -> represents b P -> represents b Q.
Proof. intros He [Hb Ht]. split; [done|]. intros j Hj. by rewrite Ht, He. Qed.

Lemma set_pages_spec v n : forall b P s, represents b P -> 0 <= s -> s + Z.of_nat n <= NUM_PAGES ->
  exists b', each n s (set_page v) b = Some b' /\ represents b' (mark v P s (Z.of_nat n)).
Proof.
  induction n as [|n IH]; intros b P s Hb Hs Hn; cbn [each].
  - exists b. split; [done|]. apply (represents_ext b P); [|done]. intros j _. unfold mark.
    by rewrite (proj2 (andb_false_iff _ _)) by lia.
  - destruct (set_page_spec v b P s Hb ltac:(lia)) as (b1 & -> & H1). cbn [mbind option_bind].
    rewrite num_pages in Hn. rewrite u32_small by width.
    destruct (IH b1 (mark v P s 1) (s + 1) H1 ltac:(lia) ltac:(rewrite num_pages; lia)) as (b' & -> & H').
    exists b'. split; [done|]. refine (represents_ext b' _ _ _ H').
    intros j _. rewrite mark_add by lia. f_equal. lia.
Qed.

(** ** First fit *)

(** What the loop knows at page [i]: [count] free pages before it, and no run of [n]
    that starts before them. *)
Lemma alloc_n_loop_spec n b P : represents b P -> 0 < n <= NUM_PAGES ->
  forall rounds i start count, i + Z.of_nat rounds = NUM_PAGES -> 0 <= count < n -> count <= i ->
  (0 < count -> start = i - count) -> is_run P (i - count) count ->
  (forall s, 0 <= s < i - count -> ~ is_run P s n) ->
  (exists s b', first_fit P n s /\ alloc_n_loop rounds i start count n b = Some (s * PAGE_SIZE, b') /\
     represents b' (mark true P s n)) \/
  ((forall s, ~ first_fit P n s) /\ alloc_n_loop rounds i start count n b = Some (0, b)).
Proof.
  intros Hb Hn. induction rounds as [|rounds IH]; intros i start count Hi Hc Hci Hs Hr Hno; cbn [alloc_n_loop].
  - right. split; [|done]. intros s (H0 & Hle & Hrun & _). apply (Hno s); [lia|done].
  - destruct (present_spec b P i Hb ltac:(lia)) as (v & -> & Hv). cbn [mbind option_bind]. rewrite Hv.
    destruct (P i) eqn:Hp; cbn [negb].
    + apply IH; [lia..|intros j Hj; lia|]. intros s Hsi Hrun. destruct (decide (s < i - count)) as [Hlt|Hge].
      * apply (Hno s); [lia|done].
      * by rewrite (Hrun i) in Hp by lia.
    + set (st := if count =? 0 then i else start).
      assert (st = i - count) as Hst by (subst st; destruct (Z.eqb_spec count 0); lia).
      assert (Hr' : is_run P (i - count) (count + 1)).
      { intros j Hj. destruct (decide (j = i)) as [->|Hji]; [done|apply Hr; lia]. }
      destruct (Z.eqb_spec (count + 1) n) as [He|He].
      * left. destruct (set_pages_spec true (Z.to_nat n) b P st Hb ltac:(lia) ltac:(lia)) as (b' & Hset & Hb').
        exists st, b'. change (set_page true) with set_page_present in Hset. rewrite Hset.
        rewrite Z2Nat.id in Hb' by lia. split; [|split; [|done]].
        -- rewrite Hst. repeat split; [lia..|by rewrite <- He|done].
        -- cbn [mbind option_bind]. rewrite num_pages in *. rewrite u32_small; [done|].
           unfold is_u32, PAGE_SIZE. lia.
      * apply IH; [lia..| |]; replace (i + 1 - (count + 1)) with (i - count) by lia; [done|].
        exact Hno.
Qed.

Lemma alloc_n_pages_spec n b P : represents b P -> 0 < n <= NUM_PAGES ->
  (exists s b', first_fit P n s /\ alloc_n_pages n b = Some (s * PAGE_SIZE, b') /\
     represents b' (mark true P s n)) \/
  ((forall s, ~ first_fit P n s) /\ alloc_n_pages n b = Some (0, b)).
Proof.
  intros Hb Hn. unfold alloc_n_pages. rewrite (proj2 (orb_false_iff _ _)) by lia.
  apply alloc_n_loop_spec; [done|done|rewrite Z2Nat.id by (rewrite num_pages; lia); lia|lia..| |];
    intros s Hs; lia.
Qed.

Lemma first_fit_unique P n s s' : first_fit P n s -> first_fit P n s' -> s = s'.
Proof.
  intros (H0 & _ & Hr & Hl) (H0' & _ & Hr' & Hl').
  destruct (Z.lt_trichotomy s s') as [Hlt|[He|Hlt]]; [exfalso; by apply (Hl' s)|done|exfalso; by apply (Hl s')].
Qed.

Lemma alloc_page_is_alloc_n b rounds : forall i start, 0 <= i -> i + Z.of_nat rounds = NUM_PAGES ->
  alloc_page_loop rounds i b = alloc_n_loop rounds i start 0 1 b.
Proof.
  induction rounds as [|rounds IH]; intros i start H0 Hi; cbn [alloc_page_loop alloc_n_loop]; [done|].
  destruct (is_page_present i b) as [v|]; cbn [mbind option_bind]; [|done].
  destruct (v =? 0); [|apply IH; lia]. change (Z.to_nat 1) with 1%nat. cbn [each Z.eqb Z.add Pos.eqb].
  by destruct (set_page_present i b).
Qed.

Lemma free_n_pages_spec n b P s : represents b P -> 0 <= s -> 0 <= n -> s + n <= NUM_PAGES ->
  exists b', free_n_pages (s * PAGE_SIZE) n b = Some b' /\ represents b' (mark false P s n).
Proof.
  intros Hb H0 Hn Hs. unfold free_n_pages, page_index. rewrite Z.div_mul by done.
  destruct (set_pages_spec false (Z.to_nat n) b P s Hb H0 ltac:(lia)) as (b' & H & Hr).
  rewrite Z2Nat.id in Hr by lia. by exists b'.
Qed.

(** ** The initial bitmap *)

Lemma clear_bytes n : forall i b, 0 <= i -> i + Z.of_nat n <= BITMAP_SIZE ->
  exists b', each n i (fun i => store_byte i 0) b = Some b' /\
    forall k, byte_of b' k = if (i <=? k) && (k <? i + Z.of_nat n) then 0 else byte_of b k.
Proof.
  induction n as [|n IH]; intros i b H0 Hn; cbn [each].
  - exists b. split; [done|]. intros k. case_match; [lia|done].
  - assert (store_byte i 0 b = Some (<[i := u8 0]> b)) as ->.
    { unfold store_byte. by rewrite (proj2 (andb_true_iff _ _)) by lia. }
    cbn [mbind option_bind].
    rewrite bitmap_size in Hn. rewrite u32_small by width.
    destruct (IH (i + 1) (<[i := u8 0]> b) ltac:(lia) ltac:(rewrite bitmap_size; lia)) as (b' & -> & Hk).
    exists b'. split; [done|]. intros k. rewrite Hk, byte_of_insert.
    destruct ((i + 1 <=? k) && (k <? i + 1 + Z.of_nat n)) eqn:H1,
      ((i <=? k) && (k <? i + Z.of_nat (S n))) eqn:H2, (Z.eqb_spec k i); done || lia.
Qed.

(** The bytes past the end, which no code reads. *)
Definition bytes_ok (b : bitmap) : Prop := forall i, is_u8 (byte_of b i).

Definition initial_pages (j : Z) : bool := j <? 1024.

Lemma init_page_bitmap_spec b : bytes_ok b ->
  exists b', init_page_bitmap b = Some b' /\ represents b' initial_pages.
Proof.
  intros Hb. unfold init_page_bitmap.
  destruct (clear_bytes (Z.to_nat BITMAP_SIZE) 0 b) as (b1 & -> & H1); [lia|rewrite bitmap_size; lia|].
  cbn [mbind option_bind]. rewrite Z2Nat.id in H1 by (rewrite bitmap_size; lia).
  assert (represents b1 (fun _ => false)) as Hr.
  { split.
    - intros i. rewrite H1. case_match; [done|apply Hb].
    - intros j Hj. unfold taken. rewrite H1, index_bounds by done. apply Z.bits_0. }
  destruct (set_pages_spec true (Z.to_nat 1024) b1 _ 0 Hr) as (b' & H' & Hr'); [lia|rewrite num_pages, Z2Nat.id; lia|].
  rewrite Z2Nat.id in Hr' by lia.
  exists b'. split; [exact H'|]. refine (represents_ext b' _ _ _ Hr'). intros j Hj.
  unfold mark, initial_pages. rewrite (proj2 (Z.leb_le 0 j)) by lia. by case_match.
Qed.

(** ** Translation *)

Lemma frame_eq e : is_u32 e -> frame e = 4096 * (e / 4096).
Proof.
  intros He. unfold frame. change 0xFFFFF000 with (field_mask 31 12).
  transitivity ((e ≫ 12) ≪ 12); [|rewrite Z.shiftl_mul_pow2, Z.shiftr_div_pow2 by lia; lia].
  apply Z.bits_inj'. intros i Hi. rewrite Z.land_spec, field_mask_testbit, Z.shiftl_spec by lia.
  destruct (decide (i < 12)).
  - rewrite (Z.testbit_neg_r (e ≫ 12)) by lia. by rewrite (proj2 (andb_false_iff (12 <=? i) (i <=? 31))), andb_false_r by lia.
  - rewrite Z.shiftr_spec by lia. replace (i - 12 + 12) with i by lia.
    destruct (decide (i < 32)); [|by rewrite testbit_u32 by (done || lia)].
    by rewrite (proj2 (andb_true_iff (12 <=? i) (i <=? 31))), andb_true_r by lia.
Qed.

Lemma land_low n x : 0 <= n -> x .& Z.ones n = x mod 2 ^ n.
Proof. intros. by apply Z.land_ones. Qed.
Lemma offset_eq x : x .& 0xFFF = x mod 4096.
Proof. exact (land_low 12 x ltac:(lia)). Qed.
Lemma index_eq x : x .& 0x3FF = x mod 1024.
Proof. exact (land_low 10 x ltac:(lia)). Qed.
Lemma present_eq x : x .& PAGE_PRESENT = x mod 2.
Proof. exact (land_low 1 x ltac:(lia)). Qed.

Lemma virtual_address pd pt off : 0 <= pd < 1024 -> 0 <= pt < 1024 -> 0 <= off < 4096 ->
  u32 (pd ≪ 22) .| (pt ≪ 12) .| off = pd * 2 ^ 22 + pt * 2 ^ 12 + off.
Proof.
  intros Hd Ht Ho. rewrite u32_small by (rewrite Z.shiftl_mul_pow2; width).
  assert (pd ≪ 22 .| (pt ≪ 12) = (pt + pd * 2 ^ 10) ≪ 12) as ->.
  { rewrite Z.lor_comm, lor_shift_add by (rewrite ?Z.shiftl_mul_pow2; lia).
    rewrite !Z.shiftl_mul_pow2; lia. }
  rewrite Z.lor_comm, lor_shift_add by lia. lia.
Qed.

Lemma virtual_indices pd pt off : 0 <= pd < 1024 -> 0 <= pt < 1024 -> 0 <= off < 4096 ->
  let v := pd * 2 ^ 22 + pt * 2 ^ 12 + off in
  (v ≫ 22) .& 0x3FF = pd /\ (v ≫ 12) .& 0x3FF = pt /\ v .& 0xFFF = off.
Proof.
  intros Hd Ht Ho v. subst v. rewrite !index_eq, offset_eq, !Z.shiftr_div_pow2 by lia. lia.
Qed.

(** An entry that maps the page [k]. *)
Definition entry (k : Z) : Z := k * PAGE_SIZE .| PAGE_PRESENT .| PAGE_RW.
Lemma entry_eq k : 0 <= k < 2 ^ 20 -> entry k = 4096 * k + 3.
Proof.
  intros Hk. unfold entry, PAGE_SIZE, PAGE_PRESENT, PAGE_RW.
  rewrite <- Z.lor_assoc, Z.lor_comm. change (Z.lor 1 2) with 3.
  change 0x1000 with (2 ^ 12). rewrite <- Z.shiftl_mul_pow2 by lia. rewrite lor_shift_add by lia. lia.
Qed.
Lemma entry_present k : 0 <= k < 2 ^ 20 -> (entry k .& PAGE_PRESENT =? 0) = false.
Proof. intros Hk. rewrite present_eq, entry_eq by done. apply Z.eqb_neq. lia. Qed.
Lemma entry_frame k : 0 <= k < 2 ^ 20 -> frame (entry k) = 4096 * k.
Proof. intros Hk. rewrite frame_eq; rewrite entry_eq by done; [lia|width]. Qed.

(** Reading a word does not depend on which table is searched. *)
Lemma load_word_eq a m p : a <> 0 -> translate m a = Some p -> load_word a m = Some (word m p).
Proof. intros Ha Ht. unfold load_word. by rewrite (proj2 (Z.eqb_neq a 0)), Ht by done. Qed.

Section sound.
Context (page_directory : Z) (m : vm).

(** All the words of the memory are 32 bits wide. *)
Definition words_ok : Prop := forall p, is_u32 (word m p).

Lemma load_u32 a v : words_ok -> load_word a m = Some v -> is_u32 v.
Proof.
  intros Hw. unfold load_word. destruct (a =? 0); [done|]. destruct (translate m a); [|done].
  intros [= <-]. apply Hw.
Qed.

Lemma find_in_table_sound pt page rounds : forall i k,
  find_in_table rounds pt i page m = Some (Some k) ->
  i <= k < i + Z.of_nat rounds /\ exists e, load_word (pt + 4 * k) m = Some e /\
    (e .& PAGE_PRESENT =? 0) = false /\ frame e = page.
Proof.
  induction rounds as [|rounds IH]; intros i k; cbn [find_in_table]; [done|].
  destruct (load_word (pt + 4 * i) m) as [e|] eqn:He; cbn [mbind option_bind]; [|done].
  destruct (e .& PAGE_PRESENT =? 0) eqn:Hp; [intros H; destruct (IH _ _ H); split; [lia|done]|].
  destruct (Z.eqb_spec (frame e) page) as [Hf|Hf].
  - intros [= <-]. split; [lia|]. by exists e.
  - intros H. destruct (IH _ _ H). split; [lia|done].
Qed.

Lemma find_in_directory_sound page off rounds : words_ok -> forall i v, 0 <= i -> i + Z.of_nat rounds <= 1024 ->
  0 <= off < 4096 -> 0 <= page + off < 2 ^ 32 ->
  find_in_directory page_directory rounds i page off m = Some v -> v <> 0 ->
  virt_to_phys page_directory v m = Some (page + off).
Proof.
  intros Hw. induction rounds as [|rounds IH]; intros i v H0 Hi Ho Hr; cbn [find_in_directory]; [by intros [= <-]|].
  destruct (load_word (page_directory + 4 * i) m) as [d|] eqn:Hd; cbn [mbind option_bind]; [|done].
  destruct (d .& PAGE_PRESENT =? 0) eqn:Hp; [intros H; apply (IH (i + 1)); lia || done|].
  destruct (find_in_table (Z.to_nat 1024) (frame d) 0 page m) as [[k|]|] eqn:Hf; cbn [mbind option_bind];
    [|intros H; apply (IH (i + 1)); lia || done|done].
  intros [= <-] _. destruct (find_in_table_sound _ _ _ _ _ Hf) as (Hk & e & He & Hpe & Hfe).
  rewrite Z2Nat.id in Hk by lia. rewrite virtual_address by lia.
  destruct (virtual_indices i k off) as (H1 & H2 & H3); [lia..|]. unfold virt_to_phys.
  rewrite H1, H2, H3, Hd. cbn [mbind option_bind]. rewrite Hp, He. cbn [mbind option_bind].
  rewrite Hpe, Hfe. by rewrite u32_small.
Qed.
End sound.

(** ** After the initialisation *)

(** Where the linker puts the two tables: on pages of their own below 4 MB. *)
Record table_layout (page_directory first_page_table : Z) : Prop := {
  directory_low : 0 < page_directory < 2 ^ 22;
  table_low : 0 < first_page_table < 2 ^ 22;
  directory_aligned : page_directory mod 4096 = 0;
  table_aligned : first_page_table mod 4096 = 0;
  tables_apart : page_directory <> first_page_table;
}.

Section identity.
Context (page_directory first_page_table : Z) (layout : table_layout page_directory first_page_table).

(** The first 4 MB are mapped to themselves, nothing else is mapped. *)
Record identity_map (m : vm) : Prop := {
  im_paging : paging m = true;
  im_cr3 : cr3 m = page_directory;
  im_first : word m page_directory = entry (first_page_table / 4096);
  im_rest : forall i, 1 <= i < 1024 -> word m (page_directory + 4 * i) = 0;
  im_table : forall i, 0 <= i < 1024 -> word m (first_page_table + 4 * i) = entry i;
}.

(** Memory whose directory is clear from its second entry on. *)
Definition directory_clear (m : vm) : Prop :=
  forall i, 1 <= i < 1024 -> word m (page_directory + 4 * i) = 0.

Lemma store_unpaged m a v : paging m = false -> a <> 0 ->
  store_word a v m = Some (mk_vm (<[a := v]> (ram m)) (page_bitmap m) (cr3 m) (paging m)).
Proof.
  intros Hp Ha. unfold store_word, translate. by rewrite (proj2 (Z.eqb_neq a 0)), Hp by done.
Qed.

Lemma word_insert m a v b c g p : word (mk_vm (<[a := v]> (ram m)) b c g) p = if p =? a then v else word m p.
Proof.
  unfold word. cbn [ram]. destruct (Z.eqb_spec p a) as [->|Hp].
  - by rewrite lookup_insert_eq.
  - by rewrite lookup_insert_ne by done.
Qed.

Lemma fill_table n : forall i m, paging m = false -> 0 <= i -> i + Z.of_nat n <= 1024 ->
  exists m', each n i (fun i => store_word (first_page_table + 4 * i)
      (u32 (i * PAGE_SIZE) .| PAGE_PRESENT .| PAGE_RW)) m = Some m' /\ paging m' = false /\
    page_bitmap m' = page_bitmap m /\
    (forall p, ~ (exists k, i <= k < i + Z.of_nat n /\ p = first_page_table + 4 * k) -> word m' p = word m p) /\
    (forall k, i <= k < i + Z.of_nat n -> word m' (first_page_table + 4 * k) = entry k).
Proof.
  pose proof (table_low _ _ layout) as Hl.
  induction n as [|n IH]; intros i m Hp H0 Hi; cbn [each].
  - exists m. do 4 (split; [done|]). intros k Hk. lia.
  - rewrite store_unpaged by (done || lia). cbn [mbind option_bind].
    rewrite (u32_small (i + 1)) by width. edestruct (IH (i + 1)) as (m' & -> & Hp' & Hb & Hout & Hin);
      [exact Hp|lia..|]. exists m'. do 2 (split; [done|]). split; [exact Hb|]. split.
    + intros p Hn. rewrite Hout, word_insert.
      * rewrite (proj2 (Z.eqb_neq _ _)); [done|]. intros ->. apply Hn. exists i. lia.
      * intros (k & Hk & ->). apply Hn. exists k. lia.
    + intros k Hk. destruct (decide (k = i)) as [->|Hki]; [|apply Hin; lia].
      rewrite Hout by (intros (k & Hk' & He); lia). rewrite word_insert, Z.eqb_refl.
      unfold entry. rewrite u32_small; [done|]. unfold is_u32, PAGE_SIZE. lia.
Qed.

Lemma init_paging_spec m : paging m = false -> directory_clear m ->
  exists m', init_paging page_directory first_page_table m = Some m' /\ identity_map m' /\
    page_bitmap m' = page_bitmap m.
Proof.
  intros Hp Hc. destruct layout as [Hd Ht Had Hat Hne].
  assert (Hapart : forall i k, 0 <= i < 1024 -> 0 <= k < 1024 ->
            page_directory + 4 * i <> first_page_table + 4 * k) by lia.
  unfold init_paging. destruct (fill_table (Z.to_nat 1024) 0 m Hp) as (m1 & -> & Hp1 & Hb1 & Hout & Hin);
    [lia|rewrite Z2Nat.id; lia|]. rewrite Z2Nat.id in Hout, Hin by lia. cbn [mbind option_bind].
  rewrite store_unpaged by (done || lia). cbn [mbind option_bind ram page_bitmap cr3 paging].
  eexists. split; [done|]. split; [split; cbn [paging cr3]|done].
  - done.
  - done.
  - rewrite word_insert, Z.eqb_refl. unfold entry, PAGE_SIZE. do 2 f_equal. lia.
  - intros i Hi. rewrite word_insert, (proj2 (Z.eqb_neq _ _)) by lia. rewrite Hout; [by apply Hc|].
    intros (k & Hk & He). apply (Hapart i k); lia.
  - intros i Hi. rewrite word_insert, (proj2 (Z.eqb_neq _ _)); [apply Hin; lia|].
    specialize (Hapart 0 i). lia.
Qed.

Context (m : vm) (im : identity_map m).

Lemma table_page : 0 <= first_page_table / 4096 < 2 ^ 20.
Proof. pose proof (table_low _ _ layout). lia. Qed.
Lemma table_frame : frame (entry (first_page_table / 4096)) = first_page_table.
Proof.
  pose proof (table_low _ _ layout). pose proof (table_aligned _ _ layout).
  rewrite entry_frame by apply table_page. lia.
Qed.

Lemma translate_identity a : 0 <= a < 2 ^ 22 -> translate m a = Some a.
Proof.
  intros Ha. unfold translate. rewrite (im_paging m im), (im_cr3 m im). cbn [negb].
  rewrite !Z.shiftr_div_pow2 by lia. replace (a / 2 ^ 22) with 0 by lia.
  rewrite Z.mul_0_r, Z.add_0_r, (im_first m im), entry_present, table_frame by apply table_page.
  rewrite index_eq. replace (a / 2 ^ 12 mod 1024) with (a / 4096) by lia.
  rewrite (im_table m im), entry_present, entry_frame, offset_eq by lia. f_equal. lia.
Qed.

Lemma load_identity a : 0 < a < 2 ^ 22 -> load_word a m = Some (word m a).
Proof. intros Ha. apply load_word_eq; [lia|apply translate_identity; lia]. Qed.

Lemma load_directory i : 0 <= i < 1024 ->
  load_word (page_directory + 4 * i) m = Some (if i =? 0 then entry (first_page_table / 4096) else 0).
Proof.
  intros Hi. pose proof (directory_low _ _ layout). pose proof (directory_aligned _ _ layout).
  rewrite load_identity by lia. f_equal. destruct (Z.eqb_spec i 0) as [->|Hi0].
  - rewrite Z.mul_0_r, Z.add_0_r. apply im.
  - apply im. lia.
Qed.

Lemma load_table k : 0 <= k < 1024 -> load_word (first_page_table + 4 * k) m = Some (entry k).
Proof.
  intros Hk. pose proof (table_low _ _ layout). pose proof (table_aligned _ _ layout).
  rewrite load_identity by lia. f_equal. by apply im.
Qed.

Lemma virt_to_phys_identity a : is_u32 a ->
  virt_to_phys page_directory a m = Some (if a <? 2 ^ 22 then a else 0).
Proof.
  intros Ha. unfold virt_to_phys. rewrite !index_eq, offset_eq, !Z.shiftr_div_pow2 by lia.
  replace (a / 2 ^ 22 mod 1024) with (a / 2 ^ 22) by width. rewrite load_directory by width.
  cbn [mbind option_bind]. destruct (Z.ltb_spec a (2 ^ 22)) as [Hlt|Hge].
  - replace (a / 2 ^ 22) with 0 by width. cbn [Z.eqb]. rewrite entry_present, table_frame by apply table_page.
    replace (a / 2 ^ 12 mod 1024) with (a / 4096) by width. rewrite load_table by width.
    cbn [mbind option_bind]. rewrite entry_present, entry_frame by width.
    rewrite u32_small by width. f_equal. width.
  - by rewrite (proj2 (Z.eqb_neq (a / 2 ^ 22) 0)) by width.
Qed.

Lemma find_in_first_table page rounds : forall i, 0 <= i -> i + Z.of_nat rounds = 1024 -> i <= page ->
  find_in_table rounds first_page_table i (4096 * page) m = Some (if page <? 1024 then Some page else None).
Proof.
  induction rounds as [|rounds IH]; intros i H0 Hi Hp; cbn [find_in_table].
  - by rewrite (proj2 (Z.ltb_ge _ _)) by lia.
  - rewrite load_table by lia. cbn [mbind option_bind]. rewrite entry_present, entry_frame by lia.
    destruct (Z.eqb_spec (4096 * i) (4096 * page)) as [He|He]; [|apply IH; lia].
    assert (i = page) as <- by lia. by rewrite (proj2 (Z.ltb_lt _ _)) by lia.
Qed.

Lemma find_in_rest page off rounds : forall i, 1 <= i -> i + Z.of_nat rounds <= 1024 ->
  find_in_directory page_directory rounds i page off m = Some 0.
Proof.
  induction rounds as [|rounds IH]; intros i H1 Hi; cbn [find_in_directory]; [done|].
  rewrite load_directory by lia. cbn [mbind option_bind].
  rewrite (proj2 (Z.eqb_neq i 0)) by lia. apply IH; lia.
Qed.

Lemma phys_to_virt_identity a : is_u32 a ->
  phys_to_virt page_directory a m = Some (if a <? 2 ^ 22 then a else 0).
Proof.
  intros Ha. unfold phys_to_virt. rewrite frame_eq, offset_eq by done.
  destruct (Z.to_nat 1024) as [|n] eqn:Hn; [lia|]. cbn [find_in_directory]. rewrite Hn.
  rewrite load_directory by lia.
  cbn [mbind option_bind Z.eqb]. rewrite entry_present, table_frame by apply table_page.
  rewrite find_in_first_table by (lia || width). cbn [mbind option_bind].
  replace (a / 4096 <? 1024) with (a <? 2 ^ 22) by width. destruct (Z.ltb_spec a (2 ^ 22)) as [Hlt|Hge].
  - rewrite virtual_address by width. f_equal. width.
  - apply find_in_rest; lia.
Qed.
End identity.

(** C23: The bitmap of the pages implements first fit.  [alloc_n_pages] takes the first [n]
    free pages in a row, and no others, and returns the address of the first; without such a
    run, for no pages and for more than there are it returns 0 and takes nothing; [alloc_page]
    is the case of one page; freeing what was taken gives the set of pages back.  After the
    initialisation the pages of the first 4 MB are taken and the others free. *)
Theorem page_allocator_refines b P n : represents b P -> is_u32 n ->
  (0 < n <= NUM_PAGES ->
     (forall s, first_fit P n s -> exists b' b'',
        alloc_n_pages n b = Some (s * PAGE_SIZE, b') /\ represents b' (mark true P s n) /\
        free_n_pages (s * PAGE_SIZE) n b' = Some b'' /\ represents b'' P) /\
     ((forall s, ~ first_fit P n s) -> alloc_n_pages n b = Some (0, b))) /\
  (n = 0 \/ NUM_PAGES < n -> alloc_n_pages n b = Some (0, b)) /\
  alloc_page b = alloc_n_pages 1 b /\
  (exists b0, init_page_bitmap b = Some b0 /\ represents b0 (fun j => j <? 1024)).
Proof.
  intros Hb Hn. split; [|split; [|split]].
  - intros Hr. destruct (alloc_n_pages_spec n b P Hb Hr) as [(s & b' & Hf & He & Hb')|[Hno He]].
    + split; [|intros Hno; by destruct (Hno s)]. intros s' Hf'. rewrite <- (first_fit_unique P n s s' Hf Hf').
      destruct Hf as (H0 & Hle & Hrun & _).
      destruct (free_n_pages_spec n b' _ s Hb' H0 ltac:(lia) Hle) as (b'' & Hfree & Hb'').
      exists b', b''. do 3 (split; [done|]). refine (represents_ext b'' _ _ _ Hb'').
      intros j _. by apply mark_free.
    + split; [|done]. intros s Hf. by destruct (Hno s).
  - intros Hout. unfold alloc_n_pages. by rewrite (proj2 (orb_true_iff _ _)) by lia.
  - unfold alloc_page, alloc_n_pages. rewrite (proj2 (orb_false_iff _ _)) by (rewrite num_pages; lia).
    apply alloc_page_is_alloc_n; [done|]. rewrite Z2Nat.id; rewrite num_pages; lia.
  - apply init_page_bitmap_spec. exact (proj1 Hb).
Qed.

(** Four pages taken, [alloc_n_pages 2], computed. *)
Definition four_pages : bitmap := {[0 := 15]}.

Lemma four_pages_taken : represents four_pages (fun j => j <? 4).
Proof.
  assert (byte_of four_pages 0 = 15) as H0 by done.
  assert (forall i, i <> 0 -> byte_of four_pages i = 0) as Hi.
  { intros i Hi. unfold byte_of, four_pages. by rewrite lookup_singleton_ne. }
  split.
  - intros i. destruct (decide (i = 0)) as [->|Hne]; [by rewrite H0|by rewrite Hi].
  - intros j Hj. unfold taken. destruct (decide (j / 8 = 0)) as [He|He].
    + rewrite He, H0. apply (table_eq (fun j => Z.testbit 15 (j mod 8)) (fun j => j <? 4) 8); [by vm_compute|lia].
    + rewrite Hi, Z.bits_0 by done. symmetry. apply Z.ltb_ge. lia.
Qed.

Lemma page_allocator_refines_witness :
  exists b' b'', alloc_n_pages 2 four_pages = Some (0x4000, b') /\ represents b' (mark true (fun j => j <? 4) 4 2) /\
    free_n_pages 0x4000 2 b' = Some b'' /\ represents b'' (fun j => j <? 4).
Proof.
  destruct (page_allocator_refines four_pages (fun j => j <? 4) 2) as [Ha _]; [exact four_pages_taken|done|].
  destruct Ha as [Ha _]; [rewrite num_pages; lia|]. apply (Ha 4). split; [lia|]. split; [rewrite num_pages; lia|].
  split; [intros j Hj; lia|]. intros s Hs Hr. specialize (Hr s ltac:(lia)). lia.
Defined.

Lemma phys_to_virt_eq page_directory p m : is_u32 p -> phys_to_virt page_directory p m =
  find_in_directory page_directory (Z.to_nat 1024) 0 (4096 * (p / 4096)) (p mod 4096) m.
Proof. intros Hp. unfold phys_to_virt. by rewrite frame_eq, offset_eq. Qed.

(** On every memory, an address that [phys_to_virt] finds in the page tables is translated
    back by [virt_to_phys]; [phys_to_virt] returns 0 both for no mapping and for one at 0. *)
Theorem phys_to_virt_sound page_directory m p v :
  words_ok m -> is_u32 p -> phys_to_virt page_directory p m = Some v -> v <> 0 ->
  virt_to_phys page_directory v m = Some p.
Proof.
  intros Hw Hp Hf Hv. rewrite phys_to_virt_eq in Hf by done.
  pose proof (find_in_directory_sound page_directory m (4096 * (p / 4096)) (p mod 4096) (Z.to_nat 1024) Hw 0 v) as Hs.
  rewrite Hs; [f_equal; lia|lia|rewrite Z2Nat.id; lia|lia|width|exact Hf|exact Hv].
Qed.

(** A directory with one table, which maps page 3 at its entry 5. *)
Definition small_tables : vm := mk_vm {[0x1000 := 0x2003; 0x2014 := 0x3003]} ∅ 0 false.

Lemma phys_to_virt_sound_witness :
  phys_to_virt 0x1000 0x3123 small_tables = Some 0x5123 /\ virt_to_phys 0x1000 0x5123 small_tables = Some 0x3123.
Proof.
  assert (phys_to_virt 0x1000 0x3123 small_tables = Some 0x5123) as Hf by (vm_compute; reflexivity).
  split; [exact Hf|].
  refine (phys_to_virt_sound 0x1000 small_tables 0x3123 0x5123 _ _ Hf _); [|width|done].
  intros q. unfold word, small_tables. cbn [ram].
  destruct (decide (q = 0x1000)) as [->|H1]; [done|]. destruct (decide (q = 0x2014)) as [->|H2]; [done|].
  by rewrite lookup_insert_ne, lookup_singleton_ne by done.
Defined.

(** ** The heap *)

Lemma initial_fit n s : 0 < n -> first_fit initial_pages n s <-> s = 1024 /\ 1024 + n <= NUM_PAGES.
Proof.
  intros Hn. unfold first_fit, is_run, initial_pages. split.
  - intros (H0 & Hle & Hr & Hl). assert (1024 <= s) by (specialize (Hr s ltac:(lia)); lia).
    destruct (decide (s = 1024)) as [->|Hs]; [done|]. exfalso. apply (Hl 1024); [lia|]. intros j Hj. lia.
  - intros [-> Hle]. split; [lia|]. split; [done|]. split; [intros j Hj; lia|].
    intros s' Hs' Hr. specialize (Hr s' ltac:(lia)). lia.
Qed.

Lemma alloc_n_pages_none n b : n = 0 \/ NUM_PAGES < n -> alloc_n_pages n b = Some (0, b).
Proof. intros Hout. unfold alloc_n_pages. by rewrite (proj2 (orb_true_iff _ _)) by lia. Qed.

#[local] Opaque alloc_n_pages phys_to_virt.

Section heap.
Context (page_directory first_page_table : Z) (layout : table_layout page_directory first_page_table).

(** The number of pages that [kmalloc] asks for. *)
Definition pages_needed (size : Z) : Z := u32 (size + PAGE_SIZE - 1) / PAGE_SIZE.

Lemma kmalloc_eq size m : size <> 0 -> kmalloc page_directory size m =
  '(phys_addr, b) ← alloc_n_pages (pages_needed size) (page_bitmap m);
  if phys_addr =? 0 then Some (0, with_bitmap b m)
  else
    virt_addr ← phys_to_virt page_directory phys_addr (with_bitmap b m);
    m' ← store_word virt_addr (pages_needed size) (with_bitmap b m); Some (u32 (virt_addr + 4), m').
Proof. intros Hs. unfold kmalloc. by rewrite (proj2 (Z.eqb_neq size 0)) by done. Qed.

Lemma alloc_initial n b : represents b initial_pages ->
  (0 < n -> 1024 + n <= NUM_PAGES -> exists b', alloc_n_pages n b = Some (2 ^ 22, b')) /\
  (0 <= n -> n = 0 \/ NUM_PAGES < 1024 + n -> alloc_n_pages n b = Some (0, b)).
Proof.
  intros Hr. split.
  - intros H0 Hn. destruct (alloc_n_pages_spec n b _ Hr) as [(s & b' & Hf & -> & _)|[Hno _]]; [lia| |].
    + apply initial_fit in Hf as [-> _]; [|done]. by exists b'.
    + exfalso. apply (Hno 1024). by apply initial_fit.
  - intros H0 Hout. destruct (decide (0 < n <= NUM_PAGES)) as [Hn|Hn]; [|apply alloc_n_pages_none; lia].
    destruct (alloc_n_pages_spec n b _ Hr Hn) as [(s & b' & Hf & _)|[_ He]]; [exfalso|done].
    apply initial_fit in Hf as [_ Hf]; lia.
Qed.

Lemma kmalloc_fails m size : identity_map page_directory first_page_table m ->
  represents (page_bitmap m) initial_pages -> 0 < size <= 2 ^ 32 - 2 ^ 22 ->
  kmalloc page_directory size m = None.
Proof.
  intros Him Hr Hs. rewrite kmalloc_eq by lia.
  destruct (proj1 (alloc_initial (pages_needed size) _ Hr)) as (b & ->).
  - unfold pages_needed, PAGE_SIZE. rewrite u32_small; width.
  - rewrite num_pages. unfold pages_needed, PAGE_SIZE. rewrite u32_small; width.
  - cbn [mbind option_bind]. rewrite (proj2 (Z.eqb_neq (2 ^ 22) 0)) by lia.
    rewrite (phys_to_virt_identity page_directory first_page_table layout);
      [|by destruct Him|width]. by rewrite (proj2 (Z.ltb_ge _ _)) by lia.
Qed.

Lemma kmalloc_null m size : represents (page_bitmap m) initial_pages ->
  size = 0 \/ 2 ^ 32 - 2 ^ 22 < size < 2 ^ 32 -> kmalloc page_directory size m = Some (0, m).
Proof.
  intros Hr [->|Hs]; [done|]. rewrite kmalloc_eq by lia.
  rewrite (proj2 (alloc_initial (pages_needed size) _ Hr)).
  - cbn [mbind option_bind]. rewrite Z.eqb_refl. by destruct m.
  - unfold pages_needed, PAGE_SIZE. width.
  - rewrite num_pages. unfold pages_needed, PAGE_SIZE. width.
Qed.
End heap.

(** C24: After [init_paging] and [init_page_bitmap] the two translations are the identity below
    4 MB and 0 above.  No request to [kmalloc] is ever served: up to 2^32 - 2^22 bytes the pages
    are found above 4 MB, where nothing is mapped, and the header is written through the null
    pointer; beyond that, and for no bytes, the answer is NULL. *)
Theorem heap_after_init page_directory first_page_table m :
  table_layout page_directory first_page_table ->
  paging m = false -> directory_clear page_directory m -> bytes_ok (page_bitmap m) ->
  exists m1 b, init_paging page_directory first_page_table m = Some m1 /\
    init_page_bitmap (page_bitmap m1) = Some b /\
    let m2 := with_bitmap b m1 in
    (forall a, is_u32 a ->
       virt_to_phys page_directory a m2 = Some (if a <? 2 ^ 22 then a else 0) /\
       phys_to_virt page_directory a m2 = Some (if a <? 2 ^ 22 then a else 0)) /\
    (forall size, 0 < size <= 2 ^ 32 - 2 ^ 22 -> kmalloc page_directory size m2 = None) /\
    (forall size, size = 0 \/ 2 ^ 32 - 2 ^ 22 < size < 2 ^ 32 -> kmalloc page_directory size m2 = Some (0, m2)).
Proof.
  intros Hl Hp Hc Hb.
  destruct (init_paging_spec page_directory first_page_table Hl m Hp Hc) as (m1 & H1 & Him & Hbm).
  destruct (init_page_bitmap_spec (page_bitmap m1)) as (b & H2 & Hr); [by rewrite Hbm|].
  exists m1, b. do 2 (split; [done|]). intros m2.
  assert (identity_map page_directory first_page_table m2) as Him2 by (destruct Him; by split).
  split; [|split].
  - intros a Ha. split; [by eapply virt_to_phys_identity|by eapply phys_to_virt_identity].
  - intros size Hs. by apply (kmalloc_fails page_directory first_page_table Hl m2 size Him2 Hr).
  - intros size Hs. by apply kmalloc_null.
Qed.

(** The tables at 1 MB and at 1 MB + 4 KB, in cleared memory. *)
Lemma heap_after_init_witness : exists m1 b,
  init_paging 0x100000 0x101000 (mk_vm ∅ ∅ 0 false) = Some m1 /\ init_page_bitmap (page_bitmap m1) = Some b /\
  kmalloc 0x100000 64 (with_bitmap b m1) = None.
Proof.
  destruct (heap_after_init 0x100000 0x101000 (mk_vm ∅ ∅ 0 false)) as (m1 & b & H1 & H2 & _ & H3 & _).
  - split; done.
  - done.
  - intros i Hi. done.
  - intros i. done.
  - exists m1, b. split; [exact H1|]. split; [exact H2|]. apply H3. clear. lia.
Defined.
