(* ===== verification/SegmentDescriptor.v ===== *)
(** * Segment descriptors ([cpu/gdt/f3_segment_descriptor_internals.c], [cpu/gdt/gdt.h])

    The fields of a descriptor read and written in its two words, the views of the same
    eight bytes as structs, and the printed interpretation of the access byte and the
    flags.  A setter prints the value it has stored; the descriptor itself is passed in
    and handed back.  Undefined shifts and accesses out of bounds are [None]. *)

From S2P Require Import Prelude Machine Bits StringHelper Terminal BitHex.

(** ** The eight bytes *)

Record SegmentDescriptor := mk_sd { lower : Z; higher : Z }.

Definition TYPE_START : Z := 8.
Definition TYPE_END : Z := 11.
Definition DESCRIPTOR_TYPE_S : Z := 12.
Definition DPL_START : Z := 13.
Definition DPL_END : Z := 14.
Definition SEGMENT_LIMIT_START_1 : Z := 0.
Definition SEGMENT_LIMIT_END_1 : Z := 15.
Definition SEGMENT_LIMIT_START_2 : Z := 16.
Definition SEGMENT_LIMIT_END_2 : Z := 19.
Definition AVL : Z := 20.
Definition DEFAULT_OPERATION_SIZE : Z := 22.
Definition GRANULARITY : Z := 23.

(** The macros of the access byte and of the flags, at the end of the header.  They hide the
    constants [PRESENT = 15] and [LONG_MODE = 21] that the header declares before them. *)
Definition PRESENT : Z := 1 ≪ 7.
Definition NOT_SYS : Z := 1 ≪ 4.
Definition EXEC : Z := 1 ≪ 3.
Definition RW : Z := 1 ≪ 1.
Definition ACCESSED : Z := 1 ≪ 0.
Definition GRAN_4K : Z := 1 ≪ 7.
Definition LONG_MODE : Z := 1 ≪ 5.
Definition INTERPRET_STR_LEN : nat := 128.

(** [SegmentDescriptorModern], the same fields as [segment_descriptor_t] of [gdt.h]. *)
Record segment_descriptor_t := mk_descriptor {
  limit_low : Z;
  base_low : Z;
  base_middle : Z;
  type : Z;
  s : Z;
  dpl : Z;
  p : Z;
  limit_high : Z;
  avl : Z;
  l : Z;
  db : Z;
  g : Z;
  base_high : Z;
}.

(** The cast of a pointer to the words to a pointer to the fields, and back. *)
Definition fields_of (sd : SegmentDescriptor) : segment_descriptor_t :=
  let f e s := (higher sd ≫ s) .& Z.ones (e - s + 1) in
  mk_descriptor (lower sd .& 0xFFFF) (lower sd ≫ 16) (f 7 0) (f 11 8) (f 12 12) (f 14 13) (f 15 15)
    (f 19 16) (f 20 20) (f 21 21) (f 22 22) (f 23 23) (f 31 24).
Definition words_of (d : segment_descriptor_t) : SegmentDescriptor :=
  mk_sd (limit_low d .| (base_low d ≪ 16))
    (base_middle d .| (type d ≪ 8) .| (s d ≪ 12) .| (dpl d ≪ 13) .| (p d ≪ 15) .| (limit_high d ≪ 16)
     .| (avl d ≪ 20) .| (l d ≪ 21) .| (db d ≪ 22) .| (g d ≪ 23) .| (base_high d ≪ 24)).
Definition set_type (v : Z) (d : segment_descriptor_t) : segment_descriptor_t :=
  mk_descriptor (limit_low d) (base_low d) (base_middle d) v (s d) (dpl d) (p d) (limit_high d) (avl d)
    (l d) (db d) (g d) (base_high d).

(** ** [gdt.h] *)

Definition get_segment_descriptor_base (desc : segment_descriptor_t) : Z :=
  u32 (base_high desc ≪ 24) .| (base_middle desc ≪ 16) .| base_low desc.
Definition set_segment_descriptor_base (desc : segment_descriptor_t) (base : Z) : segment_descriptor_t :=
  mk_descriptor (limit_low desc) (u16 base) (u8 (base ≫ 16)) (type desc) (s desc) (dpl desc) (p desc)
    (limit_high desc) (avl desc) (l desc) (db desc) (g desc) (u8 (base ≫ 24)).
Definition set_segment_descriptor_limit (desc : segment_descriptor_t) (limit : Z) : segment_descriptor_t :=
  mk_descriptor (u16 limit) (base_low desc) (base_middle desc) (type desc) (s desc) (dpl desc) (p desc)
    ((limit ≫ 16) .& 0xF) (avl desc) (l desc) (db desc) (g desc) (base_high desc).
Definition get_segment_descriptor_limit (desc : segment_descriptor_t) : Z :=
  (limit_high desc ≪ 16) .| limit_low desc.

(** ** Getters: the value, converted to the result type *)

Definition get_u8 (v : option Z) : option Z := v ← v; Some (u8 v).

Definition getType (sd : SegmentDescriptor) : Z := type (fields_of sd).
Definition getDescriptorTypeS (sd : SegmentDescriptor) : option Z :=
  get_u8 (getBits (higher sd) DESCRIPTOR_TYPE_S DESCRIPTOR_TYPE_S).
Definition getPriviledgeDPL (sd : SegmentDescriptor) : option Z :=
  get_u8 (getBits (higher sd) DPL_END DPL_START).
Definition getPresent (sd : SegmentDescriptor) : option Z :=
  get_u8 (getBits (higher sd) PRESENT PRESENT).
Definition getSegmentLimit (sd : SegmentDescriptor) : option Z :=
  segmentLimit_19_16 ← getBits (higher sd) SEGMENT_LIMIT_END_2 SEGMENT_LIMIT_START_2;
  segmentLimit_15_0 ← getBits (lower sd) SEGMENT_LIMIT_END_1 SEGMENT_LIMIT_START_1;
  segmentLimt_19_16_shifted ← shl32 segmentLimit_19_16 16;
  Some (segmentLimt_19_16_shifted .| segmentLimit_15_0).
Definition getAVL (sd : SegmentDescriptor) : option Z := get_u8 (getBits (higher sd) AVL AVL).
Definition getLongMode (sd : SegmentDescriptor) : option Z :=
  get_u8 (getBits (higher sd) LONG_MODE LONG_MODE).
Definition getDefaultOperationSize (sd : SegmentDescriptor) : option Z :=
  get_u8 (getBits (higher sd) DEFAULT_OPERATION_SIZE DEFAULT_OPERATION_SIZE).
Definition getGranularity (sd : SegmentDescriptor) : option Z :=
  get_u8 (getBits (higher sd) GRANULARITY GRANULARITY).
Definition getBaseAddress (sd : SegmentDescriptor) : option Z :=
  base_0_15 ← getBits (lower sd) 31 16;
  base_16_23 ← getBits (higher sd) 7 0;
  base_24_31 ← getBits (higher sd) 31 24;
  base_0_15_shifted ← shl32 base_0_15 0;
  base_16_23_shifted ← shl32 base_16_23 16;
  base_24_31_shifted ← shl32 base_24_31 24;
  Some (base_0_15_shifted .| base_16_23_shifted .| base_24_31_shifted).

(** [get_access] and the flags of [get_flags], through [SegmentDescriptorNice]. *)
Definition get_access (sd : SegmentDescriptor) : Z := u8 (higher sd ≫ 8).
Definition flags_of (sd : SegmentDescriptor) : Z := u8 (u8 (higher sd ≫ 16) ≫ 4).

(** ** Setters: the new words *)

(** [setBitsModify(&sd->higher, v, endBig, startSmall)], and for the lower word. *)
Definition set_higher (sd : SegmentDescriptor) (v endBig startSmall : Z) : option SegmentDescriptor :=
  w ← setBitsModify (higher sd) v endBig startSmall; Some (mk_sd (lower sd) w).
Definition set_lower (sd : SegmentDescriptor) (v endBig startSmall : Z) : option SegmentDescriptor :=
  w ← setBitsModify (lower sd) v endBig startSmall; Some (mk_sd w (higher sd)).

Definition limit_words (sd : SegmentDescriptor) (segmentLimit : Z) : option SegmentDescriptor :=
  higher_19_16 ← getBits segmentLimit SEGMENT_LIMIT_END_2 SEGMENT_LIMIT_START_2;
  lower_15_0 ← getBits segmentLimit SEGMENT_LIMIT_END_1 SEGMENT_LIMIT_START_1;
  sd ← set_higher sd higher_19_16 SEGMENT_LIMIT_END_2 SEGMENT_LIMIT_START_2;
  set_lower sd lower_15_0 SEGMENT_LIMIT_END_1 SEGMENT_LIMIT_START_1.

Definition base_words (sd : SegmentDescriptor) (baseAddress : Z) : option SegmentDescriptor :=
  higher_31_24 ← getBits baseAddress 31 24;
  higher_7_0 ← getBits baseAddress 23 16;
  lower_31_16 ← getBits baseAddress 15 0;
  sd ← set_lower sd lower_31_16 31 16;
  sd ← set_higher sd higher_7_0 7 0;
  set_higher sd higher_31_24 31 24.

Section setters.
Context {D : Type} `{PortDevice D}.
Abbreviation T A := (M D Terminal A).

(** Store, then print the value under its name. *)
Definition store_and_print (sd : option SegmentDescriptor) (v : Z) (name : string) : T SegmentDescriptor :=
  sd ← read_cell sd; printBinary v (cstr name);; mret sd.

Definition setType (sd : SegmentDescriptor) (type : Z) : T SegmentDescriptor :=
  store_and_print (Some (words_of (set_type (type .& 0xF) (fields_of sd)))) type "type".
Definition setDescriptorTypeS (sd : SegmentDescriptor) (descriptorTypeS : Z) : T SegmentDescriptor :=
  store_and_print (set_higher sd descriptorTypeS DESCRIPTOR_TYPE_S DESCRIPTOR_TYPE_S)
    descriptorTypeS "descriptorTypeS".
Definition setPriviledgeDPL (sd : SegmentDescriptor) (priviledgeDPL : Z) : T SegmentDescriptor :=
  store_and_print (set_higher sd priviledgeDPL DPL_END DPL_START) priviledgeDPL "priviledgeDPL".
Definition setPresent (sd : SegmentDescriptor) (presentP : Z) : T SegmentDescriptor :=
  store_and_print (set_higher sd presentP PRESENT PRESENT) presentP "presentP".
Definition setSegmentLimit (sd : SegmentDescriptor) (segmentLimit : Z) : T SegmentDescriptor :=
  store_and_print (limit_words sd segmentLimit) segmentLimit "segmentLimit".
Definition setAVL (sd : SegmentDescriptor) (avl : Z) : T SegmentDescriptor :=
  store_and_print (set_higher sd avl AVL AVL) avl "avl".
Definition setLongMode (sd : SegmentDescriptor) (L : Z) : T SegmentDescriptor :=
  store_and_print (set_higher sd L LONG_MODE LONG_MODE) L "L".
Definition setDefaultOperationSize (sd : SegmentDescriptor) (DsB : Z) : T SegmentDescriptor :=
  store_and_print (set_higher sd DsB DEFAULT_OPERATION_SIZE DEFAULT_OPERATION_SIZE) DsB "DsB".
Definition setGranularity (sd : SegmentDescriptor) (granularity : Z) : T SegmentDescriptor :=
  store_and_print (set_higher sd granularity GRANULARITY GRANULARITY) granularity "granularity".
Definition setBaseAddress (sd : SegmentDescriptor) (baseAddress : Z) : T SegmentDescriptor :=
  store_and_print (base_words sd baseAddress) baseAddress "baseAddress".
End setters.

(** ** The text of the access byte and of the flags *)

Definition bool_to_char (b : bool) : Z := if b then 49 else 48.

(** [modify_string]: the rest of the string. *)
Fixpoint modify_from (str : bytes) (value bit_index : Z) : option bytes :=
  match str with
  | [] => None
  | c :: rest =>
      if c =? 0 then Some str
      else if c =? 37 then
        if 8 <=? bit_index then Some str
        else
          rest ← modify_from rest value (bit_index + 1);
          Some (bool_to_char (negb ((value ≫ bit_index) .& 1 =? 0)) :: rest)
      else rest ← modify_from rest value bit_index; Some (c :: rest)
  end.
Definition modify_string (str : bytes) (value : Z) : option bytes := modify_from str value 0.

(** [modify_string_opsize]: [c] is read at [pos], the digits are stored at [string_index], an
    [uint8_t]; for other values the digits are not assigned. *)
Fixpoint opsize_loop (rounds : nat) (str : bytes) (pos string_index digit_index : Z)
    (value_str : option (Z * Z)) : option bytes :=
  match rounds with
  | O => None
  | S rounds =>
      c ← load str pos;
      if c =? 0 then Some str
      else if c =? 37 then
        if 2 <=? digit_index then Some str
        else
          digits ← value_str;
          str ← store str string_index (if digit_index =? 0 then fst digits else snd digits);
          opsize_loop rounds str (pos + 1) (u8 (string_index + 1)) (digit_index + 1) value_str
      else opsize_loop rounds str (pos + 1) (u8 (string_index + 1)) digit_index value_str
  end.
Definition modify_string_opsize (str : bytes) (value : Z) : option bytes :=
  let value_str :=
    if value =? 16 then Some (49, 54) else if value =? 32 then Some (51, 50)
    else if value =? 64 then Some (54, 52) else None in
  opsize_loop (length str) str 0 0 0 value_str.

Record AccessDesc := mk_access_desc {
  a_header_str : bytes;
  present_str : bytes;
  dpl_str : bytes;
  not_sys_str : bytes;
  exec_str : bytes;
  conforming_str : bytes;
  read_write_str : bytes;
  accessed_str : bytes;
}.
Record FlagsDesc := mk_flags_desc {
  f_header_str : bytes;
  granularity_str : bytes;
  opsize_32_str : bytes;
  long_mode_str : bytes;
  avail_str : bytes;
  opsize_str : bytes;
}.
Inductive TaggedDesc :=
| Access (accessDesc : AccessDesc)
| Flags (flagsDesc : FlagsDesc).

(** [output[char_index] = c; char_index++;] *)
Definition put (o : bytes * Z) (c : Z) : option (bytes * Z) :=
  output ← store (fst o) (snd o) c; Some (output, u8 (snd o + 1)).

(** The header up to its brace, and what is left of it. *)
Fixpoint copy_header (header_char : bytes) (o : bytes * Z) : option (bytes * (bytes * Z)) :=
  match header_char with
  | [] => None
  | c :: rest => if c =? 123 then Some (header_char, o) else o ← put o c; copy_header rest o
  end.
Fixpoint copy_chars (str : bytes) (o : bytes * Z) : option (bytes * Z) :=
  match str with
  | [] => None
  | c :: rest => if c =? 0 then Some o else o ← put o c; copy_chars rest o
  end.
Fixpoint copy_fields (fields : list bytes) (o : bytes * Z) : option (bytes * Z) :=
  match fields with
  | [] => Some o
  | chosen_field :: fields =>
      output ← store (fst o) (snd o) 10;
      output ← store output (snd o + 1) 9;
      o ← copy_chars chosen_field (output, u8 (snd o + 2));
      copy_fields fields o
  end.

Definition header_and_fields (taggedDesc : TaggedDesc) : bytes * list bytes :=
  match taggedDesc with
  | Access d => (a_header_str d,
      [present_str d; dpl_str d; not_sys_str d; exec_str d; conforming_str d; read_write_str d; accessed_str d])
  | Flags d => (f_header_str d,
      [granularity_str d; opsize_32_str d; long_mode_str d; avail_str d; opsize_str d])
  end.

Definition create_access_desc_str (output : bytes) (taggedDesc : TaggedDesc) : option bytes :=
  let '(header_str, fields) := header_and_fields taggedDesc in
  '(header_char, o) ← copy_header header_str (output, 0);
  o ← put o 123;
  o ← copy_fields fields o;
  o ← put o 10;
  '(output, char_index) ← copy_chars (tail header_char) o;
  output ← store output char_index 10;
  store output (char_index + 1) 0.

(** [(v >> n) & 1] *)
Definition flag_at (v n : Z) : Z := (v ≫ n) .& 1.

Definition access_desc (access : Z) : option AccessDesc :=
  let exec := negb (flag_at access 3 =? 0) in
  present_str ← modify_string (cstr "present = %") (flag_at access 7);
  dpl_str ← modify_string (cstr "dpl = %%") ((access ≫ 5) .& 3);
  not_sys_str ← modify_string (cstr "Not System = %") (flag_at access 4);
  let exec_str := cstr (if exec then "Code" else "Data") in
  conforming_str ← modify_string
    (cstr (if exec then "Non Conforming = %" else "Expand Down = %")) (flag_at access 2);
  read_write_str ← modify_string
    (cstr (if exec then "Read Permission = %" else "Write Permission = %")) (flag_at access 1);
  accessed_str ← modify_string (cstr "accessed = %") (flag_at access 0);
  Some (mk_access_desc (cstr "Access = {}") present_str dpl_str not_sys_str exec_str conforming_str
    read_write_str accessed_str).

Definition interpret_access (access : Z) (output : bytes) : option bytes :=
  d ← access_desc access; create_access_desc_str output (Access d).

Definition flags_desc (flags : Z) : option FlagsDesc :=
  let opsize :=
    if negb (flag_at flags 5 =? 0) then 64 else if negb (flag_at flags 6 =? 0) then 32 else 16 in
  granularity_str ← modify_string (cstr "granularity = %") (flag_at flags 7);
  opsize_32_str ← modify_string (cstr "opsize32 = %") (flag_at flags 6);
  long_mode_str ← modify_string (cstr "long_mode = %") (flag_at flags 5);
  avail_str ← modify_string (cstr "avail = %") (flag_at flags 4);
  opsize_str ← modify_string_opsize (cstr "___real_opsize = %%") opsize;
  Some (mk_flags_desc (removelast (cstr "Flags = {}") ++ [10; 0]) granularity_str opsize_32_str
    long_mode_str avail_str opsize_str).

Definition interpret_flags (flags : Z) (output : bytes) : option bytes :=
  d ← flags_desc flags; create_access_desc_str output (Flags d).

Definition interpret_test : option unit :=
  output ← interpret_access (PRESENT .| NOT_SYS .| RW .| ACCESSED .| EXEC) (char_array INTERPRET_STR_LEN);
  output ← interpret_access (PRESENT .| NOT_SYS .| RW .| ACCESSED) output;
  output ← interpret_flags GRAN_4K output;
  Some tt.

Section printing.
Context {D : Type} `{PortDevice D}.
Abbreviation T A := (M D Terminal A).

Definition get_flags (sd : SegmentDescriptor) : T Z :=
  let flags := flags_of sd in
  (if flags >? 0xF then
     terminal_writestring (removelast (cstr "Flags is too big, this is an impossible case") ++ [10; 0])
   else mret tt);;
  mret flags.

Definition printFlags (sd : SegmentDescriptor) : T unit :=
  flags ← get_flags sd;
  printBinarySize flags (cstr "flags") 4;;
  flagsOutput ← read_cell (interpret_flags flags (char_array INTERPRET_STR_LEN));
  terminal_writestring flagsOutput.

Definition printAccess (sd : SegmentDescriptor) : T unit :=
  let access := get_access sd in
  printBinarySize access (cstr "access") 8;;
  accessOutput ← read_cell (interpret_access access (char_array INTERPRET_STR_LEN));
  terminal_writestring accessOutput.
End printing.
