(* ===== verification/SegmentDescriptorFacts.v ===== *)
(** * Segment descriptors: what the bit operations and the texts amount to

    [descriptor_fields]: the functions on the two words agree with the struct of bit fields
    and the helpers of [gdt.h], but for the two fields whose positions a macro hides.
    [descriptor_texts]: the interpretation of access byte and flags. *)

From stdpp Require Import gmap.
From S2P Require Import Prelude Machine Bits StringHelper KeyboardHandlerFacts Terminal TerminalFacts BitHex BitHexFacts SegmentDescriptor.

(** [lia] with division and remainder. *)
Ltac Zify.zify_post_hook ::= Z.to_euclidean_division_equations.

(** ** Fields as arithmetic *)

Lemma field_set_sum e s b v : 0 <= s <= e -> fits e s b ->
  field_set e s b v = v + (b - field_get e s v) * 2 ^ s.
Proof.
  intros Hs Hb.
  assert (Hm : v .& field_mask e s = field_get e s v ≪ s).
  { apply Z.bits_inj'. intros i Hi. rewrite Z.land_spec, field_mask_testbit, Z.shiftl_spec by lia.
    destruct (decide (i < s)).
    - rewrite (Z.testbit_neg_r (field_get e s v)) by lia. by rewrite (proj2 (andb_false_iff (s <=? i) (i <=? e))), andb_false_r by lia.
    - rewrite field_get_testbit by lia. replace (i - s + s) with i by lia. f_equal. lia. }
  assert (Hd : Z.ldiff v (field_mask e s) = v - (field_get e s v ≪ s)).
  { rewrite <- Hm. rewrite Z.sub_nocarry_ldiff.
    - apply Z.bits_inj'. intros i Hi. rewrite !Z.ldiff_spec, Z.land_spec.
      by destruct (Z.testbit v i), (Z.testbit (field_mask e s) i).
    - apply Z.bits_inj'. intros i Hi. rewrite Z.ldiff_spec, Z.land_spec, Z.bits_0.
      by destruct (Z.testbit v i), (Z.testbit (field_mask e s) i). }
  assert (Hdis : Z.ldiff v (field_mask e s) .& (b ≪ s) = 0).
  { apply Z.bits_inj'. intros i Hi. rewrite Z.land_spec, Z.ldiff_spec, field_mask_testbit, Z.shiftl_spec, Z.bits_0 by lia.
    destruct (decide (i < s)); [by rewrite (Z.testbit_neg_r b), andb_false_r by lia|].
    destruct (decide (i <= e)).
    - by rewrite (proj2 (andb_true_iff (s <=? i) (i <=? e))), andb_false_r by lia.
    - rewrite (testbit_high (e - s + 1) b) by (unfold fits in Hb; lia). by rewrite andb_false_r. }
  unfold field_set. rewrite <- Z.lxor_lor, <- Z.add_nocarry_lxor by done.
  rewrite Hd, !Z.shiftl_mul_pow2 by lia. lia.
Qed.

Lemma land_nibble x : x .& 0xF = x mod 2 ^ 4.
Proof. exact (Z.land_ones x 4 ltac:(lia)). Qed.

(** A descriptor whose fields have their widths. *)
Record descriptor_ok (d : segment_descriptor_t) : Prop := {
  ok_limit_low : 0 <= limit_low d < 2 ^ 16;
  ok_base_low : 0 <= base_low d < 2 ^ 16;
  ok_base_middle : 0 <= base_middle d < 2 ^ 8;
  ok_type : 0 <= type d < 2 ^ 4;
  ok_s : 0 <= s d < 2;
  ok_dpl : 0 <= dpl d < 2 ^ 2;
  ok_p : 0 <= p d < 2;
  ok_limit_high : 0 <= limit_high d < 2 ^ 4;
  ok_avl : 0 <= avl d < 2;
  ok_l : 0 <= l d < 2;
  ok_db : 0 <= db d < 2;
  ok_g : 0 <= g d < 2;
  ok_base_high : 0 <= base_high d < 2 ^ 8;
}.

Lemma words_of_sum d : descriptor_ok d -> words_of d =
  mk_sd (limit_low d + base_low d * 2 ^ 16)
    (base_middle d + type d * 2 ^ 8 + s d * 2 ^ 12 + dpl d * 2 ^ 13 + p d * 2 ^ 15 + limit_high d * 2 ^ 16
     + avl d * 2 ^ 20 + l d * 2 ^ 21 + db d * 2 ^ 22 + g d * 2 ^ 23 + base_high d * 2 ^ 24).
Proof.
  intros []. unfold words_of. f_equal; [by rewrite lor_shift_add by lia|].
  rewrite (lor_shift_add 8), (lor_shift_add 12), (lor_shift_add 13), (lor_shift_add 15), (lor_shift_add 16),
    (lor_shift_add 20), (lor_shift_add 21), (lor_shift_add 22), (lor_shift_add 23), (lor_shift_add 24) by lia.
  done.
Qed.

Definition words_ok (sd : SegmentDescriptor) : Prop := is_u32 (lower sd) /\ is_u32 (higher sd).

Lemma fields_of_div sd : words_ok sd -> fields_of sd =
  let h := higher sd in
  mk_descriptor (lower sd mod 2 ^ 16) (lower sd / 2 ^ 16) (h mod 2 ^ 8) (h / 2 ^ 8 mod 2 ^ 4) (h / 2 ^ 12 mod 2)
    (h / 2 ^ 13 mod 2 ^ 2) (h / 2 ^ 15 mod 2) (h / 2 ^ 16 mod 2 ^ 4) (h / 2 ^ 20 mod 2) (h / 2 ^ 21 mod 2)
    (h / 2 ^ 22 mod 2) (h / 2 ^ 23 mod 2) (h / 2 ^ 24 mod 2 ^ 8).
Proof.
  intros [Hl Hh]. unfold fields_of. change 0xFFFF with (Z.ones 16).
  rewrite !Z.land_ones, !Z.shiftr_div_pow2, Z.div_1_r by lia. reflexivity.
Qed.

Lemma fields_ok sd : words_ok sd -> descriptor_ok (fields_of sd).
Proof. intros Hw. rewrite fields_of_div by done. destruct Hw. split; cbn; width. Qed.

Lemma words_of_fields sd : words_ok sd -> words_of (fields_of sd) = sd.
Proof.
  intros Hw. rewrite words_of_sum by by apply fields_ok. rewrite fields_of_div by done.
  destruct sd as [lo hi], Hw as [Hl Hh]. cbn in *. f_equal; width.
Qed.

Lemma fields_of_words d : descriptor_ok d -> fields_of (words_of d) = d.
Proof.
  intros Hd. rewrite words_of_sum by done. rewrite fields_of_div by (destruct Hd; split; cbn; width).
  destruct d, Hd. cbn in *. f_equal; lia.
Qed.

(** ** The setters and what they print *)

(** The characters of a literal. *)
Definition chars (str : string) : bytes := removelast (cstr str).

(** What [printBinary] writes. *)
Definition binary_line (name : bytes) (v : Z) : bytes :=
  name ++ chars " = " ++ group4 (low_bits 32 v) ++ chars " | " ++ hex_text true v ++ [10; 10].

Definition printable (str : bytes) : Prop := Forall (fun c => 0 < c < 256) str.
#[export] Instance printable_dec str : Decision (printable str).
Proof. unfold printable. apply _. Defined.

Section printed.
Context {D : Type} `{SerialReady D}.

Lemma printable_low_bits n v : printable (low_bits n v).
Proof.
  induction n; simpl; constructor; [|done]. destruct (Z.testbit v (Z.of_nat n)); simpl; lia.
Qed.

Lemma printable_group4_aux n : forall str, (length str <= n)%nat -> printable str -> printable (group4 str).
Proof.
  induction n as [|n IH]; intros str Hl Hs.
  - destruct str; [done|simpl in Hl; lia].
  - destruct str as [|c str]; [done|]. pose proof (Forall_inv Hs). pose proof (Forall_inv_tail Hs) as Ht.
    cbn [group4]. constructor; [done|]. simpl in Hl. specialize (IH str ltac:(lia) Ht).
    destruct str; [done|]. case_match; [|done]. by constructor; [lia|].
Qed.
Lemma printable_group4 str : printable str -> printable (group4 str).
Proof. by apply (printable_group4_aux (length str)). Qed.

Lemma writes_print_hex v : is_u32 v -> writes (D:=D) (print_hex_var v) (hex_text true v ++ [10]).
Proof.
  intros Hv. destruct (hex_text_spec true v Hv) as (_ & Hl & _).
  unfold print_hex_var, print_line. rewrite uint_to_hex_spec by done.
  unfold char_array at 1. rewrite length_replicate, (proj2 (Nat.ltb_lt _ _)) by lia.
  eapply writes_cell; [done|]. cbn beta iota. unfold written, char_array. rewrite drop_replicate.
  destruct (12 - S (length (hex_text true v)))%nat as [|k] eqn:Hk; [lia|]. cbn [replicate].
  eapply writes_cell; [by apply store_mid|].
  change (hex_text true v ++ 10 :: 0 :: replicate k 0) with (hex_text true v ++ [10] ++ 0 :: replicate k 0).
  rewrite (assoc_L (++)). eapply writes_cell; [apply store_mid; rewrite length_app; simpl; lia|].
  apply writes_string. apply Forall_app. split; [by apply hex_chars_ok|by repeat constructor].
Qed.

Lemma writes_printBinary name v : is_u32 v -> printable name ->
  writes (D:=D) (printBinary v (name ++ [0])) (binary_line name v).
Proof.
  intros Hv Hn. unfold printBinary. eapply writes_cell; [apply spaced_bits_spec|].
  eapply writes_then; [by apply writes_string| |reflexivity]. intros _.
  eapply writes_then; [apply (writes_literal _ (chars " = ")); [done|by apply (bool_decide_unpack _)]| |reflexivity]. intros _.
  eapply writes_then; [apply writes_string; by apply printable_group4, printable_low_bits| |reflexivity]. intros _.
  eapply writes_then; [apply (writes_literal _ (chars " | ")); [done|by apply (bool_decide_unpack _)]| |reflexivity]. intros _.
  eapply writes_then; [by apply writes_print_hex|intros _; apply (writes_string [10]); by repeat constructor|].
  by rewrite <- (assoc_L (++)).
Qed.

(** [m] returns [a] and writes [str]. *)
Definition yields {A} (m : M D Terminal A) (a : A) (str : bytes) : Prop :=
  forall t, writable t ->
    prints m t (fun a' t' => a' = a /\ becomes t (fst (abstract_string (color t) str (screen_of t))) tt t')
      (snd (abstract_string (color t) str (screen_of t))).

Lemma store_and_print_yields sd v name : is_u32 v -> printable (chars name) -> cstr name = chars name ++ [0] ->
  yields (store_and_print (D:=D) (Some sd) v name) sd (binary_line (chars name) v).
Proof.
  intros Hv Hp He t Ht. unfold store_and_print. eapply prints_cell; [done|]. rewrite He.
  pose proof (writes_printBinary (chars name) v Hv Hp t Ht) as Hw.
  rewrite <- (app_nil_r (snd _)). eapply prints_bind; [exact Hw|]. intros [] t' Hb. by apply prints_ret.
Qed.

Lemma store_and_print_undef v name t : undef (store_and_print (D:=D) None v name) t.
Proof. by intros d. Qed.
End printed.

(** ** The words and the fields agree *)

Section fields.
Context (sd : SegmentDescriptor) (Hw : words_ok sd).

Lemma get_higher e n : is_field e n -> getBits (higher sd) e n = Some (higher sd / 2 ^ n mod 2 ^ (e - n + 1)).
Proof. intros Hf. rewrite getBits_eq by done. destruct Hf. by rewrite field_get_div. Qed.
Lemma get_lower e n : is_field e n -> getBits (lower sd) e n = Some (lower sd / 2 ^ n mod 2 ^ (e - n + 1)).
Proof. intros Hf. rewrite getBits_eq by done. destruct Hf. by rewrite field_get_div. Qed.

Lemma set_sum w v e n : is_field e n -> is_u32 w -> fits e n v ->
  setBitsModify w v e n = Some (w + (v - w / 2 ^ n mod 2 ^ (e - n + 1)) * 2 ^ n).
Proof.
  intros Hf Hu Hv. unfold setBitsModify. rewrite setBits_eq by done. destruct Hf.
  by rewrite field_set_sum, field_get_div.
Qed.

Lemma getters_agree :
  getDescriptorTypeS sd = Some (s (fields_of sd)) /\ getPriviledgeDPL sd = Some (dpl (fields_of sd)) /\
  getAVL sd = Some (avl (fields_of sd)) /\ getDefaultOperationSize sd = Some (db (fields_of sd)) /\
  getGranularity sd = Some (g (fields_of sd)).
Proof.
  destruct Hw. rewrite fields_of_div by done. cbn [s dpl avl db g].
  unfold getDescriptorTypeS, getPriviledgeDPL, getAVL, getDefaultOperationSize, getGranularity.
  rewrite !get_higher by done. cbn [get_u8 mbind option_bind].
  repeat split; f_equal; rewrite u8_small; try done; unfold is_u8, DESCRIPTOR_TYPE_S, DPL_END, DPL_START, AVL,
    DEFAULT_OPERATION_SIZE, GRANULARITY; cbn; lia.
Qed.

Lemma limit_and_base_agree :
  getSegmentLimit sd = Some (get_segment_descriptor_limit (fields_of sd)) /\
  getBaseAddress sd = Some (get_segment_descriptor_base (fields_of sd)).
Proof.
  destruct Hw. rewrite fields_of_div by done.
  unfold getSegmentLimit, getBaseAddress, get_segment_descriptor_limit, get_segment_descriptor_base.
  rewrite !get_higher, !get_lower by done. cbn [mbind option_bind limit_high limit_low base_high base_middle base_low].
  rewrite !shl32_small by lia. cbn [mbind option_bind]. rewrite !Z.shiftl_mul_pow2 by lia.
  change (SEGMENT_LIMIT_END_2 - SEGMENT_LIMIT_START_2 + 1) with 4. change SEGMENT_LIMIT_START_2 with 16.
  change (SEGMENT_LIMIT_END_1 - SEGMENT_LIMIT_START_1 + 1) with 16. change SEGMENT_LIMIT_START_1 with 0.
  change (31 - 16 + 1) with 16. change (7 - 0 + 1) with 8. change (31 - 24 + 1) with 8.
  rewrite !Z.div_1_r, (Z.mod_small (lower sd / 2 ^ 16)) by width.
  split; f_equal.
  - rewrite u32_small by width. done.
  - rewrite !(u32_small (_ mod _ * _)) by width. rewrite Z.mul_1_r, (u32_small (lower sd / 2 ^ 16)) by width.
    rewrite (Z.lor_comm (lower sd / 2 ^ 16)), <- !Z.lor_assoc. apply Z.bits_inj'. intros i Hi.
    rewrite !Z.lor_spec. by destruct (Z.testbit _ i), (Z.testbit _ i), (Z.testbit _ i).
Qed.

Lemma set_field_ok w v e n : is_field e n -> is_u32 w -> fits e n v ->
  is_u32 (w + (v - w / 2 ^ n mod 2 ^ (e - n + 1)) * 2 ^ n).
Proof.
  intros Hf Hu Hv. pose proof (field_set_u32 e n ltac:(by destruct Hf) v w) as Hr.
  destruct Hf. rewrite field_set_sum, field_get_div in Hr by done. by apply Hr.
Qed.

Lemma set_limit_ok limit : descriptor_ok (set_segment_descriptor_limit (fields_of sd) limit).
Proof.
  destruct (fields_ok sd Hw). split; cbn; try done; [apply u16_range|].
  rewrite land_nibble. lia.
Qed.
Lemma set_base_ok base : descriptor_ok (set_segment_descriptor_base (fields_of sd) base).
Proof. destruct (fields_ok sd Hw). split; cbn; done || apply u16_range || apply u8_range. Qed.

Lemma limit_words_agree limit : is_u32 limit ->
  limit_words sd limit = Some (words_of (set_segment_descriptor_limit (fields_of sd) limit)).
Proof.
  intros Hl. unfold limit_words, SEGMENT_LIMIT_END_2, SEGMENT_LIMIT_START_2, SEGMENT_LIMIT_END_1, SEGMENT_LIMIT_START_1.
  rewrite !getBits_eq, !field_get_div by done. cbn [mbind option_bind].
  unfold set_higher. rewrite set_sum by (done || apply Hw || (unfold fits; cbn; lia)). cbn [mbind option_bind].
  unfold set_lower. cbn [lower higher]. rewrite set_sum by (done || apply Hw || (unfold fits; cbn; lia)).
  cbn [mbind option_bind]. f_equal. rewrite words_of_sum by apply set_limit_ok.
  rewrite fields_of_div by done. destruct sd as [lo h], Hw as [Hlo Hh].
  unfold set_segment_descriptor_limit. rewrite land_nibble, Z.shiftr_div_pow2 by lia.
  cbn in *. f_equal; width.
Qed.

Lemma base_words_agree base : is_u32 base ->
  base_words sd base = Some (words_of (set_segment_descriptor_base (fields_of sd) base)).
Proof.
  intros Hb. unfold base_words. rewrite !getBits_eq, !field_get_div by done. cbn [mbind option_bind].
  unfold set_lower. rewrite set_sum by (done || apply Hw || (unfold fits; cbn; lia)). cbn [mbind option_bind].
  unfold set_higher. cbn [lower higher]. rewrite set_sum by (done || apply Hw || (unfold fits; cbn; lia)).
  cbn [mbind option_bind lower higher].
  rewrite set_sum; [|done|apply set_field_ok; done || apply Hw || (unfold fits; cbn; lia)|unfold fits; cbn; lia].
  cbn [mbind option_bind]. f_equal. rewrite words_of_sum by apply set_base_ok.
  rewrite fields_of_div by done. destruct sd as [lo h], Hw as [Hlo Hh].
  unfold set_segment_descriptor_base. rewrite !Z.shiftr_div_pow2 by lia. cbn in *. f_equal; width.
Qed.

Lemma base_read_back d base : is_u32 base ->
  get_segment_descriptor_base (set_segment_descriptor_base d base) = base.
Proof.
  intros Hb. unfold get_segment_descriptor_base. cbn [set_segment_descriptor_base base_high base_middle base_low].
  rewrite !Z.shiftr_div_pow2 by lia. rewrite u32_small by (rewrite Z.shiftl_mul_pow2; width).
  rewrite (Z.lor_comm _ (u16 base)), (Z.lor_comm (_ ≪ 24)), Z.lor_assoc.
  rewrite (lor_shift_add 16) by (lia || apply u16_range).
  rewrite (lor_shift_add 24) by width. width.
Qed.

Lemma limit_read_back d limit : is_u32 limit ->
  get_segment_descriptor_limit (set_segment_descriptor_limit d limit) = limit mod 2 ^ 20.
Proof.
  intros Hl. unfold get_segment_descriptor_limit. cbn [set_segment_descriptor_limit limit_high limit_low].
  rewrite land_nibble, Z.shiftr_div_pow2, Z.lor_comm by lia.
  rewrite (lor_shift_add 16) by (lia || apply u16_range). width.
Qed.

(** A field of the higher word alone. *)
Lemma set_higher_agree e n v d : is_field e n -> fits e n v -> descriptor_ok d -> lower (words_of d) = lower sd ->
  higher (words_of d) = higher sd + (v - higher sd / 2 ^ n mod 2 ^ (e - n + 1)) * 2 ^ n ->
  set_higher sd v e n = Some (words_of d).
Proof.
  intros Hf Hv Hd Hl Hh. unfold set_higher. rewrite set_sum by (done || apply Hw). cbn [mbind option_bind].
  rewrite <- Hl, <- Hh. by destruct (words_of d).
Qed.
End fields.

(** One field replaced. *)
Definition with_s v d := mk_descriptor (limit_low d) (base_low d) (base_middle d) (type d) v (dpl d) (p d)
  (limit_high d) (avl d) (l d) (db d) (g d) (base_high d).
Definition with_dpl v d := mk_descriptor (limit_low d) (base_low d) (base_middle d) (type d) (s d) v (p d)
  (limit_high d) (avl d) (l d) (db d) (g d) (base_high d).
Definition with_avl v d := mk_descriptor (limit_low d) (base_low d) (base_middle d) (type d) (s d) (dpl d) (p d)
  (limit_high d) v (l d) (db d) (g d) (base_high d).
Definition with_db v d := mk_descriptor (limit_low d) (base_low d) (base_middle d) (type d) (s d) (dpl d) (p d)
  (limit_high d) (avl d) (l d) v (g d) (base_high d).
Definition with_l v d := mk_descriptor (limit_low d) (base_low d) (base_middle d) (type d) (s d) (dpl d) (p d)
  (limit_high d) (avl d) v (db d) (g d) (base_high d).
Definition with_g v d := mk_descriptor (limit_low d) (base_low d) (base_middle d) (type d) (s d) (dpl d) (p d)
  (limit_high d) (avl d) (l d) (db d) v (base_high d).

Ltac agree sd Hw :=
  unfold DESCRIPTOR_TYPE_S, AVL, DEFAULT_OPERATION_SIZE, GRANULARITY, DPL_END, DPL_START;
  apply set_higher_agree; [done|done|unfold fits; cbn; lia|destruct (fields_ok sd Hw); by split|..];
  rewrite words_of_sum by (destruct (fields_ok sd Hw); by split); rewrite fields_of_div by done;
  destruct sd as [lo h], Hw as [Hlo Hh]; cbn in *; width.

Lemma set_bits_agree sd v : words_ok sd ->
  (0 <= v < 2 -> set_higher sd v DESCRIPTOR_TYPE_S DESCRIPTOR_TYPE_S = Some (words_of (with_s v (fields_of sd))) /\
     set_higher sd v AVL AVL = Some (words_of (with_avl v (fields_of sd))) /\
     set_higher sd v DEFAULT_OPERATION_SIZE DEFAULT_OPERATION_SIZE = Some (words_of (with_db v (fields_of sd))) /\
     set_higher sd v GRANULARITY GRANULARITY = Some (words_of (with_g v (fields_of sd)))) /\
  (0 <= v < 4 -> set_higher sd v DPL_END DPL_START = Some (words_of (with_dpl v (fields_of sd)))).
Proof. intros Hw. split; [intros Hv; split; [|split; [|split]]|intros Hv]; agree sd Hw. Qed.

(** A value wider than its field is not masked: with [avl] 2, the field next to it is set. *)
Example wide_value_spills :
  set_higher (mk_sd 0 0) 2 AVL AVL = Some (words_of (with_l 1 (fields_of (mk_sd 0 0)))).
Proof. reflexivity. Qed.

(** C25: The functions on the two words of a segment descriptor agree with the struct of its
    fields and with the helpers of [gdt.h]: every getter but two reads the field; every setter
    but two, given a value that fits the field (below 2 for the fields of one bit, below 4 for the
    privilege level; base and limit take every 32-bit value and the type every byte, of which they
    use their bits), stores it, leaves the other fields alone, returns and prints the value; base
    and limit are read back as set (of a limit its 20 bits).  A value that does not fit spills
    into the next field ([wide_value_spills]).  [getPresent], [setPresent],
    [getLongMode] and [setLongMode] shift by 128 and by 32, which is undefined: the macros
    [PRESENT] and [LONG_MODE] of the flag bytes hide the positions. *)
Theorem descriptor_fields {D} `{SerialReady D} sd :
  words_ok sd -> let d := fields_of sd in
  words_of d = sd /\
  (getDescriptorTypeS sd = Some (s d) /\ getPriviledgeDPL sd = Some (dpl d) /\ getAVL sd = Some (avl d) /\
   getDefaultOperationSize sd = Some (db d) /\ getGranularity sd = Some (g d) /\
   getSegmentLimit sd = Some (get_segment_descriptor_limit d) /\
   getBaseAddress sd = Some (get_segment_descriptor_base d)) /\
  (forall v, is_u32 v ->
     yields (D:=D) (setBaseAddress sd v) (words_of (set_segment_descriptor_base d v)) (binary_line (chars "baseAddress") v) /\
     get_segment_descriptor_base (set_segment_descriptor_base d v) = v /\
     yields (D:=D) (setSegmentLimit sd v) (words_of (set_segment_descriptor_limit d v)) (binary_line (chars "segmentLimit") v) /\
     get_segment_descriptor_limit (set_segment_descriptor_limit d v) = v mod 2 ^ 20) /\
  (forall v, 0 <= v < 2 ->
     yields (D:=D) (setDescriptorTypeS sd v) (words_of (with_s v d)) (binary_line (chars "descriptorTypeS") v) /\
     yields (D:=D) (setAVL sd v) (words_of (with_avl v d)) (binary_line (chars "avl") v) /\
     yields (D:=D) (setDefaultOperationSize sd v) (words_of (with_db v d)) (binary_line (chars "DsB") v) /\
     yields (D:=D) (setGranularity sd v) (words_of (with_g v d)) (binary_line (chars "granularity") v)) /\
  (forall v, 0 <= v < 4 -> yields (D:=D) (setPriviledgeDPL sd v) (words_of (with_dpl v d)) (binary_line (chars "priviledgeDPL") v)) /\
  (forall v, is_u8 v -> yields (D:=D) (setType sd v) (words_of (set_type (v mod 16) d)) (binary_line (chars "type") v)) /\
  getPresent sd = None /\ getLongMode sd = None /\
  (forall v t, undef (D:=D) (setPresent sd v) t /\ undef (D:=D) (setLongMode sd v) t).
Proof.
  intros Hw d.
  assert (Hs : forall v name, is_u32 v -> printable (chars name) -> cstr name = chars name ++ [0] -> forall c d',
            c = Some (words_of d') -> yields (D:=D) (store_and_print c v name) (words_of d') (binary_line (chars name) v)).
  { intros v name Hv Hp Hc c d' ->. by apply store_and_print_yields. }
  split; [by apply words_of_fields|]. split; [|split; [|split; [|split; [|split; [|split; [|split]]]]]].
  - destruct (getters_agree sd Hw) as (? & ? & ? & ? & ?). destruct (limit_and_base_agree sd Hw). done.
  - intros v Hv. split; [|split; [by apply base_read_back|split; [|by apply limit_read_back]]];
      (apply Hs; [done|by apply (bool_decide_unpack _)|done|]); [by apply base_words_agree|by apply limit_words_agree].
  - intros v Hv. destruct (proj1 (set_bits_agree sd v Hw) Hv) as (? & ? & ? & ?).
    split; [|split; [|split]]; (apply Hs; [width|by apply (bool_decide_unpack _)|done|done]).
  - intros v Hv. apply Hs; [width|by apply (bool_decide_unpack _)|done|]. by apply set_bits_agree.
  - intros v Hv. apply Hs; [width|by apply (bool_decide_unpack _)|done|]. by rewrite land_nibble.
  - done.
  - done.
  - intros v t. split; apply store_and_print_undef.
Qed.

Lemma descriptor_fields_witness :
  let sd := mk_sd 0x0000FFFF 0x00CF9A00 in
  getSegmentLimit sd = Some (get_segment_descriptor_limit (fields_of sd)) /\
  get_segment_descriptor_base (set_segment_descriptor_base (fields_of sd) 0xFACEB007) = 0xFACEB007 /\
  getPresent sd = None.
Proof.
  destruct (descriptor_fields (D:=ready_line) (mk_sd 0x0000FFFF 0x00CF9A00)) as (_ & Hg & Hb & _ & _ & _ & Hp & _);
    [split; cbn; width|].
  split; [exact (proj1 (proj2 (proj2 (proj2 (proj2 (proj2 Hg))))))|].
  split; [exact (proj1 (proj2 (Hb 0xFACEB007 ltac:(width))))|exact Hp].
Defined.

(** ** The texts *)

Definition digit_text (v n : Z) : string := if Z.testbit v n then "1" else "0".

(** Header, the fields on a line each, the end of the header, a newline. *)
Definition block (header : string) (fields : list string) (rest : bytes) : bytes :=
  chars header ++ [123] ++ concat (map (fun f => [10; 9] ++ chars f) fields) ++ [10] ++ rest ++ [10].

(** The two bits of the privilege level appear with the lower one first. *)
Definition access_fields (a : Z) : list string :=
  let exec := Z.testbit a 3 in
  ["present = " +:+ digit_text a 7; "dpl = " +:+ digit_text a 5 +:+ digit_text a 6;
   "Not System = " +:+ digit_text a 4; (if exec then "Code" else "Data");
   (if exec then "Non Conforming = " else "Expand Down = ") +:+ digit_text a 2;
   (if exec then "Read Permission = " else "Write Permission = ") +:+ digit_text a 1;
   "accessed = " +:+ digit_text a 0]%string.
Definition access_text (a : Z) : bytes := block "Access = " (access_fields a) [125].

Definition flags_fields (f : Z) : list string :=
  ["granularity = " +:+ digit_text f 7; "opsize32 = " +:+ digit_text f 6; "long_mode = " +:+ digit_text f 5;
   "avail = " +:+ digit_text f 4;
   "___real_opsize = " +:+ (if Z.testbit f 5 then "64" else if Z.testbit f 6 then "32" else "16")]%string.
Definition flags_text (f : Z) : bytes := block "Flags = " (flags_fields f) [125; 10].

Lemma put_mid pre x post c : Z.of_nat (length pre) < 255 ->
  put (pre ++ x :: post, Z.of_nat (length pre)) c = Some ((pre ++ [c]) ++ post, Z.of_nat (length (pre ++ [c]))).
Proof.
  intros Hl. unfold put. cbn [fst snd]. rewrite store_mid by done. cbn [mbind option_bind].
  rewrite <- (assoc_L (++)), length_app, u8_small by width. do 2 f_equal. simpl. lia.
Qed.

Lemma copy_chars_spec str : forall pre post rest, Forall (fun c => c <> 0) str ->
  (length str <= length post)%nat -> Z.of_nat (length pre + length str) < 256 ->
  copy_chars (str ++ 0 :: rest) (pre ++ post, Z.of_nat (length pre)) =
    Some ((pre ++ str) ++ drop (length str) post, Z.of_nat (length (pre ++ str))).
Proof.
  induction str as [|c str IH]; intros pre post rest Hs Hl Hp; cbn [app copy_chars].
  - by rewrite app_nil_r.
  - pose proof (Forall_inv Hs) as Hc. cbn beta in Hc. rewrite (proj2 (Z.eqb_neq c 0)) by done.
    destruct post as [|x post]; [simpl in Hl; lia|]. cbn [length] in *. rewrite put_mid by lia.
    cbn [mbind option_bind]. rewrite IH by (done || apply (Forall_inv_tail Hs) || (rewrite ?length_app; simpl; lia)).
    rewrite <- (assoc_L (++) pre). done.
Qed.

Lemma copy_header_spec str : forall pre post rest, Forall (fun c => c <> 123) str ->
  (length str <= length post)%nat -> Z.of_nat (length pre + length str) < 256 ->
  copy_header (str ++ 123 :: rest) (pre ++ post, Z.of_nat (length pre)) =
    Some (123 :: rest, ((pre ++ str) ++ drop (length str) post, Z.of_nat (length (pre ++ str)))).
Proof.
  induction str as [|c str IH]; intros pre post rest Hs Hl Hp; cbn [app copy_header].
  - by rewrite app_nil_r.
  - pose proof (Forall_inv Hs) as Hc. cbn beta in Hc. rewrite (proj2 (Z.eqb_neq c 123)) by done.
    destruct post as [|x post]; [simpl in Hl; lia|]. cbn [length] in *. rewrite put_mid by lia.
    cbn [mbind option_bind]. rewrite IH by (done || apply (Forall_inv_tail Hs) || (rewrite ?length_app; simpl; lia)).
    rewrite <- (assoc_L (++) pre). done.
Qed.

Definition field_lines (fields : list bytes) : bytes := concat (map (fun f => [10; 9] ++ f) fields).

Lemma copy_fields_spec fields : forall pre post, Forall (Forall (fun c => c <> 0)) fields ->
  (length (field_lines fields) <= length post)%nat ->
  Z.of_nat (length pre + length (field_lines fields)) < 256 ->
  copy_fields (map (fun f => f ++ [0]) fields) (pre ++ post, Z.of_nat (length pre)) =
    Some ((pre ++ field_lines fields) ++ drop (length (field_lines fields)) post,
      Z.of_nat (length (pre ++ field_lines fields))).
Proof.
  induction fields as [|f fields IH]; intros pre post Hf Hl Hp; cbn [map copy_fields].
  - cbn [field_lines map concat length drop]. by rewrite app_nil_r.
  - change (field_lines (f :: fields)) with (([10; 9] ++ f) ++ field_lines fields) in *.
    rewrite !length_app in Hl, Hp. cbn [length] in Hl, Hp.
    destruct post as [|x [|y post]]; [simpl in Hl; lia..|]. cbn [length] in Hl. cbn [fst snd].
    rewrite store_mid by done. cbn [mbind option_bind].
    replace (pre ++ 10 :: y :: post) with ((pre ++ [10]) ++ y :: post) by by rewrite <- (assoc_L (++)).
    rewrite store_mid by (rewrite length_app; simpl; lia). cbn [mbind option_bind].
    replace ((pre ++ [10]) ++ 9 :: post) with ((pre ++ [10; 9]) ++ post) by by rewrite <- !(assoc_L (++)).
    rewrite u8_small by width.
    replace (Z.of_nat (length pre) + 2) with (Z.of_nat (length (pre ++ [10; 9]))) by (rewrite length_app; simpl; lia).
    rewrite copy_chars_spec by (apply (Forall_inv Hf) || (rewrite ?length_app; simpl; lia)).
    cbn [mbind option_bind]. rewrite IH; [|apply (Forall_inv_tail Hf)|rewrite length_drop; lia|rewrite !length_app; simpl; lia].
    rewrite <- !(assoc_L (++)), drop_drop. do 3 f_equal. rewrite !length_app. simpl. do 2 f_equal.
Qed.

(** The whole text lands at the start of the buffer, with a NUL behind it. *)
Lemma create_spec output d header fields rest :
  header_and_fields d = (header ++ 123 :: rest ++ [0], map (fun f => f ++ [0]) fields) ->
  Forall (fun c => c <> 123) header -> Forall (Forall (fun c => c <> 0)) fields -> Forall (fun c => c <> 0) rest ->
  let text := header ++ [123] ++ field_lines fields ++ [10] ++ rest ++ [10] in
  (length text < length output)%nat -> Z.of_nat (length text) < 256 ->
  create_access_desc_str output d = Some (text ++ 0 :: drop (S (length text)) output).
Proof.
  intros Hd Hh Hf Hr text Hl Hb. unfold create_access_desc_str. rewrite Hd.
  subst text. rewrite !length_app in Hl, Hb. cbn [length] in Hl, Hb.
  pose proof (copy_header_spec header [] output (rest ++ [0]) Hh ltac:(lia) ltac:(simpl; lia)) as H1.
  cbn [app length] in H1. change (Z.of_nat 0) with 0 in H1. rewrite H1. cbn [mbind option_bind tail].
  destruct (drop (length header) output) as [|x post] eqn:Ho.
  { apply (f_equal length) in Ho. rewrite length_drop in Ho. simpl in Ho. lia. }
  assert (Hlen : length (x :: post) = (length output - length header)%nat) by (rewrite <- Ho; apply length_drop).
  cbn [length] in Hlen. rewrite put_mid by lia. cbn [mbind option_bind].
  rewrite copy_fields_spec by (done || (rewrite ?length_app; simpl; lia)). cbn [mbind option_bind].
  destruct (drop (length (field_lines fields)) post) as [|y post2] eqn:Ho2.
  { apply (f_equal length) in Ho2. rewrite length_drop in Ho2. simpl in Ho2. lia. }
  assert (Hlen2 : length (y :: post2) = (length post - length (field_lines fields))%nat)
    by (rewrite <- Ho2; apply length_drop). cbn [length] in Hlen2.
  rewrite put_mid by (rewrite !length_app; simpl; lia). cbn [mbind option_bind].
  rewrite copy_chars_spec by (done || (rewrite ?length_app; simpl; rewrite ?length_app; simpl; lia)).
  cbn [mbind option_bind].
  destruct (drop (length rest) post2) as [|u [|v post3]] eqn:Ho3;
    [apply (f_equal length) in Ho3; rewrite length_drop in Ho3; simpl in Ho3; lia..|].
  rewrite store_mid by done. cbn [mbind option_bind].
  set (pre := ((((header ++ [123]) ++ field_lines fields) ++ [10]) ++ rest)).
  replace (pre ++ 10 :: v :: post3) with ((pre ++ [10]) ++ v :: post3) by by rewrite <- (assoc_L (++)).
  rewrite store_mid by (rewrite (length_app pre [10]); simpl; lia). f_equal. subst pre.
  rewrite <- !(assoc_L (++)). do 5 f_equal. cbn [app]. do 2 f_equal.
  assert (drop (length header + (1 + (length (field_lines fields) + (1 + (length rest + 2)))))%nat output = post3) as He.
  { rewrite <- drop_drop, Ho. cbn [Nat.add drop]. rewrite <- drop_drop, Ho2. cbn [Nat.add drop].
    by rewrite <- drop_drop, Ho3. }
  rewrite <- He. f_equal. cbn [length app].
  do 3 (rewrite ?length_app; cbn [length app]). lia.
Qed.

(** The descriptors of the texts, on all bytes. *)
Definition nul_strings (fields : list string) : list bytes := map (fun f => f ++ [0]) (map chars fields).

Lemma access_table : forall a, 0 <= a < 256 ->
  (d ← access_desc a; Some (header_and_fields (Access d))) =
    Some (chars "Access = " ++ 123 :: [125] ++ [0], nul_strings (access_fields a)).
Proof. apply table_eq. by vm_compute. Qed.
Lemma flags_table : forall f, 0 <= f < 256 ->
  (d ← flags_desc f; Some (header_and_fields (Flags d))) =
    Some (chars "Flags = " ++ 123 :: [125; 10] ++ [0], nul_strings (flags_fields f)).
Proof. apply table_eq. by vm_compute. Qed.

(** No field has a NUL, the text is shorter than [INTERPRET_STR_LEN]. *)
Definition text_fits (fields : list string) (text : bytes) : bool :=
  forallb (forallb (fun c => negb (c =? 0))) (map chars fields) && forallb (fun c => (0 <? c) && (c <? 256)) text
  && Nat.ltb (length text) 128.
Lemma access_fits a : is_u8 a -> text_fits (access_fields a) (access_text a) = true.
Proof. apply (byte_forall (fun a => text_fits (access_fields a) (access_text a))). by vm_compute. Qed.
Lemma flags_fits f : is_u8 f -> text_fits (flags_fields f) (flags_text f) = true.
Proof. apply (byte_forall (fun f => text_fits (flags_fields f) (flags_text f))). by vm_compute. Qed.

Lemma text_fits_spec fields text : text_fits fields text = true ->
  Forall (Forall (fun c => c <> 0)) (map chars fields) /\ printable text /\ (length text < 128)%nat.
Proof.
  unfold text_fits. intros [[Hf Ht]%andb_true_iff Hl]%andb_true_iff. split; [|split].
  - apply Forall_forall. intros f Hin. apply Forall_forall. intros c Hc.
    rewrite forallb_forall in Hf. specialize (Hf f Hin).
    rewrite forallb_forall in Hf. specialize (Hf c Hc). lia.
  - apply Forall_forall. intros c Hc. rewrite forallb_forall in Ht.
    specialize (Ht c Hc). cbn beta in Ht. lia.
  - by apply Nat.ltb_lt.
Qed.

Lemma block_eq header fields rest : block header fields rest =
  chars header ++ [123] ++ field_lines (map chars fields) ++ [10] ++ rest ++ [10].
Proof. unfold block, field_lines. by rewrite map_map. Qed.

Lemma interpret_access_spec a output : is_u8 a -> (128 <= length output)%nat ->
  interpret_access a output = Some (access_text a ++ 0 :: drop (S (length (access_text a))) output).
Proof.
  intros Ha Ho. pose proof (access_table a Ha) as Ht. unfold interpret_access.
  destruct (access_desc a) as [d|]; cbn [mbind option_bind] in *; [|done]. apply (inj Some) in Ht.
  destruct (text_fits_spec _ _ (access_fits a Ha)) as (Hf & _ & Hl). unfold access_text in *. rewrite block_eq in *.
  apply create_spec; [done|by apply (bool_decide_unpack _)|done|by apply (bool_decide_unpack _)|lia|lia].
Qed.

Lemma interpret_flags_spec f output : is_u8 f -> (128 <= length output)%nat ->
  interpret_flags f output = Some (flags_text f ++ 0 :: drop (S (length (flags_text f))) output).
Proof.
  intros Ha Ho. pose proof (flags_table f Ha) as Ht. unfold interpret_flags.
  destruct (flags_desc f) as [d|]; cbn [mbind option_bind] in *; [|done]. apply (inj Some) in Ht.
  destruct (text_fits_spec _ _ (flags_fits f Ha)) as (Hf & _ & Hl). unfold flags_text in *. rewrite block_eq in *.
  apply create_spec; [done|by apply (bool_decide_unpack _)|done|by apply (bool_decide_unpack _)|lia|lia].
Qed.

(** What [printBinarySize] writes, from position [n] of the grouped bits on. *)
Definition size_line (name : bytes) (v : Z) (n : nat) : bytes :=
  name ++ chars " = " ++ drop n (group4 (low_bits 32 v)) ++ chars " | " ++ hex_text true v ++ [10].

Section texts.
Context {D : Type} `{SerialReady D}.

Lemma writes_printBinarySize name v bits : is_u32 v -> printable name -> 0 <= bits < 32 ->
  writes (D:=D) (printBinarySize v (name ++ [0]) bits) (size_line name v (Z.to_nat (39 - (bits + bits / 4)))).
Proof.
  intros Hv Hn Hb. unfold printBinarySize. eapply writes_cell; [apply spaced_bits_spec|].
  rewrite Z.geb_leb, (proj2 (Z.leb_gt _ _)), u8_small by width.
  eapply writes_then; [by apply writes_string| |reflexivity]. intros _.
  eapply writes_then; [apply (writes_literal _ (chars " = ")); [done|by apply (bool_decide_unpack _)]| |reflexivity]. intros _.
  assert (Hg : length (group4 (low_bits 32 v)) = 39%nat) by reflexivity.
  set (n := Z.to_nat (39 - (bits + bits / 4))).
  eapply writes_then; [|intros _|reflexivity].
  - rewrite <- (take_drop n (group4 (low_bits 32 v))) at 1. rewrite <- (assoc_L (++)).
    apply (writes_at (take n (group4 (low_bits 32 v))) _ []).
    + rewrite length_take, Hg. subst n. lia.
    + apply Forall_drop. apply printable_group4, printable_low_bits.
  - eapply writes_then; [apply (writes_literal _ (chars " | ")); [done|by apply (bool_decide_unpack _)]| |reflexivity]. intros _.
    by apply writes_print_hex.
Qed.

Lemma writes_pure {A B} (m : M D Terminal A) a (k : A -> M D Terminal B) str :
  (forall d t, m d t = (mret a : M D Terminal A) d t) -> writes (k a) str -> writes (m ≫= k) str.
Proof.
  intros Hm Hk t Ht. intros d. destruct (Hk t Ht d) as (b & Hb). exists b.
  assert ((m ≫= k) d t = k a d t) as ->; [|done].
  transitivity (((mret a : M D Terminal A) ≫= k) d t); [|apply ret_bind].
  unfold mbind, M_bind. by rewrite Hm.
Qed.

Lemma flags_of_small sd : is_u32 (higher sd) -> 0 <= flags_of sd < 16.
Proof.
  intros Hh. unfold flags_of. pose proof (u8_range (higher sd ≫ 16)) as Hr.
  rewrite u8_small; rewrite Z.shiftr_div_pow2 by lia; width.
Qed.

Lemma low_flags_text f : 0 <= f < 16 -> flags_text f = flags_text 0.
Proof. apply (table_eq flags_text (fun _ => flags_text 0)). by vm_compute. Qed.
End texts.

(** In a buffer of [INTERPRET_STR_LEN] bytes [interpret_access] and [interpret_flags] place
    the text of every access byte and of every flags byte, with a NUL and less than the buffer;
    the privilege level appears with its lower bit first.  [printAccess] writes the bits and the
    text of the access byte; [printFlags] writes the bits of the four flags, but always the text
    of flags that are all zero, since the flags are in the lower half of the byte and the text
    is made from the upper half. *)
Theorem descriptor_texts {D} `{SerialReady D} sd : words_ok sd ->
  (forall a output, is_u8 a -> (INTERPRET_STR_LEN <= length output)%nat ->
     interpret_access a output = Some (access_text a ++ 0 :: drop (S (length (access_text a))) output) /\
     interpret_flags a output = Some (flags_text a ++ 0 :: drop (S (length (flags_text a))) output)) /\
  writes (D:=D) (printAccess sd) (size_line (chars "access") (get_access sd) 29 ++ access_text (get_access sd)) /\
  writes (D:=D) (printFlags sd) (size_line (chars "flags") (flags_of sd) 34 ++ flags_text 0) /\
  let d := fields_of sd in
  get_access sd = type d + 2 ^ 4 * s d + 2 ^ 5 * dpl d + 2 ^ 7 * p d /\
  flags_of sd = avl d + 2 * l d + 2 ^ 2 * db d + 2 ^ 3 * g d.
Proof.
  intros Hw. assert (Ha : is_u8 (get_access sd)) by apply u8_range.
  pose proof (flags_of_small sd (proj2 Hw)) as Hf. split; [|split; [|split]].
  - intros a output Hu Ho. split; [by apply interpret_access_spec|by apply interpret_flags_spec].
  - unfold printAccess. eapply writes_then; [apply (writes_printBinarySize (chars "access") _ 8);
      [width|by apply (bool_decide_unpack _)|lia]|intros _|reflexivity].
    eapply writes_cell; [by apply interpret_access_spec|].
    apply writes_string. by destruct (text_fits_spec _ _ (access_fits _ Ha)) as (_ & ? & _).
  - unfold printFlags, get_flags. rewrite Z.gtb_ltb, (proj2 (Z.ltb_ge _ _)) by lia.
    refine (writes_pure _ (flags_of sd) _ _ (fun _ _ => eq_refl) _).
    eapply writes_then; [apply (writes_printBinarySize (chars "flags") _ 4);
      [width|by apply (bool_decide_unpack _)|lia]|intros _|reflexivity].
    eapply writes_cell; [apply interpret_flags_spec; [width|done]|].
    rewrite <- (low_flags_text (flags_of sd)) by done.
    apply writes_string. assert (is_u8 (flags_of sd)) as Hu by width.
    by destruct (text_fits_spec _ _ (flags_fits _ Hu)) as (_ & ? & _).
  - cbn zeta. destruct Hw as [Hl Hh]. rewrite fields_of_div by by split. cbn [type s dpl p avl l db g].
    unfold get_access, flags_of. rewrite !Z.shiftr_div_pow2 by lia. unfold is_u32, u8 in *.
    split; [lia|]. set (q := higher sd / 2 ^ 20).
    replace (higher sd / 2 ^ 21) with (q / 2) by lia. replace (higher sd / 2 ^ 22) with (q / 4) by lia.
    replace (higher sd / 2 ^ 23) with (q / 8) by lia.
    assert (((higher sd / 2 ^ 16) mod 2 ^ 8 / 2 ^ 4) mod 2 ^ 8 = q mod 2 ^ 4) as ->; [|clear; clearbody q; lia].
    replace q with (higher sd / 2 ^ 16 / 2 ^ 4) by (subst q; lia).
    generalize (higher sd / 2 ^ 16). clear. intros r. lia.
Qed.

(** A code segment of ring 0: 4-KB units and 32 bits are set, and printed as not set. *)
Lemma descriptor_texts_witness :
  o_exit (printFlags (mk_sd 0x0000FFFF 0x00CF9A00) RL sample_terminal) = Done tt /\
  interpret_flags 0xC0 (char_array 128) <> interpret_flags 0x0C (char_array 128).
Proof.
  destruct (descriptor_texts (D:=ready_line) (mk_sd 0x0000FFFF 0x00CF9A00)) as (Ht & _ & Hf & _); [split; cbn; width|].
  split.
  - destruct (Hf sample_terminal ltac:(by vm_compute) RL) as ([] & He & _). exact He.
  - destruct (Ht 0xC0 (char_array 128)) as (_ & ->); [width|by apply (bool_decide_unpack _)|].
    destruct (Ht 0x0C (char_array 128)) as (_ & ->); [width|by apply (bool_decide_unpack _)|]. by vm_compute.
Defined.
