(* ===== verification/CString.v ===== *)
(** * Memory and string functions ([stdlib/string.c], [find_string_offset] of [stdlib/stdlib.c])

    The functions and what they compute.  Memory is one array of bytes, a pointer into it an
    index; strings are passed as the bytes from the pointer on.  Reading or writing past the
    end is undefined. *)

From S2P Require Import Prelude Machine StringHelper.

(** ** Copying and filling *)

Section memory.
Context {D : Type} `{PortDevice D}.
(** Built with [-DDEBUG] or not. *)
Context (DEBUG : bool).
Abbreviation T A := (M D bytes A).

Definition read (i : Z) : T Z := mem ← get; read_cell (load mem i).
Definition write (i v : Z) : T unit := mem ← get; mem ← read_cell (store mem i v); modify (fun _ => mem).

(** [for (size_t i = 0; i < n; i++) d[i] = s[i];] *)
Definition copy_loop (n : nat) (d s : Z) : T unit :=
  for_range n 0 (fun i => v ← read (s + i); write (d + i) v).

(** The pointers are [restrict]: the blocks overlap only in undefined programs. *)
Definition restrict_ok (d s n : Z) : T unit :=
  if (0 <? n) && (d <? s + n) && (s <? d + n) then stop Undefined else mret tt.

(** [((d > s && d < s + n) || (s > d && s < d + n))], in debug mode. *)
Definition overlap_check (d s n : Z) : T unit :=
  if DEBUG && (((d >? s) && (d <? s + n)) || ((s >? d) && (s <? d + n)))
  then abort_msg "Overlapping memcopy!\n" [] else mret tt.

Definition memcpy (dest src n : Z) : T Z :=
  overlap_check dest src n;; restrict_ok dest src n;; copy_loop (Z.to_nat n) dest src;; mret dest.

(** Words of four bytes, each read before it is written. *)
Definition memcpy32 (dest src n : Z) : T Z :=
  overlap_check dest src (4 * n);; restrict_ok dest src (4 * n);;
  for_range (Z.to_nat n) 0 (fun i =>
    b0 ← read (src + 4 * i); b1 ← read (src + 4 * i + 1);
    b2 ← read (src + 4 * i + 2); b3 ← read (src + 4 * i + 3);
    write (dest + 4 * i) b0;; write (dest + 4 * i + 1) b1;;
    write (dest + 4 * i + 2) b2;; write (dest + 4 * i + 3) b3);;
  mret dest.

Definition memset (dest value n : Z) : T Z :=
  for_range (Z.to_nat n) 0 (fun i => write (dest + i) (u8 value));; mret dest.
End memory.

(** ** Comparing and searching *)

(** The loop of [strcmp] and the difference at its end. *)
Fixpoint strcmp (us1 us2 : bytes) : option Z :=
  match us1, us2 with
  | c1 :: r1, c2 :: r2 => if negb (c1 =? 0) && (c1 =? c2) then strcmp r1 r2 else Some (c1 - c2)
  | _, _ => None
  end.

Fixpoint strncmp_loop (n : nat) (us1 us2 : bytes) : option Z :=
  match n with
  | O => Some 0
  | S n =>
      match us1, us2 with
      | c1 :: r1, c2 :: r2 =>
          if negb (c1 =? c2) then Some (c1 - c2)
          else if c1 =? 0 then Some 0 else strncmp_loop n r1 r2
      | _, _ => None
      end
  end.
(** The pointers are not null: the check of the debug mode is left out. *)
Definition strncmp (s1 s2 : bytes) (len : Z) : option Z := strncmp_loop (Z.to_nat len) s1 s2.

(** The length of the needle, or [None] in the inner option when it exceeds 4096. *)
Fixpoint needle_length (needle : bytes) (needle_len : Z) : option (option Z) :=
  match needle with
  | [] => None
  | c :: rest =>
      if c =? 0 then Some (Some needle_len)
      else if needle_len + 1 >? 4096 then Some None else needle_length rest (needle_len + 1)
  end.

(** [haystack[i + j] != needle[j]] for [j] from 0 on, [n] rounds. *)
Fixpoint match_at (n : nat) (haystack needle : bytes) (i j : Z) : option bool :=
  match n with
  | O => Some true
  | S n =>
      h ← load haystack (i + j);
      c ← load needle j;
      if negb (h =? c) then Some false else match_at n haystack needle i (j + 1)
  end.

Fixpoint search (rounds : nat) (haystack needle : bytes) (needle_len i : Z) : option Z :=
  match rounds with
  | O => Some (-1)
  | S rounds =>
      m ← match_at (Z.to_nat needle_len) haystack needle i 0;
      if (m : bool) then Some i else search rounds haystack needle needle_len (i + 1)
  end.

(** A null pointer is [None]. *)
Definition find_string_offset (haystack : option bytes) (haystack_len : Z) (needle : option bytes) : option Z :=
  match haystack, needle with
  | Some haystack, Some needle =>
      if haystack_len <=? 0 then Some (-1)
      else
        len ← needle_length needle 0;
        match len with
        | None => Some (-1)
        | Some needle_len =>
            if needle_len =? 0 then Some 0
            else search (Z.to_nat (haystack_len - needle_len + 1)) haystack needle needle_len 0
        end
  | _, _ => Some (-1)
  end.
