(* ===== verification/CStringFacts.v ===== *)
(** * Memory and string functions: specification

    [strcmp] and [strncmp] decide the order of byte strings, [find_string_offset] finds the
    first occurrence, [memcpy], [memcpy32] and [memset] change the block they name. *)

From S2P Require Import Prelude Machine StringHelper KeyboardFacts KeyboardHandlerFacts TerminalFacts CString.

(** ** The reference: the order of byte strings *)

Fixpoint text_compare (s1 s2 : bytes) : comparison :=
  match s1, s2 with
  | [], [] => Eq
  | [], _ :: _ => Lt
  | _ :: _, [] => Gt
  | c1 :: r1, c2 :: r2 => match c1 ?= c2 with Eq => text_compare r1 r2 | o => o end
  end.

(** A NUL-free string, and the bytes from a pointer to it on. *)
Abbreviation text str := (Forall (fun c => 0 < c < 256) str).

Lemma text_head c s : text (c :: s) -> 0 < c < 256.
Proof. intros Ht. exact (Forall_inv Ht). Qed.

Lemma strcmp_spec s1 : forall s2 r1 r2, text s1 -> text s2 ->
  exists v, strcmp (s1 ++ 0 :: r1) (s2 ++ 0 :: r2) = Some v /\ (v ?= 0) = text_compare s1 s2.
Proof.
  induction s1 as [|c1 s1 IH]; intros [|c2 s2] r1 r2 H1 H2; cbn [app strcmp text_compare].
  - by exists 0.
  - pose proof (text_head _ _ H2). exists (0 - c2). split; [done|]. apply Z.compare_lt_iff. lia.
  - pose proof (text_head _ _ H1). rewrite (proj2 (Z.eqb_neq c1 0)) by lia. exists (c1 - 0). cbn [negb andb].
    split; [done|]. apply Z.compare_gt_iff. lia.
  - pose proof (text_head _ _ H1). rewrite (proj2 (Z.eqb_neq c1 0)) by lia. cbn [negb andb].
    destruct (Z.compare_spec c1 c2) as [->|Hlt|Hgt].
    + rewrite Z.eqb_refl. apply IH; [apply (Forall_inv_tail H1)|apply (Forall_inv_tail H2)].
    + rewrite (proj2 (Z.eqb_neq c1 c2)) by lia. exists (c1 - c2). split; [done|]. apply Z.compare_lt_iff. lia.
    + rewrite (proj2 (Z.eqb_neq c1 c2)) by lia. exists (c1 - c2). split; [done|]. apply Z.compare_gt_iff. lia.
Qed.

Lemma strncmp_spec n : forall s1 s2 r1 r2, text s1 -> text s2 ->
  exists v, strncmp_loop n (s1 ++ 0 :: r1) (s2 ++ 0 :: r2) = Some v /\
    (v ?= 0) = text_compare (take n s1) (take n s2).
Proof.
  induction n as [|n IH]; intros s1 s2 r1 r2 H1 H2; cbn [strncmp_loop]; [by exists 0|].
  destruct s1 as [|c1 s1], s2 as [|c2 s2]; cbn [app take text_compare].
  - by exists 0.
  - pose proof (text_head _ _ H2). rewrite (proj2 (Z.eqb_neq 0 c2)) by lia. exists (0 - c2). split; [done|].
    apply Z.compare_lt_iff. lia.
  - pose proof (text_head _ _ H1). rewrite (proj2 (Z.eqb_neq c1 0)) by lia. exists (c1 - 0). split; [done|].
    apply Z.compare_gt_iff. lia.
  - pose proof (text_head _ _ H1). destruct (Z.compare_spec c1 c2) as [->|Hlt|Hgt].
    + rewrite Z.eqb_refl, (proj2 (Z.eqb_neq c2 0)) by lia. cbn [negb].
      apply IH; [apply (Forall_inv_tail H1)|apply (Forall_inv_tail H2)].
    + rewrite (proj2 (Z.eqb_neq c1 c2)) by lia. exists (c1 - c2). split; [done|]. apply Z.compare_lt_iff. lia.
    + rewrite (proj2 (Z.eqb_neq c1 c2)) by lia. exists (c1 - c2). split; [done|]. apply Z.compare_gt_iff. lia.
Qed.

Lemma text_compare_eq s1 : forall s2, text_compare s1 s2 = Eq <-> s1 = s2.
Proof.
  induction s1 as [|c1 s1 IH]; intros [|c2 s2]; cbn [text_compare]; try done.
  destruct (Z.compare_spec c1 c2) as [->|Hlt|Hgt].
  - rewrite IH. split; [by intros ->|by intros [= ->]].
  - split; [done|]. intros [= -> _]. lia.
  - split; [done|]. intros [= -> _]. lia.
Qed.

(** ** Searching *)

(** The needle occurs in the haystack at [i]. *)
Definition occurs (haystack needle : bytes) (i : nat) : Prop := take (length needle) (drop i haystack) = needle.

Lemma needle_length_spec needle : forall rest n, text needle -> 0 <= n ->
  needle_length (needle ++ 0 :: rest) n =
    Some (if n + Z.of_nat (length needle) <=? Z.max n 4096 then Some (n + Z.of_nat (length needle)) else None).
Proof.
  induction needle as [|c needle IH]; intros rest n Ht Hn; cbn [app needle_length length].
  - rewrite Z.add_0_r. by rewrite (proj2 (Z.leb_le _ _)) by lia.
  - pose proof (text_head _ _ Ht). rewrite (proj2 (Z.eqb_neq c 0)) by lia.
    destruct (Z.gtb_spec (n + 1) 4096) as [Hg|Hg].
    + by rewrite (proj2 (Z.leb_gt _ _)) by lia.
    + rewrite IH by (apply (Forall_inv_tail Ht) || lia). do 2 f_equal.
      replace (n + 1 + Z.of_nat (length needle)) with (n + Z.of_nat (S (length needle))) by lia.
      by replace (Z.max (n + 1) 4096) with (Z.max n 4096) by lia.
Qed.

Lemma load_app_r pre post i : load (pre ++ post) (Z.of_nat (length pre) + Z.of_nat i) = post !! i.
Proof.
  unfold load. rewrite (proj2 (Z.leb_le 0 _)) by lia. rewrite <- Nat2Z.inj_add, Nat2Z.id.
  by rewrite lookup_app_r, Nat.add_sub_swap, Nat.sub_diag by lia.
Qed.

(** [match_at] compares the rest of the needle with the haystack behind position [i + j]. *)
Lemma match_at_spec todo : forall done_ haystack rest i,
  (length done_ + length todo + i <= length haystack)%nat ->
  match_at (length todo) haystack (done_ ++ todo ++ rest) (Z.of_nat i) (Z.of_nat (length done_)) =
    Some (bool_decide (take (length todo) (drop (length done_ + i) haystack) = todo)).
Proof.
  induction todo as [|c todo IH]; intros done_ haystack rest i Hl; cbn [length match_at].
  - by rewrite bool_decide_eq_true_2.
  - cbn [length] in Hl. destruct (drop (length done_ + i) haystack) as [|h tl] eqn:Hd.
    { apply (f_equal length) in Hd. rewrite length_drop in Hd. simpl in Hd. lia. }
    assert (Hh : haystack = take (length done_ + i) haystack ++ h :: tl) by by rewrite <- Hd, take_drop.
    assert (Hlt : length (take (length done_ + i) haystack) = (length done_ + i)%nat) by (rewrite length_take; lia).
    assert (load haystack (Z.of_nat i + Z.of_nat (length done_)) = Some h) as ->.
    { rewrite Hh. pose proof (load_app_r (take (length done_ + i) haystack) (h :: tl) 0) as Hr.
      rewrite Hlt in Hr. replace (Z.of_nat i + Z.of_nat (length done_)) with
        (Z.of_nat (length done_ + i) + Z.of_nat 0) by lia. exact Hr. }
    assert (load (done_ ++ (c :: todo) ++ rest) (Z.of_nat (length done_)) = Some c) as ->.
    { pose proof (load_app_r done_ ((c :: todo) ++ rest) 0) as Hr. by rewrite Z.add_0_r in Hr. }
    cbn [mbind option_bind take]. destruct (Z.eqb_spec h c) as [->|Hne]; cbn [negb].
    + assert (Htl : tl = drop (length (done_ ++ [c]) + i) haystack).
      { rewrite length_app. cbn [length]. replace (length done_ + 1 + i)%nat with ((length done_ + i) + 1)%nat by lia.
        by rewrite <- drop_drop, Hd. }
      replace (done_ ++ (c :: todo) ++ rest) with ((done_ ++ [c]) ++ todo ++ rest) by by rewrite <- (assoc_L (++)).
      replace (Z.of_nat (length done_) + 1) with (Z.of_nat (length (done_ ++ [c]))) by (rewrite length_app; simpl; lia).
      rewrite IH by (rewrite length_app; simpl; lia). rewrite Htl. f_equal. apply bool_decide_ext.
      split; [by intros ->|by intros [= ?]].
    + rewrite bool_decide_eq_false_2; [done|]. by intros [= ? ?].
Qed.

#[export] Instance occurs_dec haystack needle i : Decision (occurs haystack needle i).
Proof. unfold occurs. apply _. Defined.

Lemma search_spec needle rest haystack rounds : forall i,
  (i + rounds + length needle <= length haystack + 1)%nat ->
  search rounds haystack (needle ++ rest) (Z.of_nat (length needle)) (Z.of_nat i) =
    Some (match list_find (occurs haystack needle) (seq i rounds) with
          | Some (_, k) => Z.of_nat k | None => -1 end).
Proof.
  induction rounds as [|rounds IH]; intros i Hl; cbn [search seq list_find]; [done|].
  rewrite Nat2Z.id. pose proof (match_at_spec needle [] haystack rest i) as Hm. cbn [app length Nat.add] in Hm.
  change (Z.of_nat 0) with 0 in Hm. rewrite Hm by lia. cbn [mbind option_bind].
  destruct (decide (take (length needle) (drop i haystack) = needle)) as [Hb|Hb].
  - by rewrite bool_decide_eq_true_2, decide_True by done.
  - rewrite bool_decide_eq_false_2, decide_False by done.
    replace (Z.of_nat i + 1) with (Z.of_nat (S i)) by lia. rewrite IH by lia. f_equal.
    by destruct (list_find _ (seq (S i) rounds)) as [[? ?]|].
Qed.

Lemma list_find_seq (P : nat -> Prop) `{forall k, Decision (P k)} i n :
  match list_find P (seq i n) with
  | Some (_, k) => (i <= k < i + n)%nat /\ P k /\ forall k', (i <= k' < k)%nat -> ~ P k'
  | None => forall k, (i <= k < i + n)%nat -> ~ P k
  end.
Proof.
  destruct (list_find P (seq i n)) as [[j k]|] eqn:Hf.
  - apply list_find_Some in Hf as (Hj & Hp & Hn). apply lookup_seq in Hj as [-> Hj].
    split; [lia|]. split; [done|]. intros k' Hk'. apply (Hn (k' - i)%nat); [|lia].
    apply lookup_seq. lia.
  - apply list_find_None in Hf. intros k Hk. rewrite Forall_forall in Hf. apply Hf.
    apply in_seq. lia.
Qed.

(** [strcmp] has the sign of the order of the two strings, and is 0 only on equal ones;
    [strncmp] has the sign of the order of their first [len] characters; [find_string_offset]
    returns the first offset below the length given at which the needle occurs, -1 when there
    is none or the needle is longer than 4096 characters, 0 for the empty needle. *)
Theorem string_functions s1 s2 r1 r2 : text s1 -> text s2 ->
  (exists v, strcmp (s1 ++ 0 :: r1) (s2 ++ 0 :: r2) = Some v /\ (v ?= 0) = text_compare s1 s2 /\
     (v = 0 <-> s1 = s2)) /\
  (forall n, exists v, strncmp (s1 ++ 0 :: r1) (s2 ++ 0 :: r2) (Z.of_nat n) = Some v /\
     (v ?= 0) = text_compare (take n s1) (take n s2)) /\
  (forall haystack n, (0 < n <= length haystack)%nat -> exists v,
     find_string_offset (Some haystack) (Z.of_nat n) (Some (s2 ++ 0 :: r2)) = Some v /\
     (s2 = [] -> v = 0) /\ ((4096 < length s2)%nat -> v = -1) /\
     ((length s2 <= 4096)%nat -> s2 <> [] ->
        (v = -1 /\ forall k, (k + length s2 <= n)%nat -> ~ occurs haystack s2 k) \/
        exists k, v = Z.of_nat k /\ (k + length s2 <= n)%nat /\ occurs haystack s2 k /\
          forall k', (k' < k)%nat -> ~ occurs haystack s2 k')).
Proof.
  intros H1 H2. split; [|split].
  - destruct (strcmp_spec s1 s2 r1 r2 H1 H2) as (v & Hv & Hc). exists v. split; [done|]. split; [done|].
    rewrite <- text_compare_eq, <- Hc. by rewrite Z.compare_eq_iff.
  - intros n. unfold strncmp. rewrite Nat2Z.id. by apply strncmp_spec.
  - intros haystack n Hn. unfold find_string_offset. rewrite (proj2 (Z.leb_gt _ _)) by lia.
    rewrite needle_length_spec by (done || lia). cbn [mbind option_bind].
    destruct (Z.leb_spec (0 + Z.of_nat (length s2)) (Z.max 0 4096)) as [Hl|Hl].
    2: { exists (-1). split; [done|]. split; [intros ->; simpl in Hl; lia|]. split; [done|]. intros. lia. }
    destruct (Z.eqb_spec (0 + Z.of_nat (length s2)) 0) as [H0|H0].
    { exists 0. split; [done|]. split; [done|]. split; [intros; lia|]. intros _ Hne.
      destruct s2; [done|simpl in H0; lia]. }
    rewrite Z.add_0_l in *.
    destruct (decide (length s2 <= n)%nat) as [Hfit|Hfit].
    + replace (Z.to_nat (Z.of_nat n - Z.of_nat (length s2) + 1)) with (n - length s2 + 1)%nat by lia.
      pose proof (search_spec s2 (0 :: r2) haystack (n - length s2 + 1) 0 ltac:(lia)) as Hs.
      change (Z.of_nat 0) with 0 in Hs. rewrite Hs. eexists. split; [done|].
      pose proof (list_find_seq (occurs haystack s2) 0 (n - length s2 + 1)) as Hf.
      split; [intros ->; simpl in H0; lia|]. split; [intros; lia|]. intros _ _.
      destruct (list_find (occurs haystack s2) (seq 0 (n - length s2 + 1))) as [[j k]|].
      * right. exists k. destruct Hf as (Hk & Ho & Hno). split; [done|]. split; [lia|]. split; [done|].
        intros k' Hk'. apply Hno. lia.
      * left. split; [done|]. intros k Hk. apply Hf. lia.
    + replace (Z.to_nat (Z.of_nat n - Z.of_nat (length s2) + 1)) with 0%nat by lia. cbn [search].
      exists (-1). split; [done|]. split; [intros ->; simpl in H0; lia|]. split; [done|].
      intros _ _. left. split; [done|]. intros k Hk. lia.
Qed.

(** "ab" and "b"; "b" in "aab". *)
Lemma string_functions_witness :
  (exists v, strcmp [97; 98; 0] [98; 0] = Some v /\ v < 0) /\
  find_string_offset (Some [97; 97; 98]) 3 (Some [98; 0]) = Some 2.
Proof.
  destruct (string_functions [97; 98] [98] [] []) as ((v & Hv & Hc & _) & _ & Hf);
    [by repeat constructor|by repeat constructor|]. split.
  - exists v. split; [exact Hv|]. by apply Z.compare_lt_iff.
  - destruct (Hf [97; 97; 98] 3%nat) as (w & Hw & _ & _ & Ho); [simpl; lia|].
    destruct Ho as [[-> Hno]|(k & -> & Hk & Hocc & Hmin)]; [simpl; lia|done| |].
    + exfalso. by apply (Hno 2%nat ltac:(simpl; lia)).
    + destruct k as [|[|[|k]]]; [done|done|exact Hw|simpl in Hk; lia].
Defined.

(** ** Memory *)

Lemma load_some b i : 0 <= i < Z.of_nat (length b) -> exists v, load b i = Some v.
Proof.
  intros Hi. unfold load. rewrite (proj2 (Z.leb_le _ _)) by lia.
  apply lookup_lt_is_Some_2. lia.
Qed.

Lemma store_spec b i v : 0 <= i < Z.of_nat (length b) ->
  exists b', store b i v = Some b' /\ length b' = length b /\
    forall k, load b' k = if k =? i then Some v else load b k.
Proof.
  intros Hi. exists (<[Z.to_nat i := v]> b). unfold store. rewrite (proj2 (andb_true_iff _ _)) by lia.
  split; [done|]. split; [apply length_insert|]. intros k. unfold load.
  destruct (Z.leb_spec 0 k) as [Hk|Hk].
  - destruct (Z.eqb_spec k i) as [->|Hne]; [apply list_lookup_insert_eq; lia|apply list_lookup_insert_ne; lia].
  - by rewrite (proj2 (Z.eqb_neq k i)) by lia.
Qed.

(** The block of [n] bytes at [d] is inside the memory. *)
Definition block_in (mem : bytes) (d n : Z) : Prop := 0 <= d /\ 0 <= n /\ d + n <= Z.of_nat (length mem).

(** The bytes from [d] on are those of [f], [n] of them; nothing else has changed. *)
Definition block_set (mem mem' : bytes) (d n : Z) (f : Z -> option Z) : Prop :=
  length mem' = length mem /\
  forall k, load mem' k = if (d <=? k) && (k <? d + n) then f (k - d) else load mem k.

Section memory.
Context {D : Type} `{PortDevice D}.

Lemma prints_read {B} i v (k : Z -> M D bytes B) mem Q o :
  load mem i = Some v -> prints (D:=D) (k v) mem Q o -> prints (D:=D) (read i ≫= k) mem Q o.
Proof.
  intros Hv Hk. apply (prints_then _ _ _ (fun a t => a = v /\ t = mem)); [|by intros a t [-> ->]].
  apply prints_get. rewrite Hv. by apply prints_ret.
Qed.

Lemma prints_write i v mem (Q : unit -> bytes -> Prop) : 0 <= i < Z.of_nat (length mem) ->
  (forall mem', length mem' = length mem -> (forall k, load mem' k = if k =? i then Some v else load mem k) ->
     Q tt mem') -> prints (D:=D) (write i v) mem Q [].
Proof.
  intros Hi HQ. destruct (store_spec mem i v Hi) as (mem' & Hs & Hl & Hk).
  apply prints_get. eapply prints_cell; [exact Hs|]. apply prints_modify. by apply HQ.
Qed.

Lemma block_set_step mem mem1 mem2 d j f v : block_set mem mem1 d j f -> 0 <= j -> length mem2 = length mem1 ->
  (forall k, load mem2 k = if k =? d + j then Some v else load mem1 k) -> f j = Some v ->
  block_set mem mem2 d (j + 1) f.
Proof.
  intros [Hl Hm] Hj Hl2 Hk Hf. split; [congruence|]. intros k. rewrite Hk, Hm.
  destruct (Z.eqb_spec k (d + j)) as [->|Hne].
  - rewrite (proj2 (andb_true_iff _ _)) by lia. rewrite <- Hf. f_equal. lia.
  - destruct ((d <=? k) && (k <? d + j)) eqn:H1, ((d <=? k) && (k <? d + (j + 1))) eqn:H2; done || lia.
Qed.

Lemma memset_spec dest value n mem : block_in mem dest n ->
  prints (D:=D) (memset dest value n) mem
    (fun a mem' => a = dest /\ block_set mem mem' dest n (fun _ => Some (u8 value))) [].
Proof.
  intros (Hd & Hn & Hb). unfold memset. eapply prints_then.
  - apply (prints_for _ 0 _ (fun j mem' => block_set mem mem' dest j (fun _ => Some (u8 value)))).
    + split; [done|]. intros k. by rewrite (proj2 (andb_false_iff _ _)) by lia.
    + intros j mem1 Hj Hs. apply prints_write; [destruct Hs; lia|].
      intros mem2 Hl Hk. by apply (block_set_step mem mem1 mem2 dest j _ (u8 value)); [done|lia|..].
  - intros [] mem' Hs. apply prints_ret. split; [done|]. by rewrite Z2Nat.id in Hs by lia.
Qed.

(** The blocks do not overlap. *)
Definition apart (d s n : Z) : Prop := n = 0 \/ s + n <= d \/ d + n <= s.

Lemma no_overlap DEBUG d s n : 0 <= n -> apart d s n ->
  overlap_check (D:=D) DEBUG d s n = mret tt /\ restrict_ok (D:=D) d s n = mret tt.
Proof.
  intros Hn Ha. unfold overlap_check, restrict_ok. split.
  - destruct DEBUG; [|done]. cbn [andb]. destruct (_ || _) eqn:Ho; [|done]. unfold apart in Ha. lia.
  - destruct (_ && _) eqn:Ho; [|done]. unfold apart in Ha. lia.
Qed.

Lemma memcpy_spec DEBUG d s n mem : block_in mem d n -> block_in mem s n -> apart d s n ->
  prints (D:=D) (memcpy DEBUG d s n) mem
    (fun a mem' => a = d /\ block_set mem mem' d n (fun k => load mem (s + k))) [].
Proof.
  intros (Hd & Hn & Hdb) (Hs & _ & Hsb) Ha. unfold memcpy.
  destruct (no_overlap DEBUG d s n Hn Ha) as [-> ->].
  apply (prints_then _ _ _ (fun _ mem' => mem' = mem)); [by apply prints_ret|intros [] ? ->].
  apply (prints_then _ _ _ (fun _ mem' => mem' = mem)); [by apply prints_ret|intros [] ? ->].
  eapply prints_then.
  - apply (prints_for _ 0 _ (fun j mem' => block_set mem mem' d j (fun k => load mem (s + k)))).
    + split; [done|]. intros k. by rewrite (proj2 (andb_false_iff _ _)) by lia.
    + intros j mem1 Hj Hset. destruct (load_some mem (s + j)) as [v Hv]; [lia|].
      assert (load mem1 (s + j) = Some v) as Hv1.
      { destruct Hset as [_ ->]. rewrite (proj2 (andb_false_iff _ _)) by (unfold apart in Ha; lia). done. }
      eapply prints_read; [exact Hv1|]. apply prints_write; [destruct Hset; lia|].
      intros mem2 Hl Hk. by apply (block_set_step mem mem1 mem2 d j _ v); [done|lia|..].
  - intros [] mem' Hset. apply prints_ret. split; [done|]. by rewrite Z2Nat.id in Hset by lia.
Qed.

Lemma memcpy_overlap d s n mem dev : 0 < n -> ~ apart d s n -> d <> s ->
  o_exit (memcpy (D:=D) true d s n dev mem) = Aborted /\ o_glob (memcpy (D:=D) true d s n dev mem) = mem.
Proof.
  intros Hn Ha Hne. unfold memcpy, overlap_check.
  assert (true && ((d >? s) && (d <? s + n) || (s >? d) && (s <? d + n)) = true) as ->.
  { unfold apart in Ha. lia. }
  done.
Qed.

Lemma prints_write_then {B} i v (k : unit -> M D bytes B) mem Q o : 0 <= i < Z.of_nat (length mem) ->
  (forall mem', length mem' = length mem -> (forall k, load mem' k = if k =? i then Some v else load mem k) ->
     prints (D:=D) (k tt) mem' Q o) -> prints (D:=D) (write i v ≫= k) mem Q o.
Proof.
  intros Hi Hk. eapply prints_then.
  - apply (prints_write i v mem (fun _ mem' => length mem' = length mem /\
      forall k, load mem' k = if k =? i then Some v else load mem k)); done.
  - intros [] mem' [Hl Hm]. by apply Hk.
Qed.

(** One word of [memcpy32]. *)
Lemma word_step mem mem1 d s j : block_set mem mem1 d (4 * j) (fun k => load mem (s + k)) ->
  (forall k, 0 <= k < 4 -> load mem1 (s + 4 * j + k) = load mem (s + (4 * j + k))) ->
  0 <= j -> 0 <= d -> d + 4 * (j + 1) <= Z.of_nat (length mem) -> 0 <= s -> s + 4 * (j + 1) <= Z.of_nat (length mem) ->
  prints (D:=D) (b0 ← read (s + 4 * j); b1 ← read (s + 4 * j + 1); b2 ← read (s + 4 * j + 2);
    b3 ← read (s + 4 * j + 3); write (d + 4 * j) b0;; write (d + 4 * j + 1) b1;;
    write (d + 4 * j + 2) b2;; write (d + 4 * j + 3) b3) mem1
    (fun _ mem' => block_set mem mem' d (4 * (j + 1)) (fun k => load mem (s + k))) [].
Proof.
  intros Hset Hsrc Hj Hd Hdb Hs Hsb.
  assert (forall k, 0 <= k < 4 -> exists v, load mem1 (s + 4 * j + k) = Some v /\ load mem (s + (4 * j + k)) = Some v) as Hv.
  { intros k Hk. destruct (load_some mem (s + (4 * j + k))) as [v Hv]; [lia|]. exists v. by rewrite Hsrc. }
  destruct (Hv 0 ltac:(lia)) as (b0 & H0 & F0), (Hv 1 ltac:(lia)) as (b1 & H1 & F1),
    (Hv 2 ltac:(lia)) as (b2 & H2 & F2), (Hv 3 ltac:(lia)) as (b3 & H3 & F3). rewrite Z.add_0_r in H0, F0.
  pose proof (proj1 Hset) as Hl.
  do 4 (eapply prints_read; [eassumption|]).
  apply prints_write_then; [lia|]. intros m1 L1 K1.
  pose proof (block_set_step mem mem1 m1 d (4 * j) _ b0 Hset ltac:(lia) L1 K1 F0) as S1.
  apply prints_write_then; [lia|]. intros m2 L2 K2.
  rewrite <- Z.add_assoc in K2.
  pose proof (block_set_step mem m1 m2 d (4 * j + 1) _ b1 S1 ltac:(lia) L2 K2 F1) as S2.
  apply prints_write_then; [lia|]. intros m3 L3 K3.
  replace (4 * j + 1 + 1) with (4 * j + 2) in S2 by lia. rewrite <- Z.add_assoc in K3.
  pose proof (block_set_step mem m2 m3 d (4 * j + 2) _ b2 S2 ltac:(lia) L3 K3 F2) as S3.
  apply prints_write; [lia|]. intros m4 L4 K4.
  replace (4 * j + 2 + 1) with (4 * j + 3) in S3 by lia. rewrite <- Z.add_assoc in K4.
  pose proof (block_set_step mem m3 m4 d (4 * j + 3) _ b3 S3 ltac:(lia) L4 K4 F3) as S4.
  by replace (4 * (j + 1)) with (4 * j + 3 + 1) by lia.
Qed.

Lemma memcpy32_spec DEBUG d s n mem : 0 <= n -> block_in mem d (4 * n) -> block_in mem s (4 * n) -> apart d s (4 * n) ->
  prints (D:=D) (memcpy32 DEBUG d s n) mem
    (fun a mem' => a = d /\ block_set mem mem' d (4 * n) (fun k => load mem (s + k))) [].
Proof.
  intros Hn0 (Hd & Hn & Hdb) (Hs & _ & Hsb) Ha. unfold memcpy32.
  destruct (no_overlap DEBUG d s (4 * n) Hn Ha) as [-> ->].
  apply (prints_then _ _ _ (fun _ mem' => mem' = mem)); [by apply prints_ret|intros [] ? ->].
  apply (prints_then _ _ _ (fun _ mem' => mem' = mem)); [by apply prints_ret|intros [] ? ->].
  eapply prints_then.
  - apply (prints_for _ 0 _ (fun j mem' => block_set mem mem' d (4 * j) (fun k => load mem (s + k)))).
    + split; [done|]. intros k. by rewrite (proj2 (andb_false_iff _ _)) by lia.
    + intros j mem1 Hj Hset. apply word_step; try lia; [done|]. intros k Hk. rewrite (proj2 Hset).
      rewrite (proj2 (andb_false_iff _ _)) by (unfold apart in Ha; lia). f_equal. lia.
  - intros [] mem' Hset. apply prints_ret. split; [done|]. by rewrite Z2Nat.id in Hset by lia.
Qed.
End memory.

(** Inside the memory [memset] fills the block with the low byte of the value, [memcpy] and
    [memcpy32] copy [n] bytes and [n] words between blocks that do not overlap; each returns its
    first argument and changes nothing else.  In debug mode [memcpy] halts, and changes nothing,
    when the blocks overlap and are not the same. *)
Theorem memory_functions {D} `{PortDevice D} DEBUG d s n mem : block_in mem d n ->
  (forall value, prints (D:=D) (memset d value n) mem
     (fun a mem' => a = d /\ block_set mem mem' d n (fun _ => Some (u8 value))) []) /\
  (block_in mem s n -> apart d s n -> prints (D:=D) (memcpy DEBUG d s n) mem
     (fun a mem' => a = d /\ block_set mem mem' d n (fun k => load mem (s + k))) []) /\
  (block_in mem d (4 * n) -> block_in mem s (4 * n) -> apart d s (4 * n) ->
     prints (D:=D) (memcpy32 DEBUG d s n) mem
       (fun a mem' => a = d /\ block_set mem mem' d (4 * n) (fun k => load mem (s + k))) []) /\
  (0 < n -> ~ apart d s n -> d <> s -> forall dev,
     o_exit (memcpy (D:=D) true d s n dev mem) = Aborted /\ o_glob (memcpy (D:=D) true d s n dev mem) = mem).
Proof.
  intros Hb. split; [intros; by apply memset_spec|]. split; [intros; by apply memcpy_spec|].
  split; [|intros; by apply memcpy_overlap]. intros. apply memcpy32_spec; [apply Hb|done..].
Qed.

Lemma memory_functions_witness :
  o_glob (memcpy false 0 2 2 RL [1; 2; 3; 4]) = [3; 4; 3; 4] /\
  o_exit (memcpy true 0 1 2 RL [1; 2; 3; 4]) = Aborted.
Proof.
  destruct (memory_functions (D:=ready_line) false 0 2 2 [1; 2; 3; 4]) as (_ & Hc & _ & _); [split; simpl; lia|].
  destruct (memory_functions (D:=ready_line) false 0 1 2 [1; 2; 3; 4]) as (_ & _ & _ & Ho); [split; simpl; lia|].
  split.
  - destruct (Hc ltac:(split; simpl; lia) ltac:(right; lia) RL) as (a & _ & [_ [Hl Hm]] & _).
    apply list_eq. intros i. specialize (Hm (Z.of_nat i)). unfold load in Hm.
    rewrite (proj2 (Z.leb_le 0 _)), Nat2Z.id in Hm by lia. rewrite Hm.
    destruct i as [|[|i]]; [done|done|].
    rewrite (proj2 (andb_false_iff _ _)) by lia. done.
  - apply (Ho ltac:(lia) ltac:(unfold apart; lia) ltac:(lia) RL).
Defined.
