(* ===== verification/Symbols.v ===== *)
(** * The kernel's symbol table ([kernel/symbols.c])

    The table and the strings that the linker places in the image, the count that
    [init_elf_symbols] computes, and the three searches.  A name is an offset into the
    strings; reading past the end of either section is [None]. *)

From S2P Require Import Prelude Machine StringHelper.

(** [Elf32_Sym], 16 bytes. *)
Record Elf32_Sym := mk_sym {
  name : Z;
  value : Z;
  size : Z;
  info : Z;
  other : Z;
  shndx : Z;
}.

(** A little-endian field of [n] bytes. *)
Fixpoint load_le (n : nat) (b : bytes) (i : Z) : option Z :=
  match n with
  | O => Some 0
  | S n => lo ← load b i; hi ← load_le n b (i + 1); Some (lo + 256 * hi)
  end.

Section symbols.
(** The bytes from [__ksymtab_start] to [__ksymtab_end], and from [__kstrtab_start] on. *)
Context (ksymtab kstrtab : bytes).

(** [elf_symtab[i]] *)
Definition elf_symtab (i : Z) : option Elf32_Sym :=
  name ← load_le 4 ksymtab (16 * i);
  value ← load_le 4 ksymtab (16 * i + 4);
  size ← load_le 4 ksymtab (16 * i + 8);
  info ← load_le 1 ksymtab (16 * i + 12);
  other ← load_le 1 ksymtab (16 * i + 13);
  shndx ← load_le 2 ksymtab (16 * i + 14);
  Some (mk_sym name value size info other shndx).

(** [elf_symtab] is initialised with the address of an array, so that [!elf_symtab] is
    false; the state is [elf_symcount], 0 at first. *)
Definition elf_symtab_is_null : bool := false.
Definition elf_symcount_boot : Z := 0.

Section init.
Context {D : Type} `{PortDevice D}.

Definition init_elf_symbols : M D Z unit :=
  let bytes_ := Z.of_nat (length ksymtab) in
  modify (fun _ => bytes_ / 16);;
  (if negb (bytes_ mod 16 =? 0) then
     kprintf "ERROR: Symbol table size not multiple of 16!\n" [];;
     kprintf "Size mod 16 = %d\n" [PNum (bytes_ mod 16)];;
     abort_msg "abort() called" []
   else mret tt);;
  elf_symcount ← get;
  kprintf "ELF symbols: %d entries\n" [PNum elf_symcount].

(** The searches initialise the table first if it is missing. *)
Definition searching {A} (search : Z -> option A) : M D Z A :=
  (if elf_symtab_is_null then init_elf_symbols else mret tt);;
  elf_symcount ← get; read_cell (search elf_symcount).
End init.

(** The two cursors of the comparison, and whether they end on the same character. *)
Fixpoint same_name (symname n : bytes) : option bool :=
  match symname with
  | [] => None
  | c :: symname' =>
      match n with
      | [] => None
      | d :: n' => if negb (c =? 0) && (c =? d) then same_name symname' n' else Some (c =? d)
      end
  end.

(** The string from [offset] on. *)
Definition string_at (offset : Z) : option bytes :=
  if offset <=? Z.of_nat (length kstrtab) then Some (drop (Z.to_nat offset) kstrtab) else None.

(** [for (int i = 0; i < elf_symcount; i++)], [rounds] to go. *)
Fixpoint address_loop (rounds : nat) (i : Z) (n : bytes) : option Z :=
  match rounds with
  | O => Some 0
  | S rounds =>
      sym ← elf_symtab i;
      symname ← string_at (name sym);
      same ← same_name symname n;
      if (same : bool) then Some (value sym) else address_loop rounds (i + 1) n
  end.

Fixpoint name_loop (rounds : nat) (i address : Z) : option (option Z) :=
  match rounds with
  | O => Some None
  | S rounds =>
      sym ← elf_symtab i;
      if value sym =? address then Some (Some (name sym)) else name_loop rounds (i + 1) address
  end.

Fixpoint nearest_loop (rounds : nat) (i address : Z) (best_name : option Z) (best_addr : Z) :
    option (option Z * Z) :=
  match rounds with
  | O => Some (best_name, best_addr)
  | S rounds =>
      sym ← elf_symtab i;
      let sym_addr := value sym in
      if negb (sym_addr =? 0) && (sym_addr <=? address) && (sym_addr >? best_addr)
      then nearest_loop rounds (i + 1) address (Some (name sym)) sym_addr
      else nearest_loop rounds (i + 1) address best_name best_addr
  end.

Section searches.
Context {D : Type} `{PortDevice D}.

Definition find_symbol_address (n : bytes) : M D Z Z :=
  searching (fun elf_symcount => address_loop (Z.to_nat elf_symcount) 0 n).

(** The name is the offset of the string, [None] for the null pointer. *)
Definition find_symbol_name (address : Z) : M D Z (option Z) :=
  searching (fun elf_symcount => name_loop (Z.to_nat elf_symcount) 0 address).

(** With the value stored through [offset]; [None]: nothing is stored. *)
Definition find_nearest_symbol (address : Z) : M D Z (option Z * option Z) :=
  '(best_name, best_addr) ← searching (fun elf_symcount =>
     nearest_loop (Z.to_nat elf_symcount) 0 address None 0);
  mret (best_name, match best_name with Some _ => Some (u32 (address - best_addr)) | None => None end).
End searches.
End symbols.
