(* ===== verification/SymbolsFacts.v ===== *)
(** * The symbol table: what the searches find

    [symbol_lookup]: once [init_elf_symbols] has counted the table, the searches return the
    first symbol of the name, the first of the address, the nearest below the address;
    before that they find nothing, since the test for a missing table never holds. *)

From S2P Require Import Prelude Machine StringHelper TerminalFacts CString CStringFacts Symbols.

(** [lia] with division and remainder. *)
Ltac Zify.zify_post_hook ::= Z.to_euclidean_division_equations.

(** A symbol with the string its name stands for. *)
Abbreviation named_symbol := (Elf32_Sym * bytes)%type.

Section lookup.
Context (ksymtab kstrtab : bytes) (entries : list named_symbol).

(** The sections hold the entries. *)
Record holds : Prop := {
  holds_length : length ksymtab = (16 * length entries)%nat;
  holds_entry : forall i e, entries !! i = Some e -> elf_symtab ksymtab (Z.of_nat i) = Some (fst e) /\
    (exists r, string_at kstrtab (name (fst e)) = Some (snd e ++ 0 :: r)) /\ text (snd e) /\
    is_u32 (value (fst e));
}.

Context (H : holds).

Lemma same_name_spec s1 : forall s2 r1 r2, text s1 -> text s2 ->
  same_name (s1 ++ 0 :: r1) (s2 ++ 0 :: r2) = Some (bool_decide (s1 = s2)).
Proof.
  induction s1 as [|c1 s1 IH]; intros [|c2 s2] r1 r2 H1 H2; cbn [app same_name].
  - by rewrite bool_decide_eq_true_2.
  - pose proof (text_head _ _ H2). rewrite (proj2 (Z.eqb_neq 0 c2)) by lia. by rewrite bool_decide_eq_false_2.
  - pose proof (text_head _ _ H1). rewrite (proj2 (Z.eqb_neq c1 0)) by lia. by rewrite bool_decide_eq_false_2.
  - pose proof (text_head _ _ H1). rewrite (proj2 (Z.eqb_neq c1 0)) by lia. cbn [negb andb].
    destruct (Z.eqb_spec c1 c2) as [->|Hne].
    + rewrite IH by (apply (Forall_inv_tail H1) || apply (Forall_inv_tail H2)). f_equal.
      apply bool_decide_ext. split; [by intros ->|by intros [= ->]].
    + rewrite bool_decide_eq_false_2; [done|]. by intros [= ? ?].
Qed.

(** The first entry with a property. *)
Definition first_with (P : named_symbol -> Prop) `{forall e, Decision (P e)} (l : list named_symbol) :
  option Elf32_Sym := fst ∘ snd <$> list_find P l.

Lemma first_with_cons (P : named_symbol -> Prop) `{forall e, Decision (P e)} e l :
  first_with P (e :: l) = if decide (P e) then Some (fst e) else first_with P l.
Proof.
  unfold first_with. cbn [list_find]. destruct (decide (P e)); [done|].
  by destruct (list_find P l) as [[? ?]|].
Qed.

Lemma drop_entry i l : drop i entries = l -> (0 < length l)%nat -> exists e, entries !! i = Some e /\ l = e :: drop (S i) entries.
Proof.
  intros <- Hl. rewrite length_drop in Hl. destruct (lookup_lt_is_Some_2 entries i) as [e He]; [lia|].
  exists e. split; [done|]. by apply drop_S.
Qed.

Lemma address_loop_spec n r rounds : forall i, text n -> (i + rounds = length entries)%nat ->
  address_loop ksymtab kstrtab rounds (Z.of_nat i) (n ++ 0 :: r) =
    Some (default 0 (value <$> first_with (fun e => snd e = n) (drop i entries))).
Proof.
  induction rounds as [|rounds IH]; intros i Hn Hi; cbn [address_loop].
  - by rewrite drop_ge by lia.
  - destruct (drop_entry i _ eq_refl) as (e & He & ->); [rewrite length_drop; lia|].
    destruct (holds_entry H i e He) as (-> & (r1 & Hs) & Ht & _). cbn [mbind option_bind]. rewrite Hs.
    cbn [mbind option_bind]. rewrite same_name_spec by done. cbn [mbind option_bind].
    rewrite first_with_cons. destruct (decide (snd e = n)) as [Hd|Hd].
    + by rewrite bool_decide_eq_true_2.
    + rewrite bool_decide_eq_false_2 by done. replace (Z.of_nat i + 1) with (Z.of_nat (S i)) by lia.
      apply IH; [done|lia].
Qed.

Lemma name_loop_spec a rounds : forall i, (i + rounds = length entries)%nat ->
  name_loop ksymtab rounds (Z.of_nat i) a =
    Some (name <$> first_with (fun e => value (fst e) = a) (drop i entries)).
Proof.
  induction rounds as [|rounds IH]; intros i Hi; cbn [name_loop].
  - by rewrite drop_ge by lia.
  - destruct (drop_entry i _ eq_refl) as (e & He & ->); [rewrite length_drop; lia|].
    destruct (holds_entry H i e He) as (-> & _). cbn [mbind option_bind]. rewrite first_with_cons.
    destruct (decide (value (fst e) = a)) as [Hd|Hd].
    + by rewrite Hd, Z.eqb_refl.
    + rewrite (proj2 (Z.eqb_neq _ _)) by done. replace (Z.of_nat i + 1) with (Z.of_nat (S i)) by lia. apply IH. lia.
Qed.

(** The entry [e] at [i] is the nearest to [a] among the first [n]. *)
Definition nearest_among (a : Z) (n i : nat) (e : named_symbol) : Prop :=
  entries !! i = Some e /\ (i < n)%nat /\ 0 < value (fst e) <= a /\
  forall j e', (j < n)%nat -> entries !! j = Some e' -> 0 < value (fst e') <= a ->
    value (fst e') <= value (fst e) /\ (value (fst e') = value (fst e) -> (i <= j)%nat).
Definition none_among (a : Z) (n : nat) : Prop :=
  forall j e', (j < n)%nat -> entries !! j = Some e' -> ~ 0 < value (fst e') <= a.

(** What the loop knows after [n] entries. *)
Definition nearest_state (a : Z) (n : nat) (best_name : option Z) (best_addr : Z) : Prop :=
  (none_among a n /\ best_name = None /\ best_addr = 0) \/
  exists i e, nearest_among a n i e /\ best_name = Some (name (fst e)) /\ best_addr = value (fst e).

Lemma nearest_loop_spec a rounds : forall i best_name best_addr, (i + rounds = length entries)%nat ->
  nearest_state a i best_name best_addr ->
  exists b v, nearest_loop ksymtab rounds (Z.of_nat i) a best_name best_addr = Some (b, v) /\
    nearest_state a (length entries) b v.
Proof.
  induction rounds as [|rounds IH]; intros i bn ba Hi Hst; cbn [nearest_loop].
  - exists bn, ba. split; [done|]. by replace (length entries) with i by lia.
  - destruct (lookup_lt_is_Some_2 entries i) as [e He]; [lia|].
    destruct (holds_entry H i e He) as (-> & _ & _ & Hv). cbn [mbind option_bind].
    replace (Z.of_nat i + 1) with (Z.of_nat (S i)) by lia.
    destruct (negb (value (fst e) =? 0) && (value (fst e) <=? a) && (value (fst e) >? ba)) eqn:Hc;
      (apply IH; [lia|]).
    + right. exists i, e. split; [|done]. unfold is_u32 in Hv. split; [done|]. split; [lia|]. split; [lia|].
      intros j e' Hj He' Hr. destruct (decide (j = i)) as [->|Hji].
      * rewrite He in He'. injection He' as <-. lia.
      * destruct Hst as [(Hno & _ & ->)|(k & e0 & (_ & _ & _ & Hmax) & _ & ->)].
        -- by destruct (Hno j e' ltac:(lia) He').
        -- destruct (Hmax j e' ltac:(lia) He' Hr). lia.
    + destruct Hst as [(Hno & -> & ->)|(k & e0 & (Hk & Hlt & Hr0 & Hmax) & -> & ->)].
      * left. split; [|done]. intros j e' Hj He' Hr. destruct (decide (j = i)) as [->|Hji].
        -- rewrite He in He'. injection He' as <-. lia.
        -- by apply (Hno j e' ltac:(lia) He').
      * right. exists k, e0. split; [|done]. split; [done|]. split; [lia|]. split; [done|].
        intros j e' Hj He' Hr. destruct (decide (j = i)) as [->|Hji].
        -- rewrite He in He'. injection He' as <-. lia.
        -- by apply (Hmax j e' ltac:(lia) He').
Qed.
End lookup.

Lemma searching_run {D} `{PortDevice D} {A} ksymtab (search : Z -> option A) (d : D) count a :
  search count = Some a -> o_exit (searching ksymtab search d count) = Done a.
Proof. intros Hs. unfold searching, mbind, M_bind, mret, M_ret, get, read_cell. cbn. by rewrite Hs. Qed.

(** [init_elf_symbols] counts the entries of the table.  After it [find_symbol_address]
    returns the value of the first symbol of that name, or 0, [find_symbol_name] the name of
    the first symbol with the address, [find_nearest_symbol] the first of the symbols with the
    greatest value above 0 and not above the address, and the distance.  Before it they find
    nothing in any table. *)
Theorem symbol_lookup {D} `{PortDevice D} ksymtab kstrtab entries (d : D) n r a :
  holds ksymtab kstrtab entries -> text n -> is_u32 a ->
  let count := Z.of_nat (length entries) in
  (forall c, o_exit (init_elf_symbols ksymtab d c) = Done tt /\ o_glob (init_elf_symbols ksymtab d c) = count) /\
  o_exit (find_symbol_address ksymtab kstrtab (n ++ 0 :: r) d count) =
    Done (default 0 (value <$> first_with (fun e => snd e = n) entries)) /\
  o_exit (find_symbol_name ksymtab a d count) =
    Done (name <$> first_with (fun e => value (fst e) = a) entries) /\
  ((none_among entries a (length entries) /\ o_exit (find_nearest_symbol ksymtab a d count) = Done (None, None)) \/
   exists i e, nearest_among entries a (length entries) i e /\
     o_exit (find_nearest_symbol ksymtab a d count) = Done (Some (name (fst e)), Some (a - value (fst e)))) /\
  (o_exit (find_symbol_address ksymtab kstrtab (n ++ 0 :: r) d elf_symcount_boot) = Done 0 /\
   o_exit (find_symbol_name ksymtab a d elf_symcount_boot) = Done None /\
   o_exit (find_nearest_symbol ksymtab a d elf_symcount_boot) = Done (None, None)).
Proof.
  intros Hh Hn Ha count. split; [|split; [|split; [|split]]].
  - intros c. unfold init_elf_symbols. rewrite (holds_length _ _ _ Hh).
    replace (Z.of_nat (16 * length entries) / 16) with count by (subst count; lia).
    replace (Z.of_nat (16 * length entries) mod 16) with 0 by lia. done.
  - apply searching_run. subst count. rewrite Nat2Z.id.
    pose proof (address_loop_spec ksymtab kstrtab entries Hh n r (length entries) 0 Hn eq_refl) as Hl.
    by rewrite drop_0 in Hl.
  - apply searching_run. subst count. rewrite Nat2Z.id.
    pose proof (name_loop_spec ksymtab kstrtab entries Hh a (length entries) 0 eq_refl) as Hl.
    by rewrite drop_0 in Hl.
  - destruct (nearest_loop_spec ksymtab kstrtab entries Hh a (length entries) 0 None 0 eq_refl) as (b & v & Hl & Hs).
    { left. split; [|done]. intros j e' Hj. lia. }
    change (Z.of_nat 0) with 0 in Hl.
    assert (forall x, o_exit (find_nearest_symbol ksymtab a d count) = x <->
      Done (b, match b with Some _ => Some (u32 (a - v)) | None => None end) = x) as He.
    { intros x. unfold find_nearest_symbol, searching. cbn [elf_symtab_is_null].
      unfold mbind, M_bind, mret, M_ret, get, read_cell. cbn. subst count. by rewrite Nat2Z.id, Hl. }
    destruct Hs as [(Hno & -> & ->)|(i & e & Hne & -> & ->)].
    + left. split; [done|]. by apply He.
    + right. exists i, e. split; [done|]. apply He. rewrite u32_small; [done|].
      destruct Hne as (_ & _ & Hr & _). width.
  - done.
Qed.

(** One symbol "a" at 4096. *)
Definition one_symtab : bytes := [1; 0; 0; 0; 0; 16; 0; 0] ++ replicate 8 0.
Definition one_entry : named_symbol := (mk_sym 1 4096 0 0 0 0, [97]).

Lemma one_holds : holds one_symtab [0; 97; 0] [one_entry].
Proof.
  split; [done|]. intros [|i] e He; [|done]. injection He as <-.
  split; [done|]. split; [by exists []|]. split; [by repeat constructor|by split].
Qed.

Lemma symbol_lookup_witness :
  o_exit (find_symbol_address one_symtab [0; 97; 0] [97; 0] RL 1) = Done 4096 /\
  o_exit (find_symbol_address one_symtab [0; 97; 0] [97; 0] RL elf_symcount_boot) = Done 0.
Proof.
  destruct (symbol_lookup one_symtab [0; 97; 0] [one_entry] RL [97] [] 5000 one_holds) as (_ & Ha & _ & _ & Hb & _);
    [by repeat constructor|by split|]. split; [exact Ha|exact Hb].
Defined.
