(* ===== verification/Real16.v ===== *)
(** * Calling real-mode functions ([real16_wrappers/call_real16_wrapper.c],
      [realmode_functions/realmode_functions.c])

    The block [args16_start] through which 32-bit code hands a 16-bit function its address
    and arguments, and what is stored and printed.  The switch to real mode,
    [pm32_to_pm16], is assembly: a parameter. *)

From S2P Require Import Prelude Machine StringHelper Terminal BitHex.

Definition min (a b : Z) : Z := if a <? b then a else b.

(** [gdtr32_t]: two bytes, four bytes, two bytes of padding. *)
Record gdtr32_t := mk_gdtr { limit : Z; base_address : Z; padding : Z }.

Record Args16 := mk_args16 {
  gdt_root : gdtr32_t;
  esp : Z;
  ss : Z;
  cs : Z;
  ret1 : Z;
  ret2 : Z;
  func : Z;
  func_cs : Z;
  argc : Z;
  func_args : list Z;
}.

Definition func_args_size : Z := 11.

Definition set_func (f c : Z) (a : Args16) : Args16 :=
  mk_args16 (gdt_root a) (esp a) (ss a) (cs a) (ret1 a) (ret2 a) f c (argc a) (func_args a).
Definition set_argc (n : Z) (a : Args16) : Args16 :=
  mk_args16 (gdt_root a) (esp a) (ss a) (cs a) (ret1 a) (ret2 a) (func a) (func_cs a) n (func_args a).
Definition set_func_args (l : list Z) (a : Args16) : Args16 :=
  mk_args16 (gdt_root a) (esp a) (ss a) (cs a) (ret1 a) (ret2 a) (func a) (func_cs a) (argc a) l.

(** The 24 words of the block. *)
Definition args16_words (a : Args16) : list Z :=
  [limit (gdt_root a); u16 (base_address (gdt_root a)); base_address (gdt_root a) ≫ 16; padding (gdt_root a);
   u16 (esp a); esp a ≫ 16; ss a; cs a; ret1 a; ret2 a; func a; func_cs a; argc a] ++ func_args a.

Section printing.
Context {D : Type} `{PortDevice D}.
Abbreviation T A := (M D Terminal A).

(** A literal that ends in a newline character. *)
Definition write_line (str : string) : T unit := terminal_writestring (removelast (cstr str) ++ [10; 0]).

(** [terminal_write_uint16_array_newlines(arr, name, n)], [arr] an array of the struct: reading
    past its end is undefined. *)
Definition write_words (arr : list Z) (array_name : string) (n : Z) : T unit :=
  terminal_write_uint16_array_newlines (take (Z.to_nat n) arr) (cstr array_name);;
  if n <=? Z.of_nat (length arr) then mret tt else stop Undefined.

Definition print_args16 (args : Args16) : T unit :=
  write_line "==== Args16 Contents ====";;
  write_line "GDT Root:";;
  printBinarySize (limit (gdt_root args)) (cstr "GDT Size: ") 8;;
  printBinarySize (base_address (gdt_root args)) (cstr "GDT Base (bits 0-32)") 32;;
  terminal_writestring [10; 0];;
  terminal_write_hex (cstr "ESP: ") (esp args);;
  terminal_writestring [10; 0];;
  terminal_write_uint (cstr "Ret1: ") (ret1 args);;
  terminal_write_uint (cstr "Ret2: ") (ret2 args);;
  terminal_writestring [10; 0];;
  terminal_write_hex (cstr "Function address offset (ip): ") (func args);;
  terminal_write_hex (cstr "Function address segment (cs): ") (func_cs args);;
  terminal_writestring [10; 0];;
  terminal_write_uint (cstr "Argc: ") (argc args);;
  terminal_writestring [10; 0];;
  write_line "Function Arguments:";;
  if argc args =? 0 then terminal_writestring (9 :: removelast (cstr "None") ++ [10; 0])
  else write_words (func_args args) "    arg" (min (argc args) 12).

(** [memcpy(args16_raw, &args16_start, 48)] copies the words. *)
Definition print_args16_more (args16_start : Args16) : T Z :=
  print_args16 args16_start;;
  let args16_raw := args16_words args16_start in
  terminal_writestring (10 :: removelast (cstr "The raw version: ") ++ [10; 0]);;
  write_words args16_raw "args16_raw" 24;;
  mret 0.
End printing.

(** [struct realmode_address] *)
Record realmode_address := mk_realmode { rm_func_address : Z; rm_func_cs : Z }.

Definition get_realmode_function_address (addr : Z) : realmode_address :=
  if addr >? 0xFFFFF then mk_realmode 0xFFFF 0xFFFF
  else
    let func_address := addr .& 0xFFFF in
    let cs := u16 (u32 (addr - func_address) ≫ 16) in
    mk_realmode func_address cs.

Section calling.
Context {D : Type} `{PortDevice D}.
(** What the real-mode call leaves in the block and returns. *)
Context (pm32_to_pm16 : Args16 -> Args16 * Z).

(** [va_arg(args, uint32_t)]: the next word of the caller's stack. *)
Definition va_arg (args : list Z) : M D Args16 (Z * list Z) :=
  match args with w :: args => mret (w, args) | [] => stop Undefined end.

(** [args16_start.func_args[i] = v] *)
Definition store_arg (i v : Z) : M D Args16 unit :=
  if i <? func_args_size then modify (fun a => set_func_args (<[Z.to_nat i := u16 v]> (func_args a)) a)
  else stop Undefined.

(** [for (uint32_t i = 0; i < argc; i++)], [rounds] to go. *)
Fixpoint store_args (rounds : nat) (i : Z) (args : list Z) : M D Args16 unit :=
  match rounds with
  | O => mret tt
  | S rounds => '(v, args) ← va_arg args; store_arg i v;; store_args rounds (i + 1) args
  end.

(** [argc] counts the function and its arguments; [stack] holds them and, behind them, the rest
    of the caller's frame. *)
Definition call_real_mode_function_with_argc (argc : Z) (stack : list Z) : M D Args16 Z :=
  '(f, args) ← va_arg stack;
  let rm_address := get_realmode_function_address f in
  modify (set_func (rm_func_address rm_address) (rm_func_cs rm_address));;
  a ← get;
  kprintf "function offset %h\n" [PNum (func a .| (func_cs a ≪ 16))];;
  kprintf "function offset (func field): %h\n" [PNum (func a)];;
  kprintf "Diff = %u\n" [PNum 20];;
  modify (set_argc (u16 (argc - 1)));;
  store_args (Z.to_nat argc) 0 args;;
  a ← get;
  emit (ECall "pm32_to_pm16" []);;
  modify (fun _ => (pm32_to_pm16 a).1);;
  mret (u16 (pm32_to_pm16 a).2).

(** The macro [call_real_mode_function]: [PP_NARG] counts the function and its arguments. *)
Definition call_real_mode_function (f : Z) (args frame : list Z) : M D Args16 Z :=
  call_real_mode_function_with_argc (Z.of_nat (S (length args))) (f :: args ++ frame).
End calling.

(** ** The functions that run in real mode *)

Definition add16_ref (a b : Z) : Z := u16 (a + b).
Definition ret_5 : Z := 5.
Definition complex_operation (a b c d : Z) : Z := i16 (2 * a + b - c + 3 * d).

(** ** Properties *)

(** The linear address that the processor forms from segment and offset. *)
Definition linear (rm : realmode_address) : Z := 16 * rm_func_cs rm + rm_func_address rm.

Ltac Zify.zify_post_hook ::= Z.to_euclidean_division_equations.

Lemma realmode_address_eq addr : 0 <= addr <= 0xFFFFF ->
  get_realmode_function_address addr = mk_realmode (addr mod 2 ^ 16) (addr / 2 ^ 16).
Proof.
  intros Ha. unfold get_realmode_function_address. rewrite Z.gtb_ltb, (proj2 (Z.ltb_ge _ _)) by lia.
  assert (addr .& 0xFFFF = addr mod 2 ^ 16) as -> by exact (Z.land_ones addr 16 ltac:(lia)).
  f_equal. rewrite u32_small by width. rewrite Z.shiftr_div_pow2 by lia. rewrite u16_small by width. lia.
Qed.

Section calls.
Context {D : Type} `{PortDevice D} (pm32_to_pm16 : Args16 -> Args16 * Z).

(** What the loop stores from position [i] on. *)
Fixpoint stored (args old : list Z) (i : nat) : list Z :=
  match args with [] => old | v :: args => stored args (<[i := u16 v]> old) (S i) end.

Lemma store_args_run args : forall i rest a (d : D), Z.of_nat (i + length args) <= func_args_size ->
  store_args (length args) (Z.of_nat i) (args ++ rest) d a =
    Outcome d (set_func_args (stored args (func_args a) i) a) [] (Done tt).
Proof.
  induction args as [|v args IH]; intros i rest a d Hi; cbn [length store_args app stored].
  - by destruct a.
  - cbn [length] in Hi. cbn [va_arg]. rewrite ret_bind. unfold store_arg.
    rewrite (proj2 (Z.ltb_lt _ _)) by lia. erewrite (bind_done (modify _)) by reflexivity.
    replace (Z.of_nat i + 1) with (Z.of_nat (S i)) by lia. rewrite IH by lia.
    rewrite Nat2Z.id. by destruct a.
Qed.

Lemma store_args_overflow rounds : forall i args a (d : D), i <= func_args_size < i + Z.of_nat rounds ->
  o_exit (store_args rounds i args d a) = Undefined.
Proof.
  induction rounds as [|rounds IH]; intros i args a d Hi; cbn [store_args]; [lia|].
  destruct args as [|v args]; [done|]. cbn [va_arg]. rewrite ret_bind. unfold store_arg.
  destruct (Z.ltb_spec i func_args_size) as [Hlt|Hge]; [|done].
  erewrite (bind_done (modify _)) by reflexivity. cbn [o_exit]. apply IH. lia.
Qed.

Lemma stored_spec args : forall old i, (i + length args <= length old)%nat ->
  stored args old i = take i old ++ map u16 args ++ drop (i + length args) old.
Proof.
  induction args as [|v args IH]; intros old i Hi; cbn [stored map length].
  - by rewrite Nat.add_0_r, app_nil_l, take_drop.
  - cbn [length] in Hi. rewrite IH by (rewrite length_insert; lia).
    rewrite (take_S_r _ i (u16 v)) by (rewrite list_lookup_insert_eq; [done|lia]).
    rewrite take_insert_ge, drop_insert_lt by lia.
    rewrite <- (assoc_L (++)). by replace (S i + length args)%nat with (i + S (length args))%nat by lia.
Qed.

(** The block before the switch: address, count, arguments and one word more. *)
Definition prepared (f : Z) (args : list Z) (extra : Z) (a : Args16) : Args16 :=
  let rm := get_realmode_function_address f in
  set_func_args (map u16 (args ++ [extra]) ++ drop (S (length args)) (func_args a))
    (set_argc (u16 (Z.of_nat (length args))) (set_func (rm_func_address rm) (rm_func_cs rm) a)).

Lemma call_run f args extra frame a (d : D) : length (func_args a) = 11%nat -> (length args <= 10)%nat ->
  o_exit (call_real_mode_function pm32_to_pm16 f args (extra :: frame) d a) =
    Done (u16 (pm32_to_pm16 (prepared f args extra a)).2) /\
  o_glob (call_real_mode_function pm32_to_pm16 f args (extra :: frame) d a) =
    (pm32_to_pm16 (prepared f args extra a)).1.
Proof.
  intros Hl Ha. unfold call_real_mode_function, call_real_mode_function_with_argc.
  change (va_arg (f :: args ++ extra :: frame)) with (mret (f, args ++ extra :: frame) : M D Args16 (Z * list Z)).
  rewrite ret_bind. do 6 (erewrite (bind_done (A:=_) _ _ d) by reflexivity). cbn [o_exit o_glob].
  rewrite Nat2Z.id. replace (args ++ extra :: frame) with ((args ++ [extra]) ++ frame) by by rewrite <- (assoc_L (++)).
  replace (S (length args)) with (length (args ++ [extra])) by (rewrite length_app; simpl; lia).
  change 0 with (Z.of_nat 0). rewrite (bind_done _ _ _ _ _ _ _ _
    (store_args_run (args ++ [extra]) 0 frame _ d ltac:(rewrite length_app; simpl; unfold func_args_size; lia))).
  cbn [o_exit o_glob]. unfold prepared. rewrite stored_spec by (cbn; rewrite length_app; simpl; lia).
  cbn [func_args set_func set_argc set_func_args take app Nat.add].
  rewrite length_app. cbn [length]. replace (length args + 1)%nat with (S (length args)) by lia.
  replace (Z.of_nat (S (length args)) - 1) with (Z.of_nat (length args)) by lia. done.
Qed.

Lemma call_overflow f args frame a (d : D) : (11 <= length args)%nat ->
  o_exit (call_real_mode_function pm32_to_pm16 f args frame d a) = Undefined.
Proof.
  intros Ha. unfold call_real_mode_function, call_real_mode_function_with_argc.
  change (va_arg (f :: args ++ frame)) with (mret (f, args ++ frame) : M D Args16 (Z * list Z)).
  rewrite ret_bind. do 6 (erewrite (bind_done (A:=_) _ _ d) by reflexivity). cbn [o_exit].
  unfold mbind at 1, M_bind. rewrite store_args_overflow; [done|]. unfold func_args_size. lia.
Qed.
End calls.

(** The real-mode address of a function below 64 KB is its address; from there to 1 MB the
    segment is shifted by 16 instead of 4, so that segment and offset stand for a lower address;
    beyond 1 MB it is FFFF:FFFF.  A call stores the address and up to ten arguments in the block,
    with their number, one word more than the arguments, which it takes from the caller's frame,
    and returns 16 bits of what the function returns; with eleven arguments, for which the block has room,
    and more it writes behind the block. *)
Theorem real_mode_call {D} `{PortDevice D} (pm32_to_pm16 : Args16 -> Args16 * Z) addr args extra frame a (d : D) :
  is_u32 addr -> length (func_args a) = 11%nat ->
  (addr < 2 ^ 16 -> linear (get_realmode_function_address addr) = addr) /\
  (2 ^ 16 <= addr <= 0xFFFFF -> linear (get_realmode_function_address addr) < addr) /\
  (0xFFFFF < addr -> get_realmode_function_address addr = mk_realmode 0xFFFF 0xFFFF) /\
  let call := call_real_mode_function pm32_to_pm16 addr args (extra :: frame) d a in
  ((length args <= 10)%nat ->
     let '(after, result) := pm32_to_pm16 (prepared addr args extra a) in
     o_exit call = Done (u16 result) /\ o_glob call = after) /\
  ((11 <= length args)%nat -> o_exit call = Undefined).
Proof.
  intros Hu Hl. split; [|split; [|split; [|split]]].
  - intros Ha. rewrite realmode_address_eq by width. unfold linear. cbn. width.
  - intros Ha. rewrite realmode_address_eq by width. unfold linear. cbn. width.
  - intros Ha. unfold get_realmode_function_address. by rewrite Z.gtb_ltb, (proj2 (Z.ltb_lt _ _)) by lia.
  - intros Ha. destruct (pm32_to_pm16 _) as [after result] eqn:E.
    pose proof (call_run pm32_to_pm16 addr args extra frame a d Hl Ha) as Hr. by rewrite E in Hr.
  - intros Ha. by apply call_overflow.
Qed.

Definition sample_args : Args16 :=
  mk_args16 (mk_gdtr 0x17 0x1000 0) 0x9000 0 0 0 0 0 0 0 (replicate 11 0).

(** A real-mode side that adds the first two arguments. *)
Definition sample_real_mode (a : Args16) : Args16 * Z :=
  (a, add16_ref (nth 0 (func_args a) 0) (nth 1 (func_args a) 0)).

Lemma real_mode_call_witness :
  linear (get_realmode_function_address 0x12345) < 0x12345 /\
  let call := call_real_mode_function sample_real_mode 0x12345 [104; 201] [7] ND sample_args in
  o_exit call = Done 305 /\ take 4 (func_args (o_glob call)) = [104; 201; 7; 0] /\ argc (o_glob call) = 2.
Proof.
  destruct (real_mode_call sample_real_mode 0x12345 [104; 201] 7 [] sample_args ND ltac:(by split) eq_refl)
    as (_ & Hlow & _ & Hrun & _).
  split; [by apply Hlow|]. destruct (Hrun ltac:(simpl; lia)) as [He Hg]. cbn zeta. rewrite He, Hg.
  split; [|split]; by vm_compute.
Defined.
