(* ===== verification/Framebuffer.v ===== *)
(** * The graphical framebuffer ([framebuffer/framebuffer.cpp], [framebuffer.hpp])

    The frame, the pixel accesses and the drawing functions.  The video memory is the list of
    its 32-bit words; an access beyond it is undefined. *)

From S2P Require Import Prelude Machine.

Record Color := mk_color { b : Z; g : Z; r : Z; a : Z }.

(** The constructor from a number, and the number written to the video memory. *)
Definition Color_of_hex (hex : Z) : Color :=
  mk_color (u8 (hex .& 0xFF)) (u8 ((hex ≫ 8) .& 0xFF)) (u8 ((hex ≫ 16) .& 0xFF)) (u8 ((hex ≫ 24) .& 0xFF)).
Definition packed (color : Color) : Z :=
  (a color ≪ 24) .| (r color ≪ 16) .| (g color ≪ 8) .| b color.

(** [class FrameBuffer] and the memory at [base_address]. *)
Record FrameBuffer := mk_fb {
  base_address : Z;
  width : Z;
  height : Z;
  effective_pitch : Z;
  pixels : list Z;
}.

Definition set_pixels (l : list Z) (f : FrameBuffer) : FrameBuffer :=
  mk_fb (base_address f) (width f) (height f) (effective_pitch f) l.

Definition initialize (base w h eff_pitch : Z) (f : FrameBuffer) : FrameBuffer :=
  mk_fb base w h eff_pitch (pixels f).

(** The structs of arguments. *)
Record DrawHorizontalLineArgs := mk_hline { h_y : Z; h_x_start : Z; h_x_end : Z; h_color : Color; h_thickness : Z }.
Record DrawVerticalLineArgs := mk_vline { v_x : Z; v_y_start : Z; v_y_end : Z; v_color : Color; v_thickness : Z }.
Record DrawLineArgs := mk_line { x0 : Z; y0 : Z; x1 : Z; y1 : Z; l_color : Color }.
Record DrawRectangleArgs := mk_rect { r_top_left_x : Z; r_top_left_y : Z; r_width : Z; r_height : Z; r_color : Color }.
Record Bitmap := mk_bitmap { b_width : Z; b_height : Z; b_effective_pitch : Z; data : list Color }.
Record DrawBitmapArgs := mk_draw_bitmap { d_top_left_x : Z; d_top_left_y : Z; bitmap : Bitmap }.

Section drawing.
Context {D : Type} `{PortDevice D}.
(** Built with [-DDEBUG] or not. *)
Context (DEBUG : bool).
Abbreviation T A := (M D FrameBuffer A).

(** [uint32_t idx = y * effective_pitch + x;], computed in [int], of a word of the memory. *)
Definition pixel_index (f : FrameBuffer) (x y : Z) : option nat :=
  let idx := y * effective_pitch f + x in
  if (idx <? 2 ^ 31) && (idx <? Z.of_nat (length (pixels f))) then Some (Z.to_nat idx) else None.

Definition set_pixel (x y : Z) (color : Color) : T Z :=
  let x := u16 x in let y := u16 y in
  f ← get;
  if DEBUG && (x >? width f) then mret 1
  else if DEBUG && (y >? height f) then mret 2
  else
    idx ← read_cell (pixel_index f x y);
    modify (fun f => set_pixels (<[idx := packed color]> (pixels f)) f);;
    mret 0.

Definition get_pixel (x y : Z) : T Color :=
  let x := u16 x in let y := u16 y in
  f ← get;
  (if DEBUG && (x >? width f) then abort_msg "Y too small\n" [] else mret tt);;
  (if DEBUG && (y >? height f) then abort_msg "Y too big\n" [] else mret tt);;
  idx ← read_cell (pixel_index f x y);
  raw ← read_cell (pixels f !! idx);
  mret (Color_of_hex raw).

(** [for (i = start; ...; i++)], [rounds] of them, left in debug mode with the first nonzero
    result. *)
Fixpoint each (rounds : nat) (i : Z) (body : Z -> T Z) : T Z :=
  match rounds with
  | O => mret 0
  | S rounds =>
      ret ← body i;
      if DEBUG && negb (ret =? 0) then mret ret else each rounds (i + 1) body
  end.

Definition draw_horizontal_line (args : DrawHorizontalLineArgs) : T Z :=
  each (Z.to_nat (h_thickness args)) 0 (fun thick_offset =>
    each (Z.to_nat (h_x_end args - h_x_start args)) (h_x_start args) (fun x =>
      set_pixel x (h_y args + thick_offset) (h_color args))).

Definition draw_vertical_line (args : DrawVerticalLineArgs) : T Z :=
  each (Z.to_nat (v_y_end args - v_y_start args)) (v_y_start args) (fun y =>
    each (Z.to_nat (v_thickness args)) 0 (fun thick_offset =>
      set_pixel (v_x args + thick_offset) y (v_color args))).

Definition draw_rectangle (args : DrawRectangleArgs) : T Z :=
  each (Z.to_nat (r_height args)) (r_top_left_y args) (fun y =>
    each (Z.to_nat (r_width args)) (r_top_left_x args) (fun x =>
      set_pixel x y (r_color args))).

Definition draw_bitmap (args : DrawBitmapArgs) : T Z :=
  let bm := bitmap args in
  each (Z.to_nat (b_height bm)) 0 (fun j =>
    each (Z.to_nat (b_width bm)) 0 (fun i =>
      let b_idx := u32 (j * b_effective_pitch bm + i) in
      color ← read_cell (data bm !! Z.to_nat b_idx);
      set_pixel (d_top_left_x args + i) (d_top_left_y args + j) color)).

(** The loop of [draw_line_quick] from the point [(x, y)] on. *)
Fixpoint line_loop (fuel : nat) (args : DrawLineArgs) (dx dy sx sy x y err : Z) : T unit :=
  match fuel with
  | O => stop Spinning
  | S fuel =>
      set_pixel x y (l_color args);;
      if (x =? x1 args) && (y =? y1 args) then mret tt
      else
        let e2 := 2 * err in
        let '(err, x) := if e2 >? - dy then (err - dy, x + sx) else (err, x) in
        let '(err, y) := if e2 <? dx then (err + dx, y + sy) else (err, y) in
        line_loop fuel args dx dy sx sy x y err
  end.

(** One round per column or row. *)
Definition line_rounds (args : DrawLineArgs) : nat :=
  S (Z.to_nat (Z.max (Z.abs (x1 args - x0 args)) (Z.abs (y1 args - y0 args)))).

Definition draw_line_quick (args : DrawLineArgs) : T unit :=
  let dx := Z.abs (x1 args - x0 args) in
  let dy := Z.abs (y1 args - y0 args) in
  let sx := if x0 args <? x1 args then 1 else -1 in
  let sy := if y0 args <? y1 args then 1 else -1 in
  line_loop (line_rounds args) args dx dy sx sy (x0 args) (y0 args) (dx - dy).

(** ** The test picture *)

Definition hline (y x_start x_end color thickness : Z) : DrawHorizontalLineArgs :=
  mk_hline (u16 y) x_start x_end (Color_of_hex color) thickness.

Definition draw_rgb_lines (line_thickness starting_y : Z) : T unit :=
  f ← get;
  _ ← draw_horizontal_line (hline (0 * line_thickness + starting_y) 0 (width f) 0xff0000 line_thickness);
  _ ← draw_horizontal_line (hline (1 * line_thickness + starting_y) 0 (width f) 0x00ff00 line_thickness);
  _ ← draw_horizontal_line (hline (2 * line_thickness + starting_y) 0 (width f) 0x0000ff line_thickness);
  mret tt.

Definition do_test (base w h pitch : Z) : T unit :=
  assert_handler_fmt (negb (base =? 0)) "Null Base Address\n" [];;
  modify (initialize base w h (pitch / 4));;
  kprintf "The framebuffer base is %h\n" [PNum base];;
  draw_rgb_lines 10 (u16 (h / 2 - 5));;
  _ ← draw_rectangle (mk_rect 50 190 30 180 (Color_of_hex 0xff00ff));
  _ ← draw_vertical_line (mk_vline 800 0 h (Color_of_hex 0xffff00) 2);
  _ ← draw_horizontal_line (hline 500 0 w 0x329cf4 3);
  mret tt.

Definition do_test_c (base w h pitch : Z) : T unit := do_test base (u16 w) (u16 h) (u16 pitch).
End drawing.
