(* ===== verification/FramebufferFacts.v ===== *)
(** * What the drawing functions draw

    A drawing function writes a list of pixels; on a frame that holds them it returns and
    changes those pixels only, without output.  The line of [draw_line_quick] is the exact line, rounded. *)

From S2P Require Import Prelude Machine Framebuffer.

(** ** Painting *)

Definition point : Type := Z * Z.

(** The screen lies in the memory. *)
Record framed (f : FrameBuffer) : Prop := {
  framed_width : 0 <= width f <= effective_pitch f;
  framed_u16 : is_u16 (effective_pitch f) /\ is_u16 (height f) /\ 0 <= height f;
  framed_int : effective_pitch f * height f <= 2 ^ 31;
  framed_memory : effective_pitch f * height f <= Z.of_nat (length (pixels f));
}.

Definition inside (f : FrameBuffer) (p : point) : Prop := 0 <= p.1 < width f /\ 0 <= p.2 < height f.
#[export] Instance inside_dec f p : Decision (inside f p).
Proof. unfold inside. apply _. Defined.

Definition index (f : FrameBuffer) (p : point) : nat := Z.to_nat (p.2 * effective_pitch f + p.1).
Definition pixel (f : FrameBuffer) (p : point) : option Z := pixels f !! index f p.

(** Writing one word, and a list of them. *)
Definition dot (f : FrameBuffer) (w : point * Z) : FrameBuffer :=
  set_pixels (<[index f w.1 := w.2]> (pixels f)) f.
Definition paint (l : list (point * Z)) (f : FrameBuffer) : FrameBuffer := foldl dot f l.

Lemma paint_app l l' f : paint (l ++ l') f = paint l' (paint l f).
Proof. apply foldl_app. Qed.

Lemma paint_frame l : forall f, exists px, paint l f = set_pixels px f /\ length px = length (pixels f).
Proof.
  induction l as [|w l IH]; intros f; cbn.
  - exists (pixels f). by destruct f.
  - destruct (IH (dot f w)) as (px & Hpx & Hl). exists px. unfold paint in Hpx. rewrite Hpx.
    split; [done|]. rewrite Hl. cbn. by rewrite length_insert.
Qed.

Lemma paint_framed l f : framed f -> framed (paint l f).
Proof. intros [? ? ? ?]. destruct (paint_frame l f) as (px & -> & Hl). split; cbn; [done..|]. by rewrite Hl. Qed.

Lemma paint_inside l f p : inside (paint l f) p <-> inside f p.
Proof. by destruct (paint_frame l f) as (px & -> & _). Qed.

Lemma index_bound f p : framed f -> inside f p ->
  0 <= p.2 * effective_pitch f + p.1 < effective_pitch f * height f.
Proof. intros [? ? ? ?] [? ?]. nia. Qed.

Lemma index_inj f p q : framed f -> inside f p -> inside f q -> index f p = index f q -> p = q.
Proof.
  intros Hf Hp Hq He. pose proof (index_bound _ _ Hf Hp). pose proof (index_bound _ _ Hf Hq).
  destruct Hf as [? ? ? ?]. unfold index in He. destruct p as [x y], q as [x' y'], Hp, Hq. cbn in *.
  assert (y = y') as -> by nia. f_equal. lia.
Qed.

(** Painted points have their colour, the others keep theirs. *)
Lemma pixel_paint (colour : point -> Z) l : forall f p, framed f -> inside f p ->
  Forall (fun w => inside f w.1 /\ w.2 = colour w.1) l ->
  pixel (paint l f) p = if decide (p ∈ l.*1) then Some (colour p) else pixel f p.
Proof.
  induction l as [|[q c] l IH] using rev_ind; intros f p Hf Hp Hl; cbn; [done|].
  apply Forall_app in Hl as [Hl Hq]. apply Forall_inv in Hq as [Hq Hc]. cbn in Hq, Hc. subst c.
  rewrite paint_app. cbn [paint foldl]. rewrite fmap_app. cbn [fmap list_fmap fst].
  specialize (IH f p Hf Hp Hl). destruct (paint_frame l f) as (px & Hpx & Hlen).
  rewrite Hpx in *. unfold pixel in *. cbn [dot set_pixels pixels index effective_pitch fst snd] in *.
  change (index (dot (set_pixels px f) (q, colour q)) p) with (index f p).
  change (index (set_pixels px f)) with (index f) in *.
  destruct (decide (q = p)) as [->|Hne].
  - rewrite list_lookup_insert_eq by (pose proof (index_bound f p Hf Hp); pose proof (framed_memory f Hf); unfold index; lia).
    rewrite decide_True; [done|]. apply elem_of_app. right. by apply list_elem_of_singleton.
  - rewrite list_lookup_insert_ne by (intros He; apply Hne; by apply (index_inj f)).
    rewrite IH. apply decide_ext. rewrite elem_of_app, list_elem_of_singleton. naive_solver.
Qed.

(** ** The functions *)

Section facts.
Context {D : Type} `{PortDevice D} (DEBUG : bool).

Lemma set_pixel_inside f p c : framed f -> inside f p ->
  returns (set_pixel (D:=D) DEBUG p.1 p.2 c) f 0 (dot f (p, packed c)).
Proof.
  intros Hf Hp. pose proof (index_bound _ _ Hf Hp) as Hb. destruct Hf as [Hw [Hu [Hh ?]] Hi Hm], Hp as [Hx Hy].
  unfold set_pixel. rewrite !u16_small by width. apply returns_get.
  rewrite (proj2 (andb_false_iff DEBUG (p.1 >? width f))) by (rewrite Z.gtb_ltb, Z.ltb_ge; lia).
  rewrite (proj2 (andb_false_iff DEBUG (p.2 >? height f))) by (rewrite Z.gtb_ltb, Z.ltb_ge; lia).
  eapply (returns_cell _ (index f p)).
  { unfold pixel_index. by rewrite (proj2 (andb_true_iff _ _)) by lia. }
  eapply returns_bind; [apply returns_modify|]. apply returns_ret.
Qed.

Lemma each_paints n : forall i (body : Z -> M D FrameBuffer Z) (pts : Z -> list (point * Z)) f,
  (forall j l, i <= j < i + Z.of_nat n -> returns (body j) (paint l f) 0 (paint (pts j) (paint l f))) ->
  returns (each DEBUG n i body) f 0 (paint (mjoin (map pts (seqZ i (Z.of_nat n)))) f).
Proof.
  induction n as [|n IH]; intros i body pts f Hb; cbn [each]; [apply returns_ret|].
  rewrite seqZ_cons by lia. replace (Z.pred (Z.of_nat (S n))) with (Z.of_nat n) by lia.
  cbn [map mjoin list_join]. rewrite paint_app.
  eapply returns_bind; [apply (Hb i []); lia|]. cbn [Z.eqb negb]. rewrite andb_false_r.
  replace (Z.succ i) with (i + 1) by lia. apply IH.
  intros j l Hj. rewrite <- paint_app. apply Hb. lia.
Qed.

(** Membership in rows of single dots. *)
Lemma elem_of_dots {A} (pts : Z -> list A) i n w :
  w ∈ mjoin (map pts (seqZ i n)) <-> exists j, i <= j < i + n /\ w ∈ pts j.
Proof.
  rewrite list_elem_of_join. setoid_rewrite list_elem_of_In. setoid_rewrite in_map_iff.
  setoid_rewrite <- list_elem_of_In. setoid_rewrite elem_of_seqZ. naive_solver.
Qed.

(** [m] returns [v] and gives exactly the points of [area] their [colour]. *)
Definition draws {A} (m : M D FrameBuffer A) (f : FrameBuffer) (v : A) (area : point -> Prop)
    (colour : point -> Z) : Prop :=
  exists px, returns m f v (set_pixels px f) /\ length px = length (pixels f) /\
    forall p, inside f p ->
      (area p -> pixel (set_pixels px f) p = Some (colour p)) /\
      (~ area p -> pixel (set_pixels px f) p = pixel f p).

Lemma paint_draws {A} (m : M D FrameBuffer A) f v l (area : point -> Prop) colour :
  framed f -> returns m f v (paint l f) ->
  Forall (fun w => inside f w.1 /\ w.2 = colour w.1) l ->
  (forall p, p ∈ l.*1 <-> area p) -> draws m f v area colour.
Proof.
  intros Hf Hm Hl Ha. destruct (paint_frame l f) as (px & Hpx & Hlen). exists px. rewrite <- Hpx.
  split; [done|]. split; [done|]. intros p Hp. rewrite (pixel_paint colour) by done.
  split; intros HA; rewrite <- Ha in HA; [by rewrite decide_True|by rewrite decide_False].
Qed.

(** Two nested loops that write one pixel in each round. *)
Lemma nested_draws n m i j (body : Z -> Z -> M D FrameBuffer Z) (at_ : Z -> Z -> point) colour f : framed f ->
  (forall u v, i <= u < i + Z.of_nat n -> j <= v < j + Z.of_nat m -> inside f (at_ u v) /\
     forall l, returns (body u v) (paint l f) 0 (dot (paint l f) (at_ u v, colour (at_ u v)))) ->
  draws (each DEBUG n i (fun u => each DEBUG m j (body u))) f 0
    (fun p => exists u v, i <= u < i + Z.of_nat n /\ j <= v < j + Z.of_nat m /\ p = at_ u v) colour.
Proof.
  intros Hf Hb. set (row u := mjoin (map (fun v => [(at_ u v, colour (at_ u v))]) (seqZ j (Z.of_nat m)))).
  assert (Hin : forall w, w ∈ mjoin (map row (seqZ i (Z.of_nat n))) <->
    exists u v, i <= u < i + Z.of_nat n /\ j <= v < j + Z.of_nat m /\ w = (at_ u v, colour (at_ u v))).
  { intros w. rewrite elem_of_dots. unfold row. setoid_rewrite elem_of_dots.
    setoid_rewrite list_elem_of_singleton. naive_solver. }
  eapply (paint_draws _ _ _ (mjoin (map row (seqZ i (Z.of_nat n))))); [done| | |].
  - apply each_paints. intros u l Hu. rewrite <- paint_app.
    replace (paint (l ++ row u) f) with (paint (row u) (paint l f)) by by rewrite paint_app.
    apply each_paints. intros v l' Hv. rewrite <- !paint_app. cbn [paint foldl].
    rewrite (paint_app (l ++ l')). apply Hb; lia.
  - apply Forall_forall. intros w Hw. apply list_elem_of_In, Hin in Hw as (u & v & Hu & Hv & ->).
    split; [by apply Hb|done].
  - intros p. rewrite list_elem_of_fmap. setoid_rewrite Hin. naive_solver.
Qed.

Lemma draws_area {A} (m : M D FrameBuffer A) f v (area area' : point -> Prop) colour :
  (forall p, area p <-> area' p) -> draws m f v area colour -> draws m f v area' colour.
Proof.
  intros Ha (px & Hr & Hl & Hp). exists px. split; [done|]. split; [done|]. intros p Hi.
  rewrite <- Ha. by apply Hp.
Qed.

Lemma set_pixel_painted f l x y c : framed f -> inside f (x, y) ->
  returns (set_pixel (D:=D) DEBUG x y c) (paint l f) 0 (dot (paint l f) ((x, y), packed c)).
Proof.
  intros Hf Hp. apply (set_pixel_inside _ (x, y)); [by apply paint_framed|by apply paint_inside].
Qed.

(** A box of points. *)
Definition box (x y w h : Z) (p : point) : Prop := x <= p.1 < x + w /\ y <= p.2 < y + h.

Lemma draw_rectangle_draws f args : framed f -> 0 <= r_width args -> 0 <= r_height args ->
  let area := box (r_top_left_x args) (r_top_left_y args) (r_width args) (r_height args) in
  (forall p, area p -> inside f p) ->
  draws (draw_rectangle (D:=D) DEBUG args) f 0 area (fun _ => packed (r_color args)).
Proof.
  intros Hf Hw Hh area Ha. eapply draws_area; [|apply (nested_draws _ _ _ _ _ (fun y x => (x, y))); [done|]].
  - intros [x y]. unfold area, box. cbn. split.
    + intros (u & v & Hu & Hv & [= -> ->]). lia.
    + intros [Hx Hy]. exists y, x. split; [lia|]. by split; [lia|].
  - intros y x Hy Hx. assert (inside f (x, y)) by (apply Ha; unfold area, box; cbn; lia).
    split; [done|]. intros l. by apply set_pixel_painted.
Qed.

Lemma draw_horizontal_draws f args : framed f -> h_x_start args <= h_x_end args -> 0 <= h_thickness args ->
  let area := box (h_x_start args) (h_y args) (h_x_end args - h_x_start args) (h_thickness args) in
  (forall p, area p -> inside f p) ->
  draws (draw_horizontal_line (D:=D) DEBUG args) f 0 area (fun _ => packed (h_color args)).
Proof.
  intros Hf Hw Hh area Ha.
  eapply draws_area; [|apply (nested_draws _ _ _ _ _ (fun t x => (x, h_y args + t))); [done|]].
  - intros [x y]. unfold area, box. cbn. split.
    + intros (u & v & Hu & Hv & [= -> ->]). lia.
    + intros [Hx Hy]. exists (y - h_y args), x. split; [lia|]. split; [lia|]. f_equal. lia.
  - intros y x Hy Hx. assert (inside f (x, h_y args + y)) by (apply Ha; unfold area, box; cbn; lia).
    split; [done|]. intros l. by apply set_pixel_painted.
Qed.

Lemma draw_vertical_draws f args : framed f -> v_y_start args <= v_y_end args -> 0 <= v_thickness args ->
  let area := box (v_x args) (v_y_start args) (v_thickness args) (v_y_end args - v_y_start args) in
  (forall p, area p -> inside f p) ->
  draws (draw_vertical_line (D:=D) DEBUG args) f 0 area (fun _ => packed (v_color args)).
Proof.
  intros Hf Hw Hh area Ha.
  eapply draws_area; [|apply (nested_draws _ _ _ _ _ (fun y t => (v_x args + t, y))); [done|]].
  - intros [x y]. unfold area, box. cbn. split.
    + intros (u & v & Hu & Hv & [= -> ->]). lia.
    + intros [Hx Hy]. exists y, (x - v_x args). split; [lia|]. split; [lia|]. f_equal. lia.
  - intros y x Hy Hx. assert (inside f (v_x args + x, y)) by (apply Ha; unfold area, box; cbn; lia).
    split; [done|]. intros l. by apply set_pixel_painted.
Qed.

(** The colour of the point of a bitmap that stands at [p]. *)
Definition bitmap_colour (args : DrawBitmapArgs) (p : point) : Z :=
  let bm := bitmap args in
  default 0 (packed <$> data bm !!
    Z.to_nat ((p.2 - d_top_left_y args) * b_effective_pitch bm + (p.1 - d_top_left_x args))).

(** The rows of the bitmap lie in its data. *)
Definition bitmap_in (bm : Bitmap) : Prop :=
  0 <= b_width bm <= b_effective_pitch bm /\ 0 <= b_height bm /\
  b_effective_pitch bm * b_height bm <= Z.min (2 ^ 32) (Z.of_nat (length (data bm))).

Lemma draw_bitmap_draws f args : framed f -> bitmap_in (bitmap args) ->
  let area := box (d_top_left_x args) (d_top_left_y args) (b_width (bitmap args)) (b_height (bitmap args)) in
  (forall p, area p -> inside f p) ->
  draws (draw_bitmap (D:=D) DEBUG args) f 0 area (bitmap_colour args).
Proof.
  intros Hf (Hw & Hh & Hd) area Ha.
  eapply draws_area; [|apply (nested_draws _ _ _ _ _ (fun y x => (d_top_left_x args + x, d_top_left_y args + y))); [done|]].
  - intros [x y]. unfold area, box. cbn. split.
    + intros (u & v & Hu & Hv & [= -> ->]). lia.
    + intros [Hx Hy]. exists (y - d_top_left_y args), (x - d_top_left_x args).
      split; [lia|]. split; [lia|]. f_equal; lia.
  - intros y x Hy Hx.
    assert (inside f (d_top_left_x args + x, d_top_left_y args + y)) by (apply Ha; unfold area, box; cbn; lia).
    split; [done|]. intros l. unfold bitmap_colour. cbn [fst snd].
    replace (d_top_left_y args + y - d_top_left_y args) with y by lia.
    replace (d_top_left_x args + x - d_top_left_x args) with x by lia.
    assert (0 <= y * b_effective_pitch (bitmap args) + x < b_effective_pitch (bitmap args) * b_height (bitmap args)) as Hb by nia.
    rewrite u32_small by (unfold is_u32; lia).
    destruct (lookup_lt_is_Some_2 (data (bitmap args)) (Z.to_nat (y * b_effective_pitch (bitmap args) + x))) as [c Hc]; [lia|].
    eapply returns_cell; [exact Hc|]. rewrite Hc. by apply set_pixel_painted.
Qed.
End facts.

(** ** Lines *)

(** The quotient of two integers, rounded to the nearest, half of one down. *)
Definition nearest (n d : Z) : Z := (2 * n + d - 1) / (2 * d).

Lemma nearest_spec n d : 0 < d -> - d < 2 * (n - nearest n d * d) <= d.
Proof. intros Hd. unfold nearest. pose proof (Z.div_mod (2 * n + d - 1) (2 * d)). pose proof (Z.mod_pos_bound (2 * n + d - 1) (2 * d)). nia. Qed.

Lemma nearest_unique n d q : 0 < d -> - d < 2 * (n - q * d) <= d -> nearest n d = q.
Proof. intros Hd Hq. symmetry. apply (Z.div_unique _ _ _ (2 * (n - q * d) + d - 1)); [left; lia|lia]. Qed.

Lemma nearest_mul k d : 0 < d -> nearest (k * d) d = k.
Proof. intros. apply nearest_unique; lia. Qed.

(** One round further: the other coordinate moves when the error exceeds one half. *)
Lemma nearest_step k m n : 0 <= m <= n -> 0 < n ->
  let u := k * m - nearest (k * m) n * n in
  2 * u < 2 * n - m /\
  nearest ((k + 1) * m) n = nearest (k * m) n + (if n <? 2 * (u + m) then 1 else 0).
Proof.
  intros Hm Hn u. pose proof (nearest_spec (k * m) n Hn) as Hu. fold u in Hu. split.
  - destruct (decide (m = n)) as [->|]; [|lia]. subst u. rewrite nearest_mul by lia. lia.
  - apply nearest_unique; [done|].
    replace ((k + 1) * m - (nearest (k * m) n + (if n <? 2 * (u + m) then 1 else 0)) * n)
      with (u + m - (if n <? 2 * (u + m) then 1 else 0) * n) by (subst u; ring).
    destruct (Z.ltb_spec n (2 * (u + m))); lia.
Qed.

Lemma nearest_range k m n : 0 <= m <= n -> 0 < n -> 0 <= k <= n -> 0 <= nearest (k * m) n <= m.
Proof. intros Hm Hn Hk. pose proof (nearest_spec (k * m) n Hn). nia. Qed.

Section line.
Context (args : DrawLineArgs).

Definition line_dx : Z := Z.abs (x1 args - x0 args).
Definition line_dy : Z := Z.abs (y1 args - y0 args).
Definition line_sx : Z := if x0 args <? x1 args then 1 else -1.
Definition line_sy : Z := if y0 args <? y1 args then 1 else -1.

(** How far the line has come in each direction after [k] rounds, and the point there. *)
Definition line_steps (k : Z) : Z * Z :=
  if line_dy <=? line_dx then (k, nearest (k * line_dy) line_dx) else (nearest (k * line_dx) line_dy, k).
Definition line_point (k : Z) : point :=
  (x0 args + line_sx * (line_steps k).1, y0 args + line_sy * (line_steps k).2).
Definition line_length : Z := Z.max line_dx line_dy.
Definition line_points : list point := map line_point (seqZ 0 (line_length + 1)).

(** The error term of the loop. *)
Definition line_err (k : Z) : Z := ((line_steps k).2 + 1) * line_dx - ((line_steps k).1 + 1) * line_dy.

Lemma line_steps_next k : 0 <= k < line_length ->
  line_steps (k + 1) =
    ((line_steps k).1 + (if 2 * line_err k >? - line_dy then 1 else 0),
     (line_steps k).2 + (if 2 * line_err k <? line_dx then 1 else 0)).
Proof.
  intros Hk. assert (0 <= line_dx /\ 0 <= line_dy) as [Hx Hy] by (unfold line_dx, line_dy; lia).
  unfold line_err, line_steps, line_length in *. destruct (Z.leb_spec line_dy line_dx) as [Hle|Hlt]; cbn [fst snd].
  - destruct (nearest_step k line_dy line_dx ltac:(lia) ltac:(lia)) as [Hs ->]. cbn zeta in Hs.
    rewrite Z.gtb_ltb, (proj2 (Z.ltb_lt (- line_dy) _)) by lia. f_equal. f_equal.
    destruct (Z.ltb_spec line_dx (2 * (k * line_dy - nearest (k * line_dy) line_dx * line_dx + line_dy)));
      destruct (Z.ltb_spec (2 * ((nearest (k * line_dy) line_dx + 1) * line_dx - (k + 1) * line_dy)) line_dx); lia.
  - destruct (nearest_step k line_dx line_dy ltac:(lia) ltac:(lia)) as [Hs ->]. cbn zeta in Hs.
    rewrite (proj2 (Z.ltb_lt _ line_dx)) by lia. f_equal. f_equal. rewrite Z.gtb_ltb.
    destruct (Z.ltb_spec line_dy (2 * (k * line_dx - nearest (k * line_dx) line_dy * line_dy + line_dx)));
      destruct (Z.ltb_spec (- line_dy) (2 * ((k + 1) * line_dx - (nearest (k * line_dx) line_dy + 1) * line_dy))); lia.
Qed.

Lemma line_steps_range k : 0 <= k <= line_length ->
  0 <= (line_steps k).1 <= line_dx /\ 0 <= (line_steps k).2 <= line_dy.
Proof.
  intros Hk. assert (0 <= line_dx /\ 0 <= line_dy) as [Hx Hy] by (unfold line_dx, line_dy; lia).
  unfold line_steps, line_length in *. destruct (Z.leb_spec line_dy line_dx); cbn [fst snd].
  - destruct (decide (line_dx = 0)) as [E|]; [|pose proof (nearest_range k line_dy line_dx ltac:(lia) ltac:(lia) ltac:(lia)); lia].
    assert (line_dy = 0) as -> by lia. assert (k = 0) as -> by lia. rewrite E. by vm_compute.
  - pose proof (nearest_range k line_dx line_dy ltac:(lia) ltac:(lia) ltac:(lia)). lia.
Qed.

Lemma line_steps_last k : 0 <= k <= line_length ->
  line_steps k = (line_dx, line_dy) <-> k = line_length.
Proof.
  intros Hk. assert (0 <= line_dx /\ 0 <= line_dy) as [Hx Hy] by (unfold line_dx, line_dy; lia).
  unfold line_steps, line_length in *. destruct (Z.leb_spec line_dy line_dx).
  - split; [intros [= -> _]; lia|intros ->]. rewrite Z.max_l by lia. f_equal.
    destruct (decide (line_dx = 0)) as [E|]; [|rewrite Z.mul_comm; apply nearest_mul; lia].
    assert (line_dy = 0) as -> by lia. by rewrite E.
  - split; [intros [= _ ->]; lia|intros ->]. rewrite Z.max_r by lia. f_equal.
    rewrite Z.mul_comm. apply nearest_mul. lia.
Qed.
End line.

Lemma line_coordinate from to s : 0 <= s <= Z.abs (to - from) ->
  from + (if from <? to then 1 else -1) * s = to <-> s = Z.abs (to - from).
Proof. intros Hs. destruct (Z.ltb_spec from to); lia. Qed.

Lemma line_coordinate_range from to s lo hi : 0 <= s <= Z.abs (to - from) ->
  lo <= from < hi -> lo <= to < hi -> lo <= from + (if from <? to then 1 else -1) * s < hi.
Proof. intros Hs Hf Ht. destruct (Z.ltb_spec from to); lia. Qed.

(** The loop ends where the line does. *)
Lemma line_point_last args k : 0 <= k <= line_length args ->
  (((line_point args k).1 =? x1 args) && ((line_point args k).2 =? y1 args))%bool = (k =? line_length args).
Proof.
  intros Hk. destruct (line_steps_range args k Hk) as [Hx Hy]. pose proof (line_steps_last args k Hk) as Hl.
  pose proof (line_coordinate (x0 args) (x1 args) _ Hx) as Ex. pose proof (line_coordinate (y0 args) (y1 args) _ Hy) as Ey.
  fold (line_sx args) (line_dx args) in Ex. fold (line_sy args) (line_dy args) in Ey.
  apply eq_true_iff_eq. rewrite andb_true_iff, !Z.eqb_eq. unfold line_point. cbn [fst snd].
  rewrite Ex, Ey, <- Hl. destruct (line_steps args k). naive_solver.
Qed.

Lemma line_point_inside f args k : inside f (x0 args, y0 args) -> inside f (x1 args, y1 args) ->
  0 <= k <= line_length args -> inside f (line_point args k).
Proof.
  intros [? ?] [? ?] Hk. destruct (line_steps_range args k Hk) as [Hx Hy].
  unfold inside, line_point, line_sx, line_sy. cbn [fst snd] in *.
  split; by apply line_coordinate_range.
Qed.

Lemma line_steps_first args : line_steps args 0 = (0, 0).
Proof.
  assert (0 <= line_dx args /\ 0 <= line_dy args) as [Hx Hy] by (unfold line_dx, line_dy; lia).
  unfold line_steps, nearest. destruct (Z.leb_spec (line_dy args) (line_dx args)); f_equal.
  - destruct (decide (line_dx args = 0)) as [->|]; [done|]. apply Z.div_small; lia.
  - apply Z.div_small; lia.
Qed.

Lemma line_point_first args : line_point args 0 = (x0 args, y0 args).
Proof. unfold line_point. rewrite line_steps_first. cbn. f_equal; lia. Qed.

Lemma line_points_lookup args k : 0 <= k <= line_length args ->
  line_points args !! Z.to_nat k = Some (line_point args k).
Proof.
  intros Hk. unfold line_points. change (map (line_point args)) with (fmap (M:=list) (line_point args)).
  rewrite list_lookup_fmap, (proj2 (lookup_seqZ 0 (line_length args + 1) (Z.to_nat k) k)); [done|lia].
Qed.

Lemma line_point_end args : line_point args (line_length args) = (x1 args, y1 args).
Proof.
  assert (0 <= line_length args) by (unfold line_length, line_dx, line_dy; lia).
  pose proof (line_point_last args (line_length args) ltac:(lia)) as He. rewrite Z.eqb_refl in He.
  apply andb_true_iff in He as [Hx Hy]. destruct (line_point args (line_length args)). cbn in *. f_equal; lia.
Qed.

(** The point and the error term of the next round. *)
Lemma line_point_next args k : 0 <= k < line_length args ->
  let cx := 2 * line_err args k >? - line_dy args in
  let cy := 2 * line_err args k <? line_dx args in
  (line_point args (k + 1)).1 = (if cx then (line_point args k).1 + line_sx args else (line_point args k).1) /\
  (line_point args (k + 1)).2 = (if cy then (line_point args k).2 + line_sy args else (line_point args k).2) /\
  line_err args (k + 1) =
    (let e := if cx then line_err args k - line_dy args else line_err args k in if cy then e + line_dx args else e).
Proof.
  intros Hk cx cy. pose proof (line_steps_next args k Hk) as Hs. fold cx cy in Hs. clearbody cx cy.
  unfold line_point, line_err. rewrite Hs. destruct cx, cy; cbn [fst snd]; split_and!; ring.
Qed.

Section loop.
Context {D : Type} `{PortDevice D} (DEBUG : bool).

Definition line_dots (args : DrawLineArgs) (k n : Z) : list (point * Z) :=
  map (fun k => (line_point args k, packed (l_color args))) (seqZ k n).

Lemma line_loop_paints args n : forall k f, framed f ->
  inside f (x0 args, y0 args) -> inside f (x1 args, y1 args) ->
  0 <= k <= line_length args -> Z.of_nat n = line_length args - k + 1 ->
  returns (line_loop (D:=D) DEBUG n args (line_dx args) (line_dy args) (line_sx args) (line_sy args)
    (line_point args k).1 (line_point args k).2 (line_err args k)) f tt
    (paint (line_dots args k (Z.of_nat n)) f).
Proof.
  induction n as [|n IH]; intros k f Hf H0 H1 Hk Hn; [lia|]. cbn [line_loop].
  unfold line_dots. rewrite seqZ_cons by lia. cbn [map]. cbn [paint foldl].
  eapply returns_bind; [apply set_pixel_inside; [done|by apply line_point_inside]|].
  rewrite line_point_last by done. destruct (Z.eqb_spec k (line_length args)) as [->|Hne].
  - replace (Z.pred (Z.of_nat (S n))) with 0 by lia. apply returns_ret.
  - replace (Z.pred (Z.of_nat (S n))) with (Z.of_nat n) by lia. replace (Z.succ k) with (k + 1) by lia.
    specialize (IH (k + 1) _ (paint_framed [(line_point args k, packed (l_color args))] f Hf) H0 H1 ltac:(lia) ltac:(lia)).
    destruct (line_point_next args k ltac:(lia)) as (Hx & Hy & He). rewrite Hx, Hy, He in IH.
    by destruct (2 * line_err args k >? - line_dy args), (2 * line_err args k <? line_dx args).
Qed.

Lemma draw_line_quick_paints args f : framed f -> inside f (x0 args, y0 args) -> inside f (x1 args, y1 args) ->
  returns (draw_line_quick (D:=D) DEBUG args) f tt (paint (line_dots args 0 (line_length args + 1)) f).
Proof.
  intros Hf H0 H1. assert (0 <= line_length args) as Hl by (unfold line_length, line_dx, line_dy; lia).
  pose proof (line_loop_paints args (S (Z.to_nat (line_length args))) 0 f Hf H0 H1 ltac:(lia) ltac:(lia)) as Hr.
  replace (Z.of_nat (S (Z.to_nat (line_length args)))) with (line_length args + 1) in Hr by lia.
  pose proof (line_steps_first args) as Hz.
  unfold line_point, line_err in Hr. rewrite Hz in Hr. cbn [fst snd] in Hr.
  rewrite !Z.mul_0_r, !Z.add_0_r, !Z.add_0_l, !Z.mul_1_l in Hr. exact Hr.
Qed.

Lemma draw_line_quick_draws args f : framed f -> inside f (x0 args, y0 args) -> inside f (x1 args, y1 args) ->
  draws (draw_line_quick (D:=D) DEBUG args) f tt (fun p => p ∈ line_points args) (fun _ => packed (l_color args)).
Proof.
  intros Hf H0 H1. assert (0 <= line_length args) as Hl by (unfold line_length, line_dx, line_dy; lia).
  eapply (paint_draws _ _ _ (line_dots args 0 (line_length args + 1))); [done|by apply draw_line_quick_paints| |].
  - apply Forall_map, Forall_forall. intros k Hk. apply list_elem_of_In, elem_of_seqZ in Hk. cbn [fst snd].
    split; [apply line_point_inside; [done..|lia]|done].
  - intros p. unfold line_dots, line_points. pose proof (map_map (fun k => (line_point args k, packed (l_color args))) fst) as Hm.
    cbn [fst] in Hm. by rewrite <- Hm.
Qed.

Lemma get_pixel_inside f p : framed f -> inside f p ->
  returns (get_pixel (D:=D) DEBUG p.1 p.2) f (Color_of_hex (default 0 (pixel f p))) f.
Proof.
  intros Hf Hp. pose proof (index_bound _ _ Hf Hp) as Hb. destruct Hf as [Hw [Hu [Hh ?]] Hi Hm], Hp as [Hx Hy].
  unfold get_pixel. rewrite !u16_small by width. apply returns_get.
  rewrite (proj2 (andb_false_iff DEBUG (p.1 >? width f))) by (rewrite Z.gtb_ltb, Z.ltb_ge; lia).
  rewrite (proj2 (andb_false_iff DEBUG (p.2 >? height f))) by (rewrite Z.gtb_ltb, Z.ltb_ge; lia).
  do 2 (eapply returns_bind; [apply returns_ret|]).
  eapply (returns_cell _ (index f p)).
  { unfold pixel_index. by rewrite (proj2 (andb_true_iff _ _)) by lia. }
  destruct (lookup_lt_is_Some_2 (pixels f) (index f p)) as [w Hlk]; [unfold index; lia|].
  eapply returns_cell; [exact Hlk|]. unfold pixel. rewrite Hlk. apply returns_ret.
Qed.
End loop.

(** The words behind the last row are not part of the screen. *)
Lemma set_pixel_below {D} `{PortDevice D} f x c : framed f -> 0 <= x < width f ->
  Z.of_nat (length (pixels f)) = effective_pitch f * height f ->
  forall d : D, o_exit (set_pixel true x (height f) c d f) = Undefined.
Proof.
  intros [Hw [Hu [Hh ?]] Hi Hm] Hx Hl d. unfold set_pixel. rewrite !u16_small by width.
  unfold mbind at 1, M_bind. cbn [get o_exit o_glob o_dev].
  rewrite (proj2 (andb_false_iff true (x >? width f))) by (rewrite Z.gtb_ltb, Z.ltb_ge; lia).
  rewrite (proj2 (andb_false_iff true (height f >? height f))) by (rewrite Z.gtb_ltb, Z.ltb_ge; lia).
  unfold pixel_index. rewrite (proj2 (andb_false_iff _ _)); [done|]. right. apply Z.ltb_ge. nia.
Qed.

(** C15: On a frame that lies in the video memory, [draw_line_quick] between two of its points
    returns and changes exactly the pixels of the line: the coordinate that differs more takes
    every value from one end to the other, the other one is the exact line rounded to the
    nearest; it starts and ends in the two points. *)
Theorem draw_line_quick_exact {D} `{PortDevice D} DEBUG args f : framed f ->
  inside f (x0 args, y0 args) -> inside f (x1 args, y1 args) ->
  draws (draw_line_quick (D:=D) DEBUG args) f tt (fun p => p ∈ line_points args) (fun _ => packed (l_color args)) /\
  length (line_points args) = S (Z.to_nat (line_length args)) /\
  line_points args !! 0%nat = Some (x0 args, y0 args) /\
  line_points args !! Z.to_nat (line_length args) = Some (x1 args, y1 args).
Proof.
  intros Hf H0 H1. split; [by apply draw_line_quick_draws|].
  assert (0 <= line_length args) as Hl by (unfold line_length, line_dx, line_dy; lia).
  split; [unfold line_points; rewrite length_map, length_seqZ; lia|].
  pose proof (line_points_lookup args 0 ltac:(lia)) as Hfirst. rewrite line_point_first in Hfirst.
  pose proof (line_points_lookup args (line_length args) ltac:(lia)) as Hlast.
  rewrite (line_point_end args) in Hlast. done.
Qed.

(** Horizontal and vertical lines, rectangles and bitmaps that lie in the frame give
    exactly the points of their box the colour, or the pixel of the bitmap, and return 0.  The
    guard of the debug build admits the row below the frame, which is outside the memory. *)
Theorem shapes_exact {D} `{PortDevice D} DEBUG f : framed f ->
  (forall args, h_x_start args <= h_x_end args -> 0 <= h_thickness args ->
     let area := box (h_x_start args) (h_y args) (h_x_end args - h_x_start args) (h_thickness args) in
     (forall p, area p -> inside f p) ->
     draws (draw_horizontal_line (D:=D) DEBUG args) f 0 area (fun _ => packed (h_color args))) /\
  (forall args, v_y_start args <= v_y_end args -> 0 <= v_thickness args ->
     let area := box (v_x args) (v_y_start args) (v_thickness args) (v_y_end args - v_y_start args) in
     (forall p, area p -> inside f p) ->
     draws (draw_vertical_line (D:=D) DEBUG args) f 0 area (fun _ => packed (v_color args))) /\
  (forall args, 0 <= r_width args -> 0 <= r_height args ->
     let area := box (r_top_left_x args) (r_top_left_y args) (r_width args) (r_height args) in
     (forall p, area p -> inside f p) ->
     draws (draw_rectangle (D:=D) DEBUG args) f 0 area (fun _ => packed (r_color args))) /\
  (forall args, bitmap_in (bitmap args) ->
     let area := box (d_top_left_x args) (d_top_left_y args) (b_width (bitmap args)) (b_height (bitmap args)) in
     (forall p, area p -> inside f p) ->
     draws (draw_bitmap (D:=D) DEBUG args) f 0 area (bitmap_colour args)) /\
  (Z.of_nat (length (pixels f)) = effective_pitch f * height f ->
     forall x c (d : D), 0 <= x < width f -> o_exit (set_pixel true x (height f) c d f) = Undefined).
Proof.
  intros Hf. split_and!; intros.
  - by apply draw_horizontal_draws.
  - by apply draw_vertical_draws.
  - by apply draw_rectangle_draws.
  - by apply draw_bitmap_draws.
  - by apply set_pixel_below.
Qed.

(** A frame of eight columns and four rows, ten words to a row. *)
Definition sample_frame : FrameBuffer := mk_fb 0xB0000000 8 4 10 (replicate 40 0).

Lemma sample_framed : framed sample_frame.
Proof. split; vm_compute; intuition discriminate. Qed.

Lemma draw_line_quick_witness :
  let m := draw_line_quick (D:=no_device) false (mk_line 1 0 6 2 (Color_of_hex 0xFFFFFF)) in
  line_points (mk_line 1 0 6 2 (Color_of_hex 0xFFFFFF)) = [(1, 0); (2, 0); (3, 1); (4, 1); (5, 2); (6, 2)] /\
  exists px, returns m sample_frame tt (set_pixels px sample_frame) /\
    pixel (set_pixels px sample_frame) (3, 1) = Some 0xFFFFFF /\
    pixel (set_pixels px sample_frame) (3, 0) = Some 0.
Proof.
  destruct (draw_line_quick_exact (D:=no_device) false (mk_line 1 0 6 2 (Color_of_hex 0xFFFFFF)) sample_frame
    sample_framed ltac:(by vm_compute) ltac:(by vm_compute)) as [(px & Hr & _ & Hp) _].
  split; [by vm_compute|]. exists px. split; [exact Hr|].
  destruct (Hp (3, 1) ltac:(by vm_compute)) as [Hin _]. destruct (Hp (3, 0) ltac:(by vm_compute)) as [_ Hout].
  split; [apply Hin; by vm_compute; repeat constructor|].
  apply Hout. intros Hm%list_elem_of_In. vm_compute in Hm. intuition discriminate.
Defined.

Lemma shapes_witness :
  let m := draw_rectangle (D:=no_device) false (mk_rect 2 1 3 2 (Color_of_hex 0xFF)) in
  exists px, returns m sample_frame 0 (set_pixels px sample_frame) /\
    pixel (set_pixels px sample_frame) (4, 2) = Some 0xFF /\
    pixel (set_pixels px sample_frame) (5, 2) = Some 0.
Proof.
  destruct (shapes_exact (D:=no_device) false sample_frame sample_framed) as (_ & _ & Hr & _).
  destruct (Hr (mk_rect 2 1 3 2 (Color_of_hex 0xFF)) ltac:(done) ltac:(done)) as (px & Hret & _ & Hp).
  { intros p [H1 H2]. unfold inside. simpl in *. lia. }
  exists px. split; [exact Hret|].
  destruct (Hp (4, 2) ltac:(by vm_compute)) as [Hin _]. destruct (Hp (5, 2) ltac:(by vm_compute)) as [_ Hout].
  split; [apply Hin; by vm_compute|]. apply Hout. intros [H1 H2]. simpl in *. lia.
Defined.
