(* ===== verification/Mouse.v ===== *)
(** * The PS/2 mouse ([drivers/ps2/mouse])

    The interrupt handler, which collects packets of three bytes, moves the pointer and draws
    on the framebuffer, and the start of the mouse. *)

From S2P Require Import Prelude Machine Ps2Types Ps2Controller Framebuffer.

(** [ps2_mouse::first_packet] *)
Record first_packet := mk_first_packet {
  button_left : bool;
  button_right : bool;
  button_middle : bool;
  always_one : bool;
  x_axis_sign : bool;
  y_axis_sign : bool;
  x_axis_overflow : bool;
  y_axis_overflow : bool;
}.

Definition first_packet_of (raw : Z) : first_packet :=
  let bit n := negb (((raw ≫ n) .& 1) =? 0) in
  mk_first_packet (bit 0) (bit 1) (bit 2) (bit 3) (bit 4) (bit 5) (bit 6) (bit 7).

Definition first_packet_byte (f : first_packet) : Z :=
  field (button_left f) 0 .| field (button_right f) 1 .| field (button_middle f) 2 .| field (always_one f) 3
  .| field (x_axis_sign f) 4 .| field (y_axis_sign f) 5 .| field (x_axis_overflow f) 6 .| field (y_axis_overflow f) 7.

Record generic_3_packet := mk_packet {
  flags : first_packet;
  x_axis_movement : Z;
  y_axis_movement : Z;
}.

Record mouse_buttons := mk_buttons {
  left_button : bool;
  middle_button : bool;
  right_button : bool;
  mouse_4 : bool;
  mouse_5 : bool;
}.

(** [struct mouse_properties], the colour as a [Color]. *)
Record mouse_properties := mk_mouse {
  m_x : Z;
  m_y : Z;
  m_z : Z;
  m_color : Color;
}.

(** The globals of the two files, and the framebuffer that the handler draws on. *)
Record globals := mk_globals {
  global_3_packet : generic_3_packet;
  packet_idx : Z;
  mouse_button_pressed : mouse_buttons;
  g_mouse_prop : mouse_properties;
  g_framebuffer : FrameBuffer;
  number_of_mouse : Z;
  single_mouse_port : Z;
  mouse1_port : Z;
  mouse2_port : Z;
}.

Definition set_packet (p : generic_3_packet) (s : globals) : globals :=
  mk_globals p (packet_idx s) (mouse_button_pressed s) (g_mouse_prop s) (g_framebuffer s)
    (number_of_mouse s) (single_mouse_port s) (mouse1_port s) (mouse2_port s).
Definition set_packet_idx (i : Z) (s : globals) : globals :=
  mk_globals (global_3_packet s) i (mouse_button_pressed s) (g_mouse_prop s) (g_framebuffer s)
    (number_of_mouse s) (single_mouse_port s) (mouse1_port s) (mouse2_port s).
Definition set_pressed (b : mouse_buttons) (s : globals) : globals :=
  mk_globals (global_3_packet s) (packet_idx s) b (g_mouse_prop s) (g_framebuffer s)
    (number_of_mouse s) (single_mouse_port s) (mouse1_port s) (mouse2_port s).
Definition set_prop (p : mouse_properties) (s : globals) : globals :=
  mk_globals (global_3_packet s) (packet_idx s) (mouse_button_pressed s) p (g_framebuffer s)
    (number_of_mouse s) (single_mouse_port s) (mouse1_port s) (mouse2_port s).
Definition set_framebuffer (f : FrameBuffer) (s : globals) : globals :=
  mk_globals (global_3_packet s) (packet_idx s) (mouse_button_pressed s) (g_mouse_prop s) f
    (number_of_mouse s) (single_mouse_port s) (mouse1_port s) (mouse2_port s).
Definition set_mouse_ports (n single p1 p2 : Z) (s : globals) : globals :=
  mk_globals (global_3_packet s) (packet_idx s) (mouse_button_pressed s) (g_mouse_prop s) (g_framebuffer s) n single p1 p2.

Definition with_left (v : bool) (b : mouse_buttons) : mouse_buttons :=
  mk_buttons v (middle_button b) (right_button b) (mouse_4 b) (mouse_5 b).
Definition with_middle (v : bool) (b : mouse_buttons) : mouse_buttons :=
  mk_buttons (left_button b) v (right_button b) (mouse_4 b) (mouse_5 b).
Definition with_right (v : bool) (b : mouse_buttons) : mouse_buttons :=
  mk_buttons (left_button b) (middle_button b) v (mouse_4 b) (mouse_5 b).

Definition with_x (v : Z) (p : mouse_properties) : mouse_properties := mk_mouse v (m_y p) (m_z p) (m_color p).
Definition with_y (v : Z) (p : mouse_properties) : mouse_properties := mk_mouse (m_x p) v (m_z p) (m_color p).
Definition with_color (c : Color) (p : mouse_properties) : mouse_properties := mk_mouse (m_x p) (m_y p) (m_z p) c.

Definition sign_extend (val : Z) (sign : bool) : Z := if sign then i16 (val .| 0xFF00) else val.

Section handler.
Context {D : Type} `{PortDevice D}.
(** Built with [-DDEBUG] or not. *)
Context (DEBUG : bool).
Abbreviation T A := (M D globals A).

Definition frame {A} (m : M D FrameBuffer A) : T A := zoom g_framebuffer set_framebuffer m.
Definition move (f : mouse_properties -> mouse_properties) : T unit :=
  modify (fun s => set_prop (f (g_mouse_prop s)) s).

(** The three alike parts of the handler: whether the button is newly pressed, pressed and
    released. *)
Definition button_part (flag : bool) (was : mouse_buttons -> bool) (set_ : bool -> mouse_buttons -> mouse_buttons)
    (pressed_line released_line : string) : T (bool * bool * bool) :=
  b ← gets (fun s => was (mouse_button_pressed s));
  if flag then
    (if negb b then kprintf pressed_line [] else mret tt);;
    modify (fun s => set_pressed (set_ true (mouse_button_pressed s)) s);;
    mret (negb b, true, false)
  else
    (if (b : bool) then kprintf released_line [] else mret tt);;
    modify (fun s => set_pressed (set_ false (mouse_button_pressed s)) s);;
    mret (false, false, b).

(** The body of [if (packet_idx == (packet_3_size - 1))]. *)
Definition whole_packet : T unit :=
  p ← gets global_3_packet;
  let f := flags p in
  let dx := if x_axis_overflow f then 0 else sign_extend (x_axis_movement p) (x_axis_sign f) in
  let dy := if y_axis_overflow f then 0 else sign_extend (y_axis_movement p) (y_axis_sign f) in
  '(left_first, left_pressed, left_released) ←
    button_part (button_left f) left_button with_left
      "[First Press] Left mouse button\n" "[Released  ] Left mouse button\n";
  '(middle_first, _, middle_released) ←
    button_part (button_middle f) middle_button with_middle
      "[First Press] Middle mouse button\n" "[Released  ] Middle mouse button\n";
  '(right_first, right_pressed, right_released) ←
    button_part (button_right f) right_button with_right
      "[First Press] Right mouse button\n" "[Released  ] Right mouse button\n";
  modify (set_packet_idx 0);;
  (if negb left_first && negb left_released && negb middle_first && negb middle_released
      && negb right_first && negb right_released
   then kprintf "xmovement: %d, y_movement: %d\n\n" [PNum dx; PNum dy] else mret tt);;
  old ← gets g_mouse_prop;
  let old_x := u16 (m_x old) in
  let old_y := u16 (m_y old) in
  move (fun p => with_x (i16 (m_x p + dx)) p);;
  move (fun p => with_y (i16 (m_y p - dy)) p);;
  move (fun p => if m_x p <? 0 then with_x 0 p else p);;
  move (fun p => if m_y p <? 0 then with_y 0 p else p);;
  p ← gets g_mouse_prop;
  (if (left_pressed : bool)
   then frame (draw_line_quick DEBUG (mk_line old_x old_y (u16 (m_x p)) (u16 (m_y p)) (m_color p)))
   else mret tt);;
  if (right_pressed : bool)
  then c ← frame (get_pixel DEBUG (m_x p + 1) (m_y p)); move (with_color c)
  else mret tt.

(** [switch (packet_idx)] *)
Definition store_byte_of_packet (scancode : Z) : T unit :=
  i ← gets packet_idx;
  p ← gets global_3_packet;
  if i =? 0 then modify (set_packet (mk_packet (first_packet_of scancode) (x_axis_movement p) (y_axis_movement p)))
  else if i =? 1 then modify (set_packet (mk_packet (flags p) scancode (y_axis_movement p)))
  else if i =? 2 then modify (set_packet (mk_packet (flags p) (x_axis_movement p) scancode))
  else if DEBUG then abort_msg "Impossible case\n" []
  else mret tt.

(** The interrupt line that the handler computes is not used. *)
Definition mouse_handler (scancode port_number : Z) : T unit :=
  store_byte_of_packet scancode;;
  i ← gets packet_idx;
  (if i =? 2 then whole_packet else modify (set_packet_idx (u8 (i + 1))));;
  emit (ECall "apic::send_eoi" []).

(** ** Starting the mouse *)

Definition set_single_mouse_port (p : Z) : T unit :=
  modify (fun s => set_mouse_ports 1 p (mouse1_port s) (mouse2_port s) s).
Definition set_dual_mouse_port : T unit :=
  modify (fun s => set_mouse_ports 2 (single_mouse_port s) 1 2 s).

(** The condition of the assertion is an assignment, whose value is not zero. *)
Definition quick_enable_mouse : T unit :=
  _ ← send_command_to_second_ps2_port 0xf4;
  err ← wait_till_ready_for_response;
  (if is_err err then abort_msg "Error\n" [] else mret tt);;
  res ← ps2_recieve_raw_response;
  let res := 0xFA in
  assert_handler_fmt (negb (res =? 0)) "mouse must work" [];;
  move (fun _ => mk_mouse 0 0 0 (mk_color 0xff 0xff 0xff 0xff)).
End handler.
