(* ===== verification/MouseFacts.v ===== *)
(** * What the mouse handler does

    Fed the bytes of well-formed packets, the handler follows an abstract pointer. *)

From S2P Require Import Prelude Machine Framebuffer FramebufferFacts Mouse.

(** One report of a mouse: how far it has moved, and its buttons. *)
Record motion := mk_motion { q_dx : Z; q_dy : Z; q_left : bool; q_middle : bool; q_right : bool }.

Definition well_formed (q : motion) : Prop := -256 <= q_dx q <= 255 /\ -256 <= q_dy q <= 255.

Definition motion_flags (q : motion) : first_packet :=
  mk_first_packet (q_left q) (q_right q) (q_middle q) true (q_dx q <? 0) (q_dy q <? 0) false false.
Definition motion_packet (q : motion) : generic_3_packet :=
  mk_packet (motion_flags q) (u8 (q_dx q)) (u8 (q_dy q)).
(** The three bytes the hardware sends. *)
Definition motion_bytes (q : motion) : list Z := [first_packet_byte (motion_flags q); u8 (q_dx q); u8 (q_dy q)].

Lemma first_packet_roundtrip f : first_packet_of (first_packet_byte f) = f.
Proof. by destruct f as [[] [] [] [] [] [] [] []]; vm_compute. Qed.

Lemma sign_extend_motion d : -256 <= d <= 255 -> sign_extend (u8 d) (d <? 0) = d.
Proof.
  intros Hd. unfold sign_extend. destruct (Z.ltb_spec d 0); [|by apply u8_small; width].
  assert (forall v, is_u8 v -> v .| 0xFF00 = v + 0xFF00) as Hor.
  { intros v Hv. apply Z.eqb_eq. revert v Hv. by apply byte_forall; vm_compute. }
  rewrite Hor by apply u8_range. unfold i16, u8. Z.div_mod_to_equations. lia.
Qed.

(** ** The abstract pointer *)

(** A coordinate never is negative; beyond the range of [int16_t] it starts again at 0. *)
Definition coordinate (v d : Z) : Z := if v + d >? 32767 then 0 else Z.max 0 (v + d).
Definition is_coordinate (v : Z) : Prop := 0 <= v <= 32767.

Lemma coordinate_i16 v d : is_coordinate v -> -256 <= d <= 256 ->
  (if i16 (v + d) <? 0 then 0 else i16 (v + d)) = coordinate v d.
Proof.
  intros Hv Hd. unfold is_coordinate, coordinate, i16 in *. rewrite Z.gtb_ltb.
  destruct (Z.ltb_spec 32767 (v + d)), (Z.ltb_spec ((v + d + 2 ^ 15) mod 2 ^ 16 - 2 ^ 15) 0); Z.div_mod_to_equations; lia.
Qed.

Lemma coordinate_range v d : is_coordinate v -> is_coordinate (coordinate v d).
Proof. unfold is_coordinate, coordinate. intros. destruct (Z.gtb_spec (v + d) 32767); lia. Qed.

(** The pointer of a state, and after a report. *)
Definition position (s : globals) : point := (m_x (g_mouse_prop s), m_y (g_mouse_prop s)).
Definition moved (q : motion) (p : point) : point := (coordinate p.1 (q_dx q), coordinate p.2 (- q_dy q)).

Definition stroke (s : globals) (q : motion) : DrawLineArgs :=
  mk_line (position s).1 (position s).2 (moved q (position s)).1 (moved q (position s)).2 (m_color (g_mouse_prop s)).

(** The frame after a report: with the left button the line from the old position to the new. *)
Definition frame_after (s : globals) (q : motion) : FrameBuffer :=
  if q_left q then paint (line_dots (stroke s q) 0 (line_length (stroke s q) + 1)) (g_framebuffer s)
  else g_framebuffer s.

(** The colour: with the right button that of the pixel to the right of the pointer. *)
Definition color_after (s : globals) (q : motion) : Color :=
  if q_right q
  then let p := moved q (position s) in Color_of_hex (default 0 (pixel (frame_after s q) (p.1 + 1, p.2)))
  else m_color (g_mouse_prop s).

Definition after (s : globals) (q : motion) : globals :=
  let b := mouse_button_pressed s in
  let p := moved q (position s) in
  mk_globals (motion_packet q) 0 (mk_buttons (q_left q) (q_middle q) (q_right q) (mouse_4 b) (mouse_5 b))
    (mk_mouse p.1 p.2 (m_z (g_mouse_prop s)) (color_after s q)) (frame_after s q)
    (number_of_mouse s) (single_mouse_port s) (mouse1_port s) (mouse2_port s).

(** What is printed: the buttons that have changed, or else the movement. *)
Definition button_lines (now was : bool) (name : string) : list event :=
  if Bool.eqb now was then [] else [EPrint (if now then "[First Press] " +:+ name else "[Released  ] " +:+ name) []].
Definition report (s : globals) (q : motion) : list event :=
  let b := mouse_button_pressed s in
  let lines :=
    button_lines (q_left q) (left_button b) "Left mouse button\n" ++
    button_lines (q_middle q) (middle_button b) "Middle mouse button\n" ++
    button_lines (q_right q) (right_button b) "Right mouse button\n" in
  match lines with
  | [] => [EPrint "xmovement: %d, y_movement: %d\n\n" [PNum (q_dx q); PNum (q_dy q)]]
  | _ => lines
  end.

Definition eoi : event := ECall "apic::send_eoi" [].

(** ** The handler follows it *)

Section handler.
Context {D : Type} `{PortDevice D} (DEBUG : bool).

Lemma gets_returns {A} (f : globals -> A) s : returns (gets f : M D globals A) s (f s) s.
Proof. by intros d. Qed.

Lemma button_part_yields flag was set_ pressed_line released_line s :
  let b := was (mouse_button_pressed s) in
  yields (button_part (D:=D) flag was set_ pressed_line released_line) s
    (flag && negb b, flag, negb flag && b) (set_pressed (set_ flag (mouse_button_pressed s)) s)
    (if Bool.eqb flag b then [] else [EPrint (if flag then pressed_line else released_line) []]).
Proof.
  intros b. unfold button_part. eapply returns_bind; [apply gets_returns|]. fold b.
  destruct flag, b; by intros d.
Qed.

(** The print that follows the buttons. *)
Lemma lines_report (s : globals) q rest :
  let b := mouse_button_pressed s in
  rest = (if (negb (q_left q && negb (left_button b)) && negb (negb (q_left q) && left_button b)
      && negb (q_middle q && negb (middle_button b)) && negb (negb (q_middle q) && middle_button b)
      && negb (q_right q && negb (right_button b)) && negb (negb (q_right q) && right_button b))%bool
    then [EPrint "xmovement: %d, y_movement: %d\n\n" [PNum (q_dx q); PNum (q_dy q)]] else []) ->
  button_lines (q_left q) (left_button b) "Left mouse button\n" ++
  button_lines (q_middle q) (middle_button b) "Middle mouse button\n" ++
  button_lines (q_right q) (right_button b) "Right mouse button\n" ++ rest = report s q.
Proof.
  intros b ->. unfold report. fold b.
  by destruct (q_left q), (q_middle q), (q_right q), (left_button b), (middle_button b), (right_button b).
Qed.

(** The positions and the frame admit the report. *)
Record admits (s : globals) (q : motion) : Prop := {
  admits_motion : well_formed q;
  admits_x : is_coordinate (position s).1;
  admits_y : is_coordinate (position s).2;
  admits_frame : framed (g_framebuffer s);
  admits_left : q_left q = true ->
    inside (g_framebuffer s) (position s) /\ inside (g_framebuffer s) (moved q (position s));
  admits_right : q_right q = true ->
    let p := moved q (position s) in inside (g_framebuffer s) (p.1 + 1, p.2);
}.

Lemma moved_u16 s q : admits s q ->
  u16 (position s).1 = (position s).1 /\ u16 (position s).2 = (position s).2 /\
  u16 (moved q (position s)).1 = (moved q (position s)).1 /\ u16 (moved q (position s)).2 = (moved q (position s)).2.
Proof.
  intros [Hq Hx Hy _ _ _]. pose proof (coordinate_range _ (q_dx q) Hx). pose proof (coordinate_range _ (- q_dy q) Hy).
  unfold moved, is_coordinate in *. cbn [fst snd]. rewrite !u16_small by width. done.
Qed.

Lemma frame_after_framed s q : framed (g_framebuffer s) -> framed (frame_after s q).
Proof. unfold frame_after. destruct (q_left q); [apply paint_framed|done]. Qed.

Lemma frame_after_inside s q p : inside (frame_after s q) p <-> inside (g_framebuffer s) p.
Proof. unfold frame_after. destruct (q_left q); [apply paint_inside|done]. Qed.

(** The two drawing steps at the end of a packet. *)
Lemma drawing_yields s q (t : globals) :
  admits s q -> g_framebuffer t = g_framebuffer s ->
  let p := moved q (position s) in
  g_mouse_prop t = mk_mouse p.1 p.2 (m_z (g_mouse_prop s)) (m_color (g_mouse_prop s)) ->
  returns ((if q_left q
    then frame (draw_line_quick (D:=D) DEBUG (mk_line (u16 (position s).1) (u16 (position s).2) (u16 p.1) (u16 p.2) (m_color (g_mouse_prop s))))
    else mret tt);;
   if q_right q then c ← frame (get_pixel (D:=D) DEBUG (p.1 + 1) p.2); move (with_color c) else mret tt) t tt
   (set_prop (mk_mouse p.1 p.2 (m_z (g_mouse_prop s)) (color_after s q)) (set_framebuffer (frame_after s q) t)).
Proof.
  intros Ha Hf p Hp. destruct (moved_u16 s q Ha) as (-> & -> & Ex & Ey). destruct Ha as [_ _ _ Hfr Hl Hr].
  fold p in Ex, Ey. rewrite Ex, Ey. apply (returns_bind _ _ _ tt (set_framebuffer (frame_after s q) t)).
  - unfold frame_after, frame. destruct (q_left q); [|rewrite <- Hf; by destruct t].
    destruct (Hl eq_refl) as [H0 H1]. unfold position in H0. subst p. rewrite <- Hf in *.
    apply yields_zoom. apply (draw_line_quick_paints DEBUG (stroke s q)); done.
  - unfold color_after. destruct (q_right q).
    + eapply returns_bind.
      * apply (yields_zoom g_framebuffer set_framebuffer), (get_pixel_inside DEBUG _ (p.1 + 1, p.2)).
        -- by apply frame_after_framed.
        -- apply frame_after_inside. by apply Hr.
      * intros d. split; [done|]. split; [|done]. cbn. unfold with_color. by rewrite Hp.
    + rewrite <- Hp. intros d. split; [done|]. split; [|done]. by destruct t.
Qed.

Lemma print_if_yields (c : bool) e (s : globals) :
  yields (if c then emit e else mret tt : M D globals unit) s tt s (if c then [e] else []).
Proof. by destruct c; intros d. Qed.

(** The pointer after the four assignments. *)
Lemma clamped s q : admits s q ->
  let p := g_mouse_prop s in
  let p1 := with_x (i16 (m_x p + q_dx q)) p in
  let p2 := with_y (i16 (m_y p1 - q_dy q)) p1 in
  let p3 := if m_x p2 <? 0 then with_x 0 p2 else p2 in
  (if m_y p3 <? 0 then with_y 0 p3 else p3) =
    mk_mouse (moved q (position s)).1 (moved q (position s)).2 (m_z p) (m_color p).
Proof.
  intros [[Hx Hy] Hcx Hcy _ _ _]. cbn zeta. unfold moved. cbn [fst snd].
  rewrite <- (coordinate_i16 _ (q_dx q)), <- (coordinate_i16 _ (- q_dy q)) by (done || lia).
  rewrite Z.add_opp_r. unfold position. cbn [fst snd]. cbn [with_x with_y m_x m_y].
  destruct (i16 (m_x (g_mouse_prop s) + q_dx q) <? 0); cbn [with_x with_y m_x m_y];
    by destruct (i16 (m_y (g_mouse_prop s) - q_dy q) <? 0).
Qed.

Lemma whole_packet_yields s q : admits s q -> global_3_packet s = motion_packet q -> packet_idx s = 2 ->
  yields (whole_packet (D:=D) DEBUG) s tt (after s q) (report s q).
Proof.
  intros Ha Hp Hi. rewrite <- (lines_report s q _ eq_refl). unfold whole_packet.
  eapply returns_bind; [apply gets_returns|]. rewrite Hp.
  cbn [motion_packet motion_flags flags x_axis_movement y_axis_movement x_axis_overflow y_axis_overflow
    x_axis_sign y_axis_sign button_left button_middle button_right].
  destruct (admits_motion s q Ha) as [Hx Hy]. rewrite !sign_extend_motion by done.
  eapply yields_bind; [apply button_part_yields|]. cbn [mouse_button_pressed set_pressed].
  eapply yields_bind; [apply button_part_yields|]. cbn [mouse_button_pressed set_pressed].
  eapply yields_bind; [apply button_part_yields|]. cbn [mouse_button_pressed set_pressed].
  eapply returns_bind; [apply returns_modify|]. cbn [middle_button with_left right_button with_middle].
  match goal with |- yields _ _ _ _ ?e => rewrite <- (app_nil_r e) end.
  eapply yields_bind; [apply print_if_yields|].
  eapply returns_bind; [apply gets_returns|].
  do 4 (eapply returns_bind; [apply returns_modify|]).
  eapply returns_bind; [apply gets_returns|].
  match goal with |- yields _ ?t _ _ _ => set (t4 := t) end.
  assert (g_mouse_prop t4 = mk_mouse (moved q (position s)).1 (moved q (position s)).2 (m_z (g_mouse_prop s))
    (m_color (g_mouse_prop s))) as Ht by exact (clamped s q Ha).
  rewrite Ht. cbn [m_x m_y m_color].
  replace (after s q) with (set_prop (mk_mouse (moved q (position s)).1 (moved q (position s)).2 (m_z (g_mouse_prop s))
    (color_after s q)) (set_framebuffer (frame_after s q) t4)).
  - exact (drawing_yields s q t4 Ha eq_refl Ht).
  - unfold after, set_prop, set_framebuffer. subst t4. cbn. by rewrite Hp.
Qed.

Lemma first_byte s b port : packet_idx s = 0 ->
  yields (mouse_handler (D:=D) DEBUG b port) s tt
    (set_packet_idx 1 (set_packet (mk_packet (first_packet_of b) (x_axis_movement (global_3_packet s))
       (y_axis_movement (global_3_packet s))) s)) [eoi].
Proof. destruct s. cbn. intros ->. by intros d. Qed.

Lemma second_byte s b port : packet_idx s = 1 ->
  yields (mouse_handler (D:=D) DEBUG b port) s tt
    (set_packet_idx 2 (set_packet (mk_packet (flags (global_3_packet s)) b (y_axis_movement (global_3_packet s))) s)) [eoi].
Proof. destruct s. cbn. intros ->. by intros d. Qed.

Lemma third_byte s q port : admits s q -> packet_idx s = 2 ->
  flags (global_3_packet s) = motion_flags q -> x_axis_movement (global_3_packet s) = u8 (q_dx q) ->
  yields (mouse_handler (D:=D) DEBUG (u8 (q_dy q)) port) s tt (after s q) (report s q ++ [eoi]).
Proof.
  intros Ha Hi Hf Hx. unfold mouse_handler.
  eapply (returns_bind _ _ _ tt (set_packet (motion_packet q) s)).
  { unfold motion_packet. rewrite <- Hf, <- Hx. destruct s. cbn in *. subst. by intros d. }
  eapply returns_bind; [apply gets_returns|]. cbn [packet_idx set_packet]. rewrite Hi. cbn [Z.eqb Pos.eqb].
  eapply yields_bind; [|apply yields_emit].
  by apply (whole_packet_yields (set_packet (motion_packet q) s)); [destruct Ha| |].
Qed.

(** One interrupt per byte. *)
Fixpoint feed (port : Z) (l : list Z) : M D globals unit :=
  match l with [] => mret tt | b :: l => mouse_handler DEBUG b port;; feed port l end.

Lemma packet_yields s q port : admits s q -> packet_idx s = 0 ->
  yields (feed port (motion_bytes q)) s tt (after s q) ([eoi; eoi] ++ report s q ++ [eoi]).
Proof.
  intros Ha Hi. unfold motion_bytes. cbn [feed].
  change ([eoi; eoi] ++ report s q ++ [eoi]) with ([eoi] ++ [eoi] ++ report s q ++ [eoi]).
  eapply yields_bind; [by apply first_byte|]. eapply yields_bind; [by apply second_byte|].
  rewrite <- (app_nil_r (report s q ++ [eoi])). cbn [flags set_packet_idx set_packet global_3_packet].
  rewrite first_packet_roundtrip. eapply yields_bind; [|apply returns_ret].
  match goal with |- yields _ ?t _ _ _ => apply (third_byte t q port) end; try done. by destruct Ha.
Qed.

Lemma feed_app port l l' : feed port (l ++ l') ≡ (feed port l;; feed port l').
Proof.
  induction l as [|b l IH]; cbn [feed app]; [by rewrite bind_ret_l|].
  rewrite bind_bind. apply bind_proper; [|done]. intros []. exact IH.
Qed.

(** All reports of a sequence are admitted, each where the ones before have led. *)
Fixpoint admits_all (s : globals) (qs : list motion) : Prop :=
  match qs with [] => True | q :: qs => admits s q /\ admits_all (after s q) qs end.

Fixpoint reports (s : globals) (qs : list motion) : list event :=
  match qs with [] => [] | q :: qs => ([eoi; eoi] ++ report s q ++ [eoi]) ++ reports (after s q) qs end.

Lemma feed_yields port qs : forall s, admits_all s qs -> packet_idx s = 0 ->
  yields (feed port (mjoin (map motion_bytes qs))) s tt (foldl after s qs) (reports s qs).
Proof.
  induction qs as [|q qs IH]; intros s Ha Hi; [apply returns_ret|]. destruct Ha as [Ha Hr].
  cbn [map mjoin list_join foldl reports]. intros d. rewrite feed_app.
  apply (yields_bind _ _ _ _ _ _ _ _ _ (packet_yields s q port Ha Hi)). by apply IH.
Qed.
End handler.

(** The points that the left button leaves behind, in the colour [c]. *)
Fixpoint trail (c : Color) (p : point) (qs : list motion) : list point :=
  match qs with
  | [] => []
  | q :: qs =>
      (if q_left q then line_points (mk_line p.1 p.2 (moved q p).1 (moved q p).2 c) else []) ++ trail c (moved q p) qs
  end.

Lemma line_dots_points args :
  line_dots args 0 (line_length args + 1) = map (fun p => (p, packed (l_color args))) (line_points args).
Proof. unfold line_dots, line_points. by rewrite map_map. Qed.

Lemma frame_trail qs : forall s, Forall (fun q => q_right q = false) qs ->
  let c := m_color (g_mouse_prop s) in
  g_framebuffer (foldl after s qs) = paint (map (fun p => (p, packed c)) (trail c (position s) qs)) (g_framebuffer s).
Proof.
  induction qs as [|q qs IH]; intros s Hr c; [done|]. inversion Hr as [|? ? Hq Hqs]; subst.
  cbn [foldl trail]. rewrite map_app, paint_app, IH by done.
  replace (m_color (g_mouse_prop (after s q))) with c by (cbn; unfold color_after; by rewrite Hq).
  replace (position (after s q)) with (moved q (position s)) by done. f_equal.
  cbn. unfold frame_after. destruct (q_left q); [|done]. by rewrite line_dots_points.
Qed.

Lemma trail_inside qs : forall s, admits_all s qs -> Forall (fun q => q_right q = false) qs ->
  Forall (inside (g_framebuffer s)) (trail (m_color (g_mouse_prop s)) (position s) qs).
Proof.
  induction qs as [|q qs IH]; intros s Ha Hr; cbn [trail]; [done|]. destruct Ha as [Ha Has].
  inversion Hr as [|? ? Hq Hqs]; subst. specialize (IH _ Has Hqs).
  replace (m_color (g_mouse_prop (after s q))) with (m_color (g_mouse_prop s)) in IH
    by (cbn; unfold color_after; by rewrite Hq).
  replace (position (after s q)) with (moved q (position s)) in IH by done.
  apply Forall_app. split.
  - destruct (q_left q) eqn:El; [|done]. destruct (admits_left _ _ Ha El) as [H0 H1].
    apply Forall_forall. intros p Hp. unfold line_points in Hp. apply in_map_iff in Hp as (k & <- & Hk).
    apply list_elem_of_In, elem_of_seqZ in Hk. apply line_point_inside; [done..|lia].
  - eapply Forall_impl; [|exact IH]. intros p Hp. exact (proj1 (frame_after_inside s q p) Hp).
Qed.

Lemma foldl_position qs : forall s, position (foldl after s qs) = foldl (fun p q => moved q p) (position s) qs.
Proof. induction qs as [|q qs IH]; intros s; cbn [foldl]; [done|]. apply (IH (after s q)). Qed.

Lemma foldl_idle qs : forall s, packet_idx s = 0 -> packet_idx (foldl after s qs) = 0.
Proof. induction qs as [|q qs IH]; intros s Hs; cbn [foldl]; [done|]. by apply IH. Qed.

(** C10: Fed the bytes of any sequence of reports that its screen admits, one interrupt per
    byte, the handler reports the buttons that change, or the movement, acknowledges each byte,
    follows the pointer, which stops at the left and the upper edge and jumps back to 0 behind
    32767, and ends between two packets.  As long as the right button is not used, exactly the
    points on the lines drawn with the left button get the colour of the pointer. *)
Theorem mouse_follows {D} `{PortDevice D} DEBUG port s qs :
  admits_all s qs -> packet_idx s = 0 ->
  let s' := foldl after s qs in
  yields (D:=D) (feed DEBUG port (mjoin (map motion_bytes qs))) s tt s' (reports s qs) /\
  packet_idx s' = 0 /\
  position s' = foldl (fun p q => moved q p) (position s) qs /\
  (Forall (fun q => q_right q = false) qs -> framed (g_framebuffer s) ->
     forall p, inside (g_framebuffer s) p ->
       let c := m_color (g_mouse_prop s) in
       (p ∈ trail c (position s) qs -> pixel (g_framebuffer s') p = Some (packed c)) /\
       (p ∉ trail c (position s) qs -> pixel (g_framebuffer s') p = pixel (g_framebuffer s) p)).
Proof.
  intros Ha Hi s'. split; [by apply feed_yields|]. split; [by apply foldl_idle|]. split; [by apply foldl_position|].
  intros Hr Hf p Hp c. unfold s'. rewrite frame_trail by done. fold c.
  rewrite (pixel_paint (fun _ => packed c)); [|done|done|].
  - pose proof (map_map (fun p : point => (p, packed c)) fst (trail c (position s) qs)) as Hm. cbn [fst] in Hm.
    rewrite map_id in Hm. change (fst <$> ?l) with (map fst l). rewrite Hm.
    split; intros HA; [by rewrite decide_True|by rewrite decide_False].
  - apply Forall_map. eapply Forall_impl; [|by apply trail_inside]. done.
Qed.

Definition sample_mouse : globals :=
  mk_globals (mk_packet (first_packet_of 8) 0 0) 0 (mk_buttons false false false false false)
    (mk_mouse 2 1 0 (mk_color 0xff 0xff 0xff 0)) sample_frame 1 2 1 2.

Lemma mouse_follows_witness :
  let qs := [mk_motion (-5) 0 false false false; mk_motion 3 (-2) true false false] in
  let s' := o_glob (feed (D:=no_device) false 2 (mjoin (map motion_bytes qs)) ND sample_mouse) in
  position s' = (3, 3) /\ pixel (g_framebuffer s') (3, 3) = Some 0xFFFFFF /\ pixel (g_framebuffer s') (3, 1) = Some 0.
Proof.
  intros qs s'. assert (admits_all sample_mouse qs) as Ha.
  { split; [|split; [|done]]; split; try exact sample_framed; vm_compute; intuition discriminate. }
  destruct (mouse_follows (D:=no_device) false 2 sample_mouse qs Ha eq_refl) as (Hy & _ & Hpos & Hpix).
  assert (s' = foldl after sample_mouse qs) as -> by exact (proj1 (proj2 (Hy ND))).
  split; [by rewrite Hpos|].
  specialize (Hpix ltac:(repeat constructor) sample_framed).
  destruct (Hpix (3, 3) ltac:(by vm_compute)) as [Hin _]. destruct (Hpix (3, 1) ltac:(by vm_compute)) as [_ Hout].
  split.
  - apply Hin. apply list_elem_of_In. vm_compute. tauto.
  - apply Hout. intros Hm%list_elem_of_In. vm_compute in Hm. intuition discriminate.
Defined.
