(* ===== verification/Ps2.v ===== *)
(** * Bringing up PS/2 and the interrupts

    [drivers/ps2/ps2.c] and [setup_interrupts_and_ps2] of [kernel/kernel_helper.c]: what
    the kernel does with the result of the controller's set-up.  It calls the drivers of
    the keyboard and of the mouse, whose globals are its state. *)

From S2P Require Import Framebuffer Mouse.
From S2P Require Import Prelude Machine Ps2Types Ps2Controller Ps2Setup Ps2ControllerFacts Pic.
From S2P Require Import Idt Keyboard KeyboardFacts Scancodes KeyboardHandler KeyboardHandlerFacts Sim8042.

(** ** State

    The globals of the two drivers that the bring-up starts. *)

Record ps2_globals (T : Type) := mk_ps2 {
  p_handler : handler_globals T;
  p_mouse : Mouse.globals;
}.
Arguments mk_ps2 {T}.
Arguments p_handler {T}.
Arguments p_mouse {T}.

Definition set_p_handler {T} (h : handler_globals T) (g : ps2_globals T) : ps2_globals T :=
  mk_ps2 h (p_mouse g).
Definition set_p_mouse {T} (s : Mouse.globals) (g : ps2_globals T) : ps2_globals T :=
  mk_ps2 (p_handler g) s.

(** ** Operations *)

Section ps2.
Context {D T : Type} `{PortDevice D} (isrs : isr_addresses) (DEBUG QEMU : bool).
Local Abbreviation C A := (M D (ps2_globals T) A).
Local Abbreviation status := handle_ps2_setup_status.

Definition handler_of {A} (m : M D (handler_globals T) A) : C A := zoom p_handler set_p_handler m.
Definition mouse_of {A} (m : M D Mouse.globals A) : C A := zoom p_mouse set_p_mouse m.
Definition idt_of (m : M D idt_globals unit) : C unit := handler_of (keyboard_call (idt_call m)).

(** [PIC_remap(PIC_1_OFFSET, PIC_2_OFFSET); initialize_irqs();] *)
Definition start_irqs : C unit := PIC_remap PIC_1_OFFSET PIC_2_OFFSET;; initialize_irqs.

Definition unmask_port_one : C unit := IRQ_clear_mask PS2_PORT1_IRQ.
Definition unmask_both_ports : C unit :=
  IRQ_clear_mask PS2_PORT1_IRQ;; IRQ_clear_mask PS2_PORT2_BRIDGE_IRQ;;
  IRQ_clear_mask PS2_PORT2_IRQ.

Definition handle_ps2_setup_one_keyboard_one_mouse (device_sates : ps2_initialize_device_state) :
    C status :=
  kprintf "One Keyboard, One Mouse\n" [];;
  port1_type ← read_cell (port_one_device_type device_sates);
  port2_type ← read_cell (port_two_device_type device_sates);
  let port1_super_type := get_device_super_type port1_type in
  let port2_super_type := get_device_super_type port2_type in
  if bool_decide (port1_super_type = PS2_DST_unknown) && bool_decide (port2_super_type = PS2_DST_unknown)
  then abort_msg "This should be logically impossible, idrember the code. Crash here!\n" [] else
  if bool_decide (port1_super_type = PS2_DST_unknown) then mret PS2_HS_ERR_unrecognized_device1 else
  if bool_decide (port2_super_type = PS2_DST_unknown) then mret PS2_HS_ERR_unrecognized_device2 else
  assert_handler_fmt (bool_decide (port1_super_type <> port2_super_type))
    "One keyboard, one mouse. Both can't be the same!\n" [];;
  let '(keyboard_port, mouse_port, keyboard_type, mouse_type) :=
    if bool_decide (port1_super_type = PS2_DST_keyboard) &&
       bool_decide (port2_super_type = PS2_DST_mouse)
    then (1, 2, port1_type, port2_type) else (2, 1, port2_type, port1_type) in
  kprintf "\nKeyboard type: |%s|, Mouse type: |%s|\n\n"
    [PStr (ps2_device_type_to_string keyboard_type); PStr (ps2_device_type_to_string mouse_type)];;
  mouse_of quick_enable_mouse;;
  handler_of (keyboard_call (set_single_keyboard_port keyboard_port));;
  mouse_of (set_single_mouse_port mouse_port);;
  idt_of (idt_init_ps2 isrs
    (ITT_one_keyboard_one_mouse keyboard_port mouse_port keyboard_type mouse_type));;
  start_irqs;;
  unmask_both_ports;;
  mret PS2_HS_ERR_one_keyboard_one_mouse.

Definition handle_ps2_setup_one_port_only (device_sates : ps2_initialize_device_state) : C status :=
  kprintf "One Port only\n" [];;
  only_port_type ← read_cell (port_one_device_type device_sates);
  match get_device_super_type only_port_type with
  | PS2_DST_unknown => mret PS2_HS_ERR_unrecognized_device1
  | PS2_DST_keyboard =>
      handler_of (keyboard_call (set_single_keyboard_port 1));;
      idt_of (idt_init_ps2 isrs (ITT_one_keyboard (u8 only_port_type)));;
      start_irqs;;
      unmask_port_one;;
      mret PS2_HS_ERR_one_port_only
  | PS2_DST_mouse =>
      mouse_of (set_single_mouse_port 1);;
      idt_of (idt_init_ps2 isrs (ITT_one_mouse (u8 only_port_type)));;
      start_irqs;;
      unmask_port_one;;
      mret PS2_HS_ERR_one_port_only
  end.

Definition handle_ps2_setup_two_keyboard (device_sates : ps2_initialize_device_state) : C status :=
  kprintf "Two keyboards\n" [];;
  keyboard1_type ← read_cell (port_one_device_type device_sates);
  keyboard2_type ← read_cell (port_two_device_type device_sates);
  handler_of (keyboard_call set_dual_keyboard_port);;
  idt_of (idt_init_ps2 isrs (ITT_two_keyboard keyboard1_type keyboard2_type));;
  start_irqs;;
  unmask_both_ports;;
  mret PS2_HS_ERR_two_keyboard.

Definition handle_ps2_setup_two_mouse (device_sates : ps2_initialize_device_state) : C status :=
  kprintf "Two Mouse\n" [];;
  mouse1_type ← read_cell (port_one_device_type device_sates);
  mouse2_type ← read_cell (port_two_device_type device_sates);
  mouse_of set_dual_mouse_port;;
  idt_of (idt_init_ps2 isrs (ITT_two_mouse mouse1_type mouse2_type));;
  start_irqs;;
  unmask_both_ports;;
  mret PS2_HS_ERR_two_mouse.

Definition handle_ps2_setup_no_port : C status :=
  kprintf "No PS2 Devices\n" [];; mret PS2_HS_ERR_no_port.

Definition handle_ps2_setup_case (device_sates : ps2_initialize_device_state) : C status :=
  e ← read_cell (ps2_state_err device_sates);
  match e with
  | PS2_ID_ERR_none => handle_ps2_setup_one_keyboard_one_mouse device_sates
  | PS2_ID_ERR_two_keyboard => handle_ps2_setup_two_keyboard device_sates
  | PS2_ID_ERR_two_mouse => handle_ps2_setup_two_mouse device_sates
  | PS2_ID_ERR_no_second_port => handle_ps2_setup_one_port_only device_sates
  | _ => handle_ps2_setup_no_port
  end.

Definition handle_ps2_setup : C status :=
  device_sates ← setup_ps2_controller QEMU;
  kprintf "\n ===== Handling Result ===== \n" [];;
  handle_ps2_setup_case device_sates.

(** The case [PS2_HS_ERR_unrecognized_device1] has no break, but the next one is empty. *)
Definition setup_interrupts_and_ps2 : C unit :=
  idt_of (idt_init isrs DEBUG);;
  start_irqs;;
  err ← handle_ps2_setup;
  (match err with
   | PS2_HS_ERR_one_keyboard_one_mouse | PS2_HS_ERR_two_keyboard | PS2_HS_ERR_two_mouse =>
       unmask_both_ports
   | PS2_HS_ERR_unrecognized_device2 | PS2_HS_ERR_one_port_only => unmask_port_one
   | PS2_HS_ERR_unrecognized_device1 =>
       IRQ_clear_mask PS2_PORT2_BRIDGE_IRQ;; IRQ_clear_mask PS2_PORT2_IRQ
   | PS2_HS_ERR_no_port => mret tt
   end);;
  idt_of (idt_init_pit isrs);;
  idt_of idt_finalize.
End ps2.

(** ** Facts *)

Lemma total_zoom {D G G' A} (view : G' -> G) over (m : M D G A) (Q : A -> Prop) :
  total m Q -> total (zoom view over m) Q.
Proof. intros Hm d g. exact (Hm d (view g)). Qed.

Lemma total_updates {D G} (m : M D G unit) f : updates m f -> total m (fun _ => True).
Proof. intros Hm d g. rewrite Hm. by exists tt. Qed.

(** *** A mouse that does not answer

    [unanswered n es]: [es] is [n] rounds of waiting for an answer, in none of which the
    controller had one.  [mouse_gave_no_answer es]: in [es] a keyboard and a mouse were found,
    and [es] ends with 1000 such rounds and the message of the failed assertion. *)

Inductive unanswered : nat -> list event -> Prop :=
| unanswered_none : unanswered 0 []
| unanswered_round n status es :
    Z.testbit status 0 = false -> unanswered n es ->
    unanswered (S n) (EOut 0x80 0 :: EIn 0x64 status :: es).

Definition gave_up (es : list event) : Prop :=
  exists before rounds after,
    es = before ++ rounds ++ [EPrint "Assertion Failed\n" []; EPrint "Error\n" []] ++ after /\
    unanswered 1000 rounds.
Definition mouse_gave_no_answer (es : list event) : Prop :=
  exists before after, es = before ++ EPrint "One Keyboard, One Mouse\n" [] :: after /\ gave_up after.

(** [total_or P m Q]: [m] returns, and its value satisfies [Q], or it aborts and its events
    satisfy [P], which what was done before does not disturb. *)
Definition total_or {D G A} (P : list event -> Prop) (m : M D G A) (Q : A -> Prop) : Prop :=
  forall d g, (exists a, o_exit (m d g) = Done a /\ Q a) \/
    (o_exit (m d g) = Aborted /\ P (o_events (m d g))).

Lemma gave_up_after es es' : gave_up es' -> gave_up (es ++ es').
Proof. intros (b & r & a & -> & Hr). exists (es ++ b), r, a. by rewrite <- (assoc_L (++)). Qed.
Lemma no_answer_after es es' : mouse_gave_no_answer es' -> mouse_gave_no_answer (es ++ es').
Proof. intros (b & a & -> & Ha). exists (es ++ b), a. by rewrite <- (assoc_L (++)). Qed.

Section total_or.
Context {D G : Type} (P : list event -> Prop).
Hypothesis P_after : forall es es', P es' -> P (es ++ es').

Lemma total_or_total {A} (m : M D G A) Q : total m Q -> total_or P m Q.
Proof. intros Hm d g. left. apply Hm. Qed.
Lemma total_or_zoom {G' A} (view : G' -> G) over (m : M D G A) Q :
  total_or P m Q -> total_or P (zoom view over m) Q.
Proof. intros Hm d g. exact (Hm d (view g)). Qed.
Lemma total_or_bind {A B} (m : M D G A) (k : A -> M D G B) Q R :
  total_or P m Q -> (forall a, Q a -> total_or P (k a) R) -> total_or P (m ≫= k) R.
Proof.
  intros Hm Hk d g. unfold mbind, M_bind. destruct (Hm d g) as [(a & Ha & HQ)|[Ha HP]]; rewrite Ha.
  - destruct (Hk a HQ (o_dev (m d g)) (o_glob (m d g))) as [?|[? ?]]; [by left|].
    right. cbn. split; [done|by apply P_after].
  - by right.
Qed.
Lemma total_or_then {A B} (m : M D G A) (k : A -> M D G B) Q R :
  total m Q -> (forall a, Q a -> total_or P (k a) R) -> total_or P (m ≫= k) R.
Proof. intros Hm. apply total_or_bind. by apply total_or_total. Qed.
End total_or.

Section enabling_the_mouse.
Context {D : Type} `{PortDevice D}.

Lemma wait_response_rounds {G} n (d : D) (g : G) :
  exists e, o_exit (wait_response_loop n d g) = Done e /\
    (is_err e = true -> unanswered n (o_events (wait_response_loop n d g))).
Proof.
  revert d g. induction n as [|n IH]; intros d g; cbn [wait_response_loop].
  - eexists. split; [reflexivity|]. intros _. constructor.
  - set (d1 := port_out 0x80 (u8 0) d).
    rewrite (bind_done _ _ d g d1 g [EOut 0x80 0] tt) by reflexivity.
    destruct (port_in 0x64 d1) as [v d2] eqn:Ev.
    rewrite (bind_done read_ps2_status _ d1 g d2 g [EIn 0x64 (u8 v)] (status_bits (u8 v))).
    2: { unfold read_ps2_status, inb, mbind, M_bind. unfold PS2_STATUS_PORT_R. by rewrite Ev. }
    unfold is_ps2_controller_ready_for_response. cbn [status_bits output_buffer_full_not_empty].
    destruct (Z.testbit (u8 v) 0) eqn:Eb; cbn zeta.
    + eexists. split; [reflexivity|discriminate].
    + destruct (IH d2 g) as (e & He & Hu). exists e. cbn [o_exit o_events]. split; [exact He|].
      intros Herr. by constructor; [|apply Hu].
Qed.

Lemma quick_enable_mouse_returns :
  total_or gave_up (D:=D) quick_enable_mouse (fun _ => True).
Proof.
  unfold quick_enable_mouse. eapply (total_or_then _ gave_up_after).
  { exact (total_send_port 2 0xf4). }
  intros ? _ d g. destruct (wait_response_rounds MAX_PS2_WAIT_LOOP d g) as (e & He & Hu).
  unfold wait_till_ready_for_response.
  destruct (wait_response_loop MAX_PS2_WAIT_LOOP d g) as [d1 g1 es1 x] eqn:Ew.
  cbn [o_exit o_events] in He, Hu. subst x. rewrite (bind_done _ _ d g d1 g1 es1 e Ew). cbn zeta.
  destruct (is_err e).
  - right. split; [reflexivity|]. exists [], es1. eexists. split; [reflexivity|exact (Hu eq_refl)].
  - left. exists tt. split; [|done]. cbn [o_exit]. rewrite ret_bind.
    unfold ps2_recieve_raw_response, inb, mbind, M_bind. by destruct (port_in PS2_DATA_PORT_RW d1).
Qed.
End enabling_the_mouse.

Section ps2_facts.
Context {D T : Type} `{PortDevice D} (isrs : isr_addresses) (DEBUG QEMU : bool).
Local Abbreviation HG := (ps2_globals T).
Local Abbreviation any := (fun _ => True).

Lemma total_irq_mask {G} i :
  0 <= i < 16 -> total (G:=G) (IRQ_set_mask i) any /\ total (G:=G) (IRQ_clear_mask i) any.
Proof.
  intros Hi. pose proof (mask_line_range i Hi). unfold IRQ_set_mask, IRQ_clear_mask.
  replace (31 <=? mask_line i) with false by lia.
  split; eapply total_bind; [apply total_inb|intros v _; apply total_outb| |];
    [apply total_inb|intros v _; apply total_outb].
Qed.

Lemma total_start_irqs : total (D:=D) (G:=HG) start_irqs any.
Proof.
  unfold start_irqs, PIC_remap, pic_io_wait, initialize_irqs.
  eapply total_bind.
  - repeat (eapply total_bind; [apply total_outb|intros ? _]). apply total_outb.
  - intros ? _. apply total_for. intros j Hj. by apply total_irq_mask.
Qed.

Lemma total_unmask_one : total (D:=D) (G:=HG) unmask_port_one any.
Proof. by apply total_irq_mask. Qed.
Lemma total_unmask_both : total (D:=D) (G:=HG) unmask_both_ports any.
Proof.
  unfold unmask_both_ports.
  do 2 (eapply total_bind; [by apply total_irq_mask|intros ? _]). by apply total_irq_mask.
Qed.

Lemma total_idt_of m : total m any -> total (D:=D) (G:=HG) (idt_of m) any.
Proof. intros Hm. by apply total_zoom, total_zoom, total_zoom. Qed.

(** Recording which ports have the keyboards and the mice. *)
Lemma total_handler_of {A} (m : M D keyboard_globals A) :
  total m any -> total (D:=D) (G:=HG) (handler_of (keyboard_call m)) any.
Proof. intros Hm. by apply total_zoom, total_zoom. Qed.
Lemma total_keyboard_port p : total (D:=D) (G:=HG) (handler_of (keyboard_call (set_single_keyboard_port p))) any.
Proof. apply total_handler_of. intros d g. by exists tt. Qed.
Lemma total_keyboard_ports : total (D:=D) (G:=HG) (handler_of (keyboard_call set_dual_keyboard_port)) any.
Proof. apply total_handler_of. intros d g. by exists tt. Qed.
Lemma total_mouse_port p : total (D:=D) (G:=HG) (mouse_of (set_single_mouse_port p)) any.
Proof. apply total_zoom. intros d g. by exists tt. Qed.
Lemma total_mouse_ports : total (D:=D) (G:=HG) (mouse_of set_dual_mouse_port) any.
Proof. apply total_zoom. intros d g. by exists tt. Qed.

Lemma total_install v mark isr : total (D:=D) (install_as v mark isr) any.
Proof. eapply total_updates, updates_install_as. Qed.
Lemma total_set_descriptor v isr :
  total (D:=D) (idt_set_descriptor v isr GT32_IG32 0 true) any.
Proof. intros d g. by exists tt. Qed.

Lemma total_idt_init_ps2 args :
  match args with
  | ITT_one_keyboard_one_mouse k m _ _ => (k = 1 /\ m = 2) \/ (k = 2 /\ m = 1)
  | _ => True
  end -> total (D:=D) (idt_init_ps2 isrs args) any.
Proof.
  destruct args as [k m kt mt| | | | |]; intros Hk; try (intros d g; by exists tt).
  destruct Hk as [[-> ->]|[-> ->]]; intros d g; by exists tt.
Qed.

Definition recognised (s : handle_ps2_setup_status) : Prop :=
  s <> PS2_HS_ERR_unrecognized_device1 /\ s <> PS2_HS_ERR_unrecognized_device2.

Lemma total_finish (m : M D HG unit) s :
  total (D:=D) (G:=HG) m any -> recognised s ->
  total (G:=HG) (start_irqs;; m;; mret s) recognised.
Proof.
  intros Hm Hs. eapply total_bind; [apply total_start_irqs|intros ? _].
  eapply total_bind; [exact Hm|intros ? _]. by apply total_ret.
Qed.

Lemma total_or_both (k : unit -> M D HG handle_ps2_setup_status) Q :
  total_or gave_up (k tt) Q ->
  total_or mouse_gave_no_answer (kprintf "One Keyboard, One Mouse\n" [] ≫= k) Q.
Proof.
  intros Hk d g.
  rewrite (bind_done _ _ d g d g [EPrint "One Keyboard, One Mouse\n" []] tt) by reflexivity.
  destruct (Hk d g) as [?|[? Hg]]; [by left|]. right. split; [done|]. by exists [], (o_events (k tt d g)).
Qed.

(** What follows the announcement of the types: the only step that can stop is the mouse's. *)
Lemma total_or_start km mp kt mt :
  (km = 1 /\ mp = 2) \/ (km = 2 /\ mp = 1) ->
  total_or gave_up (D:=D) (G:=HG)
    (mouse_of quick_enable_mouse;;
     handler_of (keyboard_call (set_single_keyboard_port km));;
     mouse_of (set_single_mouse_port mp);;
     idt_of (idt_init_ps2 isrs (ITT_one_keyboard_one_mouse km mp kt mt));;
     start_irqs;; unmask_both_ports;; mret PS2_HS_ERR_one_keyboard_one_mouse) recognised.
Proof.
  intros Hk. eapply (total_or_bind _ gave_up_after); [apply total_or_zoom, quick_enable_mouse_returns|intros ? _].
  apply total_or_total.
  eapply total_bind; [apply total_keyboard_port|intros ? _].
  eapply total_bind; [apply total_mouse_port|intros ? _].
  eapply total_bind; [by apply total_idt_of, total_idt_init_ps2|intros ? _].
  apply total_finish; [apply total_unmask_both|by split].
Qed.

Lemma total_one_keyboard_one_mouse st t1 t2 s1 s2 :
  port_one_device_type st = Some t1 -> port_two_device_type st = Some t2 ->
  get_device_super_type t1 = s1 -> get_device_super_type t2 = s2 ->
  (s1 = PS2_DST_keyboard /\ s2 = PS2_DST_mouse) \/ (s1 = PS2_DST_mouse /\ s2 = PS2_DST_keyboard) ->
  total_or mouse_gave_no_answer (D:=D) (G:=HG) (handle_ps2_setup_one_keyboard_one_mouse isrs st) recognised.
Proof.
  intros E1 E2 S1 S2 Hs. unfold handle_ps2_setup_one_keyboard_one_mouse.
  apply total_or_both. rewrite E1, E2.
  eapply (total_or_then _ gave_up_after); [by apply (total_cell t1 (eq t1))|intros ? <-].
  eapply (total_or_then _ gave_up_after); [by apply (total_cell t2 (eq t2))|intros ? <-].
  rewrite S1, S2.
  destruct Hs as [[-> ->]|[-> ->]];
    repeat match goal with |- context [bool_decide ?P] =>
      let b := eval vm_compute in (bool_decide P) in change (bool_decide P) with b end;
    cbn [andb];
    (eapply (total_or_then _ gave_up_after); [exact (total_ret tt any I)|intros ? _]);
    (eapply (total_or_then _ gave_up_after); [apply total_kprintf|intros ? _]);
    apply total_or_start; auto.
Qed.

Lemma total_setup_case st :
  init_state_ok st -> total_or mouse_gave_no_answer (D:=D) (G:=HG) (handle_ps2_setup_case isrs st) recognised.
Proof.
  intros Hok. unfold handle_ps2_setup_case.
  destruct (ps2_state_err st) as [e|] eqn:Ee; [|unfold init_state_ok in Hok; by rewrite Ee in Hok].
  eapply (total_or_then _ no_answer_after); [by apply (total_cell e (eq e))|intros ? <-].
  unfold init_state_ok in Hok. rewrite Ee in Hok.
  assert (Hno : total (D:=D) (G:=HG) handle_ps2_setup_no_port recognised).
  { eapply total_bind; [apply total_kprintf|intros ? _]. by apply total_ret. }
  destruct e; try exact (total_or_total _ _ _ Hno).
  - destruct Hok as [[(t1 & E1 & S1) (t2 & E2 & S2)]|[(t1 & E1 & S1) (t2 & E2 & S2)]];
      eapply total_one_keyboard_one_mouse; eauto.
  - apply total_or_total. destruct Hok as (s & (t1 & E1 & S1) & Hs). unfold handle_ps2_setup_one_port_only.
    eapply total_bind; [apply total_kprintf|intros ? _]. rewrite E1.
    eapply total_bind; [by apply (total_cell t1 (eq t1))|intros ? <-]. rewrite S1.
    destruct s; [done| |].
    + eapply total_bind; [apply total_keyboard_port|intros ? _].
      eapply total_bind; [by apply total_idt_of, total_idt_init_ps2|intros ? _].
      apply total_finish; [apply total_unmask_one|by split].
    + eapply total_bind; [apply total_mouse_port|intros ? _].
      eapply total_bind; [by apply total_idt_of, total_idt_init_ps2|intros ? _].
      apply total_finish; [apply total_unmask_one|by split].
  - apply total_or_total. destruct Hok as [(t1 & E1 & S1) (t2 & E2 & S2)]. unfold handle_ps2_setup_two_keyboard.
    eapply total_bind; [apply total_kprintf|intros ? _]. rewrite E1, E2.
    eapply total_bind; [by apply (total_cell t1 (eq t1))|intros ? <-].
    eapply total_bind; [by apply (total_cell t2 (eq t2))|intros ? <-].
    eapply total_bind; [apply total_keyboard_ports|intros ? _].
    eapply total_bind; [by apply total_idt_of, total_idt_init_ps2|intros ? _].
    apply total_finish; [apply total_unmask_both|by split].
  - apply total_or_total. destruct Hok as [(t1 & E1 & S1) (t2 & E2 & S2)]. unfold handle_ps2_setup_two_mouse.
    eapply total_bind; [apply total_kprintf|intros ? _]. rewrite E1, E2.
    eapply total_bind; [by apply (total_cell t1 (eq t1))|intros ? <-].
    eapply total_bind; [by apply (total_cell t2 (eq t2))|intros ? <-].
    eapply total_bind; [apply total_mouse_ports|intros ? _].
    eapply total_bind; [by apply total_idt_of, total_idt_init_ps2|intros ? _].
    apply total_finish; [apply total_unmask_both|by split].
Qed.

Lemma total_handle_setup :
  total_or mouse_gave_no_answer (D:=D) (G:=HG) (handle_ps2_setup isrs QEMU) recognised.
Proof.
  unfold handle_ps2_setup. eapply (total_or_then _ no_answer_after); [apply total_setup|intros st Hst].
  eapply (total_or_then _ no_answer_after); [apply total_kprintf|intros ? _]. by apply total_setup_case.
Qed.

Lemma total_setup_interrupts :
  total_or mouse_gave_no_answer (D:=D) (G:=HG) (setup_interrupts_and_ps2 isrs DEBUG QEMU) any.
Proof.
  unfold setup_interrupts_and_ps2.
  eapply (total_or_then _ no_answer_after);
    [eapply total_idt_of, total_updates, updates_idt_init|intros ? _].
  eapply (total_or_then _ no_answer_after); [apply total_start_irqs|intros ? _].
  eapply (total_or_bind _ no_answer_after); [apply total_handle_setup|intros s [Hs1 Hs2]].
  apply total_or_total. eapply total_bind.
  - destruct s; try apply total_unmask_both; try apply total_unmask_one; try done.
    exact (total_ret tt any I).
  - intros ? _. eapply total_bind; [apply total_idt_of, total_set_descriptor|intros ? _].
    apply total_idt_of. intros d g. by exists tt.
Qed.
End ps2_facts.

(** ** What the set-up leaves alone

    The controller driver has no globals: it returns the caller's as they were. *)

Definition keeps {D G A} (m : M D G A) : Prop := forall d g, o_glob (m d g) = g.

Create HintDb keeping discriminated.
#[export] Hint Constants Opaque : keeping.

Section keeps_rules.
Context {D G : Type} `{PortDevice D}.

Lemma keeps_ret {A} (a : A) : keeps (D:=D) (G:=G) (mret a).
Proof. done. Qed.
Lemma keeps_bind {A B} (m : M D G A) (k : A -> M D G B) :
  keeps m -> (forall a, keeps (k a)) -> keeps (m ≫= k).
Proof.
  intros Hm Hk d g. pose proof (Hm d g) as Hg. unfold mbind, M_bind.
  destruct (o_exit (m d g)) as [a| | |]; try done. simpl. by rewrite Hg, Hk.
Qed.
Lemma keeps_ebind {R A B} (m : Early D G R A) (k : A -> Early D G R B) :
  keeps m -> (forall a, keeps (k a)) -> keeps (ebind m k).
Proof. intros Hm Hk. apply keeps_bind; [done|]. by intros [r|a]. Qed.
Lemma keeps_body {R} (m : Early D G R R) : keeps m -> keeps (function_body m).
Proof. intros Hm. apply keeps_bind; [done|]. by intros [r|r]. Qed.
Lemma keeps_lift {R A} (m : M D G A) : keeps m -> keeps (lift (R:=R) m).
Proof. intros Hm. by apply keeps_bind. Qed.
Lemma keeps_inb p : keeps (G:=G) (inb p).
Proof. intros d g. unfold inb. by destruct (port_in p d). Qed.
Lemma keeps_outb p v : keeps (G:=G) (outb p v).
Proof. done. Qed.
Lemma keeps_kprintf fmt args : keeps (D:=D) (G:=G) (kprintf fmt args).
Proof. done. Qed.
Lemma keeps_cell {A} (c : option A) : keeps (D:=D) (G:=G) (read_cell c).
Proof. by destruct c. Qed.
Lemma keeps_abort {A} fmt args : keeps (D:=D) (G:=G) (abort_msg (A:=A) fmt args).
Proof. done. Qed.
Lemma keeps_local {A} (m : M D G A) : local m -> keeps m.
Proof. intros Hm d g. apply Hm. Qed.
End keeps_rules.
#[export] Hint Resolve keeps_ret keeps_inb keeps_outb keeps_kprintf keeps_cell keeps_abort : keeping.

Ltac keeps_auto :=
  repeat match goal with
  | |- keeps (if ?b then _ else _) => destruct b
  | |- keeps (match ?x with _ => _ end) => destruct x
  | |- keeps (lift _) => apply keeps_lift
  | |- keeps (fall _) => apply keeps_ret
  | |- keeps (leave _) => apply keeps_ret
  | |- keeps (function_body _) => apply keeps_body
  | |- keeps _ => solve [eauto with keeping]
  | |- keeps (ebind _ _) => apply keeps_ebind; [|intros ?]
  | |- keeps (_ ≫= _) => apply keeps_bind; [|intros ?]
  end.

Section driver_keeps.
Context {D G : Type} `{PortDevice D} (QEMU : bool).

Lemma keeps_wait_input : keeps (D:=D) (G:=G) wait_till_ready_for_more_input.
Proof. apply keeps_local, local_wait_input. Qed.
Lemma keeps_wait_response : keeps (D:=D) (G:=G) wait_till_ready_for_response.
Proof. apply keeps_local, local_wait_response. Qed.
Lemma keeps_receive : keeps (D:=D) (G:=G) ps2_recieve_raw_response.
Proof. apply keeps_inb. Qed.
Lemma keeps_send_port p v : keeps (D:=D) (G:=G) (send_command_or_data_to_ps2_port p v).
Proof. apply keeps_local, local_send_port. Qed.
Hint Resolve keeps_wait_input keeps_wait_response keeps_receive keeps_send_port : keeping.

Lemma keeps_send_command c : keeps (D:=D) (G:=G) (send_command_to_ps2_controller c).
Proof. unfold send_command_to_ps2_controller. keeps_auto. Qed.
Hint Resolve keeps_send_command : keeping.
Lemma keeps_config_response c : keeps (D:=D) (G:=G) (send_command_configuration_byte_response c).
Proof. unfold send_command_configuration_byte_response. keeps_auto. Qed.
Lemma keeps_test_port c : keeps (D:=D) (G:=G) (send_command_test_port_response c).
Proof. unfold send_command_test_port_response. keeps_auto. Qed.
Lemma keeps_test_controller c : keeps (D:=D) (G:=G) (send_command_test_controller_response c).
Proof. unfold send_command_test_controller_response. keeps_auto. Qed.
Lemma keeps_set_configuration c : keeps (D:=D) (G:=G) (ps2_set_configuration_byte c).
Proof.
  unfold ps2_set_configuration_byte, write_next_to_byte_0_of_interal_ram,
    send_command_none_response. keeps_auto.
Qed.
Lemma keeps_reset p : keeps (D:=D) (G:=G) (reset_port_and_get_device_type p).
Proof. unfold reset_port_and_get_device_type. keeps_auto. Qed.
Lemma keeps_print_config c : keeps (D:=D) (G:=G) (print_ps2_configuration_byte c).
Proof. done. Qed.
Lemma keeps_print_lines l : keeps (D:=D) (G:=G) (print_lines l).
Proof. induction l; simpl; keeps_auto. Qed.
Hint Resolve keeps_config_response keeps_test_port keeps_test_controller keeps_set_configuration
  keeps_reset keeps_print_config keeps_print_lines : keeping.

Lemma keeps_init_failed {A} msgs fmt shown e s p1 :
  keeps (D:=D) (G:=G) (init_failed (A:=A) msgs fmt shown e s p1).
Proof. unfold init_failed. keeps_auto. Qed.
Hint Resolve keeps_init_failed : keeping.

Lemma keeps_step8_port test which s :
  keeps test -> keeps (D:=D) (G:=G) (setup_step8_port test which s).
Proof. intros Ht. unfold setup_step8_port, could_not_init. keeps_auto. Qed.
Lemma keeps_step10_device port which imp s p1 :
  keeps (D:=D) (G:=G) (setup_step10_device port which imp s p1).
Proof. unfold setup_step10_device. keeps_auto. Qed.
Hint Resolve keeps_step10_device : keeping.

Lemma keeps_setup : keeps (D:=D) (G:=G) (setup_ps2_controller QEMU).
Proof.
  unfold setup_ps2_controller, setup_step3, setup_step4, setup_step5, setup_step6, setup_step7,
    setup_step8, setup_step9, setup_step10, could_not_init,
    ps2_get_configuration_byte, ps2_perform_controller_self_test,
    ps2_disable_first_ps2_port, ps2_disable_second_ps2_port, ps2_enable_first_ps2_port,
    ps2_enable_second_ps2_port.
  keeps_auto; first [apply (keeps_ret (inr tt))|apply keeps_step8_port; apply keeps_test_port].
Qed.
End driver_keeps.

(** ** Whether a keyboard is announced *)

Section announced.
Context {D T : Type} `{PortDevice D} (isrs : isr_addresses) (DEBUG QEMU : bool).
Local Abbreviation HG := (ps2_globals T).

Definition unannounced (g : HG) : Prop :=
  kps_initialized (kps (h_keyboard (p_handler g))) = false.

(** The outcomes after which the kernel has a keyboard driver. *)
Definition has_keyboard (s : handle_ps2_setup_status) : Prop :=
  s = PS2_HS_ERR_one_keyboard_one_mouse \/ s = PS2_HS_ERR_one_port_only.

Lemma lands_keeps {A} (m : M D HG A) : keeps m -> lands unannounced m (fun _ => unannounced).
Proof. intros Hm d h a Hh _. by rewrite Hm. Qed.

Lemma lands_idt_of m : lands (D:=D) unannounced (idt_of (T:=T) m) (fun _ => unannounced).
Proof. by intros d h a Hh _. Qed.

Lemma lands_mouse_of (m : M D Mouse.globals unit) :
  lands unannounced (mouse_of (T:=T) m) (fun _ => unannounced).
Proof. by intros d h a Hh _. Qed.

Lemma keeps_irq_mask {G} i : keeps (D:=D) (G:=G) (IRQ_set_mask i) /\ keeps (D:=D) (G:=G) (IRQ_clear_mask i).
Proof.
  split; intros d g; unfold IRQ_set_mask, IRQ_clear_mask, inb, outb, mbind, M_bind;
    destruct (31 <=? mask_line i); by destruct (port_in _ d).
Qed.

Lemma keeps_start_irqs : keeps (D:=D) (G:=HG) start_irqs.
Proof.
  unfold start_irqs, PIC_remap, pic_io_wait. apply keeps_bind; [by intros d g|intros ?].
  unfold initialize_irqs. generalize 16%nat, 0. intros n. induction n as [|n IH]; intros i; [done|].
  simpl. apply keeps_bind; [apply keeps_irq_mask|intros ?; apply IH].
Qed.

Lemma keeps_unmask : keeps (D:=D) (G:=HG) unmask_port_one /\ keeps (D:=D) (G:=HG) unmask_both_ports.
Proof.
  split; [apply keeps_irq_mask|]. unfold unmask_both_ports.
  repeat (apply keeps_bind; [apply keeps_irq_mask|intros ?]). apply keeps_irq_mask.
Qed.

Lemma lands_finish (m : M D HG unit) s :
  keeps m -> lands unannounced (start_irqs;; m;; mret s)
    (fun s' h => has_keyboard s' \/ unannounced h).
Proof.
  intros Hm. eapply lands_bind; [apply lands_keeps, keeps_start_irqs|intros ?].
  eapply lands_bind; [by apply lands_keeps|intros ?]. apply lands_ret. auto.
Qed.

(** A function that returns one of the two outcomes lands there whatever it changes. *)
Lemma lands_returns (m : M D HG handle_ps2_setup_status) P :
  (forall d h s, o_exit (m d h) = Done s -> has_keyboard s) ->
  lands P m (fun s h => has_keyboard s \/ unannounced h).
Proof. intros Hm d h s _ Hs. left. by apply (Hm d h). Qed.

Lemma lands_no_port :
  lands (D:=D) unannounced handle_ps2_setup_no_port (fun s h => has_keyboard s \/ unannounced h).
Proof. eapply lands_bind; [apply lands_emit|intros ?]. apply lands_ret. auto. Qed.

Lemma lands_two_keyboard st :
  lands (D:=D) unannounced (handle_ps2_setup_two_keyboard isrs st)
    (fun s h => has_keyboard s \/ unannounced h).
Proof.
  unfold handle_ps2_setup_two_keyboard. eapply lands_bind; [apply lands_emit|intros ?].
  do 2 (eapply lands_bind; [apply lands_keeps, keeps_cell|intros ?]).
  eapply (lands_bind _ _ (fun _ => unannounced)); [by intros d h ? Hh _|intros ?].
  eapply lands_bind; [apply lands_idt_of|intros ?]. apply lands_finish, keeps_unmask.
Qed.

Lemma lands_two_mouse st :
  lands (D:=D) unannounced (handle_ps2_setup_two_mouse isrs st)
    (fun s h => has_keyboard s \/ unannounced h).
Proof.
  unfold handle_ps2_setup_two_mouse. eapply lands_bind; [apply lands_emit|intros ?].
  do 2 (eapply lands_bind; [apply lands_keeps, keeps_cell|intros ?]).
  eapply lands_bind; [apply lands_mouse_of|intros ?].
  eapply lands_bind; [apply lands_idt_of|intros ?]. apply lands_finish, keeps_unmask.
Qed.

(** Only the returned value matters in the other two cases. *)
Lemma returns_last {A} (m : M D HG A) (k : A -> M D HG handle_ps2_setup_status) :
  (forall a, lands (fun _ => True) (k a) (fun s _ => has_keyboard s \/ s = PS2_HS_ERR_unrecognized_device1
     \/ s = PS2_HS_ERR_unrecognized_device2)) ->
  lands (fun _ => True) (m ≫= k) (fun s _ => has_keyboard s \/ s = PS2_HS_ERR_unrecognized_device1
     \/ s = PS2_HS_ERR_unrecognized_device2).
Proof. intros Hk. by eapply (lands_bind _ _ (fun _ _ => True)). Qed.

Lemma lands_device_cases st :
  lands (D:=D) (fun _ => True) (handle_ps2_setup_one_keyboard_one_mouse isrs st)
    (fun s (_ : HG) => has_keyboard s \/ s = PS2_HS_ERR_unrecognized_device1 \/
      s = PS2_HS_ERR_unrecognized_device2) /\
  lands (D:=D) (fun _ => True) (handle_ps2_setup_one_port_only isrs st)
    (fun s (_ : HG) => has_keyboard s \/ s = PS2_HS_ERR_unrecognized_device1 \/
      s = PS2_HS_ERR_unrecognized_device2).
Proof.
  unfold handle_ps2_setup_one_keyboard_one_mouse, handle_ps2_setup_one_port_only. split.
  - do 3 (apply returns_last; intros ?).
    destruct (_ && _); [by intros d h s _|]. case_bool_decide; [apply lands_ret; auto|].
    case_bool_decide; [apply lands_ret; auto|]. apply returns_last; intros ?.
    destruct (if _ && _ then _ else _) as [[[? ?] ?] ?].
    do 7 (apply returns_last; intros ?). apply lands_ret. unfold has_keyboard. auto.
  - do 2 (apply returns_last; intros ?). case_match; [apply lands_ret; auto|..];
      (do 4 (apply returns_last; intros ?); apply lands_ret; unfold has_keyboard; auto).
Qed.

Lemma lands_case st :
  init_state_ok st ->
  lands (D:=D) unannounced (handle_ps2_setup_case isrs st)
    (fun s h => has_keyboard s \/ unannounced h).
Proof.
  intros Hok d h s Hh Hs.
  destruct (total_setup_case (T:=T) isrs st Hok d h) as [(s' & Hs' & Hr1 & Hr2)|[Hs' _]];
    rewrite Hs in Hs'; [|done].
  injection Hs' as <-.
  revert Hs. unfold handle_ps2_setup_case.
  destruct (ps2_state_err st) as [e|] eqn:Ee; [|done].
  cbn [read_cell]. rewrite (ret_bind (D:=D) e).
  destruct (lands_device_cases st) as [Hkm Hone].
  destruct e; intros Hs; try by apply (lands_no_port d h s Hh Hs).
  - destruct (Hkm d h s I Hs) as [?|[?|?]]; [by left|done|done].
  - destruct (Hone d h s I Hs) as [?|[?|?]]; [by left|done|done].
  - by apply (lands_two_keyboard st d h s Hh Hs).
  - by apply (lands_two_mouse st d h s Hh Hs).
Qed.

Lemma lands_handle_setup :
  lands (D:=D) unannounced (handle_ps2_setup isrs QEMU)
    (fun s h => has_keyboard s \/ unannounced h).
Proof.
  unfold handle_ps2_setup.
  eapply (lands_bind _ _ (fun st h => init_state_ok st /\ unannounced h)).
  - intros d h st Hh Hs. destruct (total_setup (G:=HG) QEMU d h) as (st' & He & Hok).
    rewrite Hs in He. injection He as <-. split; [done|]. exact (lands_keeps _ (keeps_setup QEMU) d h st Hh Hs).
  - intros st. eapply lands_bind; [apply lands_emit|intros ?].
    intros d h s [Hok Hh]. by apply lands_case.
Qed.
End announced.

(** ** Properties *)

(** C5: Whatever the hardware answers, bringing up PS/2 and the interrupts returns or, in one
    case, aborts: a keyboard and a mouse were found and in 1000 rounds of waiting after the
    command that enables the mouse the controller had no answer.  No field is read unassigned, no
    loop goes on for ever, and where the PS/2 part returns it does not report an unrecognised
    device: those branches of the code are dead. *)
Theorem ps2_bring_up_returns {D T} `{PortDevice D} isrs DEBUG QEMU (d : D) (g : ps2_globals T) :
  (o_exit (setup_interrupts_and_ps2 isrs DEBUG QEMU d g) = Done tt \/
   (o_exit (setup_interrupts_and_ps2 isrs DEBUG QEMU d g) = Aborted /\
    mouse_gave_no_answer (o_events (setup_interrupts_and_ps2 isrs DEBUG QEMU d g)))) /\
  ((exists s, o_exit (handle_ps2_setup isrs QEMU d g) = Done s /\ recognised s) \/
   (o_exit (handle_ps2_setup isrs QEMU d g) = Aborted /\
    mouse_gave_no_answer (o_events (handle_ps2_setup isrs QEMU d g)))).
Proof.
  split; [|apply total_handle_setup].
  destruct (total_setup_interrupts (T:=T) isrs DEBUG QEMU d g) as [([] & Hs & _)|Hs]; auto.
Qed.

(** C6: When the bring-up ends with two keyboards, two mice or no usable port, no keyboard
    is announced, and [setup_keyboard], which the kernel calls next without looking,
    halts it. *)
Theorem no_single_keyboard_halts {D T} `{PortDevice D} isrs QEMU (d : D) (g : ps2_globals T) s :
  unannounced g ->
  o_exit (handle_ps2_setup isrs QEMU d g) = Done s ->
  s <> PS2_HS_ERR_one_keyboard_one_mouse -> s <> PS2_HS_ERR_one_port_only ->
  forall `{TerminalKeys D T} d',
    o_exit (setup_keyboard d' (p_handler (o_glob (handle_ps2_setup isrs QEMU d g)))) = Aborted.
Proof.
  intros Hg Hs Hkm Hone Hterm d'.
  destruct (lands_handle_setup isrs QEMU d g s Hg Hs) as [[|]|Hu]; [done..|].
  unfold setup_keyboard. erewrite (bind_done (gets _)) by reflexivity. unfold unannounced in Hu.
  by rewrite Hu.
Qed.

(** ** Examples *)

(** The mouse's globals as the C program starts: all zero. *)
Definition mouse_boot : Mouse.globals :=
  mk_globals (mk_packet (first_packet_of 0) 0 0) 0 (mk_buttons false false false false false)
    (mk_mouse 0 0 0 (Color_of_hex 0)) (mk_fb 0 0 0 0 []) 0 0 0 0.
Definition ps2_boot : ps2_globals unit := mk_ps2 (handler_boot tt) mouse_boot.

(** A keyboard on port 1 and a mouse on port 2 come up. *)
Example keyboard_and_mouse_come_up :
  o_exit (handle_ps2_setup sample_isrs false sim_keyboard_mouse ps2_boot) =
    Done PS2_HS_ERR_one_keyboard_one_mouse.
Proof. vm_compute. reflexivity. Qed.

(** The same machine, but its mouse, which answers to the reset, does not answer to the enabling. *)
Record deaf_mouse := mk_deaf { deaf_sim : sim }.
#[export] Instance deaf_ports : PortDevice deaf_mouse := {
  port_in p s := let '(v, s') := port_in p (deaf_sim s) in (v, mk_deaf s');
  port_out p v s :=
    if (p =? 0x60) && (v =? 0xF4) then s else mk_deaf (port_out p v (deaf_sim s));
}.
Example deaf_mouse_aborts :
  o_exit (handle_ps2_setup sample_isrs false (mk_deaf sim_keyboard_mouse) ps2_boot) = Aborted.
Proof. vm_compute. reflexivity. Qed.

(** The command goes to port 2 where the mouse is on port 1 too: it is the keyboard that is told
    to start scanning, and its answer is taken for the mouse's. *)
Definition sim_mouse_keyboard : sim := mk_sim [] 0x45 0 (Some [0x00]) (Some [0xAB; 0x83]).
Definition commands (es : list event) : list (Z * Z) :=
  omap (fun e => match e with
    | EOut p v => if (p =? 0x60) || (p =? 0x64) then Some (p, v) else None
    | _ => None end) es.
Example mouse_on_port_one_not_enabled :
  let r := quick_enable_mouse sim_mouse_keyboard mouse_boot in
  commands (o_events r) = [(0x64, 0xD4); (0x60, 0xF4)] /\ o_exit r = Done tt.
Proof. vm_compute. split; reflexivity. Qed.

(** A machine with a keyboard on each port. *)
Definition sim_two_keyboards : sim := mk_sim [] 0x45 0 (Some [0xAB; 0x83]) (Some [0xAB; 0x41]).

Lemma no_single_keyboard_witness :
  o_exit (setup_keyboard sim_two_keyboards
    (p_handler (o_glob (handle_ps2_setup sample_isrs false sim_two_keyboards ps2_boot)))) = Aborted.
Proof.
  assert (Hs : o_exit (handle_ps2_setup sample_isrs false sim_two_keyboards ps2_boot) =
    Done PS2_HS_ERR_two_keyboard) by (vm_compute; reflexivity).
  pose proof (no_single_keyboard_halts sample_isrs false sim_two_keyboards ps2_boot
    PS2_HS_ERR_two_keyboard eq_refl Hs) as Hw.
  specialize (Hw ltac:(discriminate) ltac:(discriminate) _ sim_two_keyboards). exact Hw.
Defined.
