(* ===== verification/Phys.v ===== *)
(** * Reading physical memory

    The tables that the firmware and the boot loader leave in memory are read through
    pointers.  Memory is a function from physical addresses to bytes, all of it readable;
    addresses are computed modulo 2^32. *)

From S2P Require Import Prelude Machine.

Section memory.
Context (mem : Z -> Z).

Definition byte_at (addr : Z) : Z := u8 (mem (u32 addr)).

(** A packed little-endian field of [n] bytes. *)
Fixpoint load_at (n : nat) (addr : Z) : Z :=
  match n with O => 0 | S n => byte_at addr + 256 * load_at n (addr + 1) end.

Definition u8_at (addr : Z) : Z := load_at 1 addr.
Definition u16_at (addr : Z) : Z := load_at 2 addr.
Definition u32_at (addr : Z) : Z := load_at 4 addr.
Definition u64_at (addr : Z) : Z := load_at 8 addr.

(** The bytes from [addr] on. *)
Definition bytes_at (addr : Z) (n : nat) : list Z := map (fun i => byte_at (addr + i)) (seqZ 0 (Z.of_nat n)).
End memory.

(** The little-endian bytes of a number. *)
Fixpoint le_bytes (n : nat) (v : Z) : list Z :=
  match n with O => [] | S n => u8 v :: le_bytes n (v / 256) end.

(** [l] lies at [addr]. *)
Definition lies (mem : Z -> Z) (addr : Z) (l : list Z) : Prop :=
  forall i b, l !! i = Some b -> byte_at mem (addr + Z.of_nat i) = b.

Lemma length_le_bytes n : forall v, length (le_bytes n v) = n.
Proof. induction n as [|n IH]; intros v; cbn; [done|]. by rewrite IH. Qed.

Lemma lies_app mem addr l l' :
  lies mem addr (l ++ l') <-> lies mem addr l /\ lies mem (addr + Z.of_nat (length l)) l'.
Proof.
  split.
  - intros Hl. split; intros i b Hi.
    + apply Hl. by apply lookup_app_l_Some.
    + rewrite <- Z.add_assoc, <- Nat2Z.inj_add. apply Hl. rewrite lookup_app_r by lia.
      by replace (length l + i - length l)%nat with i by lia.
  - intros [H1 H2] i b Hi. apply lookup_app_Some in Hi as [Hi|[Hge Hi]]; [by apply H1|].
    specialize (H2 _ _ Hi). by replace (addr + Z.of_nat (length l) + Z.of_nat (i - length l)) with (addr + Z.of_nat i) in H2 by lia.
Qed.

(** A stored number is read back. *)
Lemma load_at_lies mem n : forall addr v, 0 <= v < 2 ^ (8 * Z.of_nat n) ->
  lies mem addr (le_bytes n v) -> load_at mem n addr = v.
Proof.
  induction n as [|n IH]; intros addr v Hv Hl; [cbn in *; lia|]. cbn [load_at le_bytes] in *.
  rewrite (IH (addr + 1) (v / 256)).
  - specialize (Hl 0%nat _ eq_refl). rewrite Z.add_0_r in Hl. rewrite Hl. unfold u8. change (2 ^ 8) with 256.
    pose proof (Z.div_mod v 256). lia.
  - replace (8 * Z.of_nat (S n)) with (8 * Z.of_nat n + 8) in Hv by lia. rewrite Z.pow_add_r in Hv by lia.
    split; [apply Z.div_pos; lia|apply Z.div_lt_upper_bound; lia].
  - intros i b Hi. specialize (Hl (S i) b Hi). by replace (addr + 1 + Z.of_nat i) with (addr + Z.of_nat (S i)) by lia.
Qed.

Lemma load_at_range mem n : forall addr, 0 <= load_at mem n addr < 2 ^ (8 * Z.of_nat n).
Proof.
  induction n as [|n IH]; intros addr; cbn [load_at]; [lia|].
  replace (8 * Z.of_nat (S n)) with (8 * Z.of_nat n + 8) by lia. rewrite Z.pow_add_r by lia. change (2 ^ 8) with 256.
  pose proof (IH (addr + 1)). pose proof (u8_range (mem (u32 addr))) as Hb. unfold is_u8 in Hb. unfold byte_at. lia.
Qed.
