(* ===== verification/Multiboot.v ===== *)
(** * Multiboot information ([firmware/multiboot/multiboot.cpp], [multiboot.hpp])

    The walk over the tags that the boot loader leaves in memory, the search for a module, the
    ACPI root pointer and the framebuffer, and the validation of the root pointer.  A pointer is
    an address; 0 is the null pointer.  A walk takes its fuel, the number of tags it may visit,
    as an argument. *)

From S2P Require Import Prelude Machine Phys.

(** [enum class tag_type] *)
Definition END : Z := 0.
Definition MODULE : Z := 3.
Definition FRAMEBUFFER : Z := 8.
Definition ACPI_OLD : Z := 14.
Definition ACPI_NEW : Z := 15.

Definition TAG_NAMES : list string :=
  ["END"; "CMDLINE"; "BOOT_LOADER"; "MODULE"; "BASIC_MEM"; "BOOTDEV"; "MMAP"; "VBE"; "FRAMEBUFFER";
   "ELF_SECTIONS"; "APM"; "EFI32"; "EFI64"; "SMBIOS"; "ACPI_OLD"; "ACPI_NEW"; "NETWORK"; "EFI_MMAP";
   "EFI_BS"; "EFI32_IH"; "EFI64_IH"].
Definition type_to_str (type : Z) : string := default "UNKNOWN_TAG" (TAG_NAMES !! Z.to_nat type).

Inductive rsdp_type := NULL_V0 | OLD_V1 | NEW_V2.
Record rsdp_tagged_t := mk_rsdp { new_or_old : rsdp_type; rsdp : Z }.

(** [module] and [module_and_len]: [None] is a struct that [none] marks. *)
Record module := mk_module { mod_start : Z; mod_end : Z }.
Record module_and_len := mk_module_and_len { cmd_len : Z; mod_ : module }.

Record framebuffer_info_t := mk_framebuffer_info {
  tag_type_ : Z; size_ : Z; base_addr_low : Z; base_addr_high : Z; pitch : Z; width : Z; height : Z;
  bit_per_pixel : Z; type_ : Z; reserved_ : Z;
}.

Section multiboot.
Context {D G : Type} (mem : Z -> Z).
Abbreviation T A := (M D G A).

(** [struct tag] and [struct info] *)
Definition tag_type_at (current : Z) : Z := u32_at mem current.
Definition tag_size_at (current : Z) : Z := u32_at mem (current + 4).
Definition total_size_at (mbi : Z) : Z := u32_at mem mbi.

Definition tag_next (t : Z) : Z :=
  if t =? 0 then 0 else u32 (t + (u32 (tag_size_at t + 7) .& (0xFFFFFFFF - 7))).
Definition tag_first (mbi : Z) : Z := if mbi =? 0 then 0 else u32 (mbi + 4 + 4).

(** The loop of the three searches: [visit] leaves it with a result, breaks it off or goes on
    to the next tag. *)
Fixpoint walk {S R} (fuel : nat) (end_addr : Z) (visit : Z -> S -> T (R + option S)) (current : Z) (s : S) : T (option R) :=
  match fuel with
  | O => stop Spinning
  | S fuel =>
      if current <? end_addr then
        x ← visit current s;
        match x with
        | inl r => mret (Some r)
        | inr None => mret None
        | inr (Some s) => walk fuel end_addr visit (tag_next current) s
        end
      else mret None
  end.

Definition is_end (current : Z) : bool := (tag_type_at current =? END) && (tag_size_at current =? 8).

Definition check_mbi (mbi : Z) (small : string) : T unit :=
  (if mbi =? 0 then abort_msg "null mbi\n" [] else mret tt);;
  if total_size_at mbi <? 8 + 8 then abort_msg small [] else mret tt.

Definition find_module (fuel : nat) (mbi module_index : Z) : T (option module_and_len) :=
  check_mbi mbi "too small mbi\n";;
  walk fuel (u32 (mbi + total_size_at mbi)) (fun current find_count =>
    if is_end current then mret (inr None)
    else if tag_type_at current =? MODULE then
      let m := mk_module (u32_at mem (current + 8)) (u32_at mem (current + 8 + 4)) in
      let cmdline_len := u32 (tag_size_at current - 8 - 4 - 4) in
      kprintf "Found a module\n" [];;
      kprintf "module start : %h, module end : %h\n" [PNum (mod_start m); PNum (mod_end m)];;
      kprintf "cmd len = %u\n" [PNum cmdline_len];;
      kprintf "\n" [];;
      if find_count =? module_index then mret (inl (mk_module_and_len cmdline_len m))
      else mret (inr (Some (u8 (find_count + 1))))
    else mret (inr (Some find_count))) (tag_first mbi) 0.

(** "RSD PTR " *)
Definition check_rsdp_signature (rsdp_ptr : Z) : bool :=
  bool_decide (bytes_at mem rsdp_ptr 8 = [82; 83; 68; 32; 80; 84; 82; 32]).

Fixpoint sum_bytes (rounds : nat) (data i sum : Z) : Z :=
  match rounds with O => sum | S rounds => sum_bytes rounds data (i + 1) (u8 (sum + byte_at mem (data + i))) end.

Definition check_rsdp_checksum (data : Z) : bool :=
  let revision := byte_at mem (data + 15) in
  let length := if revision =? 0 then 20 else 36 in
  (sum_bytes (Z.to_nat length) data 0 0 .& 0xFF) =? 0.

Definition validate_rsdp (rsdp_ptr : Z) : bool :=
  if rsdp_ptr =? 0 then false else check_rsdp_signature rsdp_ptr && check_rsdp_checksum rsdp_ptr.

Definition find_rsdp (fuel : nat) (mbi : Z) : T rsdp_tagged_t :=
  check_mbi mbi "too small\n";;
  found ← walk fuel (u32 (mbi + total_size_at mbi)) (fun current _ =>
    kprintf "tag type %u : \n" [PNum (tag_type_at current)];;
    if is_end current then mret (inr None)
    else
      let rsdp_ptr := u32 (current + 8) in
      if tag_type_at current =? ACPI_NEW then
        kprintf "NEW\n" [];;
        mret (if check_rsdp_signature rsdp_ptr && check_rsdp_checksum rsdp_ptr then inl (mk_rsdp NEW_V2 rsdp_ptr) else inr (Some tt))
      else if tag_type_at current =? ACPI_OLD then
        kprintf "OLD\n" [];;
        mret (if check_rsdp_signature rsdp_ptr && check_rsdp_checksum rsdp_ptr then inl (mk_rsdp OLD_V1 rsdp_ptr) else inr (Some tt))
      else mret (inr (Some tt))) (tag_first mbi) tt;
  match found with Some r => mret r | None => abort_msg "Nothing found!\n" [] end.

Definition framebuffer_info_at (a : Z) : framebuffer_info_t :=
  mk_framebuffer_info (u32_at mem a) (u32_at mem (a + 4)) (u32_at mem (a + 8)) (u32_at mem (a + 12)) (u32_at mem (a + 16))
    (u32_at mem (a + 20)) (u32_at mem (a + 24)) (u8_at mem (a + 28)) (u8_at mem (a + 29)) (u8_at mem (a + 30)).

Definition find_framebuffer (fuel : nat) (mbi : Z) : T framebuffer_info_t :=
  check_mbi mbi "too small\n";;
  found ← walk fuel (u32 (mbi + total_size_at mbi)) (fun current _ =>
    mret (if is_end current then inr None
          else if tag_type_at current =? FRAMEBUFFER then inl (framebuffer_info_at current) else inr (Some tt))) (tag_first mbi) tt;
  match found with Some r => mret r | None => abort_msg "Nothing found!\n" [] end.

(** ** The interface for C *)

Definition get_rsdp_grub (fuel : nat) (mbi_addr : Z) : T (Z * Z) :=
  t ← find_rsdp fuel mbi_addr;
  kprintf "surveid cpp" [];;
  mret (match new_or_old t with NULL_V0 => 0 | OLD_V1 => 1 | NEW_V2 => 2 end, rsdp t).

(** [ret.mod_start = t.mod.mod_start] reads a struct that is not assigned when there is no such
    module, and [t.cmd_len = ret.cmd_len] one that never is. *)
Definition get_module_location (fuel : nat) (mbi_addr module_index : Z) : T unit :=
  t ← find_module fuel mbi_addr module_index;
  t ← read_cell t;
  let ret_cmd_len : option Z := None in
  _ ← read_cell ret_cmd_len;
  mret tt.

Definition multiboot_validate_rsdp (rsdp : Z) : Z := if validate_rsdp rsdp then 1 else 0.
Definition validate_rsdp_c (rsdp_ptr : Z) : bool := negb (multiboot_validate_rsdp rsdp_ptr =? 0).
Definition get_framebuffer (fuel : nat) (mid_addr : Z) : T framebuffer_info_t := find_framebuffer fuel mid_addr.
End multiboot.
