(* ===== verification/MultibootFacts.v ===== *)
(** * What the searches in the multiboot information find

    A boot loader's information is serialised from a list of tags; the searches find the first
    tag of that list that qualifies.  A tag of size 0 makes them run for ever. *)

From S2P Require Import Prelude Machine Phys Multiboot.

(** ** The serialised information *)

Record tag := mk_tag { t_type : Z; t_payload : list Z }.

Definition tag_size (t : tag) : Z := 8 + Z.of_nat (length (t_payload t)).
(** The distance to the next tag. *)
Definition tag_span (t : tag) : Z := 8 * ((tag_size t + 7) / 8).
Definition tag_bytes (t : tag) : list Z :=
  le_bytes 4 (t_type t) ++ le_bytes 4 (tag_size t) ++ t_payload t
    ++ replicate (Z.to_nat (tag_span t - tag_size t)) 0.
Definition end_tag : tag := mk_tag END [].

(** Not an end tag, and its numbers fit. *)
Definition proper (t : tag) : Prop := is_u32 (t_type t) /\ (t_type t <> END \/ t_payload t <> []).

Definition tags_bytes (ts : list tag) : list Z := mjoin (map tag_bytes (ts ++ [end_tag])).
Definition info_bytes (ts : list tag) : list Z :=
  le_bytes 4 (8 + Z.of_nat (length (tags_bytes ts))) ++ le_bytes 4 0 ++ tags_bytes ts.

(** Where the tags stand, the first one at [a]. *)
Fixpoint placed (a : Z) (ts : list tag) : list (Z * tag) :=
  match ts with [] => [] | t :: ts => (a, t) :: placed (a + tag_span t) ts end.

Lemma tag_span_spec t : tag_size t <= tag_span t < tag_size t + 8 /\ 8 <= tag_span t.
Proof. unfold tag_span, tag_size. Z.div_mod_to_equations. lia. Qed.

Lemma length_tag_bytes t : Z.of_nat (length (tag_bytes t)) = tag_span t.
Proof.
  unfold tag_bytes. rewrite !length_app, !length_le_bytes, length_replicate.
  pose proof (tag_span_spec t). unfold tag_size in *. lia.
Qed.

Section image.
Context (mem : Z -> Z).

Lemma tag_at t a rest : lies mem a (tag_bytes t ++ rest) -> is_u32 (t_type t) -> tag_size t < 2 ^ 32 ->
  tag_type_at mem a = t_type t /\ tag_size_at mem a = tag_size t.
Proof.
  intros Hl Ht Hs. apply lies_app in Hl as [Hl _]. unfold tag_bytes in Hl.
  apply lies_app in Hl as [Hty Hl]. apply lies_app in Hl as [Hsz _]. rewrite length_le_bytes in Hsz.
  split; apply load_at_lies; try done. unfold tag_size in *. lia.
Qed.

(** The rounding of the code. *)
Lemma round_up n : 0 <= n -> n + 7 < 2 ^ 32 -> u32 (n + 7) .& (0xFFFFFFFF - 7) = 8 * ((n + 7) / 8).
Proof.
  intros Hn Hb. rewrite u32_small by (unfold is_u32; lia). apply Z.bits_inj_iff'. intros i Hi.
  rewrite Z.land_spec. rewrite (Z.mul_comm 8). change 8 with (2 ^ 3). rewrite Z.mul_pow2_bits by lia.
  destruct (Z.ltb_spec i 3).
  - rewrite (Z.testbit_neg_r _ (i - 3)) by lia. assert (i = 0 \/ i = 1 \/ i = 2) as [->| [->| ->]] by lia; apply andb_false_r.
  - rewrite Z.div_pow2_bits by lia. replace (i - 3 + 3) with i by lia.
    destruct (Z.ltb_spec i 32).
    + replace (0xFFFFFFFF - 7) with (Z.shiftl (Z.ones 29) 3) by done.
      rewrite Z.shiftl_spec by lia. rewrite Z.ones_spec_low by lia. apply andb_true_r.
    + by rewrite (testbit_high 32 (n + 7)) by lia.
Qed.

Lemma next_at t a rest : lies mem a (tag_bytes t ++ rest) -> is_u32 (t_type t) ->
  0 < a -> a + tag_span t < 2 ^ 32 -> tag_next mem a = a + tag_span t.
Proof.
  intros Hl Ht Ha Hb. pose proof (tag_span_spec t) as Hs. unfold tag_size in Hs.
  destruct (tag_at t a rest Hl Ht ltac:(unfold tag_size; lia)) as [_ Hz].
  unfold tag_next. rewrite (proj2 (Z.eqb_neq _ _)) by lia. rewrite Hz.
  assert (tag_size t + 7 < 2 ^ 32) as Hbig.
  { unfold tag_span, tag_size in *. Z.div_mod_to_equations. lia. }
  rewrite round_up by (unfold tag_size in *; lia). fold (tag_span t). apply u32_small. unfold is_u32. lia.
Qed.

Lemma is_end_proper t a rest : lies mem a (tag_bytes t ++ rest) -> is_u32 (t_type t) -> tag_size t < 2 ^ 32 ->
  is_end mem a = bool_decide (t_type t = END /\ t_payload t = []).
Proof.
  intros Hl Ht Hs. destruct (tag_at t a rest Hl Ht Hs) as [Hty Hsz]. unfold is_end. rewrite Hty, Hsz.
  apply eq_true_iff_eq. rewrite andb_true_iff, !Z.eqb_eq, bool_decide_eq_true. unfold tag_size.
  rewrite <- length_zero_iff_nil. lia.
Qed.

(** ** The walk *)

(** What [visit] decides along the tags. *)
Fixpoint scan {S R} (verdict : Z -> tag -> S -> R + option S) (l : list (Z * tag)) (s : S) : option R :=
  match l with
  | [] => None
  | (a, t) :: l => match verdict a t s with inl r => Some r | inr None => None | inr (Some s) => scan verdict l s end
  end.

Context {D G : Type}.

Lemma walk_scan {S R} (visit : Z -> S -> M D G (R + option S)) verdict end_addr ts : forall fuel a s,
  lies mem a (tags_bytes ts) -> Forall proper ts -> 0 < a ->
  a + Z.of_nat (length (tags_bytes ts)) = end_addr -> end_addr < 2 ^ 32 ->
  (forall a t rest s, lies mem a (tag_bytes t ++ rest) -> is_u32 (t_type t) -> tag_size t < 2 ^ 32 -> 0 < a < 2 ^ 32 - 8 ->
     prints_and (visit a s) (if bool_decide (t_type t = END /\ t_payload t = []) then inr None else verdict a t s)) ->
  (length ts < fuel)%nat ->
  prints_and (walk mem fuel end_addr visit a s) (scan verdict (placed a ts) s).
Proof.
  induction ts as [|t ts IH]; intros fuel a s Hl Hp Ha He Hb Hv Hf g; (destruct fuel as [|fuel]; [cbn in Hf; lia|]);
    cbn [walk placed scan].
  - unfold tags_bytes in *. cbn [app map mjoin list_join] in *. rewrite app_nil_r in He. rewrite length_tag_bytes in He.
    change (tag_span end_tag) with 8 in He.
    rewrite (proj2 (Z.ltb_lt a end_addr)) by lia.
    destruct (Hv a end_tag [] s Hl ltac:(by vm_compute) ltac:(by vm_compute) ltac:(lia) g) as [es Hes].
    exists es. cbn in Hes. rewrite <- (app_nil_r es). eapply yields_bind; [exact Hes|]. apply returns_ret.
  - unfold tags_bytes in *. cbn [app map mjoin list_join] in *. rewrite length_app, Nat2Z.inj_add, length_tag_bytes in He.
    inversion Hp as [|? ? [Ht Hne] Hps]; subst. pose proof (tag_span_spec t) as Hs.
    set (rest := mjoin (map tag_bytes (ts ++ [end_tag]))) in *.
    rewrite (proj2 (Z.ltb_lt a _)) by lia.
    destruct (Hv a t rest s Hl Ht ltac:(lia) ltac:(lia) g) as [es Hes].
    rewrite bool_decide_false in Hes by naive_solver.
    destruct (verdict a t s) as [r|[s'|]].
    + exists es. rewrite <- (app_nil_r es). eapply yields_bind; [exact Hes|]. apply returns_ret.
    + assert (lies mem (a + tag_span t) rest) as Hl' by (apply lies_app in Hl as [_ Hl]; by rewrite length_tag_bytes in Hl).
      destruct (IH fuel (a + tag_span t) s' Hl' Hps ltac:(lia) ltac:(lia) ltac:(lia) Hv ltac:(cbn in Hf; lia) g) as [es' Hes'].
      exists (es ++ es'). eapply yields_bind; [exact Hes|]. cbn beta iota.
      by rewrite (next_at t a rest Hl Ht) by lia.
    + exists es. rewrite <- (app_nil_r es). eapply yields_bind; [exact Hes|]. apply returns_ret.
Qed.
End image.

(** ** The three searches *)

Section searches.
Context {D G : Type} (mem : Z -> Z).

Definition rsdp_valid (a : Z) : bool := check_rsdp_signature mem a && check_rsdp_checksum mem a.
Definition rsdp_verdict (a : Z) (t : tag) (_ : unit) : rsdp_tagged_t + option unit :=
  if t_type t =? ACPI_NEW then if rsdp_valid (a + 8) then inl (mk_rsdp NEW_V2 (a + 8)) else inr (Some tt)
  else if t_type t =? ACPI_OLD then if rsdp_valid (a + 8) then inl (mk_rsdp OLD_V1 (a + 8)) else inr (Some tt)
  else inr (Some tt).

(** The first tag that holds a valid root pointer. *)
Definition is_rsdp (p : Z * tag) : bool :=
  ((t_type p.2 =? ACPI_NEW) || (t_type p.2 =? ACPI_OLD)) && rsdp_valid (p.1 + 8).
Definition rsdp_of (p : Z * tag) : rsdp_tagged_t :=
  mk_rsdp (if t_type p.2 =? ACPI_NEW then NEW_V2 else OLD_V1) (p.1 + 8).

Lemma scan_rsdp l : scan rsdp_verdict l tt = rsdp_of <$> List.find is_rsdp l.
Proof.
  induction l as [|[a t] l IH]; [done|]. cbn [scan List.find]. unfold rsdp_verdict, is_rsdp at 1. cbn [fst snd].
  unfold rsdp_of in *. destruct (t_type t =? ACPI_NEW) eqn:E1, (t_type t =? ACPI_OLD), (rsdp_valid (a + 8));
    cbn; rewrite ?E1; done.
Qed.

Definition framebuffer_verdict (a : Z) (t : tag) (_ : unit) : framebuffer_info_t + option unit :=
  if t_type t =? FRAMEBUFFER then inl (framebuffer_info_at mem a) else inr (Some tt).

Lemma scan_framebuffer l :
  scan framebuffer_verdict l tt =
    (fun p => framebuffer_info_at mem p.1) <$> List.find (fun p => t_type p.2 =? FRAMEBUFFER) l.
Proof.
  induction l as [|[a t] l IH]; [done|]. cbn [scan List.find]. unfold framebuffer_verdict at 1. cbn [fst snd].
  by destruct (t_type t =? FRAMEBUFFER).
Qed.

Definition module_of (p : Z * tag) : module_and_len :=
  mk_module_and_len (u32 (tag_size p.2 - 8 - 4 - 4)) (mk_module (u32_at mem (p.1 + 8)) (u32_at mem (p.1 + 8 + 4))).
Definition module_verdict (index : Z) (a : Z) (t : tag) (count : Z) : module_and_len + option Z :=
  if t_type t =? MODULE then if count =? index then inl (module_of (a, t)) else inr (Some (u8 (count + 1)))
  else inr (Some count).

Lemma scan_module l : forall index count, 0 <= count <= index -> index < 256 ->
  scan (module_verdict index) l count =
    module_of <$> (List.filter (fun p => t_type p.2 =? MODULE) l !! Z.to_nat (index - count)).
Proof.
  induction l as [|[a t] l IH]; intros index count Hc Hi; [done|].
  cbn [scan List.filter]. unfold module_verdict at 1. cbn [fst snd]. destruct (t_type t =? MODULE); [|by apply IH].
  destruct (Z.eqb_spec count index) as [->|Hne].
  - by rewrite Z.sub_diag.
  - rewrite u8_small by width. rewrite IH by lia.
    replace (Z.to_nat (index - count)) with (S (Z.to_nat (index - (count + 1)))) by lia. done.
Qed.

(** The information at [mbi]. *)
Record image (mbi : Z) (ts : list tag) : Prop := {
  image_lies : lies mem mbi (info_bytes ts);
  image_proper : Forall proper ts;
  image_place : 0 < mbi /\ mbi + 8 + Z.of_nat (length (tags_bytes ts)) < 2 ^ 32;
}.

Lemma tags_bytes_min ts : 8 <= Z.of_nat (length (tags_bytes ts)).
Proof.
  unfold tags_bytes. induction ts as [|t ts IH]; cbn [app map mjoin list_join] in *; [by vm_compute|].
  rewrite length_app, Nat2Z.inj_add. exact (Z.add_le_mono 0 _ 8 _ (Nat2Z.is_nonneg _) IH).
Qed.

Lemma image_header mbi ts small : image mbi ts ->
  total_size_at mem mbi = 8 + Z.of_nat (length (tags_bytes ts)) /\
  tag_first mbi = mbi + 8 /\ lies mem (mbi + 8) (tags_bytes ts) /\
  prints_and (check_mbi mem mbi small : M D G unit) tt.
Proof.
  intros [Hl _ [Hp Hb]]. pose proof (tags_bytes_min ts). unfold info_bytes in Hl.
  apply lies_app in Hl as [Ht Hl]. apply lies_app in Hl as [_ Hl]. rewrite !length_le_bytes in Hl.
  assert (total_size_at mem mbi = 8 + Z.of_nat (length (tags_bytes ts))) as E by (apply load_at_lies; [cbn; lia|done]).
  split; [done|]. split; [|split].
  - unfold tag_first. rewrite (proj2 (Z.eqb_neq _ _)) by lia. rewrite u32_small by (unfold is_u32; lia). lia.
  - by replace (mbi + 8) with (mbi + Z.of_nat 4 + Z.of_nat 4) by lia.
  - unfold check_mbi. rewrite (proj2 (Z.eqb_neq _ _)) by lia. rewrite E, (proj2 (Z.ltb_ge _ _)) by lia.
    eapply prints_and_bind; apply prints_and_ret.
Qed.

(** A search of the three: the check, the walk and what follows. *)
Lemma search_image {S R A} mbi ts small fuel (visit : Z -> S -> M D G (R + option S)) verdict s
    (k : option R -> M D G A) d g e :
  image mbi ts -> (length ts < fuel)%nat ->
  (forall a t rest s, lies mem a (tag_bytes t ++ rest) -> is_u32 (t_type t) -> tag_size t < 2 ^ 32 -> 0 < a < 2 ^ 32 - 8 ->
     prints_and (visit a s) (if bool_decide (t_type t = END /\ t_payload t = []) then inr None else verdict a t s)) ->
  (forall d, o_exit (k (scan verdict (placed (mbi + 8) ts) s) d g) = e) ->
  o_exit ((check_mbi mem mbi small;;
    x ← walk mem fuel (u32 (mbi + total_size_at mem mbi)) visit (tag_first mbi) s; k x) d g) = e.
Proof.
  intros Hi Hf Hv Hk. destruct (image_header mbi ts small Hi) as (Ht & Hfst & Hl & Hc).
  destruct Hi as [_ Hp [H0 Hb]].
  pose proof (walk_scan mem visit verdict (mbi + 8 + Z.of_nat (length (tags_bytes ts))) ts fuel (mbi + 8) s Hl Hp
    ltac:(lia) eq_refl Hb Hv Hf) as Hw.
  rewrite Ht, Hfst. replace (mbi + (8 + Z.of_nat (length (tags_bytes ts)))) with (mbi + 8 + Z.of_nat (length (tags_bytes ts))) by lia.
  rewrite u32_small by (unfold is_u32; lia).
  destruct (Hc g) as [es1 H1]. destruct (Hw g) as [es2 H2].
  destruct (H1 d) as (E1 & G1 & _). destruct (H2 (o_dev (check_mbi mem mbi small d g))) as (E2 & G2 & _).
  unfold mbind, M_bind. rewrite E1, G1. cbn zeta. rewrite E2, G2. cbn [o_exit]. rewrite Hk. by destruct e.
Qed.
End searches.

Section results.
Context {D G : Type} (mem : Z -> Z).

Lemma find_rsdp_image mbi ts fuel d g : image mem mbi ts -> (length ts < fuel)%nat ->
  o_exit (find_rsdp (D:=D) (G:=G) mem fuel mbi d g) =
    match List.find (is_rsdp mem) (placed (mbi + 8) ts) with Some p => Done (rsdp_of p) | None => Aborted end.
Proof.
  intros Hi Hf. unfold find_rsdp. apply (search_image mem mbi ts _ _ _ (rsdp_verdict mem)); [done|done| |].
  - intros a t rest [] Hl Ht Hs Ha. destruct (tag_at mem t a rest Hl Ht Hs) as [Hty _].
    apply prints_and_kprintf. rewrite (is_end_proper mem t a rest Hl Ht Hs), Hty.
    destruct (bool_decide _); [apply prints_and_ret|]. rewrite u32_small by (unfold is_u32; lia).
    unfold rsdp_verdict. destruct (t_type t =? ACPI_NEW); [apply prints_and_kprintf, prints_and_ret|].
    destruct (t_type t =? ACPI_OLD); [apply prints_and_kprintf, prints_and_ret|apply prints_and_ret].
  - intros d'. rewrite scan_rsdp. by destruct (List.find _ _).
Qed.

Lemma find_framebuffer_image mbi ts fuel d g : image mem mbi ts -> (length ts < fuel)%nat ->
  o_exit (find_framebuffer (D:=D) (G:=G) mem fuel mbi d g) =
    match List.find (fun p => t_type p.2 =? FRAMEBUFFER) (placed (mbi + 8) ts) with
    | Some p => Done (framebuffer_info_at mem p.1) | None => Aborted end.
Proof.
  intros Hi Hf. unfold find_framebuffer.
  apply (search_image mem mbi ts _ _ _ (framebuffer_verdict mem)); [done|done| |].
  - intros a t rest [] Hl Ht Hs Ha. destruct (tag_at mem t a rest Hl Ht Hs) as [Hty _].
    rewrite (is_end_proper mem t a rest Hl Ht Hs), Hty. unfold framebuffer_verdict.
    destruct (bool_decide _); [apply prints_and_ret|]. destruct (t_type t =? FRAMEBUFFER); apply prints_and_ret.
  - intros d'. rewrite scan_framebuffer. by destruct (List.find _ _).
Qed.

Lemma bind_ret_exit {A} (m : M D G A) d g : o_exit ((x ← m; mret x) d g) = o_exit (m d g).
Proof. unfold mbind, M_bind. by destruct (o_exit (m d g)). Qed.

Lemma find_module_image mbi ts fuel index d g : image mem mbi ts -> (length ts < fuel)%nat -> is_u8 index ->
  o_exit (find_module (D:=D) (G:=G) mem fuel mbi index d g) =
    Done (module_of mem <$> (List.filter (fun p => t_type p.2 =? MODULE) (placed (mbi + 8) ts) !! Z.to_nat index)).
Proof.
  intros Hi Hf Hx. unfold find_module. rewrite <- bind_ret_exit, (bind_bind _ _ _ _ _).
  apply (search_image mem mbi ts _ _ _ (module_verdict mem index)); [done|done| |].
  - intros a t rest count Hl Ht Hs Ha. destruct (tag_at mem t a rest Hl Ht Hs) as [Hty Hsz].
    rewrite (is_end_proper mem t a rest Hl Ht Hs), Hty, Hsz. unfold module_verdict.
    destruct (bool_decide _); [apply prints_and_ret|]. destruct (t_type t =? MODULE); [|apply prints_and_ret].
    do 4 apply prints_and_kprintf. destruct (count =? index); apply prints_and_ret.
  - intros d'. unfold is_u8 in Hx. rewrite scan_module by lia. by rewrite Z.sub_0_r.
Qed.

(** The module is found, but the answer is assembled from members that have no value. *)
Lemma get_module_location_undefined mbi ts fuel index d g : image mem mbi ts -> (length ts < fuel)%nat -> is_u8 index ->
  o_exit (get_module_location (D:=D) (G:=G) mem fuel mbi index d g) = Undefined.
Proof.
  intros Hi Hf Hx. pose proof (find_module_image mbi ts fuel index d g Hi Hf Hx) as Hm.
  unfold get_module_location, mbind at 1, M_bind at 1. rewrite Hm. cbn [o_exit].
  by destruct (module_of mem <$> _).
Qed.

(** A tag of size 0 that is not what is looked for. *)
Definition stuck (a end_addr : Z) : Prop := 0 < a < end_addr /\ end_addr < 2 ^ 32 /\ tag_size_at mem a = 0.

Lemma stuck_next a end_addr : stuck a end_addr -> tag_next mem a = a.
Proof.
  intros (Ha & He & Hs). unfold tag_next. rewrite (proj2 (Z.eqb_neq _ _)) by lia. rewrite Hs.
  cbn. rewrite Z.add_0_r. apply u32_small. unfold is_u32. lia.
Qed.

Lemma walk_stuck {S R} (visit : Z -> S -> M D G (R + option S)) a end_addr s : stuck a end_addr ->
  prints_and (visit a s) (inr (Some s)) -> forall fuel d g, o_exit (walk mem fuel end_addr visit a s d g) = Spinning.
Proof.
  intros Hst Hv. induction fuel as [|fuel IH]; intros d g; [done|]. cbn [walk].
  rewrite (proj2 (Z.ltb_lt _ _)) by (destruct Hst; lia).
  destruct (Hv g) as [es He]. destruct (He d) as (E & Gl & _). unfold mbind, M_bind. rewrite E, Gl. cbn [o_exit].
  rewrite (stuck_next a end_addr Hst). apply IH.
Qed.

Lemma find_framebuffer_stuck mbi fuel d g :
  total_size_at mem mbi >= 16 -> 0 < mbi -> mbi + total_size_at mem mbi < 2 ^ 32 ->
  tag_size_at mem (mbi + 8) = 0 -> tag_type_at mem (mbi + 8) <> FRAMEBUFFER ->
  o_exit (find_framebuffer (D:=D) (G:=G) mem fuel mbi d g) = Spinning.
Proof.
  intros Ht Hm Hb Hs Hty. unfold find_framebuffer.
  assert (prints_and (check_mbi mem mbi "too small\n" : M D G unit) tt) as Hc.
  { unfold check_mbi. rewrite (proj2 (Z.eqb_neq _ _)), (proj2 (Z.ltb_ge _ _)) by lia.
    eapply prints_and_bind; apply prints_and_ret. }
  destruct (Hc g) as [es He]. destruct (He d) as (E & Gl & _). unfold mbind at 1, M_bind at 1. rewrite E, Gl. cbn [o_exit].
  replace (tag_first mbi) with (mbi + 8)
    by (unfold tag_first; rewrite (proj2 (Z.eqb_neq _ _)) by lia; rewrite u32_small by (unfold is_u32; lia); lia).
  rewrite u32_small by (unfold is_u32; lia). unfold mbind, M_bind.
  rewrite (walk_stuck _ (mbi + 8)); [done|split; lia|].
  unfold is_end. rewrite Hs, (proj2 (Z.eqb_neq _ _) Hty), andb_false_r. apply prints_and_ret.
Qed.

Lemma sum_bytes_spec n : forall data i s, is_u8 s ->
  sum_bytes mem n data i s = u8 (s + foldr Z.add 0 (map (fun k => byte_at mem (data + k)) (seqZ i (Z.of_nat n)))).
Proof.
  induction n as [|n IH]; intros data i s Hs; cbn [sum_bytes].
  - cbn. by rewrite Z.add_0_r, u8_small.
  - rewrite IH by apply u8_range. rewrite (seqZ_cons i) by lia.
    replace (Z.pred (Z.of_nat (S n))) with (Z.of_nat n) by lia. cbn [map foldr]. replace (Z.succ i) with (i + 1) by lia.
    unfold u8. rewrite Zplus_mod_idemp_l. by rewrite Z.add_assoc.
Qed.

(** The length that the revision stands for, and the sum of the bytes. *)
Definition rsdp_length (a : Z) : nat := if byte_at mem (a + 15) =? 0 then 20 else 36.

Lemma rsdp_valid_spec a :
  rsdp_valid mem a = true <->
    bytes_at mem a 8 = [82; 83; 68; 32; 80; 84; 82; 32] /\ foldr Z.add 0 (bytes_at mem a (rsdp_length a)) mod 256 = 0.
Proof.
  unfold rsdp_valid, check_rsdp_signature, check_rsdp_checksum. rewrite andb_true_iff, bool_decide_eq_true.
  rewrite sum_bytes_spec by by vm_compute. rewrite Z.add_0_l.
  assert (forall v, u8 v .& 0xFF = v mod 256) as Hm.
  { intros v. etransitivity; [exact (Z.land_ones (u8 v) 8 ltac:(lia))|]. unfold u8. by rewrite Z.mod_mod. }
  rewrite Hm, Z.eqb_eq. unfold rsdp_length, bytes_at. by destruct (byte_at mem (a + 15) =? 0).
Qed.
End results.

(** C17: In the information that a boot loader lays out from a list of tags, [find_rsdp] finds
    the first ACPI tag with the signature and a sum of bytes divisible by 256, and halts when
    there is none; [find_framebuffer] finds the first tag of the framebuffer, [find_module] the
    module of the given number; [get_module_location] always reads a member without a value.
    One tag of size 0 in front makes the search go on for ever. *)
Theorem multiboot_searches {D G} mem mbi ts fuel index (d : D) (g : G) :
  image mem mbi ts -> (length ts < fuel)%nat -> is_u8 index ->
  o_exit (find_rsdp mem fuel mbi d g) =
    match List.find (is_rsdp mem) (placed (mbi + 8) ts) with Some p => Done (rsdp_of p) | None => Aborted end /\
  (forall a, rsdp_valid mem a = true <->
     bytes_at mem a 8 = [82; 83; 68; 32; 80; 84; 82; 32] /\ foldr Z.add 0 (bytes_at mem a (rsdp_length mem a)) mod 256 = 0) /\
  o_exit (find_framebuffer mem fuel mbi d g) =
    match List.find (fun p => t_type p.2 =? FRAMEBUFFER) (placed (mbi + 8) ts) with
    | Some p => Done (framebuffer_info_at mem p.1) | None => Aborted end /\
  o_exit (find_module mem fuel mbi index d g) =
    Done (module_of mem <$> (List.filter (fun p => t_type p.2 =? MODULE) (placed (mbi + 8) ts) !! Z.to_nat index)) /\
  o_exit (get_module_location mem fuel mbi index d g) = Undefined /\
  (forall mem' fuel, total_size_at mem' mbi >= 16 -> mbi + total_size_at mem' mbi < 2 ^ 32 ->
     tag_size_at mem' (mbi + 8) = 0 -> tag_type_at mem' (mbi + 8) <> FRAMEBUFFER ->
     o_exit (find_framebuffer mem' fuel mbi d g) = Spinning).
Proof.
  intros Hi Hf Hx. split; [by apply find_rsdp_image|]. split; [apply rsdp_valid_spec|].
  split; [by apply find_framebuffer_image|]. split; [by apply find_module_image|].
  split; [by apply (get_module_location_undefined mem mbi ts)|].
  intros mem' fuel' H1 H2 H3 H4. apply find_framebuffer_stuck; try done. apply Hi.
Qed.

(** A command line, a broken root pointer, a framebuffer and a good root pointer. *)
Definition sample_rsdp : list Z :=
  [82; 83; 68; 32; 80; 84; 82; 32; 0] ++ [66; 79; 67; 72; 83; 32] ++ [0] ++ [0; 16; 0; 0].
Definition sample_tags : list tag :=
  [mk_tag 1 [97; 0]; mk_tag ACPI_OLD sample_rsdp; mk_tag FRAMEBUFFER (replicate 23 1);
   mk_tag ACPI_OLD (<[8%nat := u8 (- foldr Z.add 0 sample_rsdp)]> sample_rsdp)].
Definition sample_memory (a : Z) : Z := nth (Z.to_nat (a - 0x10000)) (info_bytes sample_tags) 0.

Lemma sample_image : image sample_memory 0x10000 sample_tags.
Proof.
  split.
  - intros i b Hi. pose proof (lookup_lt_Some _ _ _ Hi) as Hlt.
    assert (forallb (fun i => byte_at sample_memory (0x10000 + Z.of_nat i) =? nth i (info_bytes sample_tags) 0)
      (seq 0 (length (info_bytes sample_tags))) = true) as Hall by by vm_compute.
    rewrite forallb_forall in Hall. rewrite (proj1 (Z.eqb_eq _ _) (Hall i ltac:(apply in_seq; lia))).
    by apply nth_lookup_Some.
  - repeat constructor; try (vm_compute; discriminate); vm_compute; intuition discriminate.
  - by vm_compute.
Qed.

Lemma multiboot_searches_witness :
  o_exit (find_rsdp sample_memory 5 0x10000 ND tt) = Done (mk_rsdp OLD_V1 0x10060) /\
  o_exit (get_module_location sample_memory 5 0x10000 0 ND tt) = Undefined.
Proof.
  destruct (multiboot_searches sample_memory 0x10000 sample_tags 5 0 ND tt sample_image ltac:(simpl; lia) ltac:(by vm_compute))
    as (Hr & _ & _ & _ & Hu & _).
  split; [rewrite Hr; by vm_compute|exact Hu].
Defined.
