(* ===== verification/Acpi.v ===== *)
(** * ACPI tables ([firmware/acpi/acpi.cpp], [firmware/acpi/madt/madt.cpp] and their headers)

    Checksums, the search of the root table, and the parser of the table of interrupt
    controllers (MADT).  A pointer to a table or an entry is its address; loops whose step is
    read from memory take their fuel as an argument. *)

From S2P Require Import Prelude Machine Phys CString.

(** A quotation mark. *)
Definition quote : string := String (Ascii.ascii_of_nat 34) EmptyString.

(** [MADTEntry] types, [EntryType] of the header. *)
Inductive EntryType :=
| processor_local_apic
| io_apic
| io_apic_interrupt_source_override
| io_apic_non_maskable_interrupt_source
| local_apic_non_maskable_interrupt
| local_apic_address_override
| processor_local_x2apic.

#[export] Instance EntryType_eq_dec : EqDecision EntryType.
Proof. solve_decision. Defined.

Definition EntryType_of (v : Z) : option EntryType :=
  if v =? 0 then Some processor_local_apic
  else if v =? 1 then Some io_apic
  else if v =? 2 then Some io_apic_interrupt_source_override
  else if v =? 3 then Some io_apic_non_maskable_interrupt_source
  else if v =? 4 then Some local_apic_non_maskable_interrupt
  else if v =? 5 then Some local_apic_address_override
  else if v =? 9 then Some processor_local_x2apic
  else None.

Definition EntryTypeNames : list string :=
  ["processor_local_apic"; "io_apic"; "io_apic_interrupt_source_override"; "io_apic_non_maskable_interrupt_source";
   "local_apic_non_maskable_interrupt"; "local_apic_address_override"; "unused"; "unused"; "unused";
   "processor_local_x2apic"].
Definition to_string (type : Z) : string := default "invalid" (EntryTypeNames !! Z.to_nat type).

(** The capacities of the arrays of [MADTParseResult]. *)
Definition max_entries (k : EntryType) : Z :=
  match k with
  | processor_local_apic => 16
  | io_apic => 8
  | io_apic_interrupt_source_override => 32
  | io_apic_non_maskable_interrupt_source => 16
  | local_apic_non_maskable_interrupt => 16
  | local_apic_address_override => 2
  | processor_local_x2apic => 16
  end.

(** [MADTParseResult]: for every type the elements of its array that are written; their number
    is the count. *)
Definition MADTParseResult : Type := EntryType -> list Z.
Definition no_entries : MADTParseResult := fun _ => [].
Definition add_entry (k : EntryType) (entry : Z) (r : MADTParseResult) : MADTParseResult :=
  fun k' => if decide (k' = k) then r k' ++ [entry] else r k'.

Section acpi.
Context {D G : Type} (mem : Z -> Z).
Abbreviation T A := (M D G A).

(** [ACPISDTHeader] *)
Definition Length (table : Z) : Z := u32_at mem (table + 4).

(** [for (size_t i = 0; i < Length; i++) sum += table[i];] *)
Fixpoint checksum_loop (rounds : nat) (table i sum : Z) : Z :=
  match rounds with O => sum | S rounds => checksum_loop rounds table (i + 1) (u8 (sum + byte_at mem (table + i))) end.
Definition doChecksum (tableHeader : Z) : bool := checksum_loop (Z.to_nat (Length tableHeader)) tableHeader 0 0 =? 0.

(** The number of entries and the search for a signature. *)
Definition rsdt_entries (rsdt : Z) : Z := u32 (Length rsdt - 36) / 4.
Definition has_signature (h : Z) (sig : list Z) : bool := bool_decide (strncmp (bytes_at mem h 4) sig 4 = Some 0).
Fixpoint find_loop (rounds : nat) (rsdt : Z) (sig : list Z) (i : Z) : Z :=
  match rounds with
  | O => 0
  | S rounds =>
      let h := u32_at mem (rsdt + 36 + 4 * i) in
      if has_signature h sig then h else find_loop rounds rsdt sig (i + 1)
  end.

(** "FACP" and "APIC" *)
Definition findFACP (rsdt : Z) : Z := find_loop (Z.to_nat (rsdt_entries rsdt)) rsdt [70; 65; 67; 80] 0.
Definition findMADT (rsdt : Z) : Z := find_loop (Z.to_nat (rsdt_entries rsdt)) rsdt [65; 80; 73; 67] 0.

Definition print_rsdp (rsdp : Z) : T unit :=
  if rsdp =? 0 then kprintf "RSDP: NULL\n" []
  else
    kprintf "RSDP {\n" [];;
    kprintf ("  Signature: " +:+ quote +:+ "%s;8" +:+ quote +:+ "\n") [PNum rsdp];;
    kprintf "  Checksum: %u\n" [PNum (u8_at mem (rsdp + 8))];;
    kprintf ("  OEMID: " +:+ quote +:+ "%s;6" +:+ quote +:+ "\n") [PNum (rsdp + 9)];;
    kprintf "  Revision: %u\n" [PNum (u8_at mem (rsdp + 15))];;
    kprintf "  RsdtAddress: %h\n" [PNum (u32_at mem (rsdp + 16))];;
    kprintf "}\n" [].

(** Strings are printed from the table; the code copies it to the stack first. *)
Definition print_header (header : Z) (table_name : string) : T unit :=
  if header =? 0 then kprintf "%s Header: NULL\n" [PStr table_name]
  else
    kprintf "%s Header {\n" [PStr table_name];;
    kprintf ("  Signature: " +:+ quote +:+ "%s;4" +:+ quote +:+ "\n") [PNum header];;
    kprintf "  Length: %u bytes\n" [PNum (Length header)];;
    kprintf "  Revision: %u\n" [PNum (u8_at mem (header + 8))];;
    kprintf "  Checksum: %u\n" [PNum (u8_at mem (header + 9))];;
    kprintf ("  OEMID: " +:+ quote +:+ "%s;6" +:+ quote +:+ "\n") [PNum (header + 10)];;
    kprintf ("  OEMTableID: " +:+ quote +:+ "%s;8" +:+ quote +:+ "\n") [PNum (header + 16)];;
    kprintf "  OEMRevision: %u\n" [PNum (u32_at mem (header + 24))];;
    kprintf "  CreatorID: %u\n" [PNum (u32_at mem (header + 28))];;
    kprintf "  CreatorRevision: %u\n" [PNum (u32_at mem (header + 32))];;
    kprintf "}\n" [].

Definition print_rsdt (rsdt : Z) : T unit :=
  if rsdt =? 0 then kprintf "RSDT: NULL\n" [] else print_header rsdt "RSDT".

Definition print_madt (madt : Z) : T unit :=
  if madt =? 0 then kprintf "%s MADT: NULL\n" [PNum madt]
  else
    print_header madt "MADT";;
    kprintf "MADT {\n" [];;
    kprintf "lapic address = %h\n" [PNum (u32_at mem (madt + 36))];;
    kprintf "flags = %b\n" [PNum (u32_at mem (madt + 40))];;
    kprintf "}\n" [].

(** ** The fields of the entries, at the places the compiler gives them

    The structs of types 3 and 4 are not packed: their last fields are aligned. *)

Definition bit_at (addr n : Z) : Z := (u32_at mem addr ≫ n) .& 1.
Definition can_enable (flags : Z) : Z := bit_at flags 0.
Definition online_capable (flags : Z) : Z := bit_at flags 1.

(** What [parse_madt] prints of an entry. *)
Definition print_entry (k : EntryType) (entry : Z) : T unit :=
  match k with
  | processor_local_apic =>
      kprintf "processor id: %u\n" [PNum (u8_at mem (entry + 2))];;
      kprintf "apic_id: %u\n" [PNum (u8_at mem (entry + 3))];;
      kprintf "flags: can_enable=%b, online_capable=%b\n" [PNum (can_enable (entry + 4)); PNum (online_capable (entry + 4))];;
      kprintf "flags_raw = %u\n" [PNum (u32_at mem (entry + 4))]
  | io_apic =>
      kprintf "io apic id id: %u\n" [PNum (u8_at mem (entry + 2))];;
      kprintf "io apic address: %h\n" [PNum (u32_at mem (entry + 4))];;
      kprintf "global system interrupt base = %u\n" [PNum (u32_at mem (entry + 8))]
  | io_apic_interrupt_source_override =>
      kprintf "Bus source = %u\n" [PNum (u8_at mem (entry + 2))];;
      kprintf "Irq source = %u\n" [PNum (u8_at mem (entry + 3))];;
      kprintf "global system interrupt  = %u\n" [PNum (u32_at mem (entry + 4))];;
      kprintf "flags = %u\n" [PNum (u16_at mem (entry + 8))]
  | io_apic_non_maskable_interrupt_source =>
      kprintf "nmi source = %u\n" [PNum (u8_at mem (entry + 2))];;
      kprintf "reserved = %u\n" [PNum (u8_at mem (entry + 3))];;
      kprintf "flags = %u\n" [PNum (u16_at mem (entry + 4))];;
      kprintf "global system interrupt = %u\n" [PNum (u32_at mem (entry + 8))]
  | local_apic_non_maskable_interrupt =>
      kprintf "ACPI Processor ID : %u\n" [PNum (u8_at mem (entry + 2))];;
      kprintf "flags = %u\n" [PNum (u16_at mem (entry + 4))];;
      kprintf "LINT = %u\n" [PNum (u8_at mem (entry + 6))]
  | local_apic_address_override =>
      kprintf "reserved = %u\n" [PNum (u16_at mem entry)];;
      kprintf "local apic address 64b = 0x%llx\n" [PNum (u64_at mem (entry + 4))]
  | processor_local_x2apic =>
      kprintf "processor_local_x2apic_id = %u\n" [PNum (u32_at mem (entry + 4))];;
      kprintf "flags: can_enable=%u, online_capable=%u\n" [PNum (can_enable (entry + 8)); PNum (online_capable (entry + 8))];;
      kprintf "acpi_id = %u\n" [PNum (u32_at mem (entry + 12))]
  end.

(** [ret.array[index] = entry; index++;] *)
Definition push (k : EntryType) (entry : Z) (ret : MADTParseResult) : T MADTParseResult :=
  if Z.of_nat (length (ret k)) <? max_entries k then mret (add_entry k entry ret) else stop Undefined.

Fixpoint parse_loop (fuel : nat) (ptr end_ : Z) (ret : MADTParseResult) : T MADTParseResult :=
  match fuel with
  | O => stop Spinning
  | S fuel =>
      if ptr <? end_ then
        kprintf "==========Start of entry===========\n" [];;
        let type := u8_at mem ptr in
        let record_length := u8_at mem (ptr + 1) in
        kprintf "record length: %u\n" [PNum record_length];;
        kprintf "Name of the entry type: %s\n" [PStr (to_string type)];;
        ret ← match EntryType_of type with
              | Some k => print_entry k ptr;; push k ptr ret
              | None => kprintf "Unknown or unused entry type\n" [];; mret ret
              end;
        kprintf "==========End of entry===========\n\n" [];;
        parse_loop fuel (u32 (ptr + record_length)) end_ ret
      else mret ret
  end.

Definition parse_madt (fuel : nat) (madt : Z) : T MADTParseResult :=
  let madt_length := Length madt in
  kprintf "madt length = %u\n" [PNum madt_length];;
  kprintf "\n\t==========Entries===========\n\n" [];;
  parse_loop fuel (u32 (madt + 44)) (u32 (madt + madt_length)) no_entries.

(** [MADTEntryCount] of [get_count]: the entries of every type, counted modulo 2^32. *)
Definition no_count : EntryType -> Z := fun _ => 0.
Fixpoint count_loop (fuel : nat) (ptr end_ : Z) (count : EntryType -> Z) : T (EntryType -> Z) :=
  match fuel with
  | O => stop Spinning
  | S fuel =>
      if ptr <? end_ then
        let count' := match EntryType_of (u8_at mem ptr) with
                      | Some k => fun k' => if decide (k' = k) then u32 (count k' + 1) else count k'
                      | None => count
                      end in
        count_loop fuel (u32 (ptr + u8_at mem (ptr + 1))) end_ count'
      else mret count
  end.
Definition get_count (fuel : nat) (madt : Z) : T (EntryType -> Z) :=
  count_loop fuel (u32 (madt + 44)) (u32 (madt + Length madt)) no_count.

(** ** Printing the result *)

Definition polarity (entry : Z) : string :=
  default EmptyString (["Conforms"; "ActiveHigh"; "Reserved"; "ActiveLow"] !! Z.to_nat (u16_at mem (entry + 8) .& 3)).
Definition trigger (entry : Z) : string :=
  default EmptyString (["Conforms"; "Edge"; "Reserved"; "Level"] !! Z.to_nat ((u16_at mem (entry + 8) ≫ 2) .& 3)).

Definition print_parsed_entry (k : EntryType) (i entry : Z) : T unit :=
  match k with
  | processor_local_apic =>
      kprintf "Processor Local APIC %u \n" [PNum i];;
      kprintf "  ACPI Processor ID: %u\n" [PNum (u8_at mem (entry + 2))];;
      kprintf "  APIC ID: %u\n" [PNum (u8_at mem (entry + 3))];;
      kprintf "  Flags: can_enable=%b, online_capable=%b\n" [PNum (can_enable (entry + 4)); PNum (online_capable (entry + 4))]
  | io_apic =>
      kprintf "IO APIC %u :\n" [PNum i];;
      kprintf "  IO APIC ID: %u\n" [PNum (u8_at mem (entry + 2))];;
      kprintf "  IO APIC Address: %h\n" [PNum (u32_at mem (entry + 4))];;
      kprintf "  Global System Interrupt Base: %u\n" [PNum (u32_at mem (entry + 8))]
  | io_apic_interrupt_source_override =>
      kprintf "IO APIC Interrupt Source Override %u :\n" [PNum i];;
      kprintf "  Bus Source: %u\n" [PNum (u8_at mem (entry + 2))];;
      kprintf "  IRQ Source: %u\n" [PNum (u8_at mem (entry + 3))];;
      kprintf "  Global System Interrupt: %u\n" [PNum (u32_at mem (entry + 4))];;
      kprintf "Flags: polarity = %s, trigger = %s\n" [PStr (polarity entry); PStr (trigger entry)];;
      kprintf "\n" []
  | io_apic_non_maskable_interrupt_source =>
      kprintf "IO APIC NMI %u :\n" [PNum i];;
      kprintf "  NMI Source: %u\n" [PNum (u8_at mem (entry + 2))];;
      kprintf "  Flags: %u\n" [PNum (u16_at mem (entry + 4))];;
      kprintf "  Global System Interrupt: %u\n" [PNum (u32_at mem (entry + 8))]
  | local_apic_non_maskable_interrupt =>
      kprintf "Local APIC NMI %u :\n" [PNum i];;
      kprintf "  ACPI Processor ID: %u\n" [PNum (u8_at mem (entry + 2))];;
      kprintf "  Flags: %u\n" [PNum (u16_at mem (entry + 4))];;
      kprintf "  LINT: %u\n" [PNum (u8_at mem (entry + 6))]
  | local_apic_address_override =>
      kprintf "Local APIC Address Override %u :\n" [PNum i];;
      kprintf "  Local APIC Address 64-bit: %lx\n" [PNum (u64_at mem (entry + 4))]
  | processor_local_x2apic =>
      kprintf "Processor Local x2APIC %u:\n" [PNum i];;
      kprintf "  x2APIC ID: %u\n" [PNum (u32_at mem (entry + 4))];;
      kprintf "  Flags: can_enable=%b, online_capable=%b\n" [PNum (can_enable (entry + 8)); PNum (online_capable (entry + 8))];;
      kprintf "  ACPI ID: %u\n" [PNum (u32_at mem (entry + 12))]
  end.

(** The loop over the array of one type. *)
Fixpoint print_parsed_entries (k : EntryType) (i : Z) (entries : list Z) : T unit :=
  match entries with
  | [] => kprintf "\n" []
  | entry :: entries =>
      (if i =? 0 then kprintf "\n" [] else mret tt);;
      print_parsed_entry k i entry;;
      print_parsed_entries k (i + 1) entries
  end.

Definition print_parsed_madt (result : MADTParseResult) : T unit :=
  kprintf "\n==== MADT Parse Result ====\n\n" [];;
  print_parsed_entries processor_local_apic 0 (result processor_local_apic);;
  print_parsed_entries io_apic 0 (result io_apic);;
  print_parsed_entries io_apic_interrupt_source_override 0 (result io_apic_interrupt_source_override);;
  print_parsed_entries io_apic_non_maskable_interrupt_source 0 (result io_apic_non_maskable_interrupt_source);;
  print_parsed_entries local_apic_non_maskable_interrupt 0 (result local_apic_non_maskable_interrupt);;
  print_parsed_entries local_apic_address_override 0 (result local_apic_address_override);;
  print_parsed_entries processor_local_x2apic 0 (result processor_local_x2apic);;
  kprintf "\n==== End of MADT Parse Result ====\n" [].
End acpi.
