(* ===== verification/AcpiFacts.v ===== *)
(** * What the ACPI functions find

    The checksum, the search of the root table, and the parser of the table of interrupt
    controllers on the bytes of a list of entries. *)

From S2P Require Import Prelude Machine Phys CString Acpi.

(** ** Checksum and search *)

Section tables.
Context (mem : Z -> Z).

Lemma checksum_loop_spec n : forall table i s, is_u8 s ->
  checksum_loop mem n table i s = u8 (s + foldr Z.add 0 (map (fun k => byte_at mem (table + k)) (seqZ i (Z.of_nat n)))).
Proof.
  induction n as [|n IH]; intros table i s Hs; cbn [checksum_loop].
  - cbn. by rewrite Z.add_0_r, u8_small.
  - rewrite IH by apply u8_range. rewrite (seqZ_cons i) by lia.
    replace (Z.pred (Z.of_nat (S n))) with (Z.of_nat n) by lia. cbn [map foldr]. replace (Z.succ i) with (i + 1) by lia.
    unfold u8. rewrite Zplus_mod_idemp_l. by rewrite Z.add_assoc.
Qed.

Lemma doChecksum_spec table :
  doChecksum mem table = true <-> foldr Z.add 0 (bytes_at mem table (Z.to_nat (Length mem table))) mod 256 = 0.
Proof.
  unfold doChecksum. rewrite checksum_loop_spec by by vm_compute. by rewrite Z.add_0_l, Z.eqb_eq.
Qed.

(** The address in entry [i] of the root table. *)
Definition rsdt_entry (rsdt i : Z) : Z := u32_at mem (rsdt + 36 + 4 * i).

Lemma find_loop_spec rsdt sig n : forall i,
  find_loop mem n rsdt sig i =
    default 0 (List.find (fun h => has_signature mem h sig) (map (rsdt_entry rsdt) (seqZ i (Z.of_nat n)))).
Proof.
  induction n as [|n IH]; intros i; cbn [find_loop]; [done|]. rewrite (seqZ_cons i) by lia.
  replace (Z.pred (Z.of_nat (S n))) with (Z.of_nat n) by lia. cbn [map List.find].
  fold (rsdt_entry rsdt i). destruct (has_signature mem (rsdt_entry rsdt i) sig); [done|].
  replace (Z.succ i) with (i + 1) by lia. apply IH.
Qed.

Lemma strncmp_loop_equal n x xs y ys : strncmp_loop (S n) (x :: xs) (y :: ys) = Some 0 -> y <> 0 ->
  x = y /\ strncmp_loop n xs ys = Some 0.
Proof.
  cbn [strncmp_loop]. intros Hs Hy. destruct (Z.eqb_spec x y) as [->|Hne]; cbn [negb] in Hs.
  - by rewrite (proj2 (Z.eqb_neq y 0) Hy) in Hs.
  - injection Hs. lia.
Qed.

(** [strncmp] on four characters none of which is NUL compares them. *)
Lemma has_signature_spec h a b c d : a <> 0 -> b <> 0 -> c <> 0 -> d <> 0 ->
  has_signature mem h [a; b; c; d] = true <-> bytes_at mem h 4 = [a; b; c; d].
Proof.
  intros Ha Hb Hc Hd. unfold has_signature, bytes_at. rewrite bool_decide_eq_true. unfold strncmp.
  change (Z.to_nat 4) with 4%nat. change (seqZ 0 (Z.of_nat 4)) with [0; 1; 2; 3]. cbn [map].
  split.
  - intros Hs. do 4 (apply strncmp_loop_equal in Hs as [-> Hs]; [|done]). done.
  - intros [= -> -> -> ->]. cbn [strncmp_loop]. rewrite !Z.eqb_refl. cbn [negb].
    by rewrite !(proj2 (Z.eqb_neq _ 0)) by done.
Qed.

Lemma find_ext {A} (f h : A -> bool) l : (forall x, f x = h x) -> List.find f l = List.find h l.
Proof. intros Hf. induction l as [|x l IH]; cbn; [done|]. by rewrite Hf, IH. Qed.

Lemma findMADT_spec rsdt :
  findMADT mem rsdt = default 0 (List.find (fun h => bool_decide (bytes_at mem h 4 = [65; 80; 73; 67]))
    (map (rsdt_entry rsdt) (seqZ 0 (rsdt_entries mem rsdt)))).
Proof.
  assert (0 <= rsdt_entries mem rsdt) by (unfold rsdt_entries, u32; apply Z.div_pos; [apply Z.mod_pos_bound|]; lia).
  unfold findMADT. rewrite find_loop_spec, Z2Nat.id by done. f_equal. apply find_ext. intros h.
  apply eq_true_iff_eq. rewrite bool_decide_eq_true. by apply has_signature_spec.
Qed.
End tables.

(** ** The entries of the table of interrupt controllers *)

Record entry := mk_entry { e_type : Z; e_body : list Z }.

Definition entry_size (e : entry) : Z := 2 + Z.of_nat (length (e_body e)).
Definition entry_bytes (e : entry) : list Z := e_type e :: entry_size e :: e_body e.
Definition entry_fits (e : entry) : Prop := is_u8 (e_type e) /\ is_u8 (entry_size e).
Definition entries_bytes (es : list entry) : list Z := mjoin (map entry_bytes es).

(** Where the entries stand, and those of one type. *)
Fixpoint placed (a : Z) (es : list entry) : list (Z * entry) :=
  match es with [] => [] | e :: es => (a, e) :: placed (a + entry_size e) es end.
Definition of_type (k : EntryType) (l : list (Z * entry)) : list Z :=
  map fst (List.filter (fun p => bool_decide (EntryType_of (e_type p.2) = Some k)) l).

(** A table at [madt] with these entries. *)
Record madt_image (mem : Z -> Z) (madt : Z) (es : list entry) : Prop := {
  madt_lies : lies mem (madt + 44) (entries_bytes es);
  madt_fit : Forall entry_fits es;
  madt_length : Length mem madt = 44 + Z.of_nat (length (entries_bytes es));
  madt_place : 0 <= madt /\ madt + Length mem madt < 2 ^ 32;
}.

Section parser.
Context {D G : Type} (mem : Z -> Z).

Lemma print_entry_prints k a : prints_and (print_entry (D:=D) (G:=G) mem k a) tt.
Proof. destruct k; cbn [print_entry]; repeat apply prints_and_kprintf; intros g; eexists; apply yields_kprintf. Qed.

Lemma entry_at e a rest : lies mem a (entry_bytes e ++ rest) -> entry_fits e ->
  u8_at mem a = e_type e /\ u8_at mem (a + 1) = entry_size e.
Proof.
  intros Hl [Ht Hs]. unfold u8_at. cbn [load_at]. rewrite !Z.mul_0_r, !Z.add_0_r.
  pose proof (Hl 0%nat _ eq_refl) as H0. pose proof (Hl 1%nat _ eq_refl) as H1. by rewrite Z.add_0_r in H0.
Qed.

Lemma entries_cons e es : entries_bytes (e :: es) = entry_bytes e ++ entries_bytes es.
Proof. done. Qed.

Lemma length_entry_bytes e : Z.of_nat (length (entry_bytes e)) = entry_size e.
Proof. unfold entry_bytes, entry_size. cbn [length]. lia. Qed.

(** The head of a list of entries: its fields, the pointer to the next, and the rest. *)
Lemma entry_step e es a end_ : lies mem a (entries_bytes (e :: es)) -> entry_fits e ->
  0 <= a -> a + Z.of_nat (length (entries_bytes (e :: es))) = end_ -> end_ < 2 ^ 32 ->
  (a <? end_) = true /\ u8_at mem a = e_type e /\ u8_at mem (a + 1) = entry_size e /\
  u32 (a + entry_size e) = a + entry_size e /\
  lies mem (a + entry_size e) (entries_bytes es) /\ 0 <= a + entry_size e /\
  a + entry_size e + Z.of_nat (length (entries_bytes es)) = end_.
Proof.
  intros Hl He Ha Hend Hb. rewrite entries_cons in *. destruct (entry_at _ _ _ Hl He) as [Ht Hs].
  rewrite length_app, Nat2Z.inj_add, length_entry_bytes in Hend. apply lies_app in Hl as [_ Hl].
  rewrite length_entry_bytes in Hl. assert (2 <= entry_size e) by (unfold entry_size; lia).
  split; [apply Z.ltb_lt; lia|]. do 2 (split; [done|]). split; [apply u32_small; unfold is_u32; lia|].
  split; [done|]. split; lia.
Qed.

(** What [parse_loop] makes of the entries. *)
Definition keep (r : MADTParseResult) (p : Z * entry) : MADTParseResult :=
  match EntryType_of (e_type p.2) with Some k => add_entry k p.1 r | None => r end.

(** The arrays have room for the entries. *)
Definition room (r : MADTParseResult) (l : list (Z * entry)) : Prop :=
  forall k, Z.of_nat (length (r k) + length (of_type k l)) <= max_entries k.

Lemma keep_lookup l : forall r k, foldl keep r l k = r k ++ of_type k l.
Proof.
  induction l as [|[a e] l IH]; intros r k; cbn [foldl].
  - unfold of_type. cbn. by rewrite app_nil_r.
  - rewrite IH. unfold keep, of_type. cbn [fst snd List.filter]. destruct (EntryType_of (e_type e)) as [k'|].
    + unfold add_entry. destruct (decide (k = k')) as [->|Hne].
      * rewrite bool_decide_true by done. cbn [map fst]. by rewrite <- (assoc_L (++)).
      * by rewrite bool_decide_false by congruence.
    + by rewrite bool_decide_false by congruence.
Qed.

Lemma room_keep r p l : room r (p :: l) -> room (keep r p) l.
Proof.
  intros Hr k. specialize (Hr k). pose proof (keep_lookup [p] r k) as Hk. cbn [foldl] in Hk. rewrite Hk.
  unfold of_type in *. cbn [List.filter] in *. destruct (bool_decide _); cbn [map length] in *; rewrite length_app; cbn [length]; lia.
Qed.

Lemma parse_loop_run es : forall fuel a r, lies mem a (entries_bytes es) -> Forall entry_fits es -> 0 <= a ->
  a + Z.of_nat (length (entries_bytes es)) < 2 ^ 32 -> (length es < fuel)%nat -> room r (placed a es) ->
  prints_and (parse_loop (D:=D) (G:=G) mem fuel a (a + Z.of_nat (length (entries_bytes es))) r) (foldl keep r (placed a es)).
Proof.
  induction es as [|e es IH]; intros fuel a r Hl Hf Ha Hb Hfu Hr; (destruct fuel as [|fuel]; [cbn in Hfu; lia|]);
    cbn [parse_loop placed foldl].
  - cbn. rewrite Z.add_0_r, Z.ltb_irrefl. apply prints_and_ret.
  - inversion Hf as [|? ? He Hes]; subst.
    destruct (entry_step e es a _ Hl He Ha eq_refl Hb) as (-> & Ht & Hs & Hu & Hl' & Ha' & Hend).
    rewrite Ht, Hs, Hu, <- Hend. do 3 apply prints_and_kprintf.
    eapply (prints_and_bind _ _ (keep r (a, e))).
    + unfold keep. cbn [fst snd]. destruct (EntryType_of (e_type e)) as [k|] eqn:Ek.
      * eapply prints_and_bind; [apply print_entry_prints|]. unfold push.
        specialize (Hr k). cbn [placed] in Hr. unfold of_type in Hr. cbn [List.filter fst snd] in Hr.
        rewrite bool_decide_true in Hr by done. cbn [map length] in Hr.
        rewrite (proj2 (Z.ltb_lt _ _)) by lia. apply prints_and_ret.
      * apply prints_and_kprintf, prints_and_ret.
    + apply prints_and_kprintf. apply IH; try done; [rewrite Hend; done|cbn in Hfu; lia|].
      by apply (room_keep r (a, e)).
Qed.

(** [undefined m]: whatever the state, [m] runs into undefined behaviour. *)
Definition undefined {A} (m : M D G A) : Prop := forall d g, o_exit (m d g) = Undefined.

Lemma undefined_bind {A B} (m : M D G A) (k : A -> M D G B) : undefined m -> undefined (m ≫= k).
Proof. intros Hm d g. unfold mbind, M_bind. by rewrite Hm. Qed.

Lemma undefined_then {A B} (m : M D G A) (k : A -> M D G B) a : prints_and m a -> undefined (k a) -> undefined (m ≫= k).
Proof.
  intros Hm Hk d g. destruct (Hm g) as [es He]. destruct (He d) as (E & Hg & _).
  unfold mbind, M_bind. rewrite E, Hg. cbn [o_exit]. apply Hk.
Qed.

Lemma undefined_kprintf {A} fmt args (k : unit -> M D G A) : undefined (k tt) -> undefined (kprintf fmt args ≫= k).
Proof. apply undefined_then. intros g. eexists. apply yields_kprintf. Qed.

(** One entry too many of some type: the array overflows. *)
Lemma parse_loop_overflow es : forall fuel a r, lies mem a (entries_bytes es) -> Forall entry_fits es -> 0 <= a ->
  a + Z.of_nat (length (entries_bytes es)) < 2 ^ 32 -> (length es < fuel)%nat ->
  (forall k, Z.of_nat (length (r k)) <= max_entries k) -> ~ room r (placed a es) ->
  undefined (parse_loop mem fuel a (a + Z.of_nat (length (entries_bytes es))) r).
Proof.
  induction es as [|e es IH]; intros fuel a r Hl Hf Ha Hb Hfu Hc Hr; (destruct fuel as [|fuel]; [cbn in Hfu; lia|]).
  { exfalso. apply Hr. intros k. cbn. rewrite Nat.add_0_r. apply Hc. }
  cbn [parse_loop]. inversion Hf as [|? ? He Hes]; subst.
  destruct (entry_step e es a _ Hl He Ha eq_refl Hb) as (-> & Ht & Hs & Hu & Hl' & Ha' & Hend).
  rewrite Ht, Hs, Hu, <- Hend. do 3 apply undefined_kprintf.
  assert ((forall k, Z.of_nat (length (keep r (a, e) k)) <= max_entries k) ->
    undefined (kprintf "==========End of entry===========\n\n" [];;
      parse_loop mem fuel (a + entry_size e) (a + entry_size e + Z.of_nat (length (entries_bytes es))) (keep r (a, e)))) as Hnext.
  { intros Hc'. apply undefined_kprintf, IH; try done; [rewrite Hend; done|cbn in Hfu; lia|].
    intros Hroom. apply Hr. intros k. specialize (Hroom k). pose proof (keep_lookup [(a, e)] r k) as Hk. cbn [foldl] in Hk.
    rewrite Hk in Hroom. unfold of_type in *. cbn [placed List.filter fst snd] in *.
    destruct (bool_decide _); cbn [map length] in *; rewrite length_app in Hroom; cbn [length] in *; lia. }
  unfold keep in Hnext. cbn [fst snd] in Hnext. destruct (EntryType_of (e_type e)) as [k|].
  - unfold push. destruct (Z.ltb_spec (Z.of_nat (length (r k))) (max_entries k)) as [Hlt|Hge].
    + eapply undefined_then; [eapply prints_and_bind; [apply print_entry_prints|apply prints_and_ret]|].
      apply Hnext. intros k'. unfold add_entry. destruct (decide (k' = k)) as [->|]; [|apply Hc].
      rewrite length_app. cbn [length]. lia.
    + apply undefined_bind. eapply undefined_then; [apply print_entry_prints|]. by intros d g.
  - eapply undefined_then; [apply prints_and_kprintf, prints_and_ret|]. by apply Hnext.
Qed.

(** An entry of length 0 is parsed for ever, until its array overflows; one of an unknown type
    for ever. *)
Lemma parse_loop_stuck fuel a end_ r : 0 <= a < end_ -> end_ < 2 ^ 32 ->
  u8_at mem (a + 1) = 0 -> EntryType_of (u8_at mem a) = None ->
  forall d g, o_exit (parse_loop (D:=D) (G:=G) mem fuel a end_ r d g) = Spinning.
Proof.
  intros Ha He Hs Ht. induction fuel as [|fuel IH]; intros d g; [done|]. cbn [parse_loop].
  rewrite (proj2 (Z.ltb_lt a end_)), Hs, Ht, Z.add_0_r, u32_small by (unfold is_u32; lia).
  do 3 (rewrite (bind_done _ _ d g d g _ tt eq_refl); cbn [o_exit]).
  rewrite (bind_done _ _ d g d g [EPrint "Unknown or unused entry type\n" []] r eq_refl). cbn [o_exit].
  rewrite (bind_done _ _ d g d g _ tt eq_refl). cbn [o_exit]. apply IH.
Qed.

Lemma count_loop_run es : forall fuel a c, lies mem a (entries_bytes es) -> Forall entry_fits es -> 0 <= a ->
  a + Z.of_nat (length (entries_bytes es)) < 2 ^ 32 -> (length es < fuel)%nat -> (forall k, 0 <= c k) ->
  (forall k, c k + Z.of_nat (length es) < 2 ^ 32) ->
  exists c', prints_and (count_loop (D:=D) (G:=G) mem fuel a (a + Z.of_nat (length (entries_bytes es))) c) c' /\
    forall k, c' k = c k + Z.of_nat (length (of_type k (placed a es))).
Proof.
  induction es as [|e es IH]; intros fuel a c Hl Hf Ha Hb Hfu Hc Hm; (destruct fuel as [|fuel]; [cbn in Hfu; lia|]);
    cbn [count_loop placed].
  - exists c. cbn. rewrite Z.add_0_r, Z.ltb_irrefl. split; [apply prints_and_ret|]. intros k. lia.
  - inversion Hf as [|? ? He Hes]; subst.
    destruct (entry_step e es a _ Hl He Ha eq_refl Hb) as (-> & Ht & Hs & Hu & Hl' & Ha' & Hend).
    rewrite Ht, Hs, Hu, <- Hend.
    set (c1 := match EntryType_of (e_type e) with
      | Some k => fun k' => if decide (k' = k) then u32 (c k' + 1) else c k' | None => c end).
    assert (forall k, c1 k = c k + if bool_decide (EntryType_of (e_type e) = Some k) then 1 else 0) as Hc1.
    { intros k. specialize (Hm k). specialize (Hc k). cbn [length] in Hm. unfold c1.
      destruct (EntryType_of (e_type e)) as [k'|]; [|rewrite bool_decide_false by done; lia].
      destruct (decide (k = k')) as [->|Hne]; [rewrite bool_decide_true by done; apply u32_small; unfold is_u32; lia|].
      rewrite bool_decide_false by congruence. lia. }
    destruct (IH fuel (a + entry_size e) c1 Hl' Hes Ha' ltac:(rewrite Hend; done) ltac:(cbn in Hfu; lia)) as (c' & Hr & Hk).
    + intros k. rewrite Hc1. specialize (Hc k). case_bool_decide; lia.
    + intros k. rewrite Hc1. specialize (Hm k). cbn [length] in Hm. case_bool_decide; lia.
    + exists c'. split; [done|]. intros k. rewrite Hk, Hc1. unfold of_type. cbn [List.filter fst snd].
      case_bool_decide; cbn [map length]; lia.
Qed.
End parser.

Lemma length_entries es : Forall entry_fits es -> 2 * Z.of_nat (length es) <= Z.of_nat (length (entries_bytes es)).
Proof.
  induction 1 as [|e es He Hes IH]; [done|]. rewrite entries_cons, length_app, Nat2Z.inj_add, length_entry_bytes.
  unfold entry_size. cbn [length]. lia.
Qed.

(** C16: The checksum of a table is right when its bytes add up to a multiple of 256;
    [findMADT] finds the first table of the root table with the signature APIC.  On the bytes of
    any list of entries [parse_madt] returns, for every type, the entries of that type in their
    order, and [get_count] their number, as long as no array overflows; otherwise the parser
    writes behind an array.  With an entry of length 0 and an unknown type it never ends. *)
Theorem madt_parsed {D G} mem madt es fuel rsdt (d : D) (g : G) :
  madt_image mem madt es -> (length es < fuel)%nat ->
  (doChecksum mem madt = true <-> foldr Z.add 0 (bytes_at mem madt (Z.to_nat (Length mem madt))) mod 256 = 0) /\
  findMADT mem rsdt = default 0 (List.find (fun h => bool_decide (bytes_at mem h 4 = [65; 80; 73; 67]))
    (map (rsdt_entry mem rsdt) (seqZ 0 (rsdt_entries mem rsdt)))) /\
  ((forall k, Z.of_nat (length (of_type k (placed (madt + 44) es))) <= max_entries k) ->
   exists r, o_exit (parse_madt mem fuel madt d g) = Done r /\ forall k, r k = of_type k (placed (madt + 44) es)) /\
  (~ (forall k, Z.of_nat (length (of_type k (placed (madt + 44) es))) <= max_entries k) ->
   o_exit (parse_madt mem fuel madt d g) = Undefined) /\
  (exists c, o_exit (get_count mem fuel madt d g) = Done c /\
     forall k, c k = Z.of_nat (length (of_type k (placed (madt + 44) es)))) /\
  (forall mem' fuel, Length mem' madt > 44 -> madt + Length mem' madt < 2 ^ 32 ->
     u8_at mem' (madt + 44 + 1) = 0 -> EntryType_of (u8_at mem' (madt + 44)) = None ->
     o_exit (parse_madt mem' fuel madt d g) = Spinning).
Proof.
  intros [Hl Hf Hlen [H0 Hb]] Hfu. pose proof (length_entries es Hf) as Hn. rewrite Hlen in Hb.
  assert (u32 (madt + 44) = madt + 44) as E1 by (apply u32_small; unfold is_u32; lia).
  assert (u32 (madt + Length mem madt) = madt + 44 + Z.of_nat (length (entries_bytes es))) as E2
    by (rewrite Hlen, u32_small by (unfold is_u32; lia); lia).
  split; [apply doChecksum_spec|]. split; [apply findMADT_spec|]. split; [|split; [|split]].
  - intros Hr. exists (foldl keep no_entries (placed (madt + 44) es)). split; [|intros k; by rewrite keep_lookup].
    apply prints_and_exit. unfold parse_madt. do 2 apply prints_and_kprintf. rewrite E1, E2.
    apply parse_loop_run; try done; lia.
  - intros Hr. unfold parse_madt. cbn zeta. revert d g. do 2 apply undefined_kprintf. rewrite E1, E2.
    apply parse_loop_overflow; try done; [lia|lia|]. by intros [].
  - destruct (count_loop_run (D:=D) (G:=G) mem es fuel (madt + 44) no_count Hl Hf ltac:(lia) ltac:(lia) Hfu) as (c & Hc & Hk).
    + done.
    + intros k. unfold no_count. lia.
    + exists c. split; [|done]. apply prints_and_exit. unfold get_count. by rewrite E1, E2.
  - intros mem' fuel' H1 H2 H3 H4. unfold parse_madt.
    do 2 (rewrite (bind_done _ _ d g d g _ tt eq_refl); cbn [o_exit]).
    rewrite !u32_small by (unfold is_u32; lia). apply parse_loop_stuck; try done; lia.
Qed.

(** Two processors, an interrupt controller and an entry of an unused type. *)
Definition sample_entries : list entry :=
  [mk_entry 0 [0; 0; 1; 0; 0; 0]; mk_entry 7 [1]; mk_entry 1 [2; 0; 0; 0; 0xC0; 0xFE; 0; 0; 0; 0]; mk_entry 0 [1; 1; 1; 0; 0; 0]].
Definition sample_madt : list Z :=
  [65; 80; 73; 67] ++ le_bytes 4 (44 + Z.of_nat (length (entries_bytes sample_entries))) ++ replicate 36 0
    ++ entries_bytes sample_entries.
Definition sample_acpi (a : Z) : Z := nth (Z.to_nat (a - 0x1000)) sample_madt 0.

Lemma sample_madt_image : madt_image sample_acpi 0x1000 sample_entries.
Proof.
  split; [|repeat constructor; vm_compute; done|by vm_compute|by vm_compute].
  intros i b Hi. pose proof (lookup_lt_Some _ _ _ Hi) as Hlt.
  assert (forallb (fun i => byte_at sample_acpi (0x1000 + 44 + Z.of_nat i) =? nth i (entries_bytes sample_entries) 0)
    (seq 0 (length (entries_bytes sample_entries))) = true) as Hall by by vm_compute.
  rewrite forallb_forall in Hall. rewrite (proj1 (Z.eqb_eq _ _) (Hall i ltac:(apply in_seq; lia))).
  by apply nth_lookup_Some.
Qed.

Lemma madt_parsed_witness :
  exists r c, o_exit (parse_madt sample_acpi 5 0x1000 ND tt) = Done r /\
    r processor_local_apic = [0x102C; 0x1043] /\ r io_apic = [0x1037] /\
    o_exit (get_count sample_acpi 5 0x1000 ND tt) = Done c /\ c processor_local_apic = 2.
Proof.
  destruct (madt_parsed sample_acpi 0x1000 sample_entries 5 0 ND tt sample_madt_image ltac:(simpl; lia))
    as (_ & _ & Hr & _ & (c & Hc & Hk) & _).
  destruct Hr as (r & Hr & Hk').
  { intros []; vm_compute; discriminate. }
  exists r, c. split; [exact Hr|]. rewrite !Hk', Hk. split; [by vm_compute|]. split; [by vm_compute|].
  split; [exact Hc|by vm_compute].
Defined.
