(* ===== verification/Elf.v ===== *)
(** * Kernel modules ([firmware/multiboot/multiboot_module.c])

    The entry point and the symbols of a 64-bit ELF image that the boot loader has placed in
    memory.  Pointers are addresses; a string is printed by its address, a character by its code. *)

From S2P Require Import Prelude Machine Phys StringHelper Terminal CString.

Record elf64_phdr_64bit := mk_phdr {
  p_type : Z; p_flags : Z; p_offset : Z; p_vaddr : Z; p_paddr : Z; p_filesz : Z; p_memsz : Z; p_align : Z;
}.

Record elf64_sym_32bit := mk_elf_sym {
  st_name : Z; st_info : Z; st_other : Z; st_shndx : Z;
  value_low : Z; value_high : Z; size_low : Z; size_high : Z;
}.

Record elf64_shdr_64bit := mk_shdr {
  sh_name : Z; sh_type : Z; sh_flags : Z; sh_addr : Z; sh_offset : Z; sh_size : Z; sh_link : Z; sh_info : Z;
  sh_addralign : Z; sh_entsize : Z;
}.

(** The header without its first 16 bytes, which are read one by one. *)
Record elf64_ehdr_64bit := mk_ehdr {
  e_type : Z; e_machine : Z; e_version : Z; e_entry : Z; e_phoff : Z; e_shoff : Z; e_flags : Z; e_ehsize : Z;
  e_phentsize : Z; e_phnum : Z; e_shentsize : Z; e_shnum : Z; e_shstrndx : Z;
}.

Record entry_point_c := mk_entry_point { entry_physical : Z; entry_virtual : Z; entry_size : Z }.

Section elf.
Context {D G : Type} (mem : Z -> Z).
Abbreviation T A := (M D G A).

Definition ehdr_at (a : Z) : elf64_ehdr_64bit :=
  mk_ehdr (u16_at mem (a + 16)) (u16_at mem (a + 18)) (u32_at mem (a + 20)) (u64_at mem (a + 24)) (u64_at mem (a + 32))
    (u64_at mem (a + 40)) (u32_at mem (a + 48)) (u16_at mem (a + 52)) (u16_at mem (a + 54)) (u16_at mem (a + 56))
    (u16_at mem (a + 58)) (u16_at mem (a + 60)) (u16_at mem (a + 62)).
Definition phdr_at (a : Z) : elf64_phdr_64bit :=
  mk_phdr (u32_at mem a) (u32_at mem (a + 4)) (u64_at mem (a + 8)) (u64_at mem (a + 16)) (u64_at mem (a + 24))
    (u64_at mem (a + 32)) (u64_at mem (a + 40)) (u64_at mem (a + 48)).
Definition shdr_at (a : Z) : elf64_shdr_64bit :=
  mk_shdr (u32_at mem a) (u32_at mem (a + 4)) (u64_at mem (a + 8)) (u64_at mem (a + 16)) (u64_at mem (a + 24))
    (u64_at mem (a + 32)) (u32_at mem (a + 40)) (u32_at mem (a + 44)) (u64_at mem (a + 48)) (u64_at mem (a + 56)).
Definition sym_at (a : Z) : elf64_sym_32bit :=
  mk_elf_sym (u32_at mem a) (u8_at mem (a + 4)) (u8_at mem (a + 5)) (u16_at mem (a + 6)) (u32_at mem (a + 8))
    (u32_at mem (a + 12)) (u32_at mem (a + 16)) (u32_at mem (a + 20)).

Definition print_u64_hex (val : Z) : T unit :=
  let high := u32 (val ≫ 32) in
  let low := u32 (val .& 0xFFFFFFFF) in
  if high =? 0 then kprintf "%h" [PNum low] else kprintf "%h%h" [PNum high; PNum low].

(** ** The entry point *)

Fixpoint entry_loop (rounds : nat) (module_phys_addr phdr_start i : Z) (ret : entry_point_c) : T entry_point_c :=
  match rounds with
  | O => mret ret
  | S rounds =>
      let phdr := phdr_at (u32 (phdr_start + i * 56)) in
      if p_type phdr =? 1 then
        kprintf "Found LOAD segment %u:\n" [PNum i];;
        kprintf "  Type: %u (LOAD)\n" [PNum (p_type phdr)];;
        kprintf "  Offset in file: 0x" [];; print_u64_hex (p_offset phdr);; kprintf "\n" [];;
        kprintf "  Virtual address: 0x" [];; print_u64_hex (p_vaddr phdr);; kprintf "\n" [];;
        kprintf "  Physical address: 0x" [];; print_u64_hex (p_paddr phdr);; kprintf "\n" [];;
        kprintf "  File size: 0x" [];; print_u64_hex (p_filesz phdr);; kprintf "\n" [];;
        let entry_physical := u32 (module_phys_addr + u32 (p_offset phdr)) in
        kprintf "  -> Entry point PHYSICAL approx: 0x%08x\n" [PNum entry_physical];;
        mret (mk_entry_point entry_physical (p_vaddr phdr) (p_filesz phdr))
      else entry_loop rounds module_phys_addr phdr_start (i + 1) ret
  end.

Definition get_entry_point_physical_simple (module_phys_addr : Z) : T entry_point_c :=
  let module := module_phys_addr in
  let ehdr := ehdr_at module in
  kprintf "Module physical: 0x%08x\n" [PNum module_phys_addr];;
  kprintf "ELF header size: %u bytes\n" [PNum 64];;
  kprintf "Program header offset from ELF: 0x" [];; print_u64_hex (e_phoff ehdr);; kprintf "\n" [];;
  let ret := mk_entry_point 0 0 0 in
  if (e_phoff ehdr =? 0) || (e_phnum ehdr =? 0) then kprintf "No program headers!\n" [];; mret ret
  else
    let phdr_start := u32 (module + u32 (e_phoff ehdr)) in
    entry_loop (Z.to_nat (e_phnum ehdr)) module_phys_addr phdr_start 0 ret.

(** ** The symbols *)

(** [strcmp(section_name, ".strtab") == 0]; the comparison ends with the literal. *)
Definition is_strtab (section_name : Z) : bool :=
  bool_decide (strcmp (bytes_at mem section_name 8) (cstr ".strtab") = Some 0).

(** The last section of each kind; 0 is the null pointer. *)
Fixpoint section_loop (rounds : nat) (shdr_addr shstrtab i symtab_shdr strtab_shdr : Z) : T (Z * Z) :=
  match rounds with
  | O => mret (symtab_shdr, strtab_shdr)
  | S rounds =>
      let shdr := u32 (shdr_addr + i * 64) in
      let section_name := u32 (shstrtab + sh_name (shdr_at shdr)) in
      if sh_type (shdr_at shdr) =? 2 then
        kprintf "Found .symtab at " [];; print_u64_hex (sh_offset (shdr_at shdr));;
        kprintf " (size: " [];; print_u64_hex (sh_size (shdr_at shdr));; kprintf ")\n" [];;
        section_loop rounds shdr_addr shstrtab (i + 1) shdr strtab_shdr
      else if (sh_type (shdr_at shdr) =? 3) && is_strtab section_name then
        kprintf "Found .strtab at " [];; print_u64_hex (sh_offset (shdr_at shdr));; kprintf "\n" [];;
        section_loop rounds shdr_addr shstrtab (i + 1) symtab_shdr shdr
      else section_loop rounds shdr_addr shstrtab (i + 1) symtab_shdr strtab_shdr
  end.

Definition sym_value (sym : elf64_sym_32bit) : Z := (value_high sym ≪ 32) .| value_low sym.
Definition sym_size (sym : elf64_sym_32bit) : Z := (size_high sym ≪ 32) .| size_low sym.
Definition sym_type (sym : elf64_sym_32bit) : Z := st_info sym .& 0x0F.
Definition sym_bind (sym : elf64_sym_32bit) : Z := (st_info sym ≫ 4) .& 0x0F.

(** ['?'] is 63, [' '] 32, ['O'] 79, ['F'] 70, ['S'] 83, ['L'] 76, ['G'] 71, ['W'] 87. *)
Definition type_char (type : Z) : Z :=
  if type =? 0 then 32 else if type =? 1 then 79 else if type =? 2 then 70
  else if type =? 3 then 83 else if type =? 4 then 70 else 63.
Definition bind_char (bind : Z) : Z :=
  if bind =? 1 then 76 else if bind =? 2 then 71 else if bind =? 3 then 87 else 32.

(** The bodies of the two loops over the symbols; [continue] ends them. *)
Definition list_symbol (symtab strtab i : Z) : T unit :=
  let sym := sym_at (u32 (symtab + 24 * i)) in
  if st_name sym =? 0 then mret tt
  else
    let name := u32 (strtab + st_name sym) in
    if st_shndx sym =? 0 then mret tt
    else
      kprintf "%3u  " [PNum (u32 i)];;
      print_u64_hex (sym_value sym);;
      kprintf "  " [];;
      print_u64_hex (sym_size sym);;
      kprintf "  %c%c  %4u  %s\n"
        [PNum (bind_char (sym_bind sym)); PNum (type_char (sym_type sym)); PNum (st_shndx sym); PNum name].

(** The condition of the inner loop is a comma expression, true for its first pattern. *)
Definition entry_symbol (symtab strtab i : Z) : T unit :=
  let sym := sym_at (u32 (symtab + 24 * i)) in
  if st_name sym =? 0 then mret tt
  else
    let name := u32 (strtab + st_name sym) in
    if (sym_type sym =? 2) && (sym_bind sym =? 2) then
      kprintf "POTENTIAL ENTRY: %s at " [PNum name];;
      print_u64_hex (sym_value sym);;
      kprintf " (size: " [];;
      print_u64_hex (sym_size sym);;
      kprintf ")\n" []
    else mret tt.

(** From the two section headers on. *)
Definition print_symbols (module_phys_addr symtab_shdr strtab_shdr : Z) : T unit :=
  if (symtab_shdr =? 0) || (strtab_shdr =? 0) then kprintf "ERROR: Symbol table or string table not found\n" []
  else
    let symtab_offset := sh_offset (shdr_at symtab_shdr) in
    let strtab_offset := sh_offset (shdr_at strtab_shdr) in
    if (symtab_offset >? 0xFFFFFFFF) || (strtab_offset >? 0xFFFFFFFF)
    then kprintf "ERROR: Symbol/string table offset >4GB, cannot access from 32-bit\n" []
    else
      let symtab := u32 (module_phys_addr + u32 symtab_offset) in
      let strtab := u32 (module_phys_addr + u32 strtab_offset) in
      let num_symbols := sh_size (shdr_at symtab_shdr) / 24 in
      kprintf "\n=== Symbols (%u total) ===\n" [PNum (u32 num_symbols)];;
      kprintf "Idx  Value               Size                Type Shndx Name\n" [];;
      kprintf "------------------------------------------------------------------------\n" [];;
      for_range (Z.to_nat num_symbols) 0 (list_symbol symtab strtab);;
      kprintf "\n=== Looking for entry points ===\n" [];;
      for_range (Z.to_nat num_symbols) 0 (entry_symbol symtab strtab).

Definition print_all_symbols_32bit (module_phys_addr : Z) : T unit :=
  let module := module_phys_addr in
  let ehdr := ehdr_at module in
  let ident i := u8_at mem (module + i) in
  kprintf "=== Parsing 64-bit ELF Module at 0x%08x ===\n" [PNum module_phys_addr];;
  if negb (ident 0 =? 0x7F) || negb (ident 1 =? 69) || negb (ident 2 =? 76) || negb (ident 3 =? 70)
  then kprintf "ERROR: Not an ELF file\n" []
  else if negb (ident 4 =? 2) then kprintf "ERROR: Not a 64-bit ELF (class=%d)\n" [PNum (ident 4)]
  else
    kprintf "ELF Header:\n" [];;
    kprintf "  Type: %u, Machine: %u\n" [PNum (e_type ehdr); PNum (e_machine ehdr)];;
    kprintf "  Entry point: " [];; print_u64_hex (e_entry ehdr);; kprintf "\n" [];;
    kprintf "  Section headers: %u entries at offset " [PNum (e_shnum ehdr)];;
    print_u64_hex (e_shoff ehdr);; kprintf "\n" [];;
    (if e_shoff ehdr >? 0xFFFFFFFF then kprintf "WARNING: Section header offset >4GB, may be truncated\n" [] else mret tt);;
    let shdr_addr_32bit := u32 (module_phys_addr + u32 (e_shoff ehdr)) in
    let shstrtab_shdr := u32 (shdr_addr_32bit + e_shstrndx ehdr * 64) in
    let shstrtab := u32 (module_phys_addr + u32 (sh_offset (shdr_at shstrtab_shdr))) in
    '(symtab_shdr, strtab_shdr) ← section_loop (Z.to_nat (e_shnum ehdr)) shdr_addr_32bit shstrtab 0 0 0;
    print_symbols module_phys_addr symtab_shdr strtab_shdr.
End elf.
