(* ===== verification/ElfFacts.v ===== *)
(** * What is found in a kernel module

    Headers and symbols are serialised as the ELF format lays them out; the entry point is that
    of the first segment to load, and the symbols taken for entry points are the weak functions,
    whatever their names. *)

From S2P Require Import Prelude Machine Phys Elf.

(** ** Serialised records *)

Definition phdr_bytes (p : elf64_phdr_64bit) : list Z :=
  le_bytes 4 (p_type p) ++ le_bytes 4 (p_flags p) ++ le_bytes 8 (p_offset p) ++ le_bytes 8 (p_vaddr p)
    ++ le_bytes 8 (p_paddr p) ++ le_bytes 8 (p_filesz p) ++ le_bytes 8 (p_memsz p) ++ le_bytes 8 (p_align p).
Definition sym_bytes (s : elf64_sym_32bit) : list Z :=
  le_bytes 4 (st_name s) ++ le_bytes 1 (st_info s) ++ le_bytes 1 (st_other s) ++ le_bytes 2 (st_shndx s)
    ++ le_bytes 4 (value_low s) ++ le_bytes 4 (value_high s) ++ le_bytes 4 (size_low s) ++ le_bytes 4 (size_high s).

Definition is_u64 (v : Z) : Prop := 0 <= v < 2 ^ 64.
Definition phdr_fits (p : elf64_phdr_64bit) : Prop :=
  is_u32 (p_type p) /\ is_u32 (p_flags p) /\ is_u64 (p_offset p) /\ is_u64 (p_vaddr p) /\ is_u64 (p_paddr p) /\
  is_u64 (p_filesz p) /\ is_u64 (p_memsz p) /\ is_u64 (p_align p).
Definition sym_fits (s : elf64_sym_32bit) : Prop :=
  is_u32 (st_name s) /\ is_u8 (st_info s) /\ is_u8 (st_other s) /\ is_u16 (st_shndx s) /\
  is_u32 (value_low s) /\ is_u32 (value_high s) /\ is_u32 (size_low s) /\ is_u32 (size_high s).

Section records.
Context (mem : Z -> Z).

(** The first field of a record, and the rest. *)
Lemma field_at a n v rest : lies mem a (le_bytes n v ++ rest) -> 0 <= v < 2 ^ (8 * Z.of_nat n) ->
  load_at mem n a = v /\ lies mem (a + Z.of_nat n) rest.
Proof.
  intros Hl Hv. apply lies_app in Hl as [Hf Hr]. rewrite length_le_bytes in Hr. split; [by apply load_at_lies|done].
Qed.

Ltac next_field Hl E := apply field_at in Hl as [E Hl]; [|done]; rewrite <- ?Z.add_assoc in Hl; cbn [Z.of_nat Z.add] in Hl.

Lemma phdr_at_lies a p rest : lies mem a (phdr_bytes p ++ rest) -> phdr_fits p -> phdr_at mem a = p.
Proof.
  intros Hl (H0 & H1 & H2 & H3 & H4 & H5 & H6 & H7). apply lies_app in Hl as [Hl _].
  unfold phdr_bytes in Hl. rewrite <- (app_nil_r (le_bytes 8 (p_align p))) in Hl.
  next_field Hl E0. next_field Hl E1. next_field Hl E2. next_field Hl E3. next_field Hl E4. next_field Hl E5.
  next_field Hl E6. next_field Hl E7. unfold phdr_at, u32_at, u64_at. destruct p. cbn in *. by f_equal.
Qed.

Lemma sym_at_lies a s rest : lies mem a (sym_bytes s ++ rest) -> sym_fits s -> sym_at mem a = s.
Proof.
  intros Hl (H0 & H1 & H2 & H3 & H4 & H5 & H6 & H7). apply lies_app in Hl as [Hl _].
  unfold sym_bytes in Hl. rewrite <- (app_nil_r (le_bytes 4 (size_high s))) in Hl.
  next_field Hl E0. next_field Hl E1. next_field Hl E2. next_field Hl E3. next_field Hl E4. next_field Hl E5.
  next_field Hl E6. next_field Hl E7. unfold sym_at, u32_at, u16_at, u8_at. destruct s. cbn in *. by f_equal.
Qed.

(** The elements of a serialised array. *)
Lemma array_at {A} (bytes : A -> list Z) (size : nat) l : (forall x, length (bytes x) = size) ->
  forall a i x, lies mem a (mjoin (map bytes l)) -> l !! i = Some x ->
  exists rest, lies mem (a + Z.of_nat (size * i)) (bytes x ++ rest).
Proof.
  intros Hs. induction l as [|y l IH]; intros a i x Hl Hi; [done|].
  change (mjoin (map bytes (y :: l))) with (bytes y ++ mjoin (map bytes l)) in Hl. destruct i as [|i].
  - injection Hi as ->. rewrite Nat.mul_0_r, Z.add_0_r. by eexists.
  - apply lies_app in Hl as [_ Hl]. rewrite Hs in Hl. destruct (IH _ i x Hl Hi) as [rest Hr]. exists rest.
    by replace (a + Z.of_nat (size * S i)) with (a + Z.of_nat size + Z.of_nat (size * i)) by lia.
Qed.
End records.

(** ** The entry point *)

Section entry.
Context {D G : Type} (mem : Z -> Z).

Lemma print_u64_hex_prints v : prints_and (print_u64_hex (D:=D) (G:=G) v) tt.
Proof. unfold print_u64_hex. case_match; intros g; eexists; apply yields_kprintf. Qed.

Lemma kprintf_prints fmt args : prints_and (kprintf fmt args : M D G unit) tt.
Proof. intros g. eexists. apply yields_kprintf. Qed.

(** The point that a segment gives. *)
Definition entry_of (module_phys_addr : Z) (p : elf64_phdr_64bit) : entry_point_c :=
  mk_entry_point (u32 (module_phys_addr + u32 (p_offset p))) (p_vaddr p) (p_filesz p).

Lemma entry_loop_prints m start ret ps : forall i,
  (forall j p, ps !! j = Some p -> phdr_at mem (u32 (start + (i + Z.of_nat j) * 56)) = p) ->
  prints_and (entry_loop (D:=D) (G:=G) mem (length ps) m start i ret)
    (default ret (entry_of m <$> List.find (fun p => p_type p =? 1) ps)).
Proof.
  induction ps as [|p ps IH]; intros i Hp; cbn [length entry_loop List.find]; [apply prints_and_ret|].
  pose proof (Hp 0%nat p eq_refl) as H0. rewrite Z.add_0_r in H0. rewrite H0. destruct (p_type p =? 1).
  - repeat (eapply prints_and_bind; [first [apply kprintf_prints|apply print_u64_hex_prints]|]). apply prints_and_ret.
  - apply IH. intros j q Hq. rewrite <- (Hp (S j) q Hq). do 3 f_equal. lia.
Qed.

(** A module whose program headers are [ps]. *)
Record module_image (m : Z) (ps : list elf64_phdr_64bit) : Prop := {
  module_phnum : e_phnum (ehdr_at mem m) = Z.of_nat (length ps);
  module_phoff : 0 < e_phoff (ehdr_at mem m);
  module_place : 0 <= m /\ m + e_phoff (ehdr_at mem m) + 56 * Z.of_nat (length ps) < 2 ^ 32;
  module_headers : lies mem (m + e_phoff (ehdr_at mem m)) (mjoin (map phdr_bytes ps));
  module_fit : Forall phdr_fits ps;
}.

Lemma length_phdr_bytes p : length (phdr_bytes p) = 56%nat.
Proof. unfold phdr_bytes. by rewrite !length_app, !length_le_bytes. Qed.

Lemma get_entry_point_prints m ps : module_image m ps ->
  prints_and (get_entry_point_physical_simple (D:=D) (G:=G) mem m)
    (default (mk_entry_point 0 0 0) (entry_of m <$> List.find (fun p => p_type p =? 1) ps)).
Proof.
  intros [Hn Ho [H0 Hb] Hl Hf]. unfold get_entry_point_physical_simple.
  repeat (eapply prints_and_bind; [first [apply kprintf_prints|apply print_u64_hex_prints]|]).
  rewrite (proj2 (Z.eqb_neq (e_phoff _) 0)) by lia. rewrite Hn. cbn [orb].
  destruct ps as [|p ps].
  - cbn. eapply prints_and_bind; [apply kprintf_prints|apply prints_and_ret].
  - rewrite (proj2 (Z.eqb_neq _ 0)) by (cbn [length]; lia). rewrite Nat2Z.id.
    apply entry_loop_prints. intros j q Hq. pose proof (lookup_lt_Some _ _ _ Hq) as Hlt.
    destruct (array_at mem phdr_bytes 56 (p :: ps) length_phdr_bytes _ _ _ Hl Hq) as [rest Hr].
    rewrite (u32_small (e_phoff _)) by (unfold is_u32; lia). rewrite (u32_small (m + _)) by (unfold is_u32; lia).
    rewrite u32_small by (unfold is_u32; lia).
    replace (m + e_phoff (ehdr_at mem m) + (0 + Z.of_nat j) * 56) with (m + e_phoff (ehdr_at mem m) + Z.of_nat (56 * j)) by lia.
    apply (phdr_at_lies mem _ _ rest Hr). rewrite Forall_forall in Hf. apply Hf. by apply list_elem_of_In, list_elem_of_lookup_2 with j.
Qed.
End entry.

(** ** The symbols *)

(** The names that are printed as entry points. *)
Definition entries_in (es : list event) : list Z :=
  omap (fun e => match e with
    | EPrint fmt [PNum name] => if String.eqb fmt "POTENTIAL ENTRY: %s at " then Some name else None
    | _ => None end) es.

Section symbols.
Context {D G : Type} (mem : Z -> Z).

(** [gives m v l]: [m] returns [v], leaves the state alone and prints the entry points [l]. *)
Definition gives {A} (m : M D G A) (v : A) (l : list Z) : Prop := forall g, exists es, yields m g v g es /\ entries_in es = l.
Abbreviation reports m l := (gives m tt l).

Lemma reports_bind {A B} (m : M D G A) (k : A -> M D G B) v w l l' :
  gives m v l -> gives (k v) w l' -> gives (m ≫= k) w (l ++ l').
Proof.
  intros Hm Hk g. destruct (Hm g) as (es & He & <-). destruct (Hk g) as (es' & He' & <-). exists (es ++ es').
  split; [by eapply yields_bind|]. unfold entries_in. by rewrite omap_app.
Qed.

Lemma reports_ret {A} (v : A) : gives (mret v) v [].
Proof. intros g. exists []. split; [apply returns_ret|done]. Qed.

Lemma reports_kprintf fmt args : reports (kprintf fmt args) (entries_in [EPrint fmt args]).
Proof. intros g. eexists. split; [apply yields_kprintf|done]. Qed.

(** A line that is not about an entry point. *)
Lemma reports_line {B} fmt args (k : unit -> M D G B) w l : entries_in [EPrint fmt args] = [] ->
  gives (k tt) w l -> gives (kprintf fmt args ≫= k) w l.
Proof. intros He Hk. apply (reports_bind _ k tt w [] l); [|done]. rewrite <- He. apply reports_kprintf. Qed.

Lemma reports_u64_hex {B} v (k : unit -> M D G B) w l : gives (k tt) w l -> gives (print_u64_hex v ≫= k) w l.
Proof.
  intros Hk. apply (reports_bind _ k tt w [] l); [|done]. unfold print_u64_hex. case_match; apply reports_kprintf.
Qed.

Lemma reports_for n body (f : Z -> list Z) : forall i, (forall j, reports (body j) (f j)) ->
  reports (for_range n i body) (mjoin (map f (seqZ i (Z.of_nat n)))).
Proof.
  induction n as [|n IH]; intros i Hb; cbn [for_range]; [apply reports_ret|].
  rewrite (seqZ_cons i) by lia. replace (Z.pred (Z.of_nat (S n))) with (Z.of_nat n) by lia.
  replace (Z.succ i) with (i + 1) by lia. apply (reports_bind _ _ tt tt (f i)); [apply Hb|by apply IH].
Qed.

Lemma list_symbol_reports symtab strtab i : reports (list_symbol mem symtab strtab i) [].
Proof.
  unfold list_symbol. cbn zeta. do 2 (case_match; [apply reports_ret|]).
  apply reports_line; [done|]. apply reports_u64_hex. apply reports_line; [done|]. apply reports_u64_hex.
  apply reports_kprintf.
Qed.

(** A symbol with a name, of type function and binding 2. *)
Definition taken (s : elf64_sym_32bit) : bool := negb (st_name s =? 0) && (sym_type s =? 2) && (sym_bind s =? 2).

Lemma entry_symbol_reports symtab strtab i :
  let s := sym_at mem (u32 (symtab + 24 * i)) in
  reports (entry_symbol mem symtab strtab i) (if taken s then [u32 (strtab + st_name s)] else []).
Proof.
  cbn zeta. unfold entry_symbol, taken. destruct (st_name _ =? 0); cbn [negb andb]; [apply reports_ret|].
  destruct ((sym_type _ =? 2) && (sym_bind _ =? 2)); [|apply reports_ret].
  apply (reports_bind _ _ tt tt [_] []); [apply reports_kprintf|]. apply reports_u64_hex.
  apply reports_line; [done|]. apply reports_u64_hex. apply reports_kprintf.
Qed.

Lemma join_map_cons {A B} (f : A -> list B) x l : mjoin (map f (x :: l)) = f x ++ mjoin (map f l).
Proof. done. Qed.

Lemma join_map_nil {A B} (l : list A) : mjoin (map (fun _ => @nil B) l) = [].
Proof. induction l as [|x l IH]; [done|]. by rewrite join_map_cons, IH. Qed.

Lemma join_taken strtab syms : forall i (at_ : Z -> elf64_sym_32bit),
  (forall j s, syms !! j = Some s -> at_ (i + Z.of_nat j) = s) ->
  mjoin (map (fun j => if taken (at_ j) then [u32 (strtab + st_name (at_ j))] else []) (seqZ i (Z.of_nat (length syms)))) =
    map (fun s => u32 (strtab + st_name s)) (List.filter taken syms).
Proof.
  induction syms as [|s syms IH]; intros i at_ Ha; [done|]. cbn [length]. rewrite (seqZ_cons i) by lia.
  replace (Z.pred (Z.of_nat (S (length syms)))) with (Z.of_nat (length syms)) by lia.
  rewrite join_map_cons. cbn [List.filter]. pose proof (Ha 0%nat s eq_refl) as H0. rewrite Z.add_0_r in H0. rewrite H0.
  rewrite (IH (Z.succ i) at_); [by destruct (taken s)|]. intros j q Hq. rewrite <- (Ha (S j) q Hq). f_equal. lia.
Qed.

(** A symbol table and its strings, found through two section headers. *)
Record symbols_image (m symtab_shdr strtab_shdr : Z) (syms : list elf64_sym_32bit) : Prop := {
  symbols_headers : symtab_shdr <> 0 /\ strtab_shdr <> 0;
  symbols_offsets : sh_offset (shdr_at mem symtab_shdr) < 2 ^ 32 /\ 0 <= sh_offset (shdr_at mem strtab_shdr) < 2 ^ 32;
  symbols_place : 0 <= m /\ 0 <= sh_offset (shdr_at mem symtab_shdr) /\
    m + sh_offset (shdr_at mem symtab_shdr) + 24 * Z.of_nat (length syms) < 2 ^ 32;
  symbols_size : sh_size (shdr_at mem symtab_shdr) = 24 * Z.of_nat (length syms);
  symbols_lie : lies mem (m + sh_offset (shdr_at mem symtab_shdr)) (mjoin (map sym_bytes syms));
  symbols_fit : Forall sym_fits syms;
}.

Lemma length_sym_bytes s : length (sym_bytes s) = 24%nat.
Proof. unfold sym_bytes. by rewrite !length_app, !length_le_bytes. Qed.

Definition entry_names (m strtab_shdr : Z) (syms : list elf64_sym_32bit) : list Z :=
  map (fun s => u32 (u32 (m + sh_offset (shdr_at mem strtab_shdr)) + st_name s)) (List.filter taken syms).

Lemma print_symbols_reports m sy st syms : symbols_image m sy st syms ->
  reports (print_symbols mem m sy st) (entry_names m st syms).
Proof.
  intros [[Hy Ht] [Ho1 Ho2] [H0 [Ho Hb]] Hs Hl Hf]. unfold print_symbols.
  rewrite (proj2 (Z.eqb_neq sy 0) Hy), (proj2 (Z.eqb_neq st 0) Ht). cbn [orb].
  rewrite !Z.gtb_ltb, !(proj2 (Z.ltb_ge 0xFFFFFFFF _)) by lia. cbn [orb]. rewrite Hs.
  replace (24 * Z.of_nat (length syms) / 24) with (Z.of_nat (length syms)) by (rewrite Z.mul_comm, Z.div_mul; lia).
  rewrite Nat2Z.id. rewrite !(u32_small (sh_offset _)) by (unfold is_u32; lia).
  do 3 (apply reports_line; [done|]).
  apply (reports_bind _ _ tt tt [] (entry_names m st syms)).
  { pose proof (reports_for (length syms) (list_symbol mem (u32 (m + sh_offset (shdr_at mem sy)))
      (u32 (m + sh_offset (shdr_at mem st)))) (fun _ => []) 0 (fun j => list_symbol_reports _ _ j)) as Hr.
    by rewrite join_map_nil in Hr. }
  apply reports_line; [done|]. unfold entry_names.
  rewrite <- (join_taken (u32 (m + sh_offset (shdr_at mem st))) syms 0 (fun j => sym_at mem (u32 (u32 (m + sh_offset (shdr_at mem sy)) + 24 * j)))).
  - apply reports_for. intros j. apply entry_symbol_reports.
  - intros j s Hj. pose proof (lookup_lt_Some _ _ _ Hj) as Hlt.
    destruct (array_at mem sym_bytes 24 syms length_sym_bytes _ _ _ Hl Hj) as [rest Hr].
    rewrite (u32_small (m + _)) by (unfold is_u32; lia). rewrite u32_small by (unfold is_u32; lia).
    replace (m + sh_offset (shdr_at mem sy) + 24 * (0 + Z.of_nat j)) with (m + sh_offset (shdr_at mem sy) + Z.of_nat (24 * j)) by lia.
    apply (sym_at_lies mem _ _ rest Hr). rewrite Forall_forall in Hf. apply Hf. by apply list_elem_of_In, list_elem_of_lookup_2 with j.
Qed.

(** ** The whole search *)

(** The section headers, and the last ones that hold symbols and their names. *)
Definition section_addresses (m : Z) : list Z :=
  map (fun i => u32 (u32 (m + u32 (e_shoff (ehdr_at mem m))) + i * 64)) (seqZ 0 (e_shnum (ehdr_at mem m))).
Definition section_names (m : Z) : Z :=
  u32 (m + u32 (sh_offset (shdr_at mem (u32 (u32 (m + u32 (e_shoff (ehdr_at mem m))) + e_shstrndx (ehdr_at mem m) * 64))))).
Definition is_symtab (a : Z) : bool := sh_type (shdr_at mem a) =? 2.
Definition is_strtab_section (m a : Z) : bool :=
  (sh_type (shdr_at mem a) =? 3) && is_strtab mem (u32 (section_names m + sh_name (shdr_at mem a))).
Definition last_such (p : Z -> bool) (l : list Z) (none : Z) : Z := foldl (fun found a => if p a then a else found) none l.

Lemma last_such_cons p a l none : last_such p (a :: l) none = last_such p l (if p a then a else none).
Proof. done. Qed.

Lemma section_loop_gives m n : forall i sy st,
  let addr i := u32 (u32 (m + u32 (e_shoff (ehdr_at mem m))) + i * 64) in
  let l := map addr (seqZ i (Z.of_nat n)) in
  gives (section_loop mem n (u32 (m + u32 (e_shoff (ehdr_at mem m)))) (section_names m) i sy st)
    (last_such is_symtab l sy, last_such (is_strtab_section m) l st) [].
Proof.
  induction n as [|n IH]; intros i sy st; cbn zeta; cbn [section_loop]; [apply reports_ret|].
  rewrite (seqZ_cons i) by lia. replace (Z.pred (Z.of_nat (S n))) with (Z.of_nat n) by lia.
  replace (Z.succ i) with (i + 1) by lia. cbn [map]. rewrite !last_such_cons.
  cbn zeta. set (a := u32 (u32 (m + u32 (e_shoff (ehdr_at mem m))) + i * 64)).
  change (is_symtab a) with (sh_type (shdr_at mem a) =? 2).
  change (is_strtab_section m a) with
    ((sh_type (shdr_at mem a) =? 3) && is_strtab mem (u32 (section_names m + sh_name (shdr_at mem a)))).
  destruct (sh_type (shdr_at mem a) =? 2) eqn:E.
  - apply Z.eqb_eq in E. rewrite E. cbn [Z.eqb Pos.eqb andb].
    apply reports_line; [done|]. apply reports_u64_hex. apply reports_line; [done|]. apply reports_u64_hex.
    apply reports_line; [done|]. apply IH.
  - destruct ((sh_type (shdr_at mem a) =? 3) && _); [|apply IH].
    apply reports_line; [done|]. apply reports_u64_hex. apply reports_line; [done|]. apply IH.
Qed.

Definition is_elf64 (m : Z) : Prop := bytes_at mem m 5 = [0x7F; 69; 76; 70; 2].

Definition symtab_of (m : Z) : Z := last_such is_symtab (section_addresses m) 0.
Definition strtab_of (m : Z) : Z := last_such (is_strtab_section m) (section_addresses m) 0.

Lemma print_all_symbols_gives m l : is_elf64 m ->
  reports (print_symbols mem m (symtab_of m) (strtab_of m)) l -> reports (print_all_symbols_32bit mem m) l.
Proof.
  intros He Hp. unfold print_all_symbols_32bit. unfold is_elf64, bytes_at in He.
  change (seqZ 0 (Z.of_nat 5)) with [0; 1; 2; 3; 4] in He. cbn [map] in He. injection He as E0 E1 E2 E3 E4.
  unfold u8_at. cbn [load_at]. rewrite !Z.mul_0_r, !Z.add_0_r. rewrite Z.add_0_r in E0. rewrite E0, E1, E2, E3, E4.
  cbn [Z.eqb Pos.eqb negb orb]. do 4 (apply reports_line; [done|]). apply reports_u64_hex.
  do 2 (apply reports_line; [done|]). apply reports_u64_hex. apply reports_line; [done|].
  apply (reports_bind _ _ tt tt [] l).
  { case_match; [|apply reports_ret]. apply reports_kprintf. }
  assert (0 <= e_shnum (ehdr_at mem m)) by exact (proj1 (load_at_range mem 2 (m + 60))).
  pose proof (section_loop_gives m (Z.to_nat (e_shnum (ehdr_at mem m))) 0 0 0) as Hs. cbn zeta in Hs.
  rewrite Z2Nat.id in Hs by done.
  by apply (reports_bind _ _ (symtab_of m, strtab_of m) tt [] l).
Qed.
End symbols.

(** C18: For a module whose program headers are [ps], the entry point is the load address plus
    the offset (modulo 2^32) of the first segment of type 1, with its address and size, all 0
    when there is none.  For a 64-bit ELF image with the symbols [syms], the printed entry points
    are the symbols with a name, type function and binding 2: the weak functions; global
    functions, of binding 1, are not among them, and the patterns play no part. *)
Theorem module_contents {D G} mem m ps syms (d : D) (g : G) :
  (module_image mem m ps ->
     o_exit (get_entry_point_physical_simple mem m d g) =
       Done (default (mk_entry_point 0 0 0) (entry_of m <$> List.find (fun p => p_type p =? 1) ps))) /\
  (is_elf64 mem m -> symbols_image mem m (symtab_of mem m) (strtab_of mem m) syms ->
     o_exit (print_all_symbols_32bit mem m d g) = Done tt /\
     entries_in (o_events (print_all_symbols_32bit mem m d g)) = entry_names mem m (strtab_of mem m) syms /\
     (Forall (fun s => sym_bind s = 1) syms -> entries_in (o_events (print_all_symbols_32bit mem m d g)) = [])).
Proof.
  split.
  - intros Hi. by apply prints_and_exit, get_entry_point_prints.
  - intros He Hi. pose proof (print_all_symbols_gives (D:=D) (G:=G) mem m _ He (print_symbols_reports mem m _ _ syms Hi)) as Hr.
    destruct (Hr g) as (es & Hy & Hes). destruct (Hy d) as (E1 & _ & E3). rewrite E3, Hes.
    split; [done|]. split; [done|]. intros Hb. unfold entry_names.
    replace (List.filter taken syms) with (@nil elf64_sym_32bit); [done|]. clear -Hb.
    induction Hb as [|s syms Hs Hb IH]; [done|]. cbn [List.filter]. unfold taken. rewrite Hs, andb_false_r. exact IH.
Qed.

(** A module at 1 MB: two program headers, a global and a weak function, three sections. *)
Definition sample_phdrs : list elf64_phdr_64bit :=
  [mk_phdr 4 0 0x10 0 0 0 0 8; mk_phdr 1 5 0x1000 (-1 + 2 ^ 47) 0 0x200 0x200 0x1000].
Definition sample_syms : list elf64_sym_32bit :=
  [mk_elf_sym 1 0x12 0 1 0x40 0 8 0; mk_elf_sym 3 0x22 0 1 0x48 0 8 0].
Definition shdr_bytes (name type offset size : Z) : list Z :=
  le_bytes 4 name ++ le_bytes 4 type ++ le_bytes 16 0 ++ le_bytes 8 offset ++ le_bytes 8 size ++ le_bytes 24 0.
Definition sample_module : list Z :=
  [0x7F; 69; 76; 70; 2] ++ replicate 27 0 ++ le_bytes 8 64 ++ le_bytes 8 240 ++ replicate 8 0
  ++ le_bytes 2 2 ++ le_bytes 2 64 ++ le_bytes 2 3 ++ le_bytes 2 2
  ++ mjoin (map phdr_bytes sample_phdrs) ++ mjoin (map sym_bytes sample_syms)
  ++ [0; 97; 0; 98; 0] ++ Terminal.cstr ".strtab" ++ [0; 0; 0]
  ++ shdr_bytes 0 2 176 48 ++ shdr_bytes 0 3 224 5 ++ shdr_bytes 7 3 229 8.
Definition sample_mem (a : Z) : Z := nth (Z.to_nat (a - 0x100000)) sample_module 0.

(** A list lies where it can be read byte by byte. *)
Lemma lies_check mem a l :
  forallb (fun i => byte_at mem (a + Z.of_nat i) =? nth i l 0) (seq 0 (length l)) = true -> lies mem a l.
Proof.
  intros Hall i b Hi. pose proof (lookup_lt_Some _ _ _ Hi) as Hlt. rewrite forallb_forall in Hall.
  rewrite (proj1 (Z.eqb_eq _ _) (Hall i ltac:(apply in_seq; lia))). by apply nth_lookup_Some.
Qed.

Lemma sample_module_image : module_image sample_mem 0x100000 sample_phdrs.
Proof.
  split; [by vm_compute..|apply lies_check; by vm_compute|].
  repeat constructor; vm_compute; intuition discriminate.
Qed.

Lemma sample_symbols_image :
  symbols_image sample_mem 0x100000 (symtab_of sample_mem 0x100000) (strtab_of sample_mem 0x100000) sample_syms.
Proof.
  assert (symtab_of sample_mem 0x100000 = 0x1000F0) as -> by by vm_compute.
  assert (strtab_of sample_mem 0x100000 = 0x100130) as -> by by vm_compute.
  assert (sh_offset (shdr_at sample_mem 0x1000F0) = 176) as E1 by by vm_compute.
  assert (sh_offset (shdr_at sample_mem 0x100130) = 224) as E2 by by vm_compute.
  split; rewrite ?E1, ?E2; [done|done|done|by vm_compute|apply lies_check; by vm_compute|].
  repeat constructor; vm_compute; intuition discriminate.
Qed.

Lemma module_contents_witness :
  o_exit (get_entry_point_physical_simple sample_mem 0x100000 ND tt) = Done (mk_entry_point 0x101000 (-1 + 2 ^ 47) 0x200) /\
  entries_in (o_events (print_all_symbols_32bit sample_mem 0x100000 ND tt)) = [0x1000E3].
Proof.
  destruct (module_contents sample_mem 0x100000 sample_phdrs sample_syms ND tt) as [Hentry Hsyms]. split.
  - rewrite (Hentry sample_module_image). by vm_compute.
  - destruct (Hsyms ltac:(by vm_compute) sample_symbols_image) as (_ & He & _). rewrite He. by vm_compute.
Defined.
