(* ===== verification/KeyCodes.v ===== *)
(** * Key codes

    [drivers/ps2/keyboard/cpp]: the place of a key on the keyboard as a byte, the tables from
    scan codes to keys, from keys to their names and to their characters on the Canadian French
    layout, and the function that the keyboard interrupt handler reports keys to. *)

From S2P Require Import Prelude Machine Scancodes KeyboardHandler.
From Stdlib Require Import Ascii.

(** ** Keys *)

(** [struct KeyCode]: five bits right, three bits down. *)
Record KeyCode := mk_keycode { kc_right : Z; kc_down : Z }.

(** The byte that the struct is. *)
Definition keycode_byte (k : KeyCode) : Z := kc_right k + kc_down k * 2 ^ 5.
Definition keycode_of_byte (b : Z) : KeyCode := mk_keycode (b mod 2 ^ 5) (b / 2 ^ 5).

Definition pack_keycode_raw (keycode : KeyCode) : Z :=
  u8 ((kc_down keycode ≪ 5) .| (kc_right keycode .& 0x1F)).

(** [enum class Key] *)
Definition Key : list (string * Z) :=
  let key right down := pack_keycode_raw (mk_keycode right down) in
  [
    ("KEY_ESC", key 0 0); ("KEY_F1", key 1 0); ("KEY_F2", key 2 0); ("KEY_F3", key 3 0);
    ("KEY_F4", key 4 0); ("KEY_F5", key 5 0); ("KEY_F6", key 6 0); ("KEY_F7", key 7 0);
    ("KEY_F8", key 8 0); ("KEY_F9", key 9 0); ("KEY_F10", key 10 0); ("KEY_F11", key 11 0);
    ("KEY_F12", key 12 0); ("KEY_PRINTSCR", key 13 0); ("KEY_SCROLLLOCK", key 14 0);
    ("KEY_PAUSE", key 15 0); ("KEY_BACKTICK", key 0 1); ("KEY_1", key 1 1); ("KEY_2", key 2 1);
    ("KEY_3", key 3 1); ("KEY_4", key 4 1); ("KEY_5", key 5 1); ("KEY_6", key 6 1);
    ("KEY_7", key 7 1); ("KEY_8", key 8 1); ("KEY_9", key 9 1); ("KEY_0", key 10 1);
    ("KEY_MINUS", key 11 1); ("KEY_EQUALS", key 12 1); ("KEY_BACKSPACE", key 13 1);
    ("KEY_INSERT", key 14 1); ("KEY_HOME", key 15 1); ("KEY_PAGEUP", key 16 1);
    ("KEY_NUMLOCK", key 17 1); ("KEY_KP_DIVIDE", key 18 1); ("KEY_KP_MULTIPLY", key 19 1);
    ("KEY_KP_MINUS", key 20 1); ("KEY_TAB", key 0 2); ("KEY_Q", key 1 2); ("KEY_W", key 2 2);
    ("KEY_E", key 3 2); ("KEY_R", key 4 2); ("KEY_T", key 5 2); ("KEY_Y", key 6 2);
    ("KEY_U", key 7 2); ("KEY_I", key 8 2); ("KEY_O", key 9 2); ("KEY_P", key 10 2);
    ("KEY_LEFTBRACKET", key 11 2); ("KEY_RIGHTBRACKET", key 12 2); ("KEY_BACKSLASH", key 13 2);
    ("KEY_DELETE", key 14 2); ("KEY_END", key 15 2); ("KEY_PAGEDOWN", key 16 2);
    ("KEY_KP_7", key 17 2); ("KEY_KP_8", key 18 2); ("KEY_KP_9", key 19 2);
    ("KEY_KP_PLUS", key 20 2); ("KEY_CAPSLOCK", key 0 3); ("KEY_A", key 1 3); ("KEY_S", key 2 3);
    ("KEY_D", key 3 3); ("KEY_F", key 4 3); ("KEY_G", key 5 3); ("KEY_H", key 6 3);
    ("KEY_J", key 7 3); ("KEY_K", key 8 3); ("KEY_L", key 9 3); ("KEY_SEMICOLON", key 10 3);
    ("KEY_QUOTE", key 11 3); ("KEY_ENTER", key 12 3); ("KEY_KP_4", key 13 3);
    ("KEY_KP_5", key 14 3); ("KEY_KP_6", key 15 3); ("KEY_LEFTSHIFT", key 0 4);
    ("KEY_Z", key 1 4); ("KEY_X", key 2 4); ("KEY_C", key 3 4); ("KEY_V", key 4 4);
    ("KEY_B", key 5 4); ("KEY_N", key 6 4); ("KEY_M", key 7 4); ("KEY_COMMA", key 8 4);
    ("KEY_PERIOD", key 9 4); ("KEY_SLASH", key 10 4); ("KEY_RIGHTSHIFT", key 11 4);
    ("KEY_UP", key 12 4); ("KEY_KP_1", key 13 4); ("KEY_KP_2", key 14 4); ("KEY_KP_3", key 15 4);
    ("KEY_KP_ENTER", key 16 4); ("KEY_LEFTCTRL", key 0 5); ("KEY_LEFTMETA", key 1 5);
    ("KEY_LEFTALT", key 2 5); ("KEY_SPACE", key 3 5); ("KEY_RIGHTALT", key 4 5);
    ("KEY_RIGHTMETA", key 5 5); ("KEY_MENU", key 6 5); ("KEY_RIGHTCTRL", key 7 5);
    ("KEY_LEFT", key 8 5); ("KEY_DOWN", key 9 5); ("KEY_RIGHT", key 10 5); ("KEY_KP_0", key 11 5);
    ("KEY_KP_DECIMAL", key 12 5); ("KEY_POWER", key 0 6); ("KEY_SLEEP", key 1 6);
    ("KEY_WAKE", key 2 6); ("KEY_MEDIA_PLAY", key 3 6); ("KEY_MEDIA_STOP", key 4 6);
    ("KEY_MEDIA_PREV", key 5 6); ("KEY_MEDIA_NEXT", key 6 6); ("KEY_VOLUME_UP", key 7 6);
    ("KEY_VOLUME_DOWN", key 8 6); ("KEY_VOLUME_MUTE", key 9 6); ("KEY_BRIGHTNESS_UP", key 10 6);
    ("KEY_BRIGHTNESS_DOWN", key 11 6); ("KEY_CALCULATOR", key 12 6); ("KEY_WWW_HOME", key 13 6);
    ("KEY_WWW_SEARCH", key 14 6); ("KEY_WWW_FAVORITES", key 15 6); ("KEY_WWW_REFRESH", key 16 6);
    ("KEY_WWW_STOP", key 17 6); ("KEY_WWW_FORWARD", key 18 6); ("KEY_WWW_BACK", key 19 6);
    ("KEY_MY_COMPUTER", key 20 6); ("KEY_EMAIL", key 0 7); ("KEY_MEDIA_SELECT", key 1 7);
    ("KEY_F15", key 2 7); ("KEY_F16", key 3 7); ("KEY_F17", key 4 7); ("KEY_F18", key 5 7);
    ("KEY_F19", key 6 7); ("KEY_F20", key 7 7); ("KEY_F21", key 8 7); ("KEY_F22", key 9 7);
    ("KEY_F23", key 10 7); ("KEY_F24", key 11 7); ("KEY_NONE", 0xFF); ("KEY_ANY", 0xFE);
    ("KEY_INVALID", 0xFD); ("KEY_UNKNOWN", 0xFC)
  ].

(** [Key::name] *)
Definition key_of (name : string) : option Z :=
  snd <$> List.find (fun e => bool_decide (fst e = name)) Key.

Definition unpack_keycode (key : Z) : KeyCode := mk_keycode (key .& 0x1F) ((key ≫ 5) .& 0x07).

Definition pack_keycode (keycode : KeyCode) : Z :=
  u8 ((kc_down keycode ≪ 5) .| (kc_right keycode .& 0x1F)).

Definition is_modifier (key : Z) : bool :=
  existsb (fun name => bool_decide (key_of name = Some key))
    ["KEY_LEFTSHIFT"; "KEY_RIGHTSHIFT"; "KEY_LEFTCTRL"; "KEY_RIGHTCTRL"; "KEY_LEFTALT";
     "KEY_RIGHTALT"; "KEY_LEFTMETA"; "KEY_RIGHTMETA"; "KEY_CAPSLOCK"; "KEY_NUMLOCK";
     "KEY_SCROLLLOCK"].

(** ** The globals *)

Record KeyCharInfo := mk_char_info {
  ci_normal : Z; ci_shift : Z; ci_caps : Z; ci_altgr : Z;
  ci_is_letter : bool; ci_is_printable : bool; ci_is_altgr_able : bool;
}.

Inductive KeyboardMode := Typing | Testing | Application | TypingApplication.
#[export] Instance KeyboardMode_eq : EqDecision KeyboardMode.
Proof. solve_decision. Defined.

Definition SCANCODE_COUNT : Z := 128.
Definition KEYCODE_COUNT : Z := 256.

(** Static objects start as zeros; a null pointer in [key_strings] is [None]. *)
Record keycode_globals := mk_keycode_globals {
  ScanToKeyCode : list KeyCode;
  ExtendedScanToKeyCode : list KeyCode;
  key_strings : list (option string);
  KEY_CHAR_TABLE : list KeyCharInfo;
  keyboard_mode : KeyboardMode;
}.
Definition keycode_boot : keycode_globals :=
  mk_keycode_globals (repeat (mk_keycode 0 0) (Z.to_nat SCANCODE_COUNT))
    (repeat (mk_keycode 0 0) (Z.to_nat SCANCODE_COUNT)) (repeat None 256)
    (repeat (mk_char_info 0 0 0 0 false false false) (Z.to_nat KEYCODE_COUNT)) Typing.

Definition set_scan_tables (plain extended : list KeyCode) (g : keycode_globals) :=
  mk_keycode_globals plain extended (key_strings g) (KEY_CHAR_TABLE g) (keyboard_mode g).
Definition set_key_strings (l : list (option string)) (g : keycode_globals) :=
  mk_keycode_globals (ScanToKeyCode g) (ExtendedScanToKeyCode g) l (KEY_CHAR_TABLE g) (keyboard_mode g).
Definition set_char_table (l : list KeyCharInfo) (g : keycode_globals) :=
  mk_keycode_globals (ScanToKeyCode g) (ExtendedScanToKeyCode g) (key_strings g) l (keyboard_mode g).
Definition set_keyboard_mode (m : KeyboardMode) (g : keycode_globals) :=
  mk_keycode_globals (ScanToKeyCode g) (ExtendedScanToKeyCode g) (key_strings g) (KEY_CHAR_TABLE g) m.

(** Assignments to elements of an array, in order; [None] when an index is out of bounds. *)
Fixpoint write_all {A} (l : list A) (writes : list (option Z * A)) : option (list A) :=
  match writes with
  | [] => Some l
  | (i, a) :: writes =>
      i ← i; l !! Z.to_nat i ≫= fun _ => write_all (<[Z.to_nat i := a]> l) writes
  end.

(** ** The tables *)

(** [SC_name] and [SCE_name]: the code of a name in the table of scan codes. *)
Definition code_of (table : list (string * Z)) (name : string) : option Z :=
  snd <$> List.find (fun e => bool_decide (fst e = name)) table.

(** The assignments [ScanToKeyCode[SC_name] = unpack_keycode(Key::key)]. *)
Definition scan_keys : list (string * string) :=
  [
    ("ESCAPE", "KEY_ESC"); ("F1", "KEY_F1"); ("F2", "KEY_F2"); ("F3", "KEY_F3"); ("F4", "KEY_F4");
    ("F5", "KEY_F5"); ("F6", "KEY_F6"); ("F7", "KEY_F7"); ("F8", "KEY_F8"); ("F9", "KEY_F9");
    ("F10", "KEY_F10"); ("F11", "KEY_F11"); ("F12", "KEY_F12"); ("SCROLLLOCK", "KEY_SCROLLLOCK");
    ("BACKTICK", "KEY_BACKTICK"); ("1", "KEY_1"); ("2", "KEY_2"); ("3", "KEY_3"); ("4", "KEY_4");
    ("5", "KEY_5"); ("6", "KEY_6"); ("7", "KEY_7"); ("8", "KEY_8"); ("9", "KEY_9");
    ("0", "KEY_0"); ("MINUS", "KEY_MINUS"); ("EQUALS", "KEY_EQUALS");
    ("BACKSPACE", "KEY_BACKSPACE"); ("NUMLOCK", "KEY_NUMLOCK");
    ("KP_ASTERISK", "KEY_KP_MULTIPLY"); ("KP_MINUS", "KEY_KP_MINUS"); ("TAB", "KEY_TAB");
    ("Q", "KEY_Q"); ("W", "KEY_W"); ("E", "KEY_E"); ("R", "KEY_R"); ("T", "KEY_T");
    ("Y", "KEY_Y"); ("U", "KEY_U"); ("I", "KEY_I"); ("O", "KEY_O"); ("P", "KEY_P");
    ("LBRACKET", "KEY_LEFTBRACKET"); ("RBRACKET", "KEY_RIGHTBRACKET");
    ("BACKSLASH", "KEY_BACKSLASH"); ("KP_7", "KEY_KP_7"); ("KP_8", "KEY_KP_8");
    ("KP_9", "KEY_KP_9"); ("KP_PLUS", "KEY_KP_PLUS"); ("CAPSLOCK", "KEY_CAPSLOCK");
    ("A", "KEY_A"); ("S", "KEY_S"); ("D", "KEY_D"); ("F", "KEY_F"); ("G", "KEY_G");
    ("H", "KEY_H"); ("J", "KEY_J"); ("K", "KEY_K"); ("L", "KEY_L");
    ("SEMICOLON", "KEY_SEMICOLON"); ("QUOTE", "KEY_QUOTE"); ("ENTER", "KEY_ENTER");
    ("KP_4", "KEY_KP_4"); ("KP_5", "KEY_KP_5"); ("KP_6", "KEY_KP_6");
    ("LEFT_SHIFT", "KEY_LEFTSHIFT"); ("Z", "KEY_Z"); ("X_", "KEY_X"); ("C", "KEY_C");
    ("V", "KEY_V"); ("B", "KEY_B"); ("N", "KEY_N"); ("M", "KEY_M"); ("COMMA", "KEY_COMMA");
    ("DOT", "KEY_PERIOD"); ("SLASH", "KEY_SLASH"); ("RIGHT_SHIFT", "KEY_RIGHTSHIFT");
    ("KP_1", "KEY_KP_1"); ("KP_2", "KEY_KP_2"); ("KP_3", "KEY_KP_3");
    ("LEFT_CTRL", "KEY_LEFTCTRL"); ("LEFT_ALT", "KEY_LEFTALT"); ("SPACE", "KEY_SPACE");
    ("KP_0", "KEY_KP_0"); ("KP_DOT", "KEY_KP_DECIMAL")
  ].

(** The assignments [ExtendedScanToKeyCode[SCE_name] = unpack_keycode(Key::key)]. *)
Definition extended_scan_keys : list (string * string) :=
  [
    ("INSERT", "KEY_INSERT"); ("HOME", "KEY_HOME"); ("PAGE_UP", "KEY_PAGEUP");
    ("KP_SLASH", "KEY_KP_DIVIDE"); ("DELETE", "KEY_DELETE"); ("END", "KEY_END");
    ("PAGE_DOWN", "KEY_PAGEDOWN"); ("UP", "KEY_UP"); ("KP_ENTER", "KEY_KP_ENTER");
    ("LEFT_META", "KEY_LEFTMETA"); ("RIGHT_ALT", "KEY_RIGHTALT"); ("RIGHT_META", "KEY_RIGHTMETA");
    ("APPS", "KEY_MENU"); ("RIGHT_CTRL", "KEY_RIGHTCTRL"); ("LEFT", "KEY_LEFT");
    ("DOWN", "KEY_DOWN"); ("RIGHT", "KEY_RIGHT"); ("PREV_TRACK", "KEY_MEDIA_PREV");
    ("NEXT_TRACK", "KEY_MEDIA_NEXT"); ("PLAY", "KEY_MEDIA_PLAY"); ("STOP", "KEY_MEDIA_STOP");
    ("MUTE", "KEY_VOLUME_MUTE"); ("VOLUME_UP", "KEY_VOLUME_UP");
    ("VOLUME_DOWN", "KEY_VOLUME_DOWN"); ("CALCULATOR", "KEY_CALCULATOR");
    ("WWW_HOME", "KEY_WWW_HOME"); ("WWW_SEARCH", "KEY_WWW_SEARCH");
    ("WWW_FAVORITES", "KEY_WWW_FAVORITES"); ("WWW_REFRESH", "KEY_WWW_REFRESH");
    ("WWW_STOP", "KEY_WWW_STOP"); ("WWW_FORWARD", "KEY_WWW_FORWARD");
    ("WWW_BACK", "KEY_WWW_BACK"); ("MY_COMPUTER", "KEY_MY_COMPUTER"); ("EMAIL", "KEY_EMAIL");
    ("MEDIA_SELECT", "KEY_MEDIA_SELECT"); ("POWER", "KEY_POWER"); ("SLEEP", "KEY_SLEEP");
    ("WAKE", "KEY_WAKE")
  ].

(** The assignments [key_strings[static_cast<uint8_t>(Key::name)] = "name"]. *)
Definition named_keys : list string :=
  [
    "KEY_ESC"; "KEY_F1"; "KEY_F2"; "KEY_F3"; "KEY_F4"; "KEY_F5"; "KEY_F6"; "KEY_F7"; "KEY_F8";
    "KEY_F9"; "KEY_F10"; "KEY_F11"; "KEY_F12"; "KEY_PRINTSCR"; "KEY_SCROLLLOCK"; "KEY_PAUSE";
    "KEY_BACKTICK"; "KEY_1"; "KEY_2"; "KEY_3"; "KEY_4"; "KEY_5"; "KEY_6"; "KEY_7"; "KEY_8";
    "KEY_9"; "KEY_0"; "KEY_MINUS"; "KEY_EQUALS"; "KEY_BACKSPACE"; "KEY_INSERT"; "KEY_HOME";
    "KEY_PAGEUP"; "KEY_NUMLOCK"; "KEY_KP_DIVIDE"; "KEY_KP_MULTIPLY"; "KEY_KP_MINUS"; "KEY_TAB";
    "KEY_Q"; "KEY_W"; "KEY_E"; "KEY_R"; "KEY_T"; "KEY_Y"; "KEY_U"; "KEY_I"; "KEY_O"; "KEY_P";
    "KEY_LEFTBRACKET"; "KEY_RIGHTBRACKET"; "KEY_BACKSLASH"; "KEY_DELETE"; "KEY_END";
    "KEY_PAGEDOWN"; "KEY_KP_7"; "KEY_KP_8"; "KEY_KP_9"; "KEY_KP_PLUS"; "KEY_CAPSLOCK"; "KEY_A";
    "KEY_S"; "KEY_D"; "KEY_F"; "KEY_G"; "KEY_H"; "KEY_J"; "KEY_K"; "KEY_L"; "KEY_SEMICOLON";
    "KEY_QUOTE"; "KEY_ENTER"; "KEY_KP_4"; "KEY_KP_5"; "KEY_KP_6"; "KEY_LEFTSHIFT"; "KEY_Z";
    "KEY_X"; "KEY_C"; "KEY_V"; "KEY_B"; "KEY_N"; "KEY_M"; "KEY_COMMA"; "KEY_PERIOD"; "KEY_SLASH";
    "KEY_RIGHTSHIFT"; "KEY_UP"; "KEY_KP_1"; "KEY_KP_2"; "KEY_KP_3"; "KEY_KP_ENTER";
    "KEY_LEFTCTRL"; "KEY_LEFTMETA"; "KEY_LEFTALT"; "KEY_SPACE"; "KEY_RIGHTALT"; "KEY_RIGHTMETA";
    "KEY_MENU"; "KEY_RIGHTCTRL"; "KEY_LEFT"; "KEY_DOWN"; "KEY_RIGHT"; "KEY_KP_0";
    "KEY_KP_DECIMAL"; "KEY_POWER"; "KEY_SLEEP"; "KEY_WAKE"; "KEY_MEDIA_PLAY"; "KEY_MEDIA_STOP";
    "KEY_MEDIA_PREV"; "KEY_MEDIA_NEXT"; "KEY_VOLUME_UP"; "KEY_VOLUME_DOWN"; "KEY_VOLUME_MUTE";
    "KEY_BRIGHTNESS_UP"; "KEY_BRIGHTNESS_DOWN"; "KEY_CALCULATOR"; "KEY_WWW_HOME";
    "KEY_WWW_SEARCH"; "KEY_WWW_FAVORITES"; "KEY_WWW_REFRESH"; "KEY_WWW_STOP"; "KEY_WWW_FORWARD";
    "KEY_WWW_BACK"; "KEY_MY_COMPUTER"; "KEY_EMAIL"; "KEY_MEDIA_SELECT"; "KEY_F15"; "KEY_F16";
    "KEY_F17"; "KEY_F18"; "KEY_F19"; "KEY_F20"; "KEY_F21"; "KEY_F22"; "KEY_F23"; "KEY_F24";
    "KEY_NONE"; "KEY_ANY"; "KEY_INVALID"; "KEY_UNKNOWN"
  ].

Definition chr (c : Ascii.ascii) : Z := Z.of_nat (Ascii.nat_of_ascii c).
Arguments chr c%_char_scope.

(** The assignments [KEY_CHAR_TABLE[static_cast<uint8_t>(Key::name)] = {...}]. *)
Definition key_chars : list (string * KeyCharInfo) :=
  [
    ("KEY_1", mk_char_info (chr "1") (chr "!") (chr "1") (chr " ") false true false);
    ("KEY_2", mk_char_info (chr "2") 34 (chr "2") (chr "@") false true true);
    ("KEY_3", mk_char_info (chr "3") (chr "/") (chr "3") (chr " ") false true false);
    ("KEY_4", mk_char_info (chr "4") (chr "$") (chr "4") (chr " ") false true false);
    ("KEY_5", mk_char_info (chr "5") (chr "%") (chr "5") (chr " ") false true false);
    ("KEY_6", mk_char_info (chr "6") (chr "?") (chr "6") (chr " ") false true false);
    ("KEY_7", mk_char_info (chr "7") (chr "&") (chr "7") (chr " ") false true false);
    ("KEY_8", mk_char_info (chr "8") (chr "*") (chr "8") (chr " ") false true false);
    ("KEY_9", mk_char_info (chr "9") (chr "(") (chr "9") (chr " ") false true false);
    ("KEY_0", mk_char_info (chr "0") (chr ")") (chr "0") (chr " ") false true false);
    ("KEY_A", mk_char_info (chr "a") (chr "A") (chr "A") (chr " ") true true false);
    ("KEY_B", mk_char_info (chr "b") (chr "B") (chr "B") (chr " ") true true false);
    ("KEY_C", mk_char_info (chr "c") (chr "C") (chr "C") (chr " ") true true false);
    ("KEY_D", mk_char_info (chr "d") (chr "D") (chr "D") (chr " ") true true false);
    ("KEY_E", mk_char_info (chr "e") (chr "E") (chr "E") (chr " ") true true false);
    ("KEY_F", mk_char_info (chr "f") (chr "F") (chr "F") (chr " ") true true false);
    ("KEY_G", mk_char_info (chr "g") (chr "G") (chr "G") (chr " ") true true false);
    ("KEY_H", mk_char_info (chr "h") (chr "H") (chr "H") (chr " ") true true false);
    ("KEY_I", mk_char_info (chr "i") (chr "I") (chr "I") (chr " ") true true false);
    ("KEY_J", mk_char_info (chr "j") (chr "J") (chr "J") (chr " ") true true false);
    ("KEY_K", mk_char_info (chr "k") (chr "K") (chr "K") (chr " ") true true false);
    ("KEY_L", mk_char_info (chr "l") (chr "L") (chr "L") (chr " ") true true false);
    ("KEY_M", mk_char_info (chr "m") (chr "M") (chr "M") (chr " ") true true false);
    ("KEY_N", mk_char_info (chr "n") (chr "N") (chr "N") (chr " ") true true false);
    ("KEY_O", mk_char_info (chr "o") (chr "O") (chr "O") (chr " ") true true false);
    ("KEY_P", mk_char_info (chr "p") (chr "P") (chr "P") (chr " ") true true false);
    ("KEY_Q", mk_char_info (chr "q") (chr "Q") (chr "Q") (chr " ") true true false);
    ("KEY_R", mk_char_info (chr "r") (chr "R") (chr "R") (chr " ") true true false);
    ("KEY_S", mk_char_info (chr "s") (chr "S") (chr "S") (chr " ") true true false);
    ("KEY_T", mk_char_info (chr "t") (chr "T") (chr "T") (chr " ") true true false);
    ("KEY_U", mk_char_info (chr "u") (chr "U") (chr "U") (chr " ") true true false);
    ("KEY_V", mk_char_info (chr "v") (chr "V") (chr "V") (chr " ") true true false);
    ("KEY_W", mk_char_info (chr "w") (chr "W") (chr "W") (chr " ") true true false);
    ("KEY_X", mk_char_info (chr "x") (chr "X") (chr "X") (chr " ") true true false);
    ("KEY_Y", mk_char_info (chr "y") (chr "Y") (chr "Y") (chr " ") true true false);
    ("KEY_Z", mk_char_info (chr "z") (chr "Z") (chr "Z") (chr " ") true true false);
    ("KEY_BACKTICK", mk_char_info (chr "#") (chr "|") (chr "#") 92 false true true);
    ("KEY_MINUS", mk_char_info (chr "-") (chr "_") (chr "-") (chr " ") false true false);
    ("KEY_EQUALS", mk_char_info (chr "=") (chr "+") (chr "=") (chr " ") false true false);
    ("KEY_LEFTBRACKET", mk_char_info (chr "^") (chr "^") (chr "^") (chr "[") false true true);
    ("KEY_RIGHTBRACKET", mk_char_info (chr "]") (chr "]") (chr "]") (chr "]") false true true);
    ("KEY_BACKSLASH", mk_char_info (chr "<") (chr ">") (chr "<") (chr "}") false true true);
    ("KEY_SEMICOLON", mk_char_info (chr ";") (chr ":") (chr ";") (chr "~") false true true);
    ("KEY_QUOTE", mk_char_info (chr "`") (chr "`") (chr "`") (chr "{") false true true);
    ("KEY_COMMA", mk_char_info (chr ",") 39 (chr ",") (chr " ") false true false);
    ("KEY_PERIOD", mk_char_info (chr ".") (chr ".") (chr ".") (chr " ") false true false);
    ("KEY_SLASH", mk_char_info (chr "/") (chr "/") (chr "/") (chr " ") false true false);
    ("KEY_SPACE", mk_char_info (chr " ") (chr " ") (chr " ") (chr " ") false true false);
    ("KEY_TAB", mk_char_info 9 9 9 (chr " ") false true false);
    ("KEY_ENTER", mk_char_info 10 10 10 (chr " ") false true false)
  ].

Definition KEY_INVALID : Z := 0xFD.

(** The array elements that a table of scan codes assigns. *)
Definition scan_writes (codes : list (string * Z)) (table : list (string * string)) :
    list (option Z * KeyCode) :=
  map (fun e => (code_of codes (fst e), unpack_keycode (default KEY_INVALID (key_of (snd e))))) table.

Section keycodes.
Context {D : Type}.
Local Abbreviation K A := (M D keycode_globals A).

Definition init_scancodes_to_keycodes : K unit :=
  let invalid := unpack_keycode KEY_INVALID in
  for_range (Z.to_nat SCANCODE_COUNT) 0 (fun i =>
    modify (fun g => set_scan_tables (<[Z.to_nat i := invalid]> (ScanToKeyCode g))
      (<[Z.to_nat i := invalid]> (ExtendedScanToKeyCode g)) g));;
  g ← get;
  plain ← read_cell (write_all (ScanToKeyCode g) (scan_writes SCANCODES scan_keys));
  extended ← read_cell (write_all (ExtendedScanToKeyCode g)
    (scan_writes EXTENDED_SCANCODES extended_scan_keys));
  modify (set_scan_tables plain extended).

Definition initialize_keycodes_name_converter : K unit :=
  for_range 256 0 (fun i =>
    modify (fun g => set_key_strings (<[Z.to_nat i := Some "UNKNOWN"%string]> (key_strings g)) g));;
  g ← get;
  strings ← read_cell (write_all (key_strings g) (map (fun name => (key_of name, Some name)) named_keys));
  modify (set_key_strings strings).

Definition init_key_char_table : K unit :=
  for_range (Z.to_nat KEYCODE_COUNT) 0 (fun i =>
    modify (fun g => set_char_table
      (<[Z.to_nat i := mk_char_info 0 0 0 0 false false false]> (KEY_CHAR_TABLE g)) g));;
  g ← get;
  chars ← read_cell (write_all (KEY_CHAR_TABLE g) (map (fun e => (key_of (fst e), snd e)) key_chars));
  modify (set_char_table chars).

Definition ps2_keyboard_cpp_init : K unit :=
  init_key_char_table;;
  init_scancodes_to_keycodes;;
  initialize_keycodes_name_converter;;
  modify (set_keyboard_mode Testing).

(** ** Lookups

    [KeyCodes] has the functions; [KeyboardHandler] takes those from codes to key codes as a
    record. *)

Definition scancode_to_keycode (scancode : Z) : K KeyCode :=
  g ← get; read_cell (ScanToKeyCode g !! Z.to_nat scancode).
Definition extended_scancode_to_keycode (extended_scancode : Z) : K KeyCode :=
  g ← get; read_cell (ExtendedScanToKeyCode g !! Z.to_nat extended_scancode).
Definition pause_to_keycode : KeyCode := unpack_keycode (default KEY_INVALID (key_of "KEY_PAUSE")).
Definition print_screen_to_keycode : KeyCode :=
  unpack_keycode (default KEY_INVALID (key_of "KEY_PRINTSCR")).

Definition key_to_string (key : Z) : K string :=
  g ← get; s ← read_cell (key_strings g !! Z.to_nat key); read_cell s.

Definition get_char_info (key : Z) : K KeyCharInfo :=
  g ← get; read_cell (KEY_CHAR_TABLE g !! Z.to_nat key).
Definition is_printable (key : Z) : K bool := i ← get_char_info key; mret (ci_is_printable i).
Definition is_letter (key : Z) : K bool := i ← get_char_info key; mret (ci_is_letter i).
Definition is_altgr_able (key : Z) : K bool := i ← get_char_info key; mret (ci_is_altgr_able i).

(** The character of a key whose table entry is [info]. *)
Definition char_of_info (info : KeyCharInfo) (mods : KeyModifierState) : Z :=
  if negb (ci_is_printable info) then 0
  else if negb (ci_is_altgr_able info) && altgr mods then 0
  else if left_ctrl mods || right_ctrl mods || left_meta mods || right_meta mods || alt mods then 0
  else
    let shift := left_shift mods || right_shift mods in
    let caps := capslock mods in
    if ci_is_letter info then
      if shift && caps then ci_normal info
      else if caps then ci_caps info
      else if shift then ci_shift info
      else ci_normal info
    else
      if altgr mods then ci_altgr info
      else if shift then ci_shift info
      else ci_normal info.

Definition key_to_char (key : Z) (mods : KeyModifierState) : K Z :=
  info ← get_char_info key; mret (char_of_info info mods).

(** ** The handler of key codes *)

Definition keycode_handler (keycode : KeyCode) (mod_state : KeyModifierState)
    (first_press press_not_released : bool) : K unit :=
  let key := pack_keycode keycode in
  let report fmt :=
    name ← key_to_string key;
    kprintf fmt [PNum (kc_down keycode); PNum (kc_right keycode); PStr name] in
  mode ← gets keyboard_mode;
  if decide (mode = Testing) then
    if (key =? KEY_INVALID) || (key =? 0xFF) || (key =? 0xFC) then
      report "[Invalid     ] keycode = (%u, %u) = %s\n"%string
    else if first_press then report "[FIRST PRESS ] keycode = (%u, %u) = %s\n"%string
    else if press_not_released then report "[REPEAT PRESS] keycode = (%u, %u) = %s\n"%string
    else report "[Release     ] keycode = (%u, %u) = %s\n"%string
  else if decide (mode = Typing) then
    if negb press_not_released then mret tt
    else
      printable ← is_printable key;
      if (printable : bool) then
        write_char ← key_to_char key mod_state;
        kprintf "%c" [PNum write_char]
      else mret tt
  else mret tt.
End keycodes.

(** What the interrupt handler is given. *)
Definition keycode_functions_of (g : keycode_globals) : keycode_functions :=
  let read table code := keycode_byte (default (unpack_keycode KEY_INVALID) (table !! Z.to_nat code)) in
  mk_keycodes (read (ScanToKeyCode g)) (read (ExtendedScanToKeyCode g))
    (keycode_byte print_screen_to_keycode) (keycode_byte pause_to_keycode).

(** A call [keycode_handler(keycode, mods, first_press, press_not_released)], with the struct
    arguments as their numbers. *)
Definition mods_of_args (l : list Z) : option KeyModifierState :=
  match l with
  | [a; b; c; d; e; f; g; h; i; j; k] =>
      let bit z := negb (z =? 0) in
      Some (mk_mods (bit a) (bit b) (bit c) (bit d) (bit e) (bit f) (bit g) (bit h) (bit i) (bit j) (bit k))
  | _ => None
  end.
Definition dispatch {D} (e : event) : M D keycode_globals unit :=
  match e with
  | ECall _ (keycode :: args) =>
      match mods_of_args (take 11 args), drop 11 args with
      | Some m, [first; pressed] =>
          keycode_handler (keycode_of_byte keycode) m (negb (first =? 0)) (negb (pressed =? 0))
      | _, _ => mret tt
      end
  | _ => mret tt
  end.
