(* ===== verification/KeyCodesFacts.v ===== *)
(** * Facts about key codes

    Packing is a bijection; the tables that the initialisation fills give every scan code its
    own key and every key its name; the characters of the layout.  Together with the interrupt
    handler: what the scan codes of strokes on the printed keyboard print. *)

From Stdlib Require Import Ascii.
From S2P Require Import Prelude Machine BitStruct Ps2Types Ps2Controller Sim8042 Keyboard Scancodes.
From S2P Require Import KeyboardHandler KeyboardHandlerFacts KeyCodes.

(** ** Packing *)

Definition keycode_ok (k : KeyCode) : Prop := 0 <= kc_right k < 2 ^ 5 /\ 0 <= kc_down k < 2 ^ 3.

Lemma unpack_pack_byte : forall k, is_u8 k ->
  pack_keycode (unpack_keycode k) = k /\ keycode_byte (unpack_keycode k) = k /\
  keycode_of_byte k = unpack_keycode k /\ keycode_ok (unpack_keycode k).
Proof.
  set (P := fun k => (pack_keycode (unpack_keycode k) =? k) && (keycode_byte (unpack_keycode k) =? k) &&
    (kc_right (unpack_keycode k) =? k mod 2 ^ 5) && (kc_down (unpack_keycode k) =? k / 2 ^ 5)).
  intros k Hk. pose proof (byte_forall P eq_refl k Hk) as HP. unfold P in HP.
  rewrite !andb_true_iff, !Z.eqb_eq in HP. destruct HP as [[[H1 H2] H3] H4].
  unfold keycode_of_byte, keycode_ok. rewrite <- H3, <- H4. repeat split; try done.
  all: unfold is_u8 in Hk; rewrite ?H3, ?H4.
  - by apply Z.mod_pos_bound.
  - by apply Z.mod_pos_bound.
  - apply Z.div_pos; lia.
  - apply Z.div_lt_upper_bound; lia.
Qed.

Lemma pack_is_byte k : keycode_ok k -> pack_keycode k = keycode_byte k.
Proof.
  intros [Hr Hd]. unfold pack_keycode, keycode_byte. change 0x1F with (Z.ones 5).
  rewrite Z.land_ones, Z.mod_small, Z.lor_comm, lor_shiftl_add, Z.mul_comm by lia.
  apply u8_small. unfold is_u8. lia.
Qed.

Lemma keycode_pack_unpack k : keycode_ok k -> unpack_keycode (pack_keycode k) = k.
Proof.
  intros Hk. pose proof Hk as [Hr Hd]. rewrite (pack_is_byte k Hk).
  destruct (unpack_pack_byte (keycode_byte k)) as (_ & _ & <- & _).
  { unfold is_u8, keycode_byte. lia. }
  unfold keycode_of_byte, keycode_byte. destruct k as [r d]. cbn [kc_right kc_down] in *. f_equal.
  - by rewrite Z.mod_add, Z.mod_small by lia.
  - by rewrite Z.div_add, Z.div_small by lia.
Qed.

Lemma key_of_In name k : key_of name = Some k -> In (name, k) Key.
Proof.
  unfold key_of. intros H. apply fmap_Some in H as ([n k'] & He & ->).
  apply List.find_some in He as [Hin He]. apply bool_decide_eq_true in He. by subst name.
Qed.

(** The packed key is the byte of the struct, packing and unpacking are inverse to each other on
    all bytes, and the enumerators of [Key] are different keys. *)
Theorem keycode_packing :
  (forall k, is_u8 k -> pack_keycode (unpack_keycode k) = k /\ keycode_of_byte k = unpack_keycode k) /\
  (forall k, keycode_ok k -> unpack_keycode (pack_keycode k) = k /\ pack_keycode k = keycode_byte k) /\
  NoDup (map snd Key) /\ (forall name, is_Some (key_of name) <-> name ∈ map fst Key).
Proof.
  split; [|split; [|split]].
  - intros k Hk. destruct (unpack_pack_byte k Hk) as (? & _ & ? & _). done.
  - intros k Hk. split; [by apply keycode_pack_unpack|by apply pack_is_byte].
  - apply (bool_decide_unpack (NoDup (map snd Key))). vm_compute. exact I.
  - intros name. split.
    + intros [k Hk]. apply key_of_In in Hk. apply list_elem_of_fmap. exists (name, k).
      split; [done|]. by apply list_elem_of_In.
    + intros Hin. apply list_elem_of_fmap in Hin as (e & -> & Hin). unfold key_of.
      rewrite fmap_is_Some. destruct (List.find _ Key) as [e'|] eqn:Hf; [by exists e'|].
      apply list_elem_of_In in Hin. by apply (List.find_none _ _ Hf), bool_decide_eq_false in Hin.
Qed.

(** ** The tables after the initialisation *)

Definition keycode_tables : keycode_globals := o_glob (ps2_keyboard_cpp_init ND keycode_boot).

(** [vm_compute] once: the tables themselves. *)
Lemma init_yields {D} : returns (ps2_keyboard_cpp_init : M D _ _) keycode_boot tt keycode_tables.
Proof. intros d. vm_compute. done. Qed.

#[local] Opaque keycode_tables.

Definition key_at (table : list KeyCode) (code : Z) : option Z :=
  pack_keycode <$> table !! Z.to_nat code.

(** The names of codes and keys are spelt differently. *)
Definition spellings : list (string * string) :=
  [ ("ESCAPE", "ESC"); ("LBRACKET", "LEFTBRACKET"); ("RBRACKET", "RIGHTBRACKET"); ("DOT", "PERIOD");
    ("KP_ASTERISK", "KP_MULTIPLY"); ("KP_DOT", "KP_DECIMAL"); ("KP_SLASH", "KP_DIVIDE");
    ("APPS", "MENU"); ("PREV_TRACK", "MEDIA_PREV"); ("NEXT_TRACK", "MEDIA_NEXT");
    ("PLAY", "MEDIA_PLAY"); ("STOP", "MEDIA_STOP"); ("MUTE", "VOLUME_MUTE") ].
Fixpoint without_underscores (s : string) : string :=
  match s with
  | EmptyString => EmptyString
  | String c s => if Ascii.eqb c "_" then without_underscores s else String c (without_underscores s)
  end.
Definition same_spelling (code_name key_name : string) : bool :=
  let spelt := match List.find (fun e => bool_decide (fst e = code_name)) spellings with
               | Some e => snd e | None => code_name end in
  bool_decide (without_underscores key_name = ("KEY" ++ without_underscores spelt)%string).

(** Entry [code] of [table] is the key that the name of the code says, and the key's own name is
    recorded; an entry without a name is the invalid key. *)
Definition entry_ok (table : list KeyCode) (codes : list (string * Z)) (strings : list (option string))
    (code : Z) : bool :=
  match key_at table code, List.find (fun e => snd e =? code) codes with
  | Some k, Some e =>
      match strings !! Z.to_nat k with
      | Some (Some name) => bool_decide (key_of name = Some k) && same_spelling (fst e) name
      | _ => false
      end
  | Some k, None => k =? KEY_INVALID
  | None, _ => false
  end.

Lemma entries_ok code : 0 <= code < 128 ->
  entry_ok (ScanToKeyCode keycode_tables) SCANCODES (key_strings keycode_tables) code = true /\
  entry_ok (ExtendedScanToKeyCode keycode_tables) EXTENDED_SCANCODES (key_strings keycode_tables) code = true.
Proof.
  intros Hc.
  set (P := fun c => entry_ok (ScanToKeyCode keycode_tables) SCANCODES (key_strings keycode_tables) c &&
    entry_ok (ExtendedScanToKeyCode keycode_tables) EXTENDED_SCANCODES (key_strings keycode_tables) c).
  enough (HP : P code = true) by (unfold P in HP; rewrite andb_true_iff in HP; exact HP).
  assert (Ht : forallb P (seqZ 0 128) = true) by (vm_compute; reflexivity).
  rewrite forallb_forall in Ht. apply Ht, list_elem_of_In, elem_of_seqZ. lia.
Qed.

(** The keys of all codes below 0x80 that have a name, the plain ones first. *)
Definition coded_keys : list (option Z) :=
  let press := List.filter (fun c => c <? 0x80) in
  map (key_at (ScanToKeyCode keycode_tables)) (press (map snd SCANCODES)) ++
  map (key_at (ExtendedScanToKeyCode keycode_tables)) (press (map snd EXTENDED_SCANCODES)).

Lemma coded_keys_distinct : NoDup coded_keys /\ length coded_keys = 123%nat.
Proof. split; [|reflexivity]. apply (bool_decide_unpack (NoDup coded_keys)). vm_compute. exact I. Qed.

(** Whatever the machine, the initialisation returns and fills the tables: a press code with a
    name gives the key of that name (up to the spelling), every other one the invalid key; the 123
    codes give 123 different keys; the name recorded for every enumerator but the unused ones is
    its own. *)
Theorem keycode_tables_filled {D} :
  returns (ps2_keyboard_cpp_init : M D _ _) keycode_boot tt keycode_tables /\
  (forall code, 0 <= code < 128 ->
     entry_ok (ScanToKeyCode keycode_tables) SCANCODES (key_strings keycode_tables) code = true /\
     entry_ok (ExtendedScanToKeyCode keycode_tables) EXTENDED_SCANCODES (key_strings keycode_tables) code
       = true) /\
  NoDup coded_keys /\ length coded_keys = 123%nat /\
  (forall name k, key_of name = Some k -> key_strings keycode_tables !! Z.to_nat k = Some (Some name)).
Proof.
  split; [exact init_yields|]. split; [exact entries_ok|].
  destruct coded_keys_distinct as [H1 H2]. split; [exact H1|]. split; [exact H2|].
  intros name k Hk.
  assert (Ht : forallb (fun e => bool_decide (key_strings keycode_tables !! Z.to_nat (snd e) =
    Some (Some (fst e)))) Key = true) by (vm_compute; reflexivity).
  rewrite forallb_forall in Ht. exact (bool_decide_eq_true_1 _ (Ht _ (key_of_In _ _ Hk))).
Qed.

(** ** Characters *)

(** The condition under which a key gives a character at all. *)
Definition no_command (m : KeyModifierState) : bool :=
  negb (left_ctrl m || right_ctrl m || left_meta m || right_meta m || alt m).
Definition shifted (m : KeyModifierState) : bool := left_shift m || right_shift m.

(** A letter has a lower and an upper case and nothing else. *)
Definition letter_info (lower upper : Z) : KeyCharInfo := mk_char_info lower upper upper 32 true true false.

Lemma char_of_letter lower upper m :
  char_of_info (letter_info lower upper) m =
    if altgr m || negb (no_command m) then 0
    else if xorb (shifted m) (capslock m) then upper else lower.
Proof.
  unfold char_of_info, letter_info, no_command, shifted. cbn.
  destruct (altgr m), (left_ctrl m), (right_ctrl m), (left_meta m), (right_meta m), (alt m),
    (left_shift m), (right_shift m), (capslock m); reflexivity.
Qed.

Definition letter_keys : list string :=
  map (fun c => String "K" (String "E" (String "Y" (String "_" (String c EmptyString)))))
    (map (fun i => ascii_of_nat (65 + i)) (seq 0 26)).

Lemma letter_entries i : (i < 26)%nat ->
  exists key, key_of (nth i letter_keys EmptyString) = Some key /\
    KEY_CHAR_TABLE keycode_tables !! Z.to_nat key =
      Some (letter_info (97 + Z.of_nat i) (65 + Z.of_nat i)).
Proof.
  intros Hi. do 26 (destruct i as [|i]; [vm_compute; eexists; split; reflexivity|]). lia.
Qed.

(** Of a letter key, shift and caps lock together decide the case; with the alternate graphic key,
    a control, meta or alt key the character is 0, and as the key counts as printable it is printed
    all the same. *)
Theorem letters_follow_layout {D} (i : nat) m first (g : keycode_globals) : (i < 26)%nat ->
  KEY_CHAR_TABLE g = KEY_CHAR_TABLE keycode_tables -> keyboard_mode g = Typing ->
  exists key, key_of (nth i letter_keys EmptyString) = Some key /\
    yields (keycode_handler (unpack_keycode key) m first true : M D _ _) g tt g
      [EPrint "%c" [PNum (if altgr m || negb (no_command m) then 0
                          else (if xorb (shifted m) (capslock m) then 65 else 97) + Z.of_nat i)]].
Proof.
  intros Hi Ht Hm. destruct (letter_entries i Hi) as (key & Hk & He).
  exists key. split; [exact Hk|].
  assert (Hkey : is_u8 key).
  { assert (Ha : forallb (fun e => bool_decide (is_u8 (snd e))) Key = true) by (vm_compute; reflexivity).
    rewrite forallb_forall in Ha. exact (bool_decide_eq_true_1 _ (Ha _ (key_of_In _ _ Hk))). }
  destruct (unpack_pack_byte key Hkey) as (Hp & _).
  unfold keycode_handler. rewrite Hp.
  clear Hkey Hk Hp. rewrite <- Ht in He. clear Ht.
  apply (returns_bind _ _ g Typing g); [intros d; unfold gets; rewrite <- Hm; repeat split|].
  rewrite (decide_False (P:=Typing = Testing)) by discriminate. rewrite decide_True by reflexivity.
  cbn [negb].
  assert (Hr : returns (get_char_info key : M D _ _) g (letter_info (97 + Z.of_nat i) (65 + Z.of_nat i)) g).
  { apply returns_get. rewrite He. apply returns_ret. }
  apply (returns_bind _ _ g true g).
  { unfold is_printable. eapply returns_bind; [exact Hr|]. exact (returns_ret true g). }
  cbn iota.
  apply (returns_bind _ _ g (char_of_info (letter_info (97 + Z.of_nat i) (65 + Z.of_nat i)) m) g).
  { unfold key_to_char. eapply returns_bind; [exact Hr|]. apply returns_ret. }
  rewrite char_of_letter.
  replace (if xorb (shifted m) (capslock m) then 65 + Z.of_nat i else 97 + Z.of_nat i)
    with ((if xorb (shifted m) (capslock m) then 65 else 97) + Z.of_nat i)
    by (by destruct (xorb _ _)).
  apply yields_kprintf.
Qed.

(** ** Typing a text *)

(** The keyboard as it is printed, row by row from the left: the key's name, its code in scan code
    set 1, and the characters on it: alone, with shift, with the alternate graphic key.  This is
    the Canadian French layout with the two changes its author notes (the slash and the closing
    bracket have keys of their own), written down without the tables of the program. *)
Record key_cap := mk_cap {
  cap_name : string;
  cap_row : Z;
  cap_column : Z;
  cap_code : Z;
  cap_characters : list Z;
}.
Definition on_cap (s : string) : list Z := map chr (String.list_ascii_of_string s).

Definition row_of (row column : Z) (caps : list (string * Z * list Z)) : list key_cap :=
  imap (fun i '(name, code, characters) =>
    mk_cap ("KEY_" ++ name)%string row (column + Z.of_nat i) code characters) caps.

Definition keyboard : list key_cap :=
  row_of 1 0
    [ ("BACKTICK", 0x29, on_cap "#|\"); ("1", 0x02, on_cap "1!"); ("2", 0x03, [50; 34; 64]);
      ("3", 0x04, on_cap "3/"); ("4", 0x05, on_cap "4$"); ("5", 0x06, on_cap "5%");
      ("6", 0x07, on_cap "6?"); ("7", 0x08, on_cap "7&"); ("8", 0x09, on_cap "8*");
      ("9", 0x0A, on_cap "9("); ("0", 0x0B, on_cap "0)"); ("MINUS", 0x0C, on_cap "-_");
      ("EQUALS", 0x0D, on_cap "=+") ]%string ++
  row_of 2 0
    [ ("TAB", 0x0F, [9]); ("Q", 0x10, on_cap "qQ"); ("W", 0x11, on_cap "wW"); ("E", 0x12, on_cap "eE");
      ("R", 0x13, on_cap "rR"); ("T", 0x14, on_cap "tT"); ("Y", 0x15, on_cap "yY"); ("U", 0x16, on_cap "uU");
      ("I", 0x17, on_cap "iI"); ("O", 0x18, on_cap "oO"); ("P", 0x19, on_cap "pP");
      ("LEFTBRACKET", 0x1A, on_cap "^^["); ("RIGHTBRACKET", 0x1B, on_cap "]]]");
      ("BACKSLASH", 0x2B, on_cap "<>}") ]%string ++
  row_of 3 1
    [ ("A", 0x1E, on_cap "aA"); ("S", 0x1F, on_cap "sS"); ("D", 0x20, on_cap "dD"); ("F", 0x21, on_cap "fF");
      ("G", 0x22, on_cap "gG"); ("H", 0x23, on_cap "hH"); ("J", 0x24, on_cap "jJ"); ("K", 0x25, on_cap "kK");
      ("L", 0x26, on_cap "lL"); ("SEMICOLON", 0x27, on_cap ";:~"); ("QUOTE", 0x28, on_cap "``{");
      ("ENTER", 0x1C, [10]) ]%string ++
  row_of 4 1
    [ ("Z", 0x2C, on_cap "zZ"); ("X", 0x2D, on_cap "xX"); ("C", 0x2E, on_cap "cC"); ("V", 0x2F, on_cap "vV");
      ("B", 0x30, on_cap "bB"); ("N", 0x31, on_cap "nN"); ("M", 0x32, on_cap "mM"); ("COMMA", 0x33, on_cap ",'");
      ("PERIOD", 0x34, on_cap ".."); ("SLASH", 0x35, on_cap "//") ]%string ++
  row_of 5 3 [ ("SPACE", 0x39, on_cap "  ") ]%string.

(** A stroke: a key alone, while the left shift key is held, or while the alternate graphic key is. *)
Inductive level := Alone | Shifted | AltGraphic.
Definition stroke : Type := key_cap * level.
Definition character (st : stroke) : option Z :=
  cap_characters (fst st) !! match snd st with Alone => 0 | Shifted => 1 | AltGraphic => 2 end%nat.
(** The stroke is one of this keyboard, and the character is on its key. *)
Definition engraved (st : stroke) (c : Z) : Prop := fst st ∈ keyboard /\ character st = Some c.

Local Abbreviation plain := KeyboardHandlerFacts.Key.
Definition stroke_events (st : stroke) : list key_event :=
  let code := cap_code (fst st) in
  let press_and_release := [plain code true; plain code false] in
  match snd st with
  | Alone => press_and_release
  | Shifted => plain 0x2A true :: press_and_release ++ [plain 0x2A false]
  | AltGraphic => Ext 0x38 true :: press_and_release ++ [Ext 0x38 false]
  end.

(** What the handler of key codes prints of a stroke in the testing mode: the place (row and
    column) and the name of every key that goes down or up. *)
Definition stroke_reports (st : stroke) : list event :=
  let went_down row column name :=
    EPrint "[FIRST PRESS ] keycode = (%u, %u) = %s\n" [PNum row; PNum column; PStr name] in
  let went_up row column name :=
    EPrint "[Release     ] keycode = (%u, %u) = %s\n" [PNum row; PNum column; PStr name] in
  let cap := fst st in
  let key := [ went_down (cap_row cap) (cap_column cap) (cap_name cap);
               went_up (cap_row cap) (cap_column cap) (cap_name cap) ] in
  match snd st with
  | Alone => key
  | Shifted => went_down 4 0 "KEY_LEFTSHIFT" :: key ++ [went_up 4 0 "KEY_LEFTSHIFT"]
  | AltGraphic => went_down 5 4 "KEY_RIGHTALT" :: key ++ [went_up 5 4 "KEY_RIGHTALT"]
  end%string.

Definition typing (strokes : list stroke) : list key_event := strokes ≫= stroke_events.

Definition all_up : keys_down := mk_down (repeat false 89) (repeat false 110) false.

Definition dispatch_all {D} (es : list event) : M D keycode_globals unit :=
  foldr (fun e m => dispatch e;; m) (mret tt) es.

(** The handler of key codes leaves its globals alone. *)
Definition keeps_state {D G A} (m : M D G A) : Prop := forall d g, o_glob (m d g) = g.

Section keeps_state.
Context {D : Type}.
Local Abbreviation K A := (M D keycode_globals A).

Lemma state_keeps_ret {G A} (a : A) : keeps_state (mret a : M D G A).
Proof. by intros d g. Qed.
Lemma state_keeps_bind {G A B} (m : M D G A) (k : A -> M D G B) :
  keeps_state m -> (forall a, keeps_state (k a)) -> keeps_state (m ≫= k).
Proof.
  intros Hm Hk d g. unfold mbind, M_bind. pose proof (Hm d g) as Hg.
  destruct (o_exit (m d g)); try exact Hg. cbn. by rewrite Hk.
Qed.
Lemma keeps_get {G} : keeps_state (get : M D G G). Proof. by intros d g. Qed.
Lemma keeps_gets {G A} (f : G -> A) : keeps_state (gets f : M D G A). Proof. by intros d g. Qed.
Lemma state_keeps_cell {G A} (c : option A) : keeps_state (read_cell c : M D G A). Proof. by destruct c. Qed.
Lemma state_keeps_kprintf {G} fmt args : keeps_state (kprintf fmt args : M D G unit). Proof. by intros d g. Qed.

Ltac keeps := repeat first
  [ apply state_keeps_ret | apply keeps_get | apply keeps_gets | apply state_keeps_cell | apply state_keeps_kprintf
  | apply state_keeps_bind; [|intros] | case_match ].

Lemma dispatch_keeps e : keeps_state (dispatch e : K unit).
Proof.
  unfold dispatch, keycode_handler, is_printable, key_to_char, get_char_info, key_to_string. keeps.
Qed.
Lemma dispatch_all_keeps es : keeps_state (dispatch_all es : K unit).
Proof.
  induction es as [|e es IH]; [apply state_keeps_ret|]. apply state_keeps_bind; [apply dispatch_keeps|done].
Qed.
End keeps_state.

Lemma dispatch_all_app {D} es es' :
  (dispatch_all (es ++ es') : M D _ _) ≡ (dispatch_all es;; dispatch_all es').
Proof.
  induction es as [|e es IH]; cbn [app foldr dispatch_all]; [by rewrite bind_ret_l|].
  rewrite bind_bind. apply bind_proper; [intros []; exact IH|done].
Qed.

#[export] Instance parg_eq : EqDecision parg.
Proof. solve_decision. Defined.
#[export] Instance event_eq : EqDecision event.
Proof. solve_decision. Defined.

(** A run returned and did exactly [es]. *)
Definition did {D G} (o : outcome D G unit) (es : list event) : bool :=
  match o_exit o with Done tt => bool_decide (o_events o = es) | _ => false end.
Lemma did_spec {D G} (o : outcome D G unit) es : did o es = true ->
  o_exit o = Done tt /\ o_events o = es.
Proof.
  unfold did. destruct (o_exit o) as [[]| | |]; try discriminate. intros Hd.
  split; [done|]. exact (bool_decide_eq_true_1 _ Hd).
Qed.

Definition keys_up (ks : keys_down) : bool :=
  bool_decide (down ks = down all_up) && bool_decide (down_ext ks = down_ext all_up) &&
  negb (down_print ks).
Lemma keys_up_spec ks : keys_up ks = true -> ks = all_up.
Proof.
  unfold keys_up. destruct ks as [ds de dp]. rewrite !andb_true_iff, !bool_decide_eq_true, negb_true_iff.
  cbn [down down_ext down_print]. by intros [[-> ->] ->].
Qed.

(** The tables as the initialisation leaves them, in its mode and in the typing mode. *)
Definition in_mode (m : KeyboardMode) : keycode_globals := set_keyboard_mode m keycode_tables.
#[local] Opaque in_mode.
Definition codes_of_tables : keycode_functions := keycode_functions_of keycode_tables.
#[local] Opaque codes_of_tables.

(** One stroke: checked on all of them. *)
Definition stroke_ok {D} (d : D) (st : stroke) : bool :=
  match character st with
  | None => true
  | Some c =>
      let r := abstract_run codes_of_tables (stroke_events st) all_up in
      forallb valid_event (stroke_events st) && (keys_up (snd r) &&
        (did (dispatch_all (fst r) d (in_mode Testing)) (stroke_reports st) &&
         did (dispatch_all (fst r) d (in_mode Typing)) [EPrint "%c" [PNum c]]))
  end.

Lemma strokes_ok {D} (d : D) st : fst st ∈ keyboard -> stroke_ok d st = true.
Proof.
  assert (Ht : forallb (fun cap => forallb (fun l => stroke_ok d (cap, l)) [Alone; Shifted; AltGraphic])
    keyboard = true) by (vm_compute; reflexivity).
  intros Hst. rewrite forallb_forall in Ht. specialize (Ht (fst st)). rewrite forallb_forall in Ht.
  destruct st as [cap l]. apply Ht; [by apply list_elem_of_In|destruct l; cbn; tauto].
Qed.

(** What one stroke reports. *)
Definition reports_of (st : stroke) : list event :=
  fst (abstract_run codes_of_tables (stroke_events st) all_up).

Lemma stroke_typed st c : engraved st c ->
  Forall (fun e => valid_event e = true) (stroke_events st) /\
  abstract_run codes_of_tables (stroke_events st) all_up = (reports_of st, all_up) /\
  forall D, yields (dispatch_all (reports_of st) : M D _ _) (in_mode Testing) tt (in_mode Testing)
      (stroke_reports st) /\
    yields (dispatch_all (reports_of st) : M D _ _) (in_mode Typing) tt (in_mode Typing) [EPrint "%c" [PNum c]].
Proof.
  intros [Hk Hc].
  assert (Hok : forall D (d : D), stroke_ok d st = true) by (intros; by apply strokes_ok).
  unfold stroke_ok in Hok. rewrite Hc in Hok.
  destruct (andb_prop _ _ (Hok _ ND)) as [Hv H0]. apply andb_prop, proj1, keys_up_spec in H0.
  split; [|split].
  - exact (proj2 (List.Forall_forall _ _) (proj1 (forallb_forall _ _) Hv)).
  - rewrite <- H0 at 2. apply surjective_pairing.
  - intros D. split; intros d; destruct (andb_prop _ _ (Hok D d)) as [_ Hd]; apply andb_prop, proj2 in Hd;
      destruct (andb_prop _ _ Hd) as [Ht Hp]; [destruct (did_spec _ _ Ht)|destruct (did_spec _ _ Hp)];
      (split; [done|]; split; [apply dispatch_all_keeps|done]).
Qed.

Lemma abstract_run_app kc es es' ks :
  abstract_run kc (es ++ es') ks =
    let '(rs, ks1) := abstract_run kc es ks in
    let '(rs', ks2) := abstract_run kc es' ks1 in (rs ++ rs', ks2).
Proof.
  revert ks. induction es as [|e es IH]; intros ks; cbn [app abstract_run].
  - by destruct (abstract_run kc es' ks).
  - destruct (abstract_step kc e ks) as [r ks1]. rewrite IH.
    destruct (abstract_run kc es ks1) as [rs ks2]. by destruct (abstract_run kc es' ks2).
Qed.

Lemma strokes_typed strokes text : Forall2 engraved strokes text ->
  Forall (fun e => valid_event e = true) (typing strokes) /\
  exists rs, abstract_run codes_of_tables (typing strokes) all_up = (rs, all_up) /\
    forall D,
      yields (dispatch_all rs : M D _ _) (in_mode Testing) tt (in_mode Testing) (strokes ≫= stroke_reports) /\
      yields (dispatch_all rs : M D _ _) (in_mode Typing) tt (in_mode Typing)
        (map (fun c => EPrint "%c" [PNum c]) text).
Proof.
  induction 1 as [|st c strokes text Hc _ (Hv & rs & Hr & Hd)].
  - split; [constructor|]. exists []. split; [reflexivity|]. intros D. split; apply returns_ret.
  - destruct (stroke_typed st c Hc) as (Hv1 & Hr1 & Hd1).
    change (typing (st :: strokes)) with (stroke_events st ++ typing strokes).
    split; [apply Forall_app; split; assumption|]. exists (reports_of st ++ rs).
    rewrite abstract_run_app, Hr1, Hr. split; [reflexivity|]. intros D.
    destruct (Hd1 D) as [Ht1 Hp1], (Hd D) as [Ht Hp].
    split; intros d; rewrite (dispatch_all_app (reports_of st) rs d _).
    + exact (yields_bind _ _ _ _ _ _ _ _ _ Ht1 Ht d).
    + exact (yields_bind _ _ _ _ _ _ _ _ _ Hp1 Hp d).
Qed.

(** Every printable ASCII character, the tab and the newline are on the keyboard. *)
Definition printable_character (c : Z) : Prop := c = 9 \/ c = 10 \/ 32 <= c <= 126.

Definition find_stroke (c : Z) : option stroke :=
  List.find (fun st => bool_decide (character st = Some c))
    (cap ← keyboard; [(cap, Alone); (cap, Shifted); (cap, AltGraphic)]).
Lemma character_engraved c : printable_character c -> exists st, engraved st c.
Proof.
  intros Hc.
  assert (Ht : forallb (fun c => bool_decide (is_Some (find_stroke c))) (9 :: 10 :: seqZ 32 95) = true)
    by (vm_compute; reflexivity).
  rewrite forallb_forall in Ht. specialize (Ht c). apply bool_decide_eq_true in Ht as [st Hst].
  - apply List.find_some in Hst as [Hin Hst]. exists st. apply bool_decide_eq_true in Hst. split; [|done].
    apply list_elem_of_In, list_elem_of_bind in Hin as (cap & Hl & Hcap).
    rewrite !elem_of_cons, elem_of_nil in Hl. by destruct Hl as [->|[->|[->|[]]]].
  - unfold printable_character in Hc. apply list_elem_of_In. rewrite !elem_of_cons, elem_of_seqZ. lia.
Qed.
Lemma text_engraved text : Forall printable_character text -> exists strokes, Forall2 engraved strokes text.
Proof.
  induction 1 as [|c text Hc _ [strokes Hs]]; [exists []; constructor|].
  destruct (character_engraved c Hc) as [st Hst]. exists (st :: strokes). by constructor.
Qed.

(** C9: Typing on the keyboard.  Strokes are keys of the printed keyboard struck one after the
    other, each alone, with shift or with the alternate graphic key, so that each has a character of
    the text on it; every text of printable ASCII characters, tabs and newlines has strokes.  The
    bytes that the keyboard sends, taken one interrupt each, are reported as calls of the handler of
    key codes, and afterwards all keys are up again.  In the mode in which the initialisation leaves
    it (testing), the handler prints of every stroke the keys that go down and up, with their place
    on the keyboard and their name.  In the typing mode, which the program itself never enters (the
    line of [ps2_keyboard_cpp_init] that does is a comment), it prints exactly the characters of the
    text in their order. *)
Theorem typing_prints_text {D T} `{PortDevice D} `{TerminalLaws D T} (h : handler_globals T) :
  handler_ready h -> idle h -> keys_of h = all_up ->
  (forall text, Forall printable_character text -> exists strokes, Forall2 engraved strokes text) /\
  keyboard_mode keycode_tables = Testing /\
  forall strokes text, Forall2 engraved strokes text ->
    let bytes := concat (map encode_event (typing strokes)) in
    exists rs,
      runs (D:=D) (interrupts (keycode_functions_of keycode_tables) bytes) h
        (fun _ h' => handler_ready h' /\ keys_of h' = all_up /\ idle h') rs (length bytes) /\
      yields (dispatch_all rs : M D _ _) keycode_tables tt keycode_tables (strokes ≫= stroke_reports) /\
      yields (dispatch_all rs : M D _ _) (set_keyboard_mode Typing keycode_tables) tt
        (set_keyboard_mode Typing keycode_tables) (map (fun c => EPrint "%c" [PNum c]) text).
Proof.
  intros Hr Hi Hk. split; [exact text_engraved|]. split; [by vm_compute|].
  intros strokes text Ht bytes. destruct (strokes_typed strokes text Ht) as (Hv & rs & Hrun & Hd).
  pose proof (runs_events (D:=D) codes_of_tables (typing strokes) all_up h Hr Hk Hi Hv) as He.
  rewrite Hrun in He. exists rs. split; [exact He|].
  assert (Hm : in_mode Testing = keycode_tables) by (vm_compute; reflexivity).
  destruct (Hd D) as [Hreports Htext]. rewrite Hm in Hreports. split; [exact Hreports|exact Htext].
Qed.

(** The text [Hi!] *)
Definition sample_strokes : list stroke :=
  [ (mk_cap "KEY_H" 3 6 0x23 (on_cap "hH"), Shifted);
    (mk_cap "KEY_I" 2 8 0x17 (on_cap "iI"), Alone);
    (mk_cap "KEY_1" 1 1 0x02 (on_cap "1!"), Shifted) ]%string.
Definition sample_text : list Z := [72; 105; 33].

Lemma sample_engraved : Forall2 engraved sample_strokes sample_text.
Proof.
  repeat constructor; apply list_elem_of_In; vm_compute; repeat (first [by left|right]).
Qed.

Lemma typing_prints_text_witness :
  exists rs, eois (o_events (interrupts (keycode_functions_of keycode_tables)
      (concat (map encode_event (typing sample_strokes))) sim_keyboard_mouse sample_handler)) = 10%nat /\
    o_events (dispatch_all rs sim_keyboard_mouse (set_keyboard_mode Typing keycode_tables)) =
      [EPrint "%c" [PNum 72]; EPrint "%c" [PNum 105]; EPrint "%c" [PNum 33]].
Proof.
  destruct (typing_prints_text (D:=sim) sample_handler sample_handler_ready
    ltac:(exists 0, false, false, false, 0; reflexivity) eq_refl) as (_ & _ & Htype).
  destruct (Htype sample_strokes sample_text sample_engraved) as (rs & Hruns & _ & Hd).
  exists rs. split.
  - destruct (Hruns sim_keyboard_mouse) as (_ & _ & _ & _ & Hn). exact Hn.
  - exact (proj2 (proj2 (Hd sim_keyboard_mouse))).
Defined.

Lemma letters_follow_layout_witness :
  exists key, o_events (keycode_handler (unpack_keycode key)
    (mk_mods true false false false false false false false false false false) true true ND
      (set_keyboard_mode Typing keycode_tables)) =
    [EPrint "%c" [PNum 90]].
Proof.
  destruct (letters_follow_layout (D:=no_device) 25
    (mk_mods true false false false false false false false false false false) true
    (set_keyboard_mode Typing keycode_tables)
    ltac:(lia) eq_refl eq_refl) as (key & _ & Hy).
  exists key. exact (proj2 (proj2 (Hy ND))).
Defined.
