(* ===== verification/Lapic.v ===== *)
(** * The registers of the local APIC ([cpu/apic/apic_internals.hpp], [apic.hpp])

    The register offsets, the structs of bit fields that are read from and written to the
    registers, and the class [LapicRegisters] with sending a command and the end of interrupt.
    Fields are numbers; the enumerations are their values. *)

From S2P Require Import Prelude Machine BitStruct.

(** ** Registers *)

Module lapic_registers_offset.
Inductive type :=
| lapic_id | lapic_version | task_priority | arbitration_priority | process_priority
| end_of_interrupt | remote_read | logical_destination | destination_format
| spurious_interrupt_vector | in_service_0 | in_service_1 | in_service_2 | in_service_3
| in_service_4 | in_service_5 | in_service_6 | in_service_7 | trigger_mode_0 | trigger_mode_1
| trigger_mode_2 | trigger_mode_3 | trigger_mode_4 | trigger_mode_5 | trigger_mode_6
| trigger_mode_7 | interrupt_request_0 | interrupt_request_1 | interrupt_request_2
| interrupt_request_3 | interrupt_request_4 | interrupt_request_5 | interrupt_request_6
| interrupt_request_7 | error_status | lvt_cmci | command_low | command_high | lvt_timer
| lvt_thermal_sensor | lvt_performance_monitoring_counters | lvt_lint0 | lvt_lint1 | lvt_error
| initial_count | current_count | divide_configuration_register.
#[export] Instance type_eq : EqDecision type.
Proof. solve_decision. Defined.

Definition value (r : type) : Z :=
  match r with
  | lapic_id => 0x20 | lapic_version => 0x30 | task_priority => 0x80
  | arbitration_priority => 0x90 | process_priority => 0xA0 | end_of_interrupt => 0xB0
  | remote_read => 0xC0 | logical_destination => 0xD0 | destination_format => 0xE0
  | spurious_interrupt_vector => 0xF0 | in_service_0 => 0x100 | in_service_1 => 0x110
  | in_service_2 => 0x120 | in_service_3 => 0x130 | in_service_4 => 0x140 | in_service_5 => 0x150
  | in_service_6 => 0x160 | in_service_7 => 0x170 | trigger_mode_0 => 0x180
  | trigger_mode_1 => 0x190 | trigger_mode_2 => 0x1a0 | trigger_mode_3 => 0x1b0
  | trigger_mode_4 => 0x1c0 | trigger_mode_5 => 0x1d0 | trigger_mode_6 => 0x1e0
  | trigger_mode_7 => 0x1f0 | interrupt_request_0 => 0x200 | interrupt_request_1 => 0x210
  | interrupt_request_2 => 0x220 | interrupt_request_3 => 0x230 | interrupt_request_4 => 0x240
  | interrupt_request_5 => 0x250 | interrupt_request_6 => 0x260 | interrupt_request_7 => 0x270
  | error_status => 0x280 | lvt_cmci => 0x2f0 | command_low => 0x300 | command_high => 0x310
  | lvt_timer => 0x320 | lvt_thermal_sensor => 0x330
  | lvt_performance_monitoring_counters => 0x340 | lvt_lint0 => 0x350 | lvt_lint1 => 0x360
  | lvt_error => 0x370 | initial_count => 0x380 | current_count => 0x390
  | divide_configuration_register => 0x3E0
  end.

Definition all : list type :=
  [lapic_id; lapic_version; task_priority; arbitration_priority; process_priority;
   end_of_interrupt; remote_read; logical_destination; destination_format;
   spurious_interrupt_vector; in_service_0; in_service_1; in_service_2; in_service_3;
   in_service_4; in_service_5; in_service_6; in_service_7; trigger_mode_0; trigger_mode_1;
   trigger_mode_2; trigger_mode_3; trigger_mode_4; trigger_mode_5; trigger_mode_6;
   trigger_mode_7; interrupt_request_0; interrupt_request_1; interrupt_request_2;
   interrupt_request_3; interrupt_request_4; interrupt_request_5; interrupt_request_6;
   interrupt_request_7; error_status; lvt_cmci; command_low; command_high; lvt_timer;
   lvt_thermal_sensor; lvt_performance_monitoring_counters; lvt_lint0; lvt_lint1; lvt_error;
   initial_count; current_count; divide_configuration_register].
End lapic_registers_offset.

Definition lapic_address : Z := 0xFEE00000.

(** [get_mmio_ptr(base, offset)] and the pointers of [LapicRegisters]. *)
Definition get_mmio_address (base : Z) (offset : lapic_registers_offset.type) : Z :=
  u32 (base + lapic_registers_offset.value offset).
Definition register (offset : lapic_registers_offset.type) : Z := get_mmio_address lapic_address offset.

(** The sum is cut to [uint8_t]. *)
Definition add_offset (lapic_offset offset : Z) : Z := u8 (u8 lapic_offset + offset).

(** ** Enumerations *)

Module task_priority.
Definition all : Z := 0.
Definition none : Z := 15.
End task_priority.
Module task_priority_subclass.
Definition default_ : Z := 0.
End task_priority_subclass.
Module delivery_mode.
Definition fixed : Z := 0.
Definition lowest_priority : Z := 1.
Definition smi : Z := 2.
Definition remote_read : Z := 3.
Definition nmi : Z := 4.
Definition init : Z := 5.
Definition start_up : Z := 6.
End delivery_mode.
Module destination_mode.
Definition physical : Z := 0.
Definition logical : Z := 1.
End destination_mode.
Module level.
Definition deassert : Z := 0.
Definition assert : Z := 1.
End level.
Module trigger_mode.
Definition edge : Z := 0.
Definition level : Z := 1.
End trigger_mode.
Module remote_read_status.
Definition invalid : Z := 0.
Definition pending : Z := 1.
Definition done : Z := 2.
End remote_read_status.
Module destination_type.
Definition normal : Z := 0.
Definition self : Z := 1.
Definition all_including_self : Z := 2.
Definition all_excluding_self : Z := 3.
End destination_type.
Module mask.
Definition enable : Z := 0.
Definition disable : Z := 1.
End mask.
Module timer_mode.
Definition single_shot : Z := 0.
Definition repeat : Z := 1.
Definition tsc_deadline : Z := 2.
End timer_mode.
Module lvt_delivery_mode.
Definition fixed : Z := 0.
Definition smi : Z := 2.
Definition nmi : Z := 4.
Definition external_interrupt_is_delivered : Z := 7.
End lvt_delivery_mode.

Module divide_configuration.
Definition divide_by_2 : Z := 0.
Definition divide_by_4 : Z := 1.
Definition divide_by_8 : Z := 2.
Definition divide_by_16 : Z := 3.
Definition divide_by_32 : Z := 8.
Definition divide_by_64 : Z := 9.
Definition divide_by_128 : Z := 10.
Definition divide_by_1 : Z := 11.
End divide_configuration.

(** ** Structs *)

(** [apic_msr_eax], [apic_msr_edx] *)
Record apic_msr_eax := mk_msr_eax {
  eax_reserved0 : Z; is_bootstrap_processor : Z; eax_reserved1 : Z; x2apic : Z; apic_enable : Z;
  base_low_page_idx : Z;
}.
Definition msr_eax_widths : list Z := [8; 1; 1; 1; 1; 20].
Definition msr_eax_fields (r : apic_msr_eax) : list Z :=
  [eax_reserved0 r; is_bootstrap_processor r; eax_reserved1 r; x2apic r; apic_enable r;
   base_low_page_idx r].
Definition msr_eax_raw (r : apic_msr_eax) : Z := pack (zip msr_eax_widths (msr_eax_fields r)).
Definition msr_eax_of (word : Z) : apic_msr_eax :=
  let f := fun i => field_at msr_eax_widths i word in mk_msr_eax (f 0) (f 1) (f 2) (f 3) (f 4) (f 5).

(** [lapic_id_register], [lapic_version_register] *)
Definition lapic_id_widths : list Z := [24; 8].
Definition apic_id_of (word : Z) : Z := field_at lapic_id_widths 1 word.
Definition lapic_version_widths : list Z := [8; 8; 8; 8].
Definition version_of (word : Z) : Z := field_at lapic_version_widths 0 word.
Definition max_lvt_entry_idt_of (word : Z) : Z := field_at lapic_version_widths 2 word.

(** [task_priority_register] *)
Definition task_priority_raw (subclass priority : Z) : Z := pack [(4, subclass); (4, priority); (24, 0)].

(** [interrupt_command_low_register] *)
Record interrupt_command_low_register := mk_icr_low {
  icr_vector_number : Z; icr_delivery_mode : Z; icr_destination_mode : Z;
  delivery_status_pending_ro : Z; icr_reserved : Z; icr_level : Z; icr_trigger_mode : Z;
  icr_remote_read_status : Z; icr_destination_type : Z; icr_reserved3 : Z;
}.
Definition icr_low_widths : list Z := [8; 3; 1; 1; 1; 1; 1; 2; 2; 12].
Definition icr_low_fields (r : interrupt_command_low_register) : list Z :=
  [icr_vector_number r; icr_delivery_mode r; icr_destination_mode r; delivery_status_pending_ro r;
   icr_reserved r; icr_level r; icr_trigger_mode r; icr_remote_read_status r;
   icr_destination_type r; icr_reserved3 r].
Definition icr_low_raw (r : interrupt_command_low_register) : Z :=
  pack (zip icr_low_widths (icr_low_fields r)).
Definition icr_low_of (word : Z) : interrupt_command_low_register :=
  let f := fun i => field_at icr_low_widths i word in
  mk_icr_low (f 0) (f 1) (f 2) (f 3) (f 4) (f 5) (f 6) (f 7) (f 8) (f 9).

(** The initialisers: a vector and a delivery mode, the members not named at their defaults. *)
Definition icr_command (vector mode level trigger : Z) : interrupt_command_low_register :=
  mk_icr_low vector mode destination_mode.physical 0 0 level trigger remote_read_status.invalid
    destination_type.normal 0.

(** [interrupt_command_high_register] *)
Definition icr_high_raw (local_apic_id_of_target : Z) : Z :=
  pack [(24, 0); (4, local_apic_id_of_target); (4, 0)].
Definition local_apic_id_of_target (word : Z) : Z := field_at [24; 4; 4] 1 word.

(** [spurious_interrupt_vector_register] *)
Record spurious_interrupt_vector_register := mk_spivr {
  spivr_vector : Z; spivr_apic_enable : Z; spivr_reserved1 : Z; eoi_suppress : Z; spivr_reserved2 : Z;
}.
Definition spivr_widths : list Z := [8; 1; 3; 1; 19].
Definition spivr_fields (r : spurious_interrupt_vector_register) : list Z :=
  [spivr_vector r; spivr_apic_enable r; spivr_reserved1 r; eoi_suppress r; spivr_reserved2 r].
Definition spivr_raw (r : spurious_interrupt_vector_register) : Z := pack (zip spivr_widths (spivr_fields r)).
Definition spivr_of (word : Z) : spurious_interrupt_vector_register :=
  let f := fun i => field_at spivr_widths i word in mk_spivr (f 0) (f 1) (f 2) (f 3) (f 4).

(** The local vector tables: [lvt_register_min], whose reserved field has seven bits, [lvt_register_full],
    [lvt_lint_register], [lvt_timer_register]; the members not named at their defaults. *)
Definition lvt_register_min_raw (vector mask : Z) : Z := pack [(8, vector); (7, 0); (1, mask); (15, 0)].
Definition lvt_lint_raw (vector message_type pin_polarity trigger mask : Z) : Z :=
  pack [(8, vector); (3, message_type); (1, 0); (1, 0); (1, pin_polarity); (1, 0); (1, trigger);
        (1, mask); (15, 0)].
Definition lvt_register_full_raw (vector message_type pin_polarity trigger mask timer_mode : Z) : Z :=
  pack [(8, vector); (3, message_type); (1, 0); (1, 0); (1, pin_polarity); (1, 0); (1, trigger);
        (1, mask); (2, timer_mode); (13, 0)].
Definition lvt_timer_raw (vector mask timer_mode : Z) : Z :=
  pack [(8, vector); (4, 0); (1, 0); (3, 0); (1, mask); (2, timer_mode); (13, 0)].

(** [divide_configuration_register] *)
Definition divide_configuration_raw (divide : Z) : Z := pack [(4, divide); (28, 0)].

(** ** The class [LapicRegisters] *)

Inductive access := ReadOnly | WriteOnly | ReadWrite.

(** Its static members: name, kind of pointer, register. *)
Module LapicRegisters.
Import lapic_registers_offset.
Definition members : list (string * access * type) :=
  [
    ("lapic_id", ReadOnly, lapic_id); ("lapic_version", ReadWrite, lapic_version);
    ("task_priority", ReadWrite, task_priority);
    ("arbitration_priority", ReadOnly, arbitration_priority);
    ("process_priority", ReadOnly, process_priority); ("remote_read", WriteOnly, remote_read);
    ("logical_destination", ReadWrite, logical_destination);
    ("destination_format", ReadWrite, destination_format);
    ("spurious_interrupt_vector", ReadWrite, spurious_interrupt_vector);
    ("error_status", ReadOnly, error_status); ("lvt_cmci", ReadWrite, lvt_cmci);
    ("command_low", ReadWrite, command_low); ("command_high", ReadWrite, command_high);
    ("lvt_timer", ReadWrite, lvt_timer); ("lvt_thermal_sensor", ReadWrite, lvt_thermal_sensor);
    ("lvt_performance_monitoring_counters", ReadWrite, lvt_performance_monitoring_counters);
    ("lvt_lint0", ReadWrite, lvt_lint0); ("lvt_lint1", ReadWrite, lvt_lint1);
    ("lvt_error", ReadWrite, lvt_error); ("initial_count", ReadWrite, initial_count);
    ("current_count", ReadOnly, current_count);
    ("divide_configuration", ReadWrite, divide_configuration_register);
    ("end_of_interrupt", WriteOnly, end_of_interrupt); ("in_service[0]", ReadOnly, in_service_0);
    ("in_service[1]", ReadOnly, in_service_1); ("in_service[2]", ReadOnly, in_service_2);
    ("in_service[3]", ReadOnly, in_service_3); ("in_service[4]", ReadOnly, in_service_4);
    ("in_service[5]", ReadOnly, in_service_5); ("in_service[6]", ReadOnly, in_service_6);
    ("in_service[7]", ReadOnly, in_service_7); ("trigger_mode[0]", ReadOnly, trigger_mode_0);
    ("trigger_mode[1]", ReadOnly, trigger_mode_1); ("trigger_mode[2]", ReadOnly, trigger_mode_2);
    ("trigger_mode[3]", ReadOnly, trigger_mode_3); ("trigger_mode[4]", ReadOnly, trigger_mode_4);
    ("trigger_mode[5]", ReadOnly, trigger_mode_5); ("trigger_mode[6]", ReadOnly, trigger_mode_6);
    ("trigger_mode[7]", ReadOnly, trigger_mode_7);
    ("interrupt_request[0]", ReadOnly, interrupt_request_0);
    ("interrupt_request[1]", ReadOnly, interrupt_request_1);
    ("interrupt_request[2]", ReadOnly, interrupt_request_2);
    ("interrupt_request[3]", ReadOnly, interrupt_request_3);
    ("interrupt_request[4]", ReadOnly, interrupt_request_4);
    ("interrupt_request[5]", ReadOnly, interrupt_request_5);
    ("interrupt_request[6]", ReadOnly, interrupt_request_6);
    ("interrupt_request[7]", ReadOnly, interrupt_request_7)
  ].
End LapicRegisters.

Section lapic.
Context {D G : Type} `{RegisterDevice D}.
Local Abbreviation L A := (M D G A).

(** First the high word, then the low one, which sends the command. *)
Definition send_command (low high : Z) : L unit :=
  mmio_write (register lapic_registers_offset.command_high) high;;
  mmio_write (register lapic_registers_offset.command_low) low.

Definition lapic_send_eoi : L unit := mmio_write (register lapic_registers_offset.end_of_interrupt) 0.

Definition lapic_test : L unit :=
  word ← mmio_read (register lapic_registers_offset.command_high);
  kprintf "ch2: %u\n" [PNum (local_apic_id_of_target word)].
End lapic.
