(* ===== verification/Pit.v ===== *)
(** * The programmable interval timer ([timers/pit])

    [pit.cpp], [pit_quick.hpp] and [pit_interrupt_handler.cpp]: programming the counter, waiting for
    its interrupts and the messages that the interrupt handler delivers.  The processor's interrupt
    flag is part of the state; which interrupts arrive, and when, is up to the machine. *)

From stdpp Require Import gmap.
From S2P Require Import Prelude Machine BitStruct StringHelper Terminal BitHex FloatText Lapic.

(** ** Interrupts

    [IRQ0] is the timer's line. *)
Inductive irq := IRQ0 | OtherIrq.

(** [next_interrupt]: the interrupt that ends a halt, [None] when none ever arrives.
    [passing]: the interrupt, if any, that arrives in a short stretch of running code. *)
Class Interrupts (D : Type) := {
  next_interrupt : D -> option irq * D;
  passing : D -> option irq * D;
}.

(** ** The command byte *)

Module Bit_6_7.
Definition channel_0 : Z := 0.
Definition channel_1 : Z := 1.
Definition channel_2 : Z := 2.
Definition read_back_command : Z := 3.
End Bit_6_7.
Module Bit_4_5.
Definition latch_count_get_value_cmd : Z := 0.
Definition low_byte_only : Z := 1.
Definition high_byte_only : Z := 2.
Definition low_then_high_byte : Z := 3.
End Bit_4_5.
Module Bit_1_3.
Definition single_shot : Z := 0.
Definition hardware_one_shot : Z := 1.
Definition rate_generator : Z := 2.
Definition square_wave_generator : Z := 3.
Definition software_strobe : Z := 4.
Definition hardware_strobe : Z := 5.
Definition rate_generator_2 : Z := 6.
Definition square_wave_generator_2 : Z := 7.
End Bit_1_3.
Module Bit_0.
Definition binary16 : Z := 0.
Definition four_digits_bcd : Z := 1.
End Bit_0.

Record mode_command_register := mk_mcr {
  bcd_binary_mode : Z; operating_mode : Z; access_mode : Z; channel : Z;
}.
(** [operator uint8_t] *)
Definition mcr_byte (c : mode_command_register) : Z :=
  pack [(1, bcd_binary_mode c); (3, operating_mode c); (2, access_mode c); (2, channel c)].

Module IOPort.
Definition channel_0_data_port : Z := 0x40.
Definition channel_1_data : Z := 0x41.
Definition channel_2_data : Z := 0x42.
Definition mode_or_command_register : Z := 0x43.
End IOPort.

(** ** Constants *)

Definition PIT_FREQ_HZ : Z := 1193182.
Definition MAX_FREQ_DIVIDER : Z := 65535.
Definition PIT_MAX_MSG : Z := 32.

Definition fdiv : spec_float -> spec_float -> spec_float := SFdiv 24 128.
Definition max_single_wait : spec_float := fdiv (float_of (MAX_FREQ_DIVIDER + 1)) (float_of PIT_FREQ_HZ).

(** ** State *)

Inductive pit_mode := wait_mode | game_mode.

(** The globals; [pit_msg_address] holds 0 for the null pointer.  [interrupt_flag] is the flag of
    the processor, [pit_pending] the request that waits while it is clear, [words] the objects the
    message addresses point to. *)
Record pit_globals := mk_pit {
  interrupt_flag : bool;
  pit_pending : bool;
  pit_interrupt_handled : bool;
  pit_is_new_timeout : bool;
  pit_write_index : Z;
  pit_msg_address : list Z;
  pit_msg_value : list Z;
  g_pit_mode : pit_mode;
  quick_pit : bool;
  quick_pit_lock : Z;
  words : gmap Z Z;
}.

Definition pit_boot : pit_globals :=
  mk_pit false false false false 0 (repeat 0 (Z.to_nat PIT_MAX_MSG)) (repeat 0 (Z.to_nat PIT_MAX_MSG))
    wait_mode false 0 ∅.

Definition set_processor (flag pending : bool) (g : pit_globals) : pit_globals :=
  mk_pit flag pending (pit_interrupt_handled g) (pit_is_new_timeout g) (pit_write_index g)
    (pit_msg_address g) (pit_msg_value g) (g_pit_mode g) (quick_pit g) (quick_pit_lock g) (words g).
Definition set_handled (b : bool) (g : pit_globals) : pit_globals :=
  mk_pit (interrupt_flag g) (pit_pending g) b (pit_is_new_timeout g) (pit_write_index g)
    (pit_msg_address g) (pit_msg_value g) (g_pit_mode g) (quick_pit g) (quick_pit_lock g) (words g).
Definition set_messages (new : bool) (index : Z) (addresses values : list Z) (w : gmap Z Z)
    (g : pit_globals) : pit_globals :=
  mk_pit (interrupt_flag g) (pit_pending g) (pit_interrupt_handled g) new index addresses values
    (g_pit_mode g) (quick_pit g) (quick_pit_lock g) w.
Definition set_pit_mode (m : pit_mode) (g : pit_globals) : pit_globals :=
  mk_pit (interrupt_flag g) (pit_pending g) (pit_interrupt_handled g) (pit_is_new_timeout g)
    (pit_write_index g) (pit_msg_address g) (pit_msg_value g) m (quick_pit g) (quick_pit_lock g) (words g).
Definition set_quick (quick : bool) (lock : Z) (g : pit_globals) : pit_globals :=
  mk_pit (interrupt_flag g) (pit_pending g) (pit_interrupt_handled g) (pit_is_new_timeout g)
    (pit_write_index g) (pit_msg_address g) (pit_msg_value g) (g_pit_mode g) quick lock (words g).

(** ** Splitting a time *)

Record pit_wait_split := mk_split { full_cycles : Z; reminder_pit_count : Z }.

(** In [float]; a conversion out of range is undefined. *)
Definition compute_pit_wait (seconds max_single_wait : spec_float) (max_freq_div : Z) :
    option pit_wait_split :=
  let f_interrupt_count := fdiv seconds max_single_wait in
  full ← u32_of_float f_interrupt_count;
  let remainder_seconds := fsub seconds (fmul (float_of full) max_single_wait) in
  remainder_pit_count ← u32_of_float (fmul remainder_seconds (float_of (max_freq_div + 1)));
  Some (mk_split full remainder_pit_count).

Section pit.
Context {D : Type} `{PortDevice D} `{RegisterDevice D} `{Interrupts D}.
(** Built with [-DDEBUG] or not. *)
Context (DEBUG : bool).
(** The interrupts that a wait sees before it gives up in the model. *)
Context (wakeups : nat).
Local Abbreviation P A := (M D pit_globals A).

(** *** The processor *)

Definition cli : P unit :=
  emit (ECall "cli" []);; modify (fun g => set_processor false (pit_pending g) g).
Definition sti : P unit :=
  emit (ECall "sti" []);; modify (fun g => set_processor true (pit_pending g) g).

(** [simple_spin_lock] and [simple_spin_unlock] of [stdlib/atomic.h] on a lock that only this
    processor takes: taken, it stays taken while the processor spins. *)
Definition simple_spin_lock : P unit :=
  lock ← gets quick_pit_lock;
  if lock =? 0 then modify (fun g => set_quick (quick_pit g) 1 g) else stop Spinning.
Definition simple_spin_unlock : P unit := modify (fun g => set_quick (quick_pit g) 0 g).

(** *** [pit_interrupt_handler.cpp] *)

Definition set_quick_path_mode (quick_or_not : bool) : P unit :=
  simple_spin_lock;;
  modify (fun g => set_quick quick_or_not (quick_pit_lock g) g);;
  simple_spin_unlock.

Definition get_quick_path_mode : P bool :=
  simple_spin_lock;; a ← gets quick_pit; simple_spin_unlock;; mret a.

Definition set_mode (m : pit_mode) : P unit := modify (set_pit_mode m).

Definition game_loop : P unit := kprintf "Game loop\n" [].

Definition pit_interrupt_handler : P unit :=
  mode ← gets g_pit_mode;
  match mode with wait_mode => mret tt | game_mode => game_loop end;;
  modify (fun g =>
    if negb (pit_write_index g =? 0) && pit_is_new_timeout g
    then set_messages (pit_is_new_timeout g) (pit_write_index g - 1) (pit_msg_address g)
           (pit_msg_value g) (words g) g
    else g);;
  g ← get;
  write_address ← read_cell (pit_msg_address g !! Z.to_nat (pit_write_index g));
  (if negb (write_address =? 0) then
     value ← read_cell (pit_msg_value g !! Z.to_nat (pit_write_index g));
     put (set_messages false (pit_write_index g) (pit_msg_address g) (pit_msg_value g)
            (<[write_address := value]> (words g)) g)
   else mret tt);;
  modify (set_handled true);;
  lapic_send_eoi.

(** The entry [pit_interrupt_handler_asm]: with [quick_pit] set it does the flag and the end of the
    interrupt itself. *)
Definition pit_interrupt : P unit :=
  quick ← gets quick_pit;
  if (quick : bool) then modify (set_handled true);; lapic_send_eoi else pit_interrupt_handler.

(** An interrupt request reaches the processor. *)
Definition arrives (i : irq) : P unit :=
  match i with
  | OtherIrq => mret tt
  | IRQ0 =>
      flag ← gets interrupt_flag;
      if (flag : bool) then pit_interrupt else modify (fun g => set_processor false true g)
  end.

(** A request that waited is taken once the flag is set; tells whether there was one. *)
Definition take_pending : P bool :=
  g ← get;
  if interrupt_flag g && pit_pending g
  then modify (fun g => set_processor true false g);; pit_interrupt;; mret true
  else mret false.

(** A stretch of running code: at most one interrupt. *)
Definition running : P unit :=
  taken ← take_pending;
  if (taken : bool) then mret tt else
  i ← (fun d g => let '(i, d) := passing d in Outcome d g [] (Done i));
  match i with None => mret tt | Some i => arrives i end.

(** [__hlt]: until the next interrupt is handled; with the flag clear, for ever. *)
Definition hlt : P unit :=
  emit (ECall "hlt" []);;
  taken ← take_pending;
  if (taken : bool) then mret tt else
  flag ← gets interrupt_flag;
  if negb flag then stop Spinning else
  i ← (fun d g => let '(i, d) := next_interrupt d in Outcome d g [] (Done i));
  match i with None => stop Spinning | Some i => arrives i end.

(** *** Programming the timer *)

Definition send_byte_to_pit (channel byte : Z) : P unit := outb (u8 channel) byte.
Definition send_command_to_pit (channel : Z) (command : mode_command_register) : P unit :=
  outb (u8 channel) (mcr_byte command).
Definition read_from_channel (channel : Z) : P Z := inb (u8 channel).
Definition set_operation_mode (operation_mode : mode_command_register) : P unit :=
  send_command_to_pit IOPort.mode_or_command_register operation_mode.

Definition read_pit_count : P Z :=
  cli;;
  send_command_to_pit IOPort.mode_or_command_register
    (mk_mcr Bit_0.binary16 Bit_1_3.single_shot Bit_4_5.latch_count_get_value_cmd Bit_6_7.channel_0);;
  low ← read_from_channel IOPort.channel_0_data_port;
  high ← read_from_channel IOPort.channel_0_data_port;
  mret (u16 (low .| (high ≪ 8))).

Definition set_pit_count (count : Z) : P unit :=
  cli;;
  send_byte_to_pit IOPort.channel_0_data_port (count .& 0xFF);;
  send_byte_to_pit IOPort.channel_0_data_port ((count .& 0xFF00) ≫ 8).

(** The body the two commands share: the debug check, the count 65536 as 0, the mode. *)
Definition program_count (mode freq_divider_count : Z) : P unit :=
  (if DEBUG then
     assert_handler_fmt (freq_divider_count <=? MAX_FREQ_DIVIDER + 1)
       "Too high a count, undefined behavior!\n" []
   else mret tt);;
  let count := if freq_divider_count =? MAX_FREQ_DIVIDER + 1 then 0 else freq_divider_count in
  set_operation_mode (mk_mcr Bit_0.binary16 mode Bit_4_5.low_then_high_byte Bit_6_7.channel_0);;
  set_pit_count (u16 count).

Definition send_wait_count_command : Z -> P unit := program_count Bit_1_3.single_shot.
Definition start_loop_wait : Z -> P unit := program_count Bit_1_3.rate_generator.

(** *** Waiting *)

(** [do { sti; hlt } while (!pit_interrupt_handled)] *)
Fixpoint halt_loop (n : nat) : P unit :=
  match n with
  | O => stop Spinning
  | S n =>
      sti;; hlt;;
      handled ← gets pit_interrupt_handled;
      if negb handled then halt_loop n else mret tt
  end.

Definition wait_till_pit_interrupt : P unit :=
  running;;
  modify (set_handled false);;
  halt_loop wakeups.

Definition wait_lte_one_cycle (pit_freq_divider : Z) : P unit :=
  send_wait_count_command pit_freq_divider;; wait_till_pit_interrupt.

Definition wait_pit_count (count : Z) : P unit :=
  send_wait_count_command count;; wait_till_pit_interrupt.

Definition wait (seconds : spec_float) : P Z :=
  if SFleb seconds (S754_zero false) then mret 1 else
  sp ← read_cell (compute_pit_wait seconds max_single_wait MAX_FREQ_DIVIDER);
  (if full_cycles sp >? 0 then start_loop_wait (MAX_FREQ_DIVIDER + 1) else mret tt);;
  for_range (Z.to_nat (full_cycles sp)) 0 (fun _ => wait_till_pit_interrupt);;
  wait_lte_one_cycle (reminder_pit_count sp);;
  mret 0.

Definition short_timeout_async (seconds : spec_float) (finished : Z) (new_timeout : bool) : P Z :=
  if SFleb seconds (S754_zero false) then mret 1 else
  sp ← read_cell (compute_pit_wait seconds max_single_wait MAX_FREQ_DIVIDER);
  if full_cycles sp >? 0 then mret 2 else
  (if new_timeout then
     index ← gets pit_write_index;
     assert_handler_fmt (index <? PIT_MAX_MSG) "Overflowed, too many mesg, out of space\n" [];;
     modify (fun g => set_messages true (u8 (pit_write_index g + 1))
       (<[Z.to_nat index := finished]> (pit_msg_address g))
       (<[Z.to_nat index := 1]> (pit_msg_value g)) (<[finished := 0]> (words g)) g)
   else mret tt);;
  send_wait_count_command (reminder_pit_count sp);;
  mret 0.

Definition short_timeout (count : Z) : P unit :=
  abort_msg "Not implemented, Just use something else\n" [].

(** *** The quick path ([pit_quick.hpp]) *)

Definition send_wait_count_command_q (count : Z) : P unit :=
  (if DEBUG then
     assert_handler_fmt (count <=? MAX_FREQ_DIVIDER + 1) "Too high a count, undefined behavior!\n" []
   else mret tt);;
  set_operation_mode (mk_mcr Bit_0.binary16 Bit_1_3.single_shot Bit_4_5.low_then_high_byte
    Bit_6_7.channel_0);;
  set_pit_count count.

Fixpoint busy_loop (n : nat) : P unit :=
  match n with
  | O => stop Spinning
  | S n =>
      running;;
      handled ← gets pit_interrupt_handled;
      if negb handled then sti;; busy_loop n else mret tt
  end.
Definition wait_till_pit_interrupt_busy : P unit :=
  modify (set_handled false);; busy_loop wakeups.

Definition wait_pit_count_precise (pit_freq_divider : Z) : P unit :=
  send_wait_count_command_q (u16 pit_freq_divider);; wait_till_pit_interrupt_busy.
End pit.
