(* ===== verification/PitSplitFacts.v ===== *)
(** * The split of a wait against exact numbers

    [compute_pit_wait] of [timers/pit/pit.cpp] in [float]s: the error of a division that is rounded,
    and how far the whole periods and the rest that come out are from those of the time asked for.
    Every [float] here is an integer times a power of two, so the bounds are between integers. *)

From stdpp Require Import gmap.
From S2P Require Import Prelude Machine BitStruct StringHelper Terminal BitHex FloatText Lapic Pit.

(** ** The length of a wait

    A positive finite [float] is [m] times two to the [e]. *)

Lemma digits2_log2 m : Zpos (digits2_pos m) = Z.log2 (Zpos m) + 1.
Proof.
  induction m as [m IH|m IH|]; [| |reflexivity]; cbn [digits2_pos]; rewrite Pos2Z.inj_succ, IH.
  - change (Zpos m~1) with (2 * Zpos m + 1). rewrite Z.log2_succ_double by lia. lia.
  - change (Zpos m~0) with (2 * Zpos m). rewrite Z.log2_double by lia. lia.
Qed.

Lemma shr_1_double x : shr_1 (Build_shr_record (2 * x) false false) = Build_shr_record x false false.
Proof. by destruct x. Qed.

(** Shifting an exact multiple out loses nothing. *)
Lemma shr_exact p x :
  iter_pos shr_1 p (Build_shr_record (x * 2 ^ Zpos p) false false) = Build_shr_record x false false.
Proof.
  revert x. induction p as [p IH|p IH|]; intros x; cbn [iter_pos].
  - replace (x * 2 ^ Zpos p~1) with (2 * (x * 2 ^ Zpos p * 2 ^ Zpos p)).
    + by rewrite shr_1_double, !IH.
    + rewrite (Pos2Z.inj_xI p), Z.pow_add_r, Z.pow_twice_r by lia. ring.
  - replace (x * 2 ^ Zpos p~0) with (x * 2 ^ Zpos p * 2 ^ Zpos p); [by rewrite !IH|].
    rewrite (Pos2Z.inj_xO p), Z.pow_twice_r. ring.
  - change (2 ^ 1) with 2. rewrite Z.mul_comm. apply shr_1_double.
Qed.

Lemma truncate_shiftl m e : truncate m e = Z.shiftl (Zpos m) e.
Proof.
  unfold truncate. destruct (0 <=? e) eqn:He; [done|].
  rewrite <- (Z.opp_involutive e) at 2. apply Z.shiftl_opp_r.
Qed.

(** Multiplying by 65536 only changes the exponent. *)
Lemma fmul_65536_aux m e : bounded 24 128 m e = true ->
  exists m' e', truncate m' e' = Z.shiftl (Zpos m) (e + 16) /\
    fmul (S754_finite false m e) (float_of 65536) =
      if e' <=? 128 - 24 then S754_finite false m' e' else S754_infinity false.
Proof.
  intros Hb. apply andb_true_iff in Hb as [Hc _]. apply Z.eqb_eq in Hc.
  rewrite digits2_log2 in Hc. unfold fexp, emin in Hc. set (d := Z.log2 (Zpos m)) in Hc.
  change (float_of 65536) with (S754_finite false 8388608 (-7)).
  unfold fmul, SFmul, binary_round_aux, shr_fexp. cbn [xorb shr_record_of_loc].
  rewrite Pos2Z.inj_mul. change (Zpos 8388608) with (2 ^ 23).
  assert (Hdig : forall k, 0 <= k -> Zdigits2 (Zpos m * 2 ^ k) = d + k + 1).
  { intros k Hk. pose proof (Z.pow_pos_nonneg 2 k ltac:(lia) Hk).
    destruct (Zpos m * 2 ^ k) as [|p|p] eqn:Hp; [nia| |nia].
    cbn [Zdigits2]. rewrite digits2_log2, <- Hp, Z.log2_mul_pow2 by lia. unfold d. lia. }
  rewrite (Hdig 23) by lia.
  set (k := fexp 24 128 (d + 23 + 1 + (e + -7)) - (e + -7)).
  assert (Hk : 7 <= k <= 23) by (unfold k, fexp, emin in *; lia).
  replace (Zpos m * 2 ^ 23) with (Zpos m * 2 ^ (23 - k) * 2 ^ k)
    by (rewrite <- Z.mul_assoc, <- Z.pow_add_r by lia; do 2 f_equal; lia).
  unfold shr at 1. destruct k as [|p|p] eqn:Ek; [lia| |lia].
  rewrite shr_exact. cbn [shr_m loc_of_shr_record round_nearest_even].
  rewrite (Hdig (23 - Zpos p)) by lia.
  replace (fexp 24 128 (d + (23 - Zpos p) + 1 + (e + -7 + Zpos p)) - (e + -7 + Zpos p)) with 0
    by (unfold k, fexp, emin in *; lia).
  cbn [shr shr_m].
  pose proof (Z.mul_pos_pos (Zpos m) _ eq_refl
    (Z.pow_pos_nonneg 2 (23 - Zpos p) ltac:(lia) ltac:(lia))) as Hpos.
  destruct (Zpos m * 2 ^ (23 - Zpos p)) as [|q|q] eqn:Hq; [lia| |lia].
  exists q, (e + -7 + Zpos p). split; [|done].
  rewrite truncate_shiftl, <- Hq, <- Z.shiftl_mul_pow2 by lia.
  rewrite Z.shiftl_shiftl by lia. f_equal. lia.
Qed.

(** The number of ticks in a time, rounded down: [f] is the frequency. *)
Definition ticks_in (f : Z) (m : positive) (e : Z) : Z := Z.shiftl (Zpos m * f) e.

Lemma ticks_in_le f f' k m e : 0 <= k -> 0 <= f -> k * f <= f' -> k * ticks_in f m e <= ticks_in f' m e.
Proof.
  intros Hk Hf Hle. unfold ticks_in. destruct (Z.leb_spec 0 e).
  - rewrite !Z.shiftl_mul_pow2 by done. pose proof (Z.pow_nonneg 2 e ltac:(lia)).
    assert (Zpos m * (k * f) <= Zpos m * f') by (apply Z.mul_le_mono_nonneg_l; lia).
    replace (k * (Zpos m * f * 2 ^ e)) with (Zpos m * (k * f) * 2 ^ e) by ring.
    by apply Z.mul_le_mono_nonneg_r.
  - rewrite <- (Z.opp_involutive e), !Z.shiftl_opp_r, !Z.shiftr_div_pow2 by lia.
    pose proof (Z.pow_pos_nonneg 2 (- e) ltac:(lia) ltac:(lia)) as Hp.
    assert (Zpos m * (k * f) <= Zpos m * f') by (apply Z.mul_le_mono_nonneg_l; lia).
    apply Z.div_le_lower_bound; [lia|].
    pose proof (Z.mul_div_le (Zpos m * f) (2 ^ (- e)) Hp) as Hd.
    apply (Z.mul_le_mono_nonneg_l _ _ k) in Hd; [|lia].
    replace (2 ^ (- e) * (k * (Zpos m * f / 2 ^ (- e)))) with (k * (2 ^ (- e) * (Zpos m * f / 2 ^ (- e)))) by ring.
    lia.
Qed.

Lemma u32_of_float_nonneg f t : u32_of_float f = Some t -> 0 <= t.
Proof.
  unfold u32_of_float. destruct f as [ | | |s m e]; try done; [by intros [= <-]|].
  destruct (e >? 32); [done|]. cbv zeta. destruct (_ && _) eqn:E; [|done].
  apply andb_prop in E as [E _]. apply Z.leb_le in E. by intros [= <-].
Qed.

Lemma compute_pit_wait_nonneg s w k sp : compute_pit_wait s w k = Some sp ->
  0 <= full_cycles sp /\ 0 <= reminder_pit_count sp.
Proof.
  unfold compute_pit_wait. destruct (u32_of_float _) as [f|] eqn:Hf; [|done]. cbn [mbind option_bind].
  destruct (u32_of_float (fmul _ (float_of (k + 1)))) as [r|] eqn:Hr; [|done]. intros [= <-].
  split; [by apply u32_of_float_nonneg in Hf|by apply u32_of_float_nonneg in Hr].
Qed.

(** ** Rounding *)

Lemma shr_1_m r : 0 <= shr_m r -> shr_m (shr_1 r) = shr_m r / 2.
Proof.
  destruct r as [m a b]. cbn [shr_m]. intros Hm. destruct m as [|p|p]; [done| |lia].
  destruct p as [p|p|]; cbn [shr_1 shr_m]; [| |done].
  - rewrite Pos2Z.inj_xI. apply Z.div_unique with 1; lia.
  - rewrite Pos2Z.inj_xO, Z.mul_comm. by rewrite Z.div_mul.
Qed.

Lemma shr_iter_m p r : 0 <= shr_m r -> shr_m (iter_pos shr_1 p r) = shr_m r / 2 ^ Zpos p.
Proof.
  revert r. induction p as [p IH|p IH|]; intros r Hr; cbn [iter_pos].
  - assert (H1 : 0 <= shr_m (shr_1 r)) by (rewrite shr_1_m by done; apply Z.div_pos; lia).
    rewrite !IH, shr_1_m by (try done; rewrite IH by done; apply Z.div_pos; lia).
    rewrite !Z.div_div by lia. f_equal. rewrite (Pos2Z.inj_xI p), Z.pow_add_r, Z.pow_twice_r by lia. ring.
  - rewrite !IH by (try done; rewrite IH by done; apply Z.div_pos; lia).
    rewrite Z.div_div by lia. f_equal. by rewrite (Pos2Z.inj_xO p), Z.pow_twice_r.
  - by apply shr_1_m.
Qed.

Lemma shr_m_of_loc m l : shr_m (shr_record_of_loc m l) = m.
Proof. by destruct l as [|[]]. Qed.

Lemma shr_fst_m m l e n : 0 <= m -> 0 <= n -> shr_m (fst (shr (shr_record_of_loc m l) e n)) = m / 2 ^ n.
Proof.
  intros Hm Hn. unfold shr. destruct n as [|p|p]; [|cbn [fst]|lia].
  - change (2 ^ 0) with 1. rewrite Z.div_1_r. apply shr_m_of_loc.
  - rewrite shr_iter_m; rewrite shr_m_of_loc; done.
Qed.
Lemma shr_snd r e n : 0 <= n -> snd (shr r e n) = e + n.
Proof. intros Hn. destruct n; cbn; lia. Qed.

Lemma Zdigits2_log2 m : 0 < m -> Zdigits2 m = Z.log2 m + 1.
Proof. intros Hm. destruct m as [|p|p]; [lia| |lia]. apply digits2_log2. Qed.

(** A mantissa that the rounding carried to 25 bits is shifted once more, without loss. *)
Lemma carry_shifted E M : -149 <= E -> 0 < M <= 2 ^ 24 ->
  (M < 2 ^ 24 \/ fexp 24 128 (25 + E) = E + 1) -> exists q e'',
  M = q * 2 ^ (e'' - E) /\ E <= e'' <= E + 1 /\ 0 < q /\
  shr_fexp 24 128 M E loc_Exact = (Build_shr_record q false false, e'').
Proof.
  intros HE HM Hc. unfold shr_fexp. rewrite Zdigits2_log2 by lia. destruct (decide (M = 2 ^ 24)) as [->|Hne].
  - exists (2 ^ 23), (E + 1). replace (E + 1 - E) with 1 by lia. change (Z.log2 (2 ^ 24) + 1) with 25.
    destruct Hc as [?|Hf]; [lia|]. rewrite Hf. replace (E + 1 - E) with 1 by lia. repeat split; lia.
  - exists M, E. rewrite Z.sub_diag, Z.mul_1_r. split; [done|]. split; [lia|]. split; [lia|].
    assert (Z.log2 M < 24) by (apply Z.log2_lt_pow2; lia).
    assert (fexp 24 128 (Z.log2 M + 1 + E) - E <= 0) by (unfold fexp, emin in *; lia).
    unfold shr. destruct (_ - E); [done|lia|done].
Qed.

(** The mantissa is cut at the exponent of the result, and the cut one or its successor is taken. *)
Lemma rounds_to_neighbour m e l : 0 < m -> let E := fexp 24 128 (Z.log2 m + 1 + e) in e <= E <= 0 ->
  exists M, (M = m / 2 ^ (E - e) \/ M = m / 2 ^ (E - e) + 1) /\ m / 2 ^ (E - e) < 2 ^ 24 /\
    u32_of_float (binary_round_aux 24 128 false m e l) = Some (M / 2 ^ (- E)).
Proof.
  intros Hm E HE. set (k := E - e). set (A := m / 2 ^ k).
  assert (HA : 0 <= A < 2 ^ 24).
  { split; [apply Z.div_pos; lia|]. apply Z.div_lt_upper_bound; [lia|].
    rewrite <- Z.pow_add_r by lia. apply Z.log2_lt_pow2; [done|]. unfold k, E, fexp, emin. lia. }
  unfold binary_round_aux, shr_fexp at 1. rewrite Zdigits2_log2 by done. fold E.
  rewrite (surjective_pairing (shr _ _ _)), shr_fst_m, shr_snd by lia. fold k A.
  replace (e + k) with E by (unfold k; lia).
  generalize (loc_of_shr_record (fst (shr (shr_record_of_loc m l) e k))). intros l'.
  assert (HM : exists M, round_nearest_even A l' = M /\ (M = A \/ M = A + 1)).
  { eexists. split; [done|]. destruct l' as [|[]]; cbn; try destruct (Z.even A); auto. }
  destruct HM as (M & -> & HM). exists M. split; [done|]. split; [lia|].
  destruct (decide (M = 0)) as [->|HM0].
  { unfold shr_fexp. cbn [Zdigits2 shr_record_of_loc]. rewrite Z.add_0_l.
    assert (fexp 24 128 E - E <= 0) by (unfold E, fexp, emin; lia).
    unfold shr. destruct (fexp 24 128 E - E); [done|lia|done]. }
  destruct (carry_shifted E M) as (q & e'' & Hq & He & Hq0 & ->);
    [unfold E, fexp, emin; lia|lia|unfold E, fexp, emin in *; lia|]. cbn [shr_m].
  destruct q as [|q|q]; [lia| |lia].
  rewrite (proj2 (Z.leb_le e'' (128 - 24))) by lia. unfold u32_of_float.
  rewrite Z.gtb_ltb, (proj2 (Z.ltb_ge 32 e'')) by lia. cbv zeta.
  replace (truncate q e'') with (M / 2 ^ (- E)).
  2:{ rewrite truncate_shiftl, Hq, <- !Z.shiftl_mul_pow2, <- Z.shiftr_div_pow2, <- Z.shiftl_opp_r by lia.
      rewrite Z.opp_involutive, Z.shiftl_shiftl by lia. f_equal. lia. }
  assert (0 <= M / 2 ^ (- E)) by (apply Z.div_pos; lia).
  assert (M / 2 ^ (- E) <= M) by (apply Z.div_le_upper_bound; [lia|nia]).
  rewrite (proj2 (Z.leb_le 0 _)), (proj2 (Z.ltb_lt _ (2 ^ 32))) by lia. done.
Qed.

(** ** The whole periods

    The longest single wait, 65536 ticks, is this many times two to the -28 seconds. *)
Definition period : Z := 14743925.
Lemma max_single_wait_value : max_single_wait = S754_finite false (Z.to_pos period) (-28).
Proof. reflexivity. Qed.

Lemma bounded_exponent m e : bounded 24 128 m e = true -> e = Z.max (Z.log2 (Zpos m) + 1 + e - 24) (-149).
Proof.
  intros Hb. apply andb_true_iff in Hb as [Hc _]. apply Z.eqb_eq in Hc.
  rewrite digits2_log2 in Hc. unfold fexp, emin in Hc. lia.
Qed.

(** The quotient by a number of 24 bits. *)
Lemma quotient_log2 a q r t : 25 <= t -> 2 ^ (t - 1) <= a < 2 ^ t -> a = period * q + r ->
  0 <= r < period -> 0 < q /\ t - 25 <= Z.log2 q < t - 23.
Proof.
  intros Ht Ha Hq Hr. unfold period in *.
  assert (2 ^ (t - 25) <= q < 2 ^ (t - 23)).
  { split.
    - replace (t - 1) with (24 + (t - 25)) in Ha by lia. rewrite (Z.pow_add_r 2 24) in Ha by lia.
      pose proof (Z.pow_pos_nonneg 2 (t - 25) ltac:(lia) ltac:(lia)).
      change (2 ^ 24) with 16777216 in Ha. destruct (Z.le_gt_cases (2 ^ (t - 25)) q); [done|]. lia.
    - replace t with (23 + (t - 23)) in Ha by lia. rewrite (Z.pow_add_r 2 23) in Ha by lia.
      change (2 ^ 23) with 8388608 in Ha. lia. }
  pose proof (Z.pow_pos_nonneg 2 (t - 25) ltac:(lia) ltac:(lia)).
  split; [lia|]. split; [apply Z.log2_le_pow2|apply Z.log2_lt_pow2]; lia.
Qed.

(** The quotient, cut to a multiple of two to the [-n], and the one that is taken. *)
Lemma division_rounds m e : bounded 24 128 m e = true -> Z.log2 (Zpos m) + e < 6 ->
  exists n A M x y, 13 <= n /\ 0 <= x /\ 0 <= y /\ y = x + e + 28 + n /\ (M = A \/ M = A + 1) /\
    0 <= A < 2 ^ 24 /\ (n = 149 \/ 2 ^ 23 <= A) /\
    A * (period * 2 ^ x) <= Zpos m * 2 ^ y < (A + 1) * (period * 2 ^ x) /\
    u32_of_float (fdiv (S754_finite false m e) max_single_wait) = Some (M / 2 ^ n).
Proof.
  intros Hb Hlt. apply bounded_exponent in Hb. rewrite max_single_wait_value.
  unfold fdiv, SFdiv, SFdiv_core_binary. cbv zeta. rewrite !Zdigits2_log2 by done.
  change (Zpos (Z.to_pos period)) with period. change (Z.log2 period + 1) with 24.
  pose proof (Z.log2_nonneg (Zpos m)) as Hd. set (d := Z.log2 (Zpos m) + 1) in *.
  set (e' := Z.min (fexp 24 128 (d + e - (24 + -28))) (e - -28)).
  set (s := e - -28 - e').
  assert (Hs : 0 <= s /\ 29 <= d + s) by (unfold s, e', fexp, emin; lia). destruct Hs as [Hs Hds].
  replace (match s with 0 => Zpos m | Z.pos _ => Z.shiftl (Z.pos m) s | Z.neg _ => 0 end)
    with (Zpos m * 2 ^ s) by (rewrite <- Z.shiftl_mul_pow2 by done; by destruct s; [rewrite Z.shiftl_0_r| |lia]).
  pose proof (Z.div_eucl_eq (Zpos m * 2 ^ s) period ltac:(done)) as Hdiv.
  pose proof (Z.mod_pos_bound (Zpos m * 2 ^ s) period ltac:(done)) as Hmod.
  unfold Z.modulo in Hmod.
  destruct (Z.div_eucl (Zpos m * 2 ^ s) period) as [q r].
  assert (Hm : 2 ^ (d + s - 1) <= Zpos m * 2 ^ s < 2 ^ (d + s)).
  { pose proof (Z.log2_spec (Zpos m) eq_refl) as [H1 H2]. replace (d + s - 1) with (d - 1 + s) by lia.
    rewrite (Z.pow_add_r 2 (d - 1)), (Z.pow_add_r 2 d) by lia.
    change (Z.succ (Z.log2 (Zpos m))) with d in H2. replace (d - 1) with (Z.log2 (Zpos m)) by lia.
    split; [apply Z.mul_le_mono_nonneg_r|apply Z.mul_lt_mono_pos_r]; lia. }
  destruct (quotient_log2 (Zpos m * 2 ^ s) q r (d + s)) as [Hq0 Hlog]; [lia|done|lia|lia|].
  set (E := fexp 24 128 (Z.log2 q + 1 + e')).
  assert (HE : e' <= E <= -13) by (unfold E, s, e', fexp, emin in *; lia).
  destruct (rounds_to_neighbour q e' (new_location period r) Hq0) as (M & HM & HA & Hu); [fold E; lia|].
  fold E in HM, HA, Hu.
  exists (- E), (q / 2 ^ (E - e')), M, (E - e'), s.
  assert (H2 : 0 < 2 ^ (E - e')) by (apply Z.pow_pos_nonneg; lia).
  pose proof (Z.div_mod q (2 ^ (E - e')) ltac:(lia)) as Hqd.
  pose proof (Z.mod_pos_bound q (2 ^ (E - e')) H2) as Hqm.
  assert (0 <= q / 2 ^ (E - e')) by (apply Z.div_pos; lia).
  repeat split; try lia; try done.
  - destruct (decide (E = -149)); [left; lia|right].
    assert (HEe : E = Z.log2 q + 1 + e' - 24) by (unfold E, fexp, emin in *; lia).
    apply Z.div_le_lower_bound; [lia|]. rewrite <- Z.pow_add_r by lia.
    replace (E - e' + 23) with (Z.log2 q) by lia. by apply Z.log2_spec.
  - replace (q / 2 ^ (E - e') * (period * 2 ^ (E - e'))) with (period * (2 ^ (E - e') * (q / 2 ^ (E - e')))) by ring.
    unfold period in *. lia.
  - replace ((q / 2 ^ (E - e') + 1) * (period * 2 ^ (E - e')))
      with (period * (2 ^ (E - e') * (q / 2 ^ (E - e')) + 2 ^ (E - e'))) by ring.
    unfold period in *. lia.
Qed.

Lemma ticks_in_scaled f m e : -28 <= e -> ticks_in f m e = Zpos m * 2 ^ (e + 28) * f / 2 ^ 28.
Proof.
  intros He. unfold ticks_in. replace e with (e + 28 + - (28)) at 1 by lia.
  rewrite <- Z.shiftl_shiftl, Z.shiftl_opp_r, Z.shiftr_div_pow2, Z.shiftl_mul_pow2 by lia. f_equal. ring.
Qed.

(** From a period on the number of whole periods is right up to 2048 of these units. *)
Lemma periods_of_long m e : bounded 24 128 m e = true -> Z.log2 (Zpos m) + e < 6 -> -28 <= e ->
  exists f, u32_of_float (fdiv (S754_finite false m e) max_single_wait) = Some f /\ 0 <= f /\
    period * f - 2 ^ 11 <= Zpos m * 2 ^ (e + 28) < period * (f + 1).
Proof.
  intros Hb Hlt He.
  destruct (division_rounds m e Hb Hlt) as (n & A & M & x & y & Hn & Hx & Hy & Hxy & HM & HA & _ & Hq & Hu).
  exists (M / 2 ^ n). split; [done|].
  assert (HN : 2 ^ 13 <= 2 ^ n) by (apply Z.pow_le_mono_r; lia). change (2 ^ 13) with 8192 in HN.
  pose proof (Z.div_mod M (2 ^ n) ltac:(lia)) as Hdm.
  pose proof (Z.mod_pos_bound M (2 ^ n) ltac:(lia)) as Hmod.
  split; [apply Z.div_pos; lia|].
  replace (Zpos m * 2 ^ y) with (Zpos m * 2 ^ (e + 28) * 2 ^ n * 2 ^ x) in Hq
    by (rewrite Hxy; replace (x + e + 28 + n) with (e + 28 + n + x) by lia; rewrite (Z.pow_add_r 2 (e + 28 + n)), (Z.pow_add_r 2 (e + 28)) by lia; ring).
  set (S := Zpos m * 2 ^ (e + 28)) in *. set (f := M / 2 ^ n) in *.
  assert (HX : 0 < 2 ^ x) by (apply Z.pow_pos_nonneg; lia).
  rewrite !Z.mul_assoc in Hq.
  assert (H1 : A * period <= S * 2 ^ n) by (apply (Z.mul_le_mono_pos_r _ _ (2 ^ x)); lia).
  assert (H2 : S * 2 ^ n < (A + 1) * period) by (apply (Z.mul_lt_mono_pos_r (2 ^ x)); lia).
  change (2 ^ 11) with 2048. split.
  - apply (Z.mul_le_mono_pos_r _ _ (2 ^ n)); [lia|]. unfold period in *.
    replace ((14743925 * f - 2048) * 2 ^ n) with (14743925 * (2 ^ n * f) - 2048 * 2 ^ n) by ring. lia.
  - apply (Z.mul_lt_mono_pos_r (2 ^ n)); [lia|]. unfold period in *.
    replace (14743925 * (f + 1) * 2 ^ n) with (14743925 * (2 ^ n * f + 2 ^ n)) by ring. lia.
Qed.

(** Below a period there is none. *)
Lemma periods_of_short m e : bounded 24 128 m e = true -> e < -28 \/ (e = -28 /\ Zpos m < period) ->
  u32_of_float (fdiv (S754_finite false m e) max_single_wait) = Some 0.
Proof.
  intros Hb He. pose proof (bounded_exponent m e Hb) as Hbe.
  assert (Hm : Zpos m < 2 ^ 24) by (apply Z.log2_lt_pow2; lia). change (2 ^ 24) with 16777216 in Hm.
  destruct (division_rounds m e Hb ltac:(lia)) as (n & A & M & x & y & Hn & Hx & Hy & Hxy & HM & HA & HA' & Hq & Hu).
  rewrite Hu. f_equal. apply Z.div_small.
  assert (HX : 0 < 2 ^ x) by (apply Z.pow_pos_nonneg; lia).
  rewrite !Z.mul_assoc in Hq. destruct Hq as [Hq _].
  assert (H1 : exists w, 0 < w /\ w * 2 <= 2 * 2 ^ n /\ A * period <= Zpos m * w /\
    (w * 2 <= 2 ^ n \/ Zpos m < period)).
  { exists (if decide (e = -28) then 2 ^ n else 2 ^ (n - 1)).
    assert (Hn1 : 2 ^ n = 2 * 2 ^ (n - 1)) by (rewrite <- Z.pow_succ_r by lia; f_equal; lia).
    assert (0 < 2 ^ (n - 1)) by (apply Z.pow_pos_nonneg; lia).
    destruct (decide (e = -28)) as [->|Hne].
    - repeat split; [lia|lia| |right; lia].
      apply (Z.mul_le_mono_pos_r _ _ (2 ^ x)); [done|]. rewrite <- (Z.mul_assoc (Zpos m)), <- Z.pow_add_r by lia.
      replace (n + x) with y by lia. lia.
    - repeat split; [lia|lia| |left; lia].
      apply (Z.mul_le_mono_pos_r _ _ (2 ^ x)); [done|]. rewrite <- (Z.mul_assoc (Zpos m)), <- Z.pow_add_r by lia.
      etransitivity; [exact Hq|]. apply Z.mul_le_mono_nonneg_l; [lia|]. apply Z.pow_le_mono_r; lia. }
  destruct H1 as (w & Hw & Hw2 & Hle & Hc). unfold period in *.
  assert (HAn : A < 2 ^ n) by (destruct Hc; nia).
  assert (Hn24 : 24 <= n).
  { destruct HA' as [->|HA']; [lia|]. destruct (Z.le_gt_cases 24 n); [done|].
    assert (2 ^ n <= 2 ^ 23) by (apply Z.pow_le_mono_r; lia). lia. }
  assert (HN : 2 ^ 24 <= 2 ^ n) by (apply Z.pow_le_mono_r; lia). change (2 ^ 24) with 16777216 in HN.
  assert (A + 1 < 2 ^ n) by (destruct Hc; nia). lia.
Qed.

(** ** The rest *)

Lemma scaled_in_range m e : bounded 24 128 m e = true -> Z.shiftl (Zpos m) (e + 16) < 2 ^ 32 ->
  u32_of_float (fmul (S754_finite false m e) (float_of 65536)) = Some (Z.shiftl (Zpos m) (e + 16)).
Proof.
  intros Hb Hlt. destruct (fmul_65536_aux m e Hb) as (m' & e' & Ht & ->). rewrite <- Ht in *. clear Ht.
  assert (He : e' <= 32).
  { destruct (Z.le_gt_cases e' 32); [done|]. rewrite truncate_shiftl, Z.shiftl_mul_pow2 in Hlt by lia.
    assert (2 ^ 32 <= 2 ^ e') by (apply Z.pow_le_mono_r; lia). nia. }
  rewrite (proj2 (Z.leb_le e' (128 - 24))) by lia. unfold u32_of_float.
  rewrite Z.gtb_ltb, (proj2 (Z.ltb_ge 32 e')) by lia. cbv zeta.
  rewrite (proj2 (Z.leb_le 0 (truncate m' e'))) by (rewrite truncate_shiftl; apply Z.shiftl_nonneg; lia).
  by rewrite (proj2 (Z.ltb_lt _ (2 ^ 32)) Hlt).
Qed.

Lemma iter_xO p d : Zpos (Pos.iter xO p d) = Zpos p * 2 ^ Zpos d.
Proof.
  induction d as [|d IH] using Pos.peano_ind; [cbn; lia|].
  rewrite Pos.iter_succ, Pos2Z.inj_succ, Z.pow_succ_r by lia. cbn [Pos.iter].
  change (Zpos (Pos.iter xO p d)~0) with (2 * Zpos (Pos.iter xO p d)). rewrite IH. ring.
Qed.

(** A mantissa that fits is not rounded, only brought to its exponent. *)
Lemma round_fits s p ez : -149 <= ez <= 0 -> Z.log2 (Zpos p) < 24 ->
  exists p' E, binary_round 24 128 s p ez = S754_finite s p' E /\ bounded 24 128 p' E = true /\
    E <= ez /\ Zpos p' = Zpos p * 2 ^ (ez - E).
Proof.
  intros He Hp. pose proof (Z.log2_nonneg (Zpos p)) as Hp0. unfold binary_round. rewrite digits2_log2.
  set (E := fexp 24 128 (Z.log2 (Zpos p) + 1 + ez)).
  assert (HE : E <= ez) by (unfold E, fexp, emin; lia).
  assert (Hs : exists p', shl_align p ez E = (p', E) /\ Zpos p' = Zpos p * 2 ^ (ez - E)).
  { unfold shl_align. destruct (E - ez) as [|d|d] eqn:Hd; [|lia|].
    - exists p. replace E with ez by lia. by rewrite Z.sub_diag, Z.mul_1_r.
    - exists (Pos.iter xO p d). split; [done|]. rewrite iter_xO. do 2 f_equal. lia. }
  destruct Hs as (p' & -> & Hp'). exists p', E.
  assert (Hl : fexp 24 128 (Z.log2 (Zpos p') + 1 + E) = E).
  { rewrite Hp', Z.log2_mul_pow2 by lia. unfold E at 3. f_equal. lia. }
  assert (Hb : bounded 24 128 p' E = true).
  { apply andb_true_iff. split; [apply Z.eqb_eq; by rewrite digits2_log2|apply Z.leb_le; lia]. }
  split; [|done]. unfold binary_round_aux, shr_fexp at 1. rewrite Zdigits2_log2, Hl, Z.sub_diag by done.
  cbn [shr shr_record_of_loc shr_m loc_of_shr_record round_nearest_even].
  unfold shr_fexp. rewrite Zdigits2_log2, Hl, Z.sub_diag by done. cbn [shr shr_record_of_loc shr_m].
  by rewrite (proj2 (Z.leb_le E (128 - 24))) by lia.
Qed.

Lemma fmul_opp m e x : fmul (S754_finite true m e) (S754_finite false x (-7)) =
  SFopp (fmul (S754_finite false m e) (S754_finite false x (-7))).
Proof.
  unfold fmul, SFmul, binary_round_aux. cbn [xorb].
  destruct (shr_fexp 24 128 (Zpos (m * x)) (e + -7) loc_Exact) as [r e'].
  destruct (shr_fexp 24 128 _ e' loc_Exact) as [r' e'']. destruct (shr_m r'); try done.
  by destruct (e'' <=? 128 - 24).
Qed.
Lemma u32_of_opp f : u32_of_float f = Some 0 -> u32_of_float (SFopp f) = Some 0.
Proof.
  destruct f as [| | |s m e]; try done. cbn [SFopp]. unfold u32_of_float. destruct (e >? 32); [done|]. cbv zeta.
  intros Ht. assert (H0 : truncate m e = 0) by (destruct s; case_match; simplify_eq/=; lia).
  rewrite H0. by destruct s.
Qed.

(** A difference of times, in units of two to the -28 seconds, as a count. *)
Lemma difference_count d ez : -28 <= ez <= 0 -> - 2 ^ 12 < d * 2 ^ (ez + 28) < 2 ^ 24 ->
  u32_of_float (fmul (binary_normalize 24 128 d ez false) (float_of 65536)) =
    Some (Z.max 0 (d * 2 ^ (ez + 28) / 2 ^ 12)).
Proof.
  intros He Hd. assert (HT : 1 <= 2 ^ (ez + 28)) by (apply (Z.pow_le_mono_r 2 0); lia).
  assert (Hcount : forall p, Zpos p * 2 ^ (ez + 28) < 2 ^ 24 -> Z.log2 (Zpos p) < 24 /\
    forall p' E, E <= ez -> Zpos p' = Zpos p * 2 ^ (ez - E) ->
      Z.shiftl (Zpos p') (E + 16) = Zpos p * 2 ^ (ez + 28) / 2 ^ 12).
  { intros p Hp. split; [apply Z.log2_lt_pow2; nia|]. intros p' E HE ->.
    rewrite <- !Z.shiftl_mul_pow2, Z.shiftl_shiftl, <- Z.shiftr_div_pow2, <- Z.shiftl_opp_r, Z.shiftl_shiftl by lia.
    f_equal. lia. }
  assert (H24 : 2 ^ 24 / 2 ^ 12 = 2 ^ 12) by done.
  destruct d as [|p|p]; [done| |].
  - destruct (Hcount p ltac:(lia)) as [Hl Hc].
    destruct (round_fits false p ez ltac:(lia) Hl) as (p' & E & Hr & Hb & HE & Hp'). cbn [binary_normalize].
    rewrite Hr. specialize (Hc p' E HE Hp').
    assert (0 <= Zpos p * 2 ^ (ez + 28) / 2 ^ 12 < 2 ^ 12).
    { split; [apply Z.div_pos; lia|apply Z.div_lt_upper_bound; lia]. }
    rewrite scaled_in_range by (try done; rewrite Hc; lia). f_equal. rewrite Hc. lia.
  - destruct (Hcount p ltac:(lia)) as [Hl Hc].
    destruct (round_fits true p ez ltac:(lia) Hl) as (p' & E & Hr & Hb & HE & Hp'). cbn [binary_normalize].
    rewrite Hr. specialize (Hc p' E HE Hp').
    assert (Hz : Zpos p * 2 ^ (ez + 28) / 2 ^ 12 = 0) by (apply Z.div_small; lia).
    change (float_of 65536) with (S754_finite false 8388608 (-7)). rewrite fmul_opp.
    change (S754_finite false 8388608 (-7)) with (float_of 65536).
    rewrite u32_of_opp; [|rewrite scaled_in_range by (try done; rewrite Hc, Hz; lia); by rewrite Hc, Hz].
    f_equal. symmetry. apply Z.max_l. apply Z.div_le_upper_bound; lia.
Qed.

(** The [float] times of the whole periods below a minute: the program's products and the exact ones. *)
Definition product_close (f : Z) : bool :=
  match fmul (float_of f) max_single_wait with
  | S754_finite false w x =>
      let W := Zpos w * 2 ^ (x + 28) in
      (-28 <=? x) && (x <=? 0) && (Z.abs (W - period * f) <=? 1000) &&
      (Z.abs (PIT_FREQ_HZ * W - 2 ^ 44 * f) <=? 1200 * PIT_FREQ_HZ)
  | _ => false
  end.
Lemma products_close : forallb product_close (seqZ 1 1165) = true.
Proof. by vm_compute. Qed.

Lemma product_of_periods f : 1 <= f <= 1165 -> exists w x,
  fmul (float_of f) max_single_wait = S754_finite false w x /\ -28 <= x <= 0 /\
  Z.abs (Zpos w * 2 ^ (x + 28) - period * f) <= 1000 /\
  Z.abs (PIT_FREQ_HZ * (Zpos w * 2 ^ (x + 28)) - 2 ^ 44 * f) <= 1200 * PIT_FREQ_HZ.
Proof.
  intros Hf. pose proof (proj1 (forallb_forall _ _) products_close f) as Hc.
  assert (Hin : f ∈ seqZ 1 1165) by (apply elem_of_seqZ; lia). apply list_elem_of_In in Hin.
  specialize (Hc Hin). unfold product_close in Hc.
  destruct (fmul (float_of f) max_single_wait) as [| | |[] w x]; try done. exists w, x. split; [done|]. lia.
Qed.

Lemma shl_align_fst m e ez : ez <= e -> Zpos (fst (shl_align m e ez)) = Zpos m * 2 ^ (e - ez).
Proof.
  intros He. unfold shl_align. destruct (ez - e) as [|d|d] eqn:Hd; cbn [fst].
  - replace (e - ez) with 0 by lia. lia.
  - lia.
  - rewrite iter_xO. do 2 f_equal. lia.
Qed.

(** What a split should be: [f] whole periods of 65536 ticks, up to 16 ticks, and the rest of the
    time, up to two units.  The unit is 1/65536 of a second, not a tick. *)
Definition split_near (m : positive) (e f r : Z) : Prop :=
  65536 * f - 16 <= ticks_in PIT_FREQ_HZ m e < 65536 * (f + 1) + 16 /\
  Z.abs (PIT_FREQ_HZ * r - (PIT_FREQ_HZ * ticks_in 65536 m e - 2 ^ 32 * f)) <= 2 * PIT_FREQ_HZ /\
  (f = 0 -> r = ticks_in 65536 m e).

Lemma long_bounds m e : bounded 24 128 m e = true -> Z.log2 (Zpos m) + e < 6 ->
  -28 < e \/ (e = -28 /\ period <= Zpos m) -> period <= Zpos m * 2 ^ (e + 28) < 2 ^ 34.
Proof.
  intros Hb Hlt He. pose proof (bounded_exponent m e Hb) as Hbe.
  pose proof (Z.log2_nonneg (Zpos m)) as Hm0. pose proof (Z.log2_spec (Zpos m) eq_refl) as Hml. split.
  - destruct He as [He|[-> He]]; [|change (2 ^ (-28 + 28)) with 1; lia].
    assert (2 ^ 1 <= 2 ^ (e + 28)) by (apply Z.pow_le_mono_r; lia).
    assert (2 ^ 23 <= Zpos m) by (replace 23 with (Z.log2 (Zpos m)) by lia; lia). unfold period. nia.
  - replace 34 with (Z.succ (Z.log2 (Zpos m)) + (34 - Z.succ (Z.log2 (Zpos m)))) by lia.
    rewrite (Z.pow_add_r 2 (Z.succ (Z.log2 (Zpos m)))) by lia.
    assert (2 ^ (e + 28) <= 2 ^ (34 - Z.succ (Z.log2 (Zpos m)))) by (apply Z.pow_le_mono_r; lia).
    assert (0 < 2 ^ (e + 28)) by (apply Z.pow_pos_nonneg; lia). nia.
Qed.

Lemma long_split m e : bounded 24 128 m e = true -> Z.log2 (Zpos m) + e < 6 ->
  -28 < e \/ (e = -28 /\ period <= Zpos m) -> exists f r,
  compute_pit_wait (S754_finite false m e) max_single_wait MAX_FREQ_DIVIDER = Some (mk_split f r) /\
  0 < f /\ 0 <= r < 2 ^ 12 /\ split_near m e f r.
Proof.
  intros Hb Hlt He. pose proof (bounded_exponent m e Hb) as Hbe.
  destruct (periods_of_long m e Hb Hlt ltac:(lia)) as (f & Hu & Hf0 & Hf).
  set (S := Zpos m * 2 ^ (e + 28)) in *.
  assert (HS := long_bounds m e Hb Hlt He). fold S in HS.
  change (2 ^ 34) with 17179869184 in HS. change (2 ^ 11) with 2048 in Hf. unfold period in HS, Hf.
  destruct (product_of_periods f ltac:(lia)) as (w & x & Hw & Hx & HW & HWF).
  set (W := Zpos w * 2 ^ (x + 28)) in *.
  assert (Hd : fsub (S754_finite false m e) (fmul (float_of f) max_single_wait) =
    binary_normalize 24 128 (Zpos m * 2 ^ (e - Z.min e x) - Zpos w * 2 ^ (x - Z.min e x)) (Z.min e x) false).
  { rewrite Hw. unfold fsub, SFsub, cond_Zopp. by rewrite !shl_align_fst by lia. }
  assert (HSW : (Zpos m * 2 ^ (e - Z.min e x) - Zpos w * 2 ^ (x - Z.min e x)) * 2 ^ (Z.min e x + 28) = S - W).
  { rewrite Z.mul_sub_distr_r, <- !Z.mul_assoc, <- !Z.pow_add_r by lia. unfold S, W. f_equal; do 2 f_equal; lia. }
  unfold period in HW.
  assert (Hr := difference_count (Zpos m * 2 ^ (e - Z.min e x) - Zpos w * 2 ^ (x - Z.min e x)) (Z.min e x) ltac:(lia)).
  rewrite HSW in Hr. change (2 ^ 12) with 4096 in Hr. change (2 ^ 24) with 16777216 in Hr.
  specialize (Hr ltac:(lia)). rewrite <- Hd in Hr.
  exists f, (Z.max 0 ((S - W) / 4096)). unfold compute_pit_wait. rewrite Hu. cbn [mbind option_bind].
  change (float_of (MAX_FREQ_DIVIDER + 1)) with (float_of 65536). rewrite Hr. split; [done|].
  split; [lia|]. unfold split_near. rewrite !ticks_in_scaled by lia. fold S.
  clear Hd HSW Hr Hw Hu Hlt He Hb. clearbody S W. unfold PIT_FREQ_HZ in *.
  change (2 ^ 12) with 4096. change (2 ^ 28) with 268435456. change (2 ^ 32) with 4294967296.
  change (2 ^ 44) with 17592186044416 in HWF.
  split; [Z.to_euclidean_division_equations; lia|].
  split; [Z.to_euclidean_division_equations; lia|].
  split; [Z.to_euclidean_division_equations; lia|lia].
Qed.

Lemma short_split m e : bounded 24 128 m e = true -> e < -28 \/ (e = -28 /\ Zpos m < period) ->
  compute_pit_wait (S754_finite false m e) max_single_wait MAX_FREQ_DIVIDER =
    Some (mk_split 0 (ticks_in 65536 m e)) /\
  0 <= ticks_in 65536 m e < 2 ^ 12 /\ split_near m e 0 (ticks_in 65536 m e).
Proof.
  intros Hb He. pose proof (bounded_exponent m e Hb) as Hbe.
  assert (Hm : Zpos m < 2 ^ 24) by (apply Z.log2_lt_pow2; lia). change (2 ^ 24) with 16777216 in Hm.
  assert (HN : 1 <= 2 ^ (- e - 28)) by (apply (Z.pow_le_mono_r 2 0); lia).
  assert (Hn : 2 ^ (- e) = 268435456 * 2 ^ (- e - 28)).
  { change 268435456 with (2 ^ 28). rewrite <- Z.pow_add_r by lia. f_equal. lia. }
  assert (Hms : Zpos m < period * 2 ^ (- e - 28)).
  { destruct He as [He|[-> He]]; [|change (2 ^ (- -28 - 28)) with 1; lia].
    assert (2 ^ 1 <= 2 ^ (- e - 28)) by (apply Z.pow_le_mono_r; lia). unfold period. lia. }
  unfold period in Hms.
  assert (Ht : forall k, 0 <= k -> ticks_in k m e = Zpos m * k / 2 ^ (- e)).
  { intros k Hk. unfold ticks_in. rewrite <- (Z.opp_involutive e) at 1. rewrite Z.shiftl_opp_r.
    by rewrite Z.shiftr_div_pow2 by lia. }
  assert (Hu : 0 <= ticks_in 65536 m e < 4096).
  { rewrite Ht, Hn by lia. split; [apply Z.div_pos; lia|apply Z.div_lt_upper_bound; lia]. }
  split; [|split; [lia|split; [|split; [|done]]]].
  3: { rewrite Z.mul_0_r, Z.sub_0_r, Z.sub_diag. unfold PIT_FREQ_HZ. lia. }
  - unfold compute_pit_wait. rewrite (periods_of_short m e Hb He). cbn [mbind option_bind].
    change (fmul (float_of 0) max_single_wait) with (S754_zero false).
    change (fsub (S754_finite false m e) (S754_zero false)) with (S754_finite false m e).
    change (float_of (MAX_FREQ_DIVIDER + 1)) with (float_of 65536).
    assert (Hsh : Z.shiftl (Zpos m) (e + 16) = ticks_in 65536 m e).
    { unfold ticks_in. change 65536 with (2 ^ 16). rewrite <- Z.shiftl_mul_pow2, Z.shiftl_shiftl by lia.
      f_equal. lia. }
    rewrite scaled_in_range, Hsh by (try done; rewrite Hsh; lia). done.
  - rewrite Ht, Hn by (unfold PIT_FREQ_HZ; lia). unfold PIT_FREQ_HZ. split.
    + etransitivity; [|apply Z.div_pos]; lia.
    + apply Z.div_lt_upper_bound; lia.
Qed.

(** Every time below 64 seconds is split, and nearly as it should be. *)
Lemma time_split m e : bounded 24 128 m e = true -> ticks_in 1 m e < 64 -> exists f r,
  compute_pit_wait (S754_finite false m e) max_single_wait MAX_FREQ_DIVIDER = Some (mk_split f r) /\
  0 <= f /\ 0 <= r < 2 ^ 12 /\ split_near m e f r.
Proof.
  intros Hb Hlt. pose proof (bounded_exponent m e Hb) as Hbe.
  assert (He : (e < -28 \/ (e = -28 /\ Zpos m < period)) \/ (-28 < e \/ (e = -28 /\ period <= Zpos m))) by lia.
  destruct He as [He|He].
  - exists 0, (ticks_in 65536 m e). by destruct (short_split m e Hb He).
  - destruct (long_split m e Hb) as (f & r & ? & ? & ?); [|done|].
    { unfold ticks_in in Hlt. rewrite Z.mul_1_r in Hlt. destruct (Z.leb_spec 0 e).
      - destruct (Z.lt_ge_cases (Z.log2 (Zpos m) + e) 6); [done|].
        rewrite <- (Z.log2_shiftl (Zpos m) e) in * by lia.
        assert (2 ^ 6 <= Z.shiftl (Zpos m) e); [|lia].
        apply Z.log2_le_pow2; [|lia]. rewrite Z.shiftl_mul_pow2 by lia.
        apply Z.mul_pos_pos; [lia|apply Z.pow_pos_nonneg; lia].
      - destruct (Z.lt_ge_cases (Z.log2 (Zpos m) + e) 6); [done|].
        assert (2 ^ 6 <= Z.shiftl (Zpos m) e); [|lia].
        rewrite <- (Z.opp_involutive e), Z.shiftl_opp_r, Z.shiftr_div_pow2 by lia.
        apply Z.div_le_lower_bound; [lia|]. rewrite <- Z.pow_add_r by lia.
        etransitivity; [|apply (Z.log2_spec (Zpos m)); lia]. apply Z.pow_le_mono_r; lia. }
    exists f, r. split; [done|]. split; [lia|done].
Qed.
