(* ===== verification/PitFacts.v ===== *)
(** * Facts about the programmable interval timer

    The counts that are programmed, the time they stand for, waiting, and the messages of the
    interrupt handler: what becomes of one timeout, and of two at a time. *)

From stdpp Require Import gmap.
From S2P Require Import Prelude Machine BitStruct StringHelper Terminal BitHex FloatText Lapic Pit PitSplitFacts.

(** ** What is observed of a run *)

Definition ports (es : list event) : list event :=
  List.filter (fun e => match e with EOut _ _ => true | _ => false end) es.
Definition EOI : event := EWrite 0xFEE000B0 0.
Definition is_eoi_write (e : event) : bool :=
  match e with EWrite a _ => a =? 0xFEE000B0 | _ => false end.
(** The interrupts that were acknowledged. *)
Definition eois (es : list event) : nat := length (List.filter is_eoi_write es).

Lemma ports_app es es' : ports (es ++ es') = ports es ++ ports es'.
Proof. apply List.filter_app. Qed.
Lemma eois_app es es' : eois (es ++ es') = (eois es + eois es')%nat.
Proof. unfold eois. by rewrite List.filter_app, length_app. Qed.

(** What the timer makes of the port writes: each command byte with its two bytes of the count
    gives the operating mode and the number of ticks, 65536 for the count 0. *)
Fixpoint programs (es : list event) : list (Z * Z) :=
  match es with
  | EOut 0x43 c :: EOut 0x40 lo :: EOut 0x40 hi :: es =>
      let count := lo + 2 ^ 8 * hi in
      ((c ≫ 1) .& 7, if count =? 0 then 2 ^ 16 else count) :: programs es
  | _ => []
  end.

(** The writes of [program_count]. *)
Definition programming (mode count : Z) : list event :=
  let count := u16 count in
  [EOut 0x43 (0x30 + 2 * mode); EOut 0x40 (count mod 2 ^ 8); EOut 0x40 (count / 2 ^ 8)].

Lemma programs_programming mode count es : 0 <= mode < 8 -> 0 <= count <= 2 ^ 16 ->
  programs (programming mode count ++ es) =
    (mode, if count mod 2 ^ 16 =? 0 then 2 ^ 16 else count) :: programs es.
Proof.
  intros Hm Hc. unfold programming, u16. cbn [app programs]. f_equal. f_equal.
  - rewrite Z.shiftr_div_pow2 by lia. change 7 with (Z.ones 3). rewrite Z.land_ones by lia.
    change (2 ^ 1) with 2. replace (0x30 + 2 * mode) with ((mode + 3 * 2 ^ 3) * 2) by lia.
    rewrite Z.div_mul, Z.mod_add by lia. apply Z.mod_small. lia.
  - rewrite Z.add_comm, <- Z.div_mod by lia. destruct (count mod 2 ^ 16 =? 0) eqn:E; [done|].
    apply Z.mod_small. destruct (decide (count = 2 ^ 16)) as [->|]; [done|lia].
Qed.

(** The timer is set to a mode and a number of ticks, and then [n] of its interrupts are handled before
    anything else is written to it. *)
Definition waits_through (mode ticks : Z) (n : nat) (es : list event) : Prop :=
  exists before during, es = before ++ during /\ programs (ports before) = [(mode, ticks)] /\
    ports during = [] /\ (n <= eois during)%nat.

(** The ticks that a programmed count stands for. *)
Definition counted (count : Z) : Z := if count mod 2 ^ 16 =? 0 then 2 ^ 16 else count.

Lemma programs_waits mode count n before during : 0 <= mode < 8 -> 0 <= count <= 2 ^ 16 ->
  ports before = programming mode count -> ports during = [] -> (n <= eois during)%nat ->
  waits_through mode (counted count) n (before ++ during).
Proof.
  intros Hm Hc Hb Hd Hn. exists before, during. rewrite Hb. split; [done|]. split; [|done].
  pose proof (programs_programming mode count [] Hm Hc) as E. by rewrite app_nil_r in E.
Qed.

Section runs.
Context {D : Type} `{PortDevice D} `{RegisterDevice D} `{Interrupts D}.
Local Abbreviation P A := (M D pit_globals A).

(** ** Programming *)

Lemma cli_yields g : yields (cli : P unit) g tt (set_processor false (pit_pending g) g) [ECall "cli" []].
Proof. by intros d. Qed.

Lemma set_pit_count_yields count g : 0 <= count < 2 ^ 16 ->
  yields (set_pit_count count : P unit) g tt (set_processor false (pit_pending g) g)
    [ECall "cli" []; EOut 0x40 (count mod 2 ^ 8); EOut 0x40 (count / 2 ^ 8)].
Proof.
  intros Hc.
  replace (count mod 2 ^ 8) with (u8 (count .& 0xFF)).
  2:{ change 0xFF with (Z.ones 8). rewrite Z.land_ones by lia. apply Z.mod_mod. lia. }
  replace (count / 2 ^ 8) with (u8 ((count .& 0xFF00) ≫ 8)); [by intros d|].
  rewrite Z.shiftr_land. change (0xFF00 ≫ 8) with (Z.ones 8).
  rewrite Z.land_ones, Z.shiftr_div_pow2 by lia. unfold u8. rewrite Z.mod_mod by lia.
  apply Z.mod_small. split; [apply Z.div_pos; lia|apply Z.div_lt_upper_bound; lia].
Qed.

Definition debug_ok (DEBUG : bool) (count : Z) : Prop := DEBUG = true -> count <= 2 ^ 16.

Lemma program_count_yields DEBUG mode count g : 0 <= mode < 8 -> 0 <= count -> debug_ok DEBUG count ->
  yields (program_count DEBUG mode count : P unit) g tt (set_processor false (pit_pending g) g)
    (take 1 (programming mode count) ++ ECall "cli" [] :: drop 1 (programming mode count)).
Proof.
  intros Hm Hc Hd. unfold program_count.
  apply (returns_bind _ _ g tt g).
  { destruct DEBUG; [|apply returns_ret]. unfold assert_handler_fmt.
    rewrite (proj2 (Z.leb_le count (MAX_FREQ_DIVIDER + 1))); [apply returns_ret|].
    apply Hd. reflexivity. }
  unfold programming. cbn [take drop app].
  apply (yields_bind _ _ g tt g tt _ [_] [_; _; _]).
  - intros d. unfold set_operation_mode, send_command_to_pit, outb. cbn.
    repeat split. do 2 f_equal. unfold Bit_0.binary16, Bit_4_5.low_then_high_byte, Bit_6_7.channel_0, u8.
    rewrite !Z.mod_0_l, (Z.mod_small mode) by lia. change (2 ^ 1) with 2. change (2 ^ 2) with 4.
    change (3 mod 4) with 3. change (2 ^ 3) with 8. change (2 ^ 8) with 256.
    rewrite Z.mod_small; lia.
  - replace (u16 (if count =? MAX_FREQ_DIVIDER + 1 then 0 else count)) with (u16 count).
    + apply set_pit_count_yields. unfold u16. apply Z.mod_pos_bound. lia.
    + destruct (count =? MAX_FREQ_DIVIDER + 1) eqn:E; [|done]. apply Z.eqb_eq in E. by rewrite E.
Qed.

(** Reading the count latches it and puts its two bytes together. *)
Lemma read_pit_count_spec g : ensures (read_pit_count : P Z) g (fun count g' es =>
  interrupt_flag g' = false /\ exists lo hi, is_u8 lo /\ is_u8 hi /\ count = lo + 2 ^ 8 * hi /\
    es = [ECall "cli" []; EOut 0x43 0; EIn 0x40 lo; EIn 0x40 hi]).
Proof.
  unfold read_pit_count, read_from_channel.
  eapply ensures_step; [apply cli_yields|]. eapply ensures_step; [apply yields_outb|].
  eapply ensures_bind; [apply ensures_inb|]. intros lo ? ? (Hlo & -> & ->).
  eapply ensures_bind; [apply ensures_inb|]. intros hi ? ? (Hhi & -> & ->).
  apply ensures_ret. split; [done|]. exists lo, hi. do 2 (split; [done|]). split; [|done].
  unfold is_u8 in *. rewrite lor_shiftl_add by lia. unfold u16. rewrite Z.mod_small; lia.
Qed.

(** ** The interrupt handler *)

(** The arrays have their size and the index stays inside them: it is 32 only while the newest
    timeout is outstanding. *)
Definition messages_ok (g : pit_globals) : Prop :=
  length (pit_msg_address g) = 32%nat /\ length (pit_msg_value g) = 32%nat /\
  0 <= pit_write_index g <= (if pit_is_new_timeout g then 32 else 31).

(** What one interrupt does with the messages. *)
Definition index_after (g : pit_globals) : Z :=
  if negb (pit_write_index g =? 0) && pit_is_new_timeout g
  then pit_write_index g - 1 else pit_write_index g.
Definition deliver (g : pit_globals) : pit_globals :=
  let i := Z.to_nat (index_after g) in
  let address := default 0 (pit_msg_address g !! i) in
  set_handled true
    (if address =? 0
     then set_messages (pit_is_new_timeout g) (index_after g) (pit_msg_address g) (pit_msg_value g)
            (words g) g
     else set_messages false (index_after g) (pit_msg_address g) (pit_msg_value g)
            (<[address := default 0 (pit_msg_value g !! i)]> (words g)) g).

Lemma index_after_bounds g : messages_ok g -> 0 <= index_after g <= 31.
Proof.
  intros (_ & _ & Hi). unfold index_after.
  destruct (pit_is_new_timeout g), (pit_write_index g =? 0) eqn:E; cbn; lia.
Qed.

Lemma deliver_ok g : messages_ok g -> messages_ok (deliver g).
Proof.
  intros Hg. pose proof (index_after_bounds g Hg) as Hi. destruct Hg as (Ha & Hv & Hx).
  unfold deliver. destruct (_ =? 0); (split; [exact Ha|]; split; [exact Hv|]); cbn; [|lia].
  destruct (pit_is_new_timeout g) eqn:E; cbn; lia.
Qed.

Definition handler_events (g : pit_globals) : list event :=
  match g_pit_mode g with wait_mode => [EOI] | game_mode => [EPrint "Game loop\n" []; EOI] end.

Lemma handler_yields g : messages_ok g ->
  yields (pit_interrupt_handler : P unit) g tt (deliver g) (handler_events g).
Proof.
  intros Hg. pose proof (index_after_bounds g Hg) as Hi. destruct Hg as (Ha & Hv & _).
  destruct (lookup_lt_is_Some_2 (pit_msg_address g) (Z.to_nat (index_after g))) as [a Hla]; [lia|].
  destruct (lookup_lt_is_Some_2 (pit_msg_value g) (Z.to_nat (index_after g))) as [v Hlv]; [lia|].
  unfold pit_interrupt_handler, deliver. rewrite Hla, Hlv. cbn [default].
  apply returns_gets.
  replace (handler_events g) with ((match g_pit_mode g with
    | wait_mode => [] | game_mode => [EPrint "Game loop\n" []] end) ++ [EOI]) by (unfold handler_events; by destruct (g_pit_mode g)).
  apply (yields_bind _ _ g tt g); [destruct (g_pit_mode g); by intros d|].
  set (g1 := set_messages (pit_is_new_timeout g) (index_after g) (pit_msg_address g) (pit_msg_value g)
    (words g) g).
  apply (returns_bind _ _ g tt g1).
  { intros d. repeat split. cbn. unfold g1, index_after. destruct (_ && _); [done|by destruct g]. }
  apply returns_get. eapply returns_cell; [exact Hla|].
  apply (returns_bind _ _ g1 tt (if a =? 0 then g1 else
    set_messages false (index_after g) (pit_msg_address g) (pit_msg_value g) (<[a:=v]> (words g)) g)).
  { destruct (a =? 0); cbn [negb]; [apply returns_ret|].
    eapply returns_cell; [exact Hlv|]. by intros d. }
  by intros d.
Qed.

(** [pit_interrupt], on either path. *)
Definition after_interrupt (g : pit_globals) : pit_globals :=
  if quick_pit g then set_handled true g else deliver g.
Lemma pit_interrupt_yields g : messages_ok g ->
  exists es, yields (pit_interrupt : P unit) g tt (after_interrupt g) (es ++ [EOI]) /\
    ports es = [] /\ eois es = O.
Proof.
  intros Hg. unfold pit_interrupt, after_interrupt.
  exists (if quick_pit g then [] else match g_pit_mode g with
    | wait_mode => [] | game_mode => [EPrint "Game loop\n" []] end).
  split; [|by destruct (quick_pit g), (g_pit_mode g)].
  apply returns_gets. destruct (quick_pit g); [by intros d|].
  pose proof (handler_yields g Hg) as Hh. unfold handler_events in Hh. by destruct (g_pit_mode g).
Qed.

Lemma after_interrupt_ok g : messages_ok g ->
  messages_ok (after_interrupt g) /\ pit_interrupt_handled (after_interrupt g) = true /\
  interrupt_flag (after_interrupt g) = interrupt_flag g /\ pit_pending (after_interrupt g) = pit_pending g.
Proof.
  intros Hg. unfold after_interrupt. destruct (quick_pit g); [done|].
  split; [by apply deliver_ok|]. unfold deliver. by destruct (_ =? 0).
Qed.
End runs.

(** ** Waiting *)

Section waits.
Context {D : Type} `{PortDevice D} `{RegisterDevice D} `{Interrupts D}.
Context (DEBUG : bool) (wakeups : nat).
Local Abbreviation P A := (M D pit_globals A).

(** Among the next [n] interrupts that end a halt is one of the timer. *)
Fixpoint ticks_within (n : nat) (d : D) : Prop :=
  match n with
  | O => False
  | S n =>
      match next_interrupt d with
      | (Some IRQ0, _) => True
      | (Some OtherIrq, d) => ticks_within n d
      | (None, _) => False
      end
  end.

(** What a wait leaves behind: no write to the timer, at least [n] interrupts of it handled. *)
Definition waited (n : nat) (g' : pit_globals) (es : list event) : Prop :=
  messages_ok g' /\ interrupt_flag g' = true /\ ports es = [] /\ (n <= eois es)%nat.

(** One interrupt, from any state whose processor takes it. *)
Lemma interrupt_waits g : messages_ok g -> interrupt_flag g = true ->
  ensures (pit_interrupt : P unit) g (fun _ g' es => waited 1 g' es /\ pit_interrupt_handled g' = true).
Proof.
  intros Hg Hf. destruct (pit_interrupt_yields (D:=D) g Hg) as (es & Hy & Hp & He).
  destruct (after_interrupt_ok g Hg) as (Hok & Hh & Hf' & _).
  eapply ensures_yields; [exact Hy|]. unfold waited. rewrite ports_app, Hp, eois_app, He, Hf'.
  repeat split; try apply Hok; try done; cbn; lia.
Qed.

Lemma take_pending_spec g : messages_ok g ->
  ensures (take_pending : P bool) g (fun taken g' es =>
    if (taken : bool) then interrupt_flag g = true /\ waited 1 g' es /\ pit_interrupt_handled g' = true
    else g' = g /\ es = []).
Proof.
  intros Hg. unfold take_pending. apply ensures_get.
  destruct (interrupt_flag g && pit_pending g) eqn:E; [|by apply ensures_ret].
  apply andb_true_iff in E as [Hf _].
  apply ensures_modify.
  eapply ensures_bind; [apply (interrupt_waits (set_processor true false g)); [apply Hg|done]|].
  intros [] g' es Hw. apply ensures_ret. rewrite app_nil_r. split; [exact Hf|exact Hw].
Qed.

Lemma arrives_spec i g : messages_ok g -> interrupt_flag g = true ->
  ensures (arrives i : P unit) g (fun _ g' es =>
    match i with
    | IRQ0 => waited 1 g' es /\ pit_interrupt_handled g' = true
    | OtherIrq => g' = g /\ es = []
    end).
Proof.
  intros Hg Hf. destruct i; cbn [arrives]; [|by apply ensures_ret].
  apply ensures_gets. rewrite Hf. by apply interrupt_waits.
Qed.

(** What a stretch of running code leaves behind. *)
Definition quiet (g g' : pit_globals) (es : list event) : Prop :=
  messages_ok g' /\ interrupt_flag g' = interrupt_flag g /\ ports es = [].

Lemma running_spec g : messages_ok g ->
  ensures (running : P unit) g (fun _ g' es => quiet g g' es).
Proof.
  intros Hg. unfold running. eapply ensures_bind; [by apply take_pending_spec|].
  intros [] g1 es1.
  - intros (Hf & (Hok & Hf1 & Hp & _) & _). apply ensures_ret. rewrite app_nil_r.
    unfold quiet. by rewrite Hf, Hf1.
  - intros [-> ->]. eapply (ensures_bind _ _ _ (fun _ g1 es1 => g1 = g /\ es1 = [])).
    { intros d. cbn. destruct (passing d) as [i d']. by exists i. }
    intros i ? ? [-> ->]. destruct i as [i|]; [|by apply ensures_ret].
    destruct (interrupt_flag g) eqn:Hf.
    + eapply ensures_weaken; [by apply arrives_spec|]. cbn beta. intros _ g' es Hi. unfold quiet.
      destruct i; [|by destruct Hi as [-> ->]]. destruct Hi as [(? & Hf' & ? & _) _]. by rewrite Hf, Hf'.
    + destruct i; cbn [arrives]; [|by apply ensures_ret].
      apply ensures_gets. rewrite Hf.
      eapply ensures_yields; [apply returns_modify|]. unfold quiet. cbn. by rewrite Hf.
Qed.

(** A halt ends with the timer's interrupt or with another one, which leaves no trace. *)
Lemma hlt_wakes (d : D) g : messages_ok g -> interrupt_flag g = true -> fst (next_interrupt d) <> None ->
  let r := (hlt : P unit) d g in
  o_exit r = Done tt /\
  ((waited 1 (o_glob r) (o_events r) /\ pit_interrupt_handled (o_glob r) = true) \/
   (next_interrupt d = (Some OtherIrq, o_dev r) /\ o_glob r = g /\ o_events r = [ECall "hlt" []])).
Proof.
  intros Hg Hf Hn. destruct (pit_pending g) eqn:Hp.
  - destruct (interrupt_waits (set_processor true false g) Hg eq_refl d) as ([] & He & Hw).
    cbv zeta. unfold hlt, take_pending, emit, get, gets, modify, mbind, M_bind, mret, M_ret. cbn.
    rewrite Hf, Hp. cbn. rewrite He. cbn. split; [done|left]. rewrite !app_nil_r. exact Hw.
  - cbv zeta. unfold hlt, take_pending, emit, get, gets, modify, mbind, M_bind, mret, M_ret. cbn.
    rewrite Hf, Hp. cbn. rewrite Hf. cbn. destruct (next_interrupt d) as [[[]|] d']; [| |done]; cbn.
    + destruct (arrives_spec IRQ0 g Hg Hf d') as ([] & He & Hw). split; [exact He|left].
      destruct Hw as [Hw Hh]. split; [|exact Hh]. exact Hw.
    + split; [done|right]. done.
Qed.

(** The loop of halts ends with the timer's interrupt. *)
Lemma halt_loop_ends n d g : messages_ok g -> pit_interrupt_handled g = false -> ticks_within n d ->
  o_exit ((halt_loop n : P unit) d g) = Done tt /\
  waited 1 (o_glob ((halt_loop n : P unit) d g)) (o_events ((halt_loop n : P unit) d g)).
Proof.
  revert d g. induction n as [|n IH]; intros d g Hg Hf Ht; [done|].
  set (g1 := set_processor true (pit_pending g) g).
  assert (Hn : fst (next_interrupt d) <> None) by (cbn in Ht; by destruct (next_interrupt d) as [[[]|] ?]).
  pose proof (hlt_wakes d g1 Hg eq_refl Hn) as Hw. cbn [halt_loop].
  rewrite (bind_done sti _ d g d g1 [ECall "sti" []] tt) by done.
  destruct ((hlt : P unit) d g1) as [d2 g2 es2 e2] eqn:Eh. cbn [o_exit o_dev o_glob o_events] in Hw.
  destruct Hw as [-> Hc]. cbv beta iota zeta. cbn [o_exit o_glob o_events].
  rewrite (bind_done hlt _ d g1 d2 g2 es2 tt Eh). cbn [o_exit o_glob o_events].
  destruct Hc as [[Hw Hh]|(Hd & -> & ->)].
  - rewrite (bind_done (gets _) _ d2 g2 d2 g2 [] (pit_interrupt_handled g2)) by done.
    rewrite Hh. cbn. rewrite !app_nil_r. split; [done|exact Hw].
  - rewrite (bind_done (gets _) _ d2 g1 d2 g1 [] (pit_interrupt_handled g1)) by done.
    replace (pit_interrupt_handled g1) with false by done. cbn [negb o_exit o_glob o_events].
    cbn [ticks_within] in Ht. rewrite Hd in Ht.
    destruct (IH d2 g1 Hg Hf Ht) as [-> Hw]. split; [done|exact Hw].
Qed.

Lemma wait_till_pit_interrupt_waits g : messages_ok g -> (forall d, ticks_within wakeups d) ->
  ensures (wait_till_pit_interrupt wakeups : P unit) g (fun _ g' es => waited 1 g' es).
Proof.
  intros Hg Ht. unfold wait_till_pit_interrupt.
  eapply ensures_bind; [by apply running_spec|]. intros [] g1 es (Hg1 & _ & Hp).
  apply ensures_modify. intros d.
  destruct (halt_loop_ends wakeups d (set_handled false g1) Hg1 eq_refl (Ht d)) as [He (Hok & Hf & Hp' & Hn)].
  exists tt. split; [exact He|]. unfold waited. rewrite ports_app, eois_app, Hp.
  split; [exact Hok|]. split; [exact Hf|]. split; [exact Hp'|]. lia.
Qed.

(** The programming of a wait followed by its wait. *)
Lemma wait_lte_one_cycle_waits g count : messages_ok g -> 0 <= count <= 2 ^ 16 ->
  (forall d, ticks_within wakeups d) ->
  ensures (wait_lte_one_cycle DEBUG wakeups count : P unit) g (fun _ g' es =>
    messages_ok g' /\ interrupt_flag g' = true /\ waits_through Bit_1_3.single_shot (counted count) 1 es).
Proof.
  intros Hg Hc Ht. unfold wait_lte_one_cycle, send_wait_count_command.
  eapply ensures_step; [apply program_count_yields; [done|lia|intros _; lia]|].
  eapply ensures_weaken; [by apply wait_till_pit_interrupt_waits|].
  intros [] g' es (Hok & Hf & Hp & Hn). split; [exact Hok|]. split; [exact Hf|].
  by apply programs_waits.
Qed.

(** The periodic interrupts of a long wait. *)
Lemma full_cycles_wait n g : messages_ok g -> (forall d, ticks_within wakeups d) ->
  ensures (for_range n 0 (fun _ => wait_till_pit_interrupt wakeups) : P unit) g
    (fun _ g' es => messages_ok g' /\ ports es = [] /\ (n <= eois es)%nat).
Proof.
  intros Hg Ht. eapply ensures_weaken.
  - apply (ensures_for n 0 _ messages_ok (fun k es => ports es = [] /\ (k <= eois es)%nat)); [done| |done|].
    + intros k es es' [Hp Hk] [Hp' Hk']. rewrite ports_app, eois_app, Hp, Hp'. split; [done|lia].
    + intros _ s1 Hs1. eapply ensures_weaken; [by apply wait_till_pit_interrupt_waits|].
      intros [] s2 es (Hok & _ & Hp & Hn). done.
  - intros [] g' es (Hok & Hp & Hn). done.
Qed.

(** [wait] of a split time: the whole periods, if any, and then the rest. *)
Lemma wait_runs g seconds sp : messages_ok g -> SFleb seconds (S754_zero false) = false ->
  compute_pit_wait seconds max_single_wait MAX_FREQ_DIVIDER = Some sp ->
  reminder_pit_count sp <= 2 ^ 16 -> (forall d, ticks_within wakeups d) ->
  ensures (wait DEBUG wakeups seconds : P Z) g (fun v g' es =>
    v = 0 /\ messages_ok g' /\ interrupt_flag g' = true /\ exists whole rest, es = whole ++ rest /\
    (if full_cycles sp =? 0 then whole = []
     else waits_through Bit_1_3.rate_generator (2 ^ 16) (Z.to_nat (full_cycles sp)) whole) /\
    waits_through Bit_1_3.single_shot (counted (reminder_pit_count sp)) 1 rest).
Proof.
  intros Hg Hs Hsp Hd Ht. unfold wait. rewrite Hs.
  apply (ensures_cell _ sp); [done|].
  destruct (compute_pit_wait_nonneg _ _ _ _ Hsp) as [Hf Hr].
  apply (ensures_bind _ _ _ (fun _ g1 es => messages_ok g1 /\ if full_cycles sp =? 0 then es = []
    else ports es = programming Bit_1_3.rate_generator (MAX_FREQ_DIVIDER + 1))).
  { destruct (full_cycles sp =? 0) eqn:E; [rewrite (proj1 (Z.eqb_eq _ _) E); by apply ensures_ret|].
    replace (full_cycles sp >? 0) with true by lia.
    eapply ensures_yields; [by apply program_count_yields|]. done. }
  intros [] g1 es1 [Hg1 Hp1].
  apply (ensures_bind _ _ _ (fun _ g2 es => messages_ok g2 /\ ports es = [] /\
    (Z.to_nat (full_cycles sp) <= eois es)%nat /\ (full_cycles sp = 0 -> es = []))).
  { destruct (Z.eq_dec (full_cycles sp) 0) as [Hz|]; [rewrite Hz; apply ensures_ret; split; [exact Hg1|]; split; [done|]; split; [cbn; lia|done]|].
    eapply ensures_weaken; [by apply full_cycles_wait|]. intros [] g2 es (? & ? & ?).
    do 3 (split; [done|]). by intros ?. }
  intros [] g2 es2 (Hg2 & Hp2 & Hn2 & Hz2).
  eapply ensures_bind; [by apply wait_lte_one_cycle_waits|]. intros [] g3 es3 (Hg3 & Hf3 & Hw3).
  apply ensures_ret. split; [done|]. split; [exact Hg3|]. split; [done|].
  exists (es1 ++ es2), es3. rewrite app_nil_r, app_assoc. split; [done|]. split; [|exact Hw3].
  destruct (full_cycles sp =? 0) eqn:E.
  - apply Z.eqb_eq in E. by rewrite Hp1, Hz2.
  - by apply (programs_waits _ (2 ^ 16)).
Qed.

(** C28: [wait]: a time that is not positive is refused and nothing happens.  On a machine whose timer
    ticks, every other time below 64 seconds is waited for, with the interrupts on at the end: first, if
    there is a whole period of 65536 ticks in it, the timer is set to that period and as many of its
    interrupts are handled as there are whole periods in the time, up to 16 ticks; then it is set to
    one shot of [rest] and its interrupt is handled.  [rest] is not the rest of the time: it is the number
    of units of 1/65536 of a second in it, up to two, so that at 1193182 ticks a second the shot
    lasts at most an eighteenth of the rest, and a whole period when [rest] is 0. *)
Theorem wait_spec g : messages_ok g -> (forall d, ticks_within wakeups d) ->
  (forall m e, bounded 24 128 m e = true -> ticks_in 1 m e < 64 ->
    let time := ticks_in PIT_FREQ_HZ m e in
    ensures (wait DEBUG wakeups (S754_finite false m e) : P Z) g (fun v g' es =>
      v = 0 /\ messages_ok g' /\ interrupt_flag g' = true /\ exists whole rest es1 es2, es = es1 ++ es2 /\
      (if whole =? 0 then es1 = [] else waits_through Bit_1_3.rate_generator (2 ^ 16) (Z.to_nat whole) es1) /\
      waits_through Bit_1_3.single_shot (if rest =? 0 then 2 ^ 16 else rest) 1 es2 /\
      0 <= whole /\ 2 ^ 16 * whole - 16 <= time < 2 ^ 16 * (whole + 1) + 16 /\
      0 <= rest < 2 ^ 12 /\
      Z.abs (PIT_FREQ_HZ * rest - (PIT_FREQ_HZ * ticks_in (2 ^ 16) m e - 2 ^ 32 * whole)) <= 2 * PIT_FREQ_HZ /\
      (whole = 0 -> rest = ticks_in (2 ^ 16) m e /\ 18 * rest <= time))) /\
  (forall seconds, SFleb seconds (S754_zero false) = true -> yields (wait DEBUG wakeups seconds : P Z) g 1 g []).
Proof.
  intros Hg Ht. split; [|intros seconds Hs; unfold wait; rewrite Hs; apply returns_ret].
  intros m e Hb Hlt. destruct (time_split m e Hb Hlt) as (f & r & Hsp & Hf & Hr & Hn & Hd & Hz).
  change (2 ^ 12) with 4096 in *. change (2 ^ 16) with 65536 in *.
  eapply ensures_weaken; [apply (wait_runs g (S754_finite false m e) _ Hg eq_refl Hsp); [cbn; lia|exact Ht]|].
  intros v g' es (-> & Hok & Hfl & es1 & es2 & -> & Hw1 & Hw2). repeat (split; [done|]).
  exists f, r, es1, es2. cbn [full_cycles reminder_pit_count] in *.
  unfold counted in Hw2. rewrite Z.mod_small in Hw2 by lia.
  split; [done|]. split; [exact Hw1|]. split; [exact Hw2|]. split; [exact Hf|]. split; [exact Hn|].
  split; [exact Hr|]. split; [exact Hd|]. intros Hw0. split; [by apply Hz|].
  rewrite (Hz Hw0). apply ticks_in_le; [done|done|]. unfold PIT_FREQ_HZ. lia.
Qed.

(** ** Timeouts *)

(** The state that [short_timeout_async] leaves: the message stored and interrupts off. *)
Definition add_timeout (finished : Z) (g : pit_globals) : pit_globals :=
  let i := Z.to_nat (pit_write_index g) in
  set_processor false (pit_pending g)
    (set_messages true (pit_write_index g + 1) (<[i := finished]> (pit_msg_address g))
      (<[i := 1]> (pit_msg_value g)) (<[finished := 0]> (words g)) g).

(** A time below one period whose count the debug check lets pass. *)
Definition is_short (seconds : spec_float) : Prop :=
  SFleb seconds (S754_zero false) = false /\
  exists r, compute_pit_wait seconds max_single_wait MAX_FREQ_DIVIDER = Some (mk_split 0 r) /\ r <= 2 ^ 16.

Lemma short_timeout_yields g seconds finished new_timeout : is_short seconds -> messages_ok g ->
  (new_timeout = true -> pit_write_index g < 32) ->
  exists es,
    yields (short_timeout_async DEBUG seconds finished new_timeout : P Z) g 0
      (if new_timeout then add_timeout finished g else set_processor false (pit_pending g) g) es.
Proof.
  intros (Hs & r & Hsp & Hr) (Ha & Hv & Hi) Hn. eexists. unfold short_timeout_async. rewrite Hs.
  eapply returns_cell; [exact Hsp|]. cbn [full_cycles Z.gtb Z.compare reminder_pit_count].
  destruct (compute_pit_wait_nonneg _ _ _ _ Hsp) as [_ Hr0]. cbn [reminder_pit_count] in Hr0.
  set (g1 := if new_timeout then
    set_messages true (pit_write_index g + 1) (<[Z.to_nat (pit_write_index g) := finished]> (pit_msg_address g))
      (<[Z.to_nat (pit_write_index g) := 1]> (pit_msg_value g)) (<[finished := 0]> (words g)) g else g).
  replace (if new_timeout then add_timeout finished g else _) with (set_processor false (pit_pending g1) g1)
    by (by destruct new_timeout).
  eapply (yields_bind _ _ g tt g1).
  - destruct new_timeout; [|apply returns_ret]. specialize (Hn eq_refl).
    apply returns_gets. rewrite (proj2 (Z.ltb_lt _ PIT_MAX_MSG)) by (unfold PIT_MAX_MSG; lia).
    apply (returns_bind _ _ g tt g); [apply returns_ret|]. intros d. split; [done|]. split; [|done]. cbn.
    unfold u8. rewrite Z.mod_small by lia. done.
  - eapply (yields_bind _ _ _ tt); [|apply returns_ret].
    apply program_count_yields; [done|done|]. intros _. exact Hr.
Qed.

Lemma add_timeout_ok a g : messages_ok g -> pit_write_index g < 32 -> messages_ok (add_timeout a g).
Proof.
  intros (Ha & Hv & Hi) Hlt. unfold messages_ok, add_timeout. cbn. rewrite !length_insert.
  split; [done|]. split; [done|]. destruct (pit_is_new_timeout g); lia.
Qed.

(** The handler's message is the one of [a]. *)
Definition current (a : Z) (g : pit_globals) : Prop :=
  messages_ok g /\ pit_msg_address g !! Z.to_nat (index_after g) = Some a /\
  pit_msg_value g !! Z.to_nat (index_after g) = Some 1.

Lemma add_timeout_current a g : messages_ok g -> pit_write_index g < 32 -> current a (add_timeout a g).
Proof.
  intros Hg Hlt. split; [by apply add_timeout_ok|]. destruct Hg as (Ha & Hv & Hi).
  assert (index_after (add_timeout a g) = pit_write_index g) as ->.
  { unfold index_after, add_timeout. cbn. destruct (pit_write_index g + 1 =? 0) eqn:E; cbn; lia. }
  cbn. split; apply list_lookup_insert_eq; lia.
Qed.

Lemma deliver_current a g : a <> 0 -> current a g ->
  current a (deliver g) /\ words (deliver g) = <[a := 1]> (words g).
Proof.
  intros Ha (Hg & Hla & Hlv). pose proof (index_after_bounds g Hg) as Hi.
  assert (Hd : deliver g = set_handled true (set_messages false (index_after g) (pit_msg_address g)
    (pit_msg_value g) (<[a := 1]> (words g)) g)).
  { unfold deliver. rewrite Hla, Hlv. cbn. by rewrite (proj2 (Z.eqb_neq a 0) Ha). }
  split; [|by rewrite Hd]. split; [by apply deliver_ok|].
  assert (Hx : index_after (deliver g) = index_after g).
  { rewrite Hd. unfold index_after at 1. cbn. by rewrite andb_false_r. }
  rewrite Hx, Hd. exact (conj Hla Hlv).
Qed.

Lemma deliveries_current a n g : a <> 0 -> current a g ->
  current a (Nat.iter n deliver g) /\
  words (Nat.iter n deliver g) = (match n with O => words g | S _ => <[a := 1]> (words g) end).
Proof.
  intros Ha Hc. induction n as [|n [IHc IHw]]; [done|]. cbn [Nat.iter nat_rect].
  destruct (deliver_current a _ Ha IHc) as [Hc' Hw]. split; [exact Hc'|].
  etransitivity; [exact Hw|]. cbn in IHw. rewrite IHw.
  destruct n; [done|]. apply insert_insert_eq.
Qed.

(** [n] interrupts of the timer. *)
Definition interrupts (n : nat) : P unit := for_range n 0 (fun _ => pit_interrupt_handler).

Lemma interrupts_yield n g : messages_ok g ->
  exists es, yields (interrupts n) g tt (Nat.iter n deliver g) es.
Proof.
  unfold interrupts. generalize 0. revert g. induction n as [|n IH]; intros g i Hg; cbn [for_range].
  - exists []. apply returns_ret.
  - destruct (IH (deliver g) (i + 1) (deliver_ok g Hg)) as [es He].
    eexists. eapply yields_bind; [by apply handler_yields|]. rewrite Nat.iter_succ_r. exact He.
Qed.

(** The owner of the word at [a] writes to it. *)
Definition write_word (a v : Z) : P unit :=
  modify (fun g => set_messages (pit_is_new_timeout g) (pit_write_index g) (pit_msg_address g)
    (pit_msg_value g) (<[a := v]> (words g)) g).

(** A timeout clears its word; the next interrupt of the timer sets it.  From then on the handler
    sets it again at every interrupt, whatever has become of the word. *)
Theorem timeout_finishes g seconds a n k v : messages_ok g -> pit_write_index g < 32 -> a <> 0 ->
  is_short seconds ->
  ensures (short_timeout_async DEBUG seconds a true;; interrupts n) g (fun _ g' _ =>
    words g' !! a = Some (match n with O => 0 | S _ => 1 end)) /\
  ensures (short_timeout_async DEBUG seconds a true;; interrupts (S n);; write_word a v;;
           interrupts (S k)) g (fun _ g' _ => words g' !! a = Some 1).
Proof.
  intros Hg Hlt Ha Hs. destruct (short_timeout_yields g seconds a true Hs Hg (fun _ => Hlt)) as [es He].
  pose proof (add_timeout_current a g Hg Hlt) as Hc.
  split; (eapply ensures_step; [exact He|]).
  - destruct (interrupts_yield n _ (proj1 Hc)) as [es' He']. eapply ensures_yields; [exact He'|].
    destruct (deliveries_current a n _ Ha Hc) as [_ ->]. destruct n; apply lookup_insert_eq.
  - destruct (interrupts_yield (S n) _ (proj1 Hc)) as [es' He'].
    destruct (deliveries_current a (S n) _ Ha Hc) as [Hc1 _].
    eapply ensures_step; [exact He'|]. apply ensures_modify.
    set (g2 := set_messages _ _ _ _ _ _). assert (Hc2 : current a g2) by exact Hc1.
    destruct (interrupts_yield (S k) _ (proj1 Hc2)) as [es2 He2]. eapply ensures_yields; [exact He2|].
    destruct (deliveries_current a (S k) _ Ha Hc2) as [_ ->]. apply lookup_insert_eq.
Qed.

(** C29: Of two timeouts that are outstanding together only the second is ever finished. *)
Theorem second_timeout_starves_first g seconds seconds' a b n : messages_ok g ->
  pit_write_index g < 31 -> a <> 0 -> b <> 0 -> a <> b -> is_short seconds -> is_short seconds' ->
  ensures (short_timeout_async DEBUG seconds a true;; short_timeout_async DEBUG seconds' b true;;
           interrupts n) g (fun _ g' _ =>
    words g' !! a = Some 0 /\ words g' !! b = Some (match n with O => 0 | S _ => 1 end)).
Proof.
  intros Hg Hlt Ha Hb Hab Hs Hs'.
  destruct (short_timeout_yields g seconds a true Hs Hg) as [es He]; [intros _; lia|].
  pose proof (add_timeout_ok a g Hg ltac:(lia)) as Hg1.
  destruct (short_timeout_yields _ seconds' b true Hs' Hg1) as [es1 He1]; [intros _; cbn; lia|].
  pose proof (add_timeout_current b (add_timeout a g) Hg1 ltac:(cbn; lia)) as Hc.
  eapply ensures_step; [exact He|]. eapply ensures_step; [exact He1|].
  destruct (interrupts_yield n _ (proj1 Hc)) as [es' He']. eapply ensures_yields; [exact He'|].
  destruct (deliveries_current b n _ Hb Hc) as [_ ->].
  assert (Hw : words (add_timeout b (add_timeout a g)) !! a = Some 0).
  { cbn. rewrite lookup_insert_ne by done. apply lookup_insert_eq. }
  destruct n; (split; [|apply lookup_insert_eq]); [exact Hw|]. by rewrite lookup_insert_ne.
Qed.
End waits.

(** ** The theorems at concrete inputs

    A machine whose timer ticks, and a millisecond. *)
#[local] Instance ticking : Interrupts no_device := {
  next_interrupt := fun d => (Some IRQ0, d);
  passing := fun d => (None, d)
}.
Definition millisecond : spec_float := fdiv (float_of 1) (float_of 1000).

Lemma always_ticks (d : no_device) : ticks_within 1 d.
Proof. done. Qed.
Lemma boot_ok : messages_ok pit_boot.
Proof. by repeat split. Qed.
Lemma millisecond_short : is_short millisecond.
Proof. split; [done|]. exists 65. by split; [vm_compute|]. Qed.

(** A millisecond is programmed as 65 of the 1193 ticks that it has. *)
Lemma wait_spec_witness :
  let r := wait (D:=no_device) true 1 (S754_finite false 8589935 (-33)) ND pit_boot in
  o_exit r = Done 0 /\ ticks_in PIT_FREQ_HZ 8589935 (-33) = 1193 /\
  waits_through Bit_1_3.single_shot 65 1 (o_events r) /\
  o_exit (wait (D:=no_device) true 1 (S754_zero false) ND pit_boot) = Done 1.
Proof.
  destruct (wait_spec (D:=no_device) true 1 pit_boot boot_ok always_ticks) as [Hw Hz].
  destruct (Hw 8589935%positive (-33) eq_refl eq_refl ND)
    as (v & He & -> & _ & _ & whole & rest & es1 & es2 & Hes & H1 & H2 & Hp & Hn & _ & _ & Hr).
  assert (whole = 0) as -> by (change (ticks_in PIT_FREQ_HZ 8589935 (-33)) with 1193 in Hn; lia).
  destruct (Hr eq_refl) as [-> _]. cbn in H1. subst es1.
  split; [exact He|]. split; [reflexivity|]. split; [rewrite Hes; exact H2|].
  apply (Hz (S754_zero false) eq_refl ND).
Defined.

(** Ten seconds are 182 whole periods and 4268 ticks; the rest is programmed as 234 ticks. *)
Example ten_seconds_split :
  compute_pit_wait (float_of 10) max_single_wait MAX_FREQ_DIVIDER = Some (mk_split 182 234).
Proof. vm_compute. reflexivity. Qed.

Lemma timeout_finishes_witness :
  words (o_glob ((short_timeout_async (D:=no_device) true millisecond 4096 true;; interrupts 1) ND pit_boot))
    !! 4096 = Some 1.
Proof.
  destruct (timeout_finishes (D:=no_device) true pit_boot millisecond 4096 1 0 0 boot_ok ltac:(done)
    ltac:(done) millisecond_short) as [Hw _].
  destruct (Hw ND) as (v & _ & H). exact H.
Defined.

Lemma second_timeout_starves_first_witness :
  words (o_glob ((short_timeout_async (D:=no_device) true millisecond 4096 true;;
    short_timeout_async true millisecond 8192 true;; interrupts 3) ND pit_boot)) !! 4096 = Some 0.
Proof.
  destruct (second_timeout_starves_first (D:=no_device) true pit_boot millisecond millisecond 4096 8192 3
    boot_ok ltac:(done) ltac:(done) ltac:(done) ltac:(done) millisecond_short millisecond_short ND)
    as (v & _ & H & _). exact H.
Defined.
