(* ===== verification/Processor.v ===== *)
(** * Instructions of the processor

    The instructions that the drivers of [cpu] wrap: [cpuid], the control registers, the
    model-specific registers, [XCR0] and the control words of the FPU, the word at [fs:0].  What
    they read and what a write does is up to the machine.  Every access is an event. *)

From S2P Require Import Prelude Machine.

Record cpuid_reg := mk_regs { eax : Z; ebx : Z; ecx : Z; edx : Z }.

(** [cpuid_in f s]: the leaf [f] with subleaf [s].  Registers of the processor are numbered:
    control register [n], model-specific register [n]; [XCR0] is a pair of words (low, high). *)
Class Processor (D : Type) := {
  cpuid_in : Z -> Z -> D -> cpuid_reg;
  cr_in : Z -> D -> Z;
  cr_out : Z -> Z -> D -> D;
  msr_in : Z -> D -> Z * Z;
  msr_out : Z -> Z -> Z -> D -> D;
  xcr0_in : D -> Z * Z;
  xcr0_out : Z -> Z -> D -> D;
  fpu_cw_in : D -> Z;
  fpu_cw_out : Z -> D -> D;
  mxcsr_in : D -> Z;
  mxcsr_out : Z -> D -> D;
  fs_word : D -> Z;
}.

Section instructions.
Context {D G : Type} `{Processor D}.

Definition cut_regs (r : cpuid_reg) : cpuid_reg :=
  mk_regs (u32 (eax r)) (u32 (ebx r)) (u32 (ecx r)) (u32 (edx r)).

(** [_cpuid] of [cpuid.c] *)
Definition _cpuid (function subleaf : Z) : M D G cpuid_reg := fun d g =>
  Outcome d g [ECall "cpuid" [function; subleaf]] (Done (cut_regs (cpuid_in function subleaf d))).

(** [mov %%cr, r] and [mov r, %%cr] *)
Definition read_cr (n : Z) : M D G Z := fun d g =>
  Outcome d g [ECall "read cr" [n; u32 (cr_in n d)]] (Done (u32 (cr_in n d))).
Definition write_cr (n v : Z) : M D G unit := fun d g =>
  Outcome (cr_out n (u32 v) d) g [ECall "write cr" [n; u32 v]] (Done tt).

(** [read_msr] and [write_msr] of [stdlib/intrinsics.h]: [eax], [edx]. *)
Definition read_msr (msr_index : Z) : M D G (Z * Z) := fun d g =>
  let '(lo, hi) := msr_in msr_index d in
  Outcome d g [ECall "rdmsr" [msr_index; u32 lo; u32 hi]] (Done (u32 lo, u32 hi)).
Definition write_msr (msr_index lo hi : Z) : M D G unit := fun d g =>
  Outcome (msr_out msr_index (u32 lo) (u32 hi) d) g [ECall "wrmsr" [msr_index; u32 lo; u32 hi]] (Done tt).

Definition xgetbv : M D G (Z * Z) := fun d g =>
  let '(lo, hi) := xcr0_in d in
  Outcome d g [ECall "xgetbv" [u32 lo; u32 hi]] (Done (u32 lo, u32 hi)).
Definition xsetbv (lo hi : Z) : M D G unit := fun d g =>
  Outcome (xcr0_out (u32 lo) (u32 hi) d) g [ECall "xsetbv" [u32 lo; u32 hi]] (Done tt).

(** [fninit], [fldcw], [fstcw], [ldmxcsr], [stmxcsr] *)
Definition fninit : M D G unit := fun d g => Outcome (fpu_cw_out 0x037F d) g [ECall "fninit" []] (Done tt).
Definition fldcw (v : Z) : M D G unit := fun d g =>
  Outcome (fpu_cw_out (u16 v) d) g [ECall "fldcw" [u16 v]] (Done tt).
Definition fstcw : M D G Z := fun d g => Outcome d g [] (Done (u16 (fpu_cw_in d))).
Definition ldmxcsr (v : Z) : M D G unit := fun d g =>
  Outcome (mxcsr_out (u32 v) d) g [ECall "ldmxcsr" [u32 v]] (Done tt).
Definition stmxcsr : M D G Z := fun d g => Outcome d g [] (Done (u32 (mxcsr_in d))).

(** [mov %%fs:0, r] *)
Definition read_fs_0 : M D G Z := fun d g => Outcome d g [] (Done (u32 (fs_word d))).
End instructions.

Section rules.
Context {D G : Type} `{Processor D}.

Lemma ensures_read_cr n (s : G) : ensures (read_cr n : M D G Z) s (fun v s' es =>
  is_u32 v /\ s' = s /\ es = [ECall "read cr" [n; v]]).
Proof. intros d. eexists. split; [done|]. split; [apply u32_range|done]. Qed.

Lemma yields_write_cr n v (s : G) :
  yields (write_cr n v : M D G unit) s tt s [ECall "write cr" [n; u32 v]].
Proof. by intros d. Qed.

Lemma ensures_read_msr n (s : G) : ensures (read_msr n : M D G (Z * Z)) s (fun v s' es =>
  is_u32 (fst v) /\ is_u32 (snd v) /\ s' = s /\ es = [ECall "rdmsr" [n; fst v; snd v]]).
Proof.
  intros d. unfold read_msr. destruct (msr_in n d) as [lo hi]. eexists. split; [done|].
  split; [apply u32_range|]. split; [apply u32_range|done].
Qed.

Lemma yields_write_msr n lo hi (s : G) :
  yields (write_msr n lo hi : M D G unit) s tt s [ECall "wrmsr" [n; u32 lo; u32 hi]].
Proof. by intros d. Qed.

Definition regs_ok (r : cpuid_reg) : Prop := is_u32 (eax r) /\ is_u32 (ebx r) /\ is_u32 (ecx r) /\ is_u32 (edx r).

Lemma ensures_cpuid f l (s : G) : ensures (_cpuid f l : M D G cpuid_reg) s (fun r s' es =>
  regs_ok r /\ s' = s /\ es = [ECall "cpuid" [f; l]]).
Proof. intros d. eexists. split; [done|]. split; [|done]. repeat split; apply u32_range. Qed.

Lemma ensures_xgetbv (s : G) : ensures (xgetbv : M D G (Z * Z)) s (fun v s' es =>
  is_u32 (fst v) /\ is_u32 (snd v) /\ s' = s /\ es = [ECall "xgetbv" [fst v; snd v]]).
Proof.
  intros d. unfold xgetbv. destruct (xcr0_in d) as [lo hi]. eexists. split; [done|].
  split; [apply u32_range|]. split; [apply u32_range|done].
Qed.

Lemma yields_xsetbv lo hi (s : G) :
  yields (xsetbv lo hi : M D G unit) s tt s [ECall "xsetbv" [u32 lo; u32 hi]].
Proof. by intros d. Qed.

Lemma ensures_fs_0 (s : G) : ensures (read_fs_0 : M D G Z) s (fun v s' es => is_u32 v /\ s' = s /\ es = []).
Proof. intros d. eexists. split; [done|]. split; [apply u32_range|done]. Qed.
End rules.
