(* ===== verification/Cpuid.v ===== *)
(** * Asking the processor what it can do ([cpu/cpuid])

    [cpuid.cpp] and [cpuid.hpp]: the functions of the instruction [cpuid], the checks in front of
    it, and the strings built from its answers. *)

From S2P Require Import Prelude Machine BitStruct Phys Processor.

Inductive CpuidFunction :=
| Basic_MaxFunction | ProcessorInfo | Cache_TLB | SerialNumber | DeterministicCache | MonitorMwait
| ThermalPower | ExtendedFeatures | DirectCacheAccess | PerformanceMonitoring | ExtendedTopology
| XSAVE_Features | TSC_INFO
| Extended_MaxFunction | Extended_Features | Brand_String1 | Brand_String2 | Brand_String3
| L2L3_CacheInfo | AdvancedPowerMgmt | PhysicalAddressInfo.
#[export] Instance CpuidFunction_eq : EqDecision CpuidFunction.
Proof. solve_decision. Defined.

Definition function_value (f : CpuidFunction) : Z :=
  match f with
  | Basic_MaxFunction => 0x0 | ProcessorInfo => 0x1 | Cache_TLB => 0x2 | SerialNumber => 0x3
  | DeterministicCache => 0x4 | MonitorMwait => 0x5 | ThermalPower => 0x6 | ExtendedFeatures => 0x7
  | DirectCacheAccess => 0x9 | PerformanceMonitoring => 0xA | ExtendedTopology => 0xB
  | XSAVE_Features => 0xD | TSC_INFO => 15
  | Extended_MaxFunction => 0x80000000 | Extended_Features => 0x80000001
  | Brand_String1 => 0x80000002 | Brand_String2 => 0x80000003 | Brand_String3 => 0x80000004
  | L2L3_CacheInfo => 0x80000006 | AdvancedPowerMgmt => 0x80000007 | PhysicalAddressInfo => 0x80000008
  end.

Inductive cpuid_error :=
| none | unknown_cpu_function | function_doesnt_have_subleaf
| cpuid_function_not_supported_by_hardware | cpuid_extended_function_not_supported_by_hardware.
#[export] Instance cpuid_error_eq : EqDecision cpuid_error.
Proof. solve_decision. Defined.

Definition error_value (e : cpuid_error) : Z :=
  match e with
  | none => 0 | unknown_cpu_function => 1 | function_doesnt_have_subleaf => 2
  | cpuid_function_not_supported_by_hardware => 3
  | cpuid_extended_function_not_supported_by_hardware => 4
  end.

(** [to_string], on the number of the error. *)
Definition names : list string :=
  ["none"; "unknown_cpu_function"; "function_doesnt_have_subleaf";
   "cpuid_function_not_supported_by_hardware"; "cpuid_extennded_function_not_supported_by_hardware"].
Definition to_string (index : Z) : string :=
  if (index <? 0) || (index >=? 5) then "invalid_cpuid_error"
  else default "invalid_cpuid_error" (names !! Z.to_nat index).
(** [cpuid_error_to_string]: the number is converted to a signed one. *)
Definition cpuid_error_to_string (err_uint : Z) : string :=
  to_string (if err_uint <? 2 ^ 31 then err_uint else err_uint - 2 ^ 32).

Record cpuid_verified_result := mk_result { regs : cpuid_reg; err : cpuid_error }.
Definition no_regs : cpuid_reg := mk_regs 0 0 0 0.
Definition failed (e : cpuid_error) : cpuid_verified_result := mk_result no_regs e.
Definition has_error (r : cpuid_verified_result) : bool := negb (bool_decide (err r = none)).

(** The globals, and the static of [get_cpuid_max_extended]. *)
Record cpuid_globals := mk_cpuid {
  max_cpuid_command : Z;
  cpuid_vendor : list Z;
  max_extended_cpuid_command : Z;
  brand_string : list Z;
}.
Definition cpuid_boot : cpuid_globals := mk_cpuid 0 (repeat 0 13) 0 (repeat 0 49).

Definition set_max (m : Z) (vendor : list Z) (g : cpuid_globals) : cpuid_globals :=
  mk_cpuid m vendor (max_extended_cpuid_command g) (brand_string g).
Definition set_max_extended (m : Z) (g : cpuid_globals) : cpuid_globals :=
  mk_cpuid (max_cpuid_command g) (cpuid_vendor g) m (brand_string g).
Definition set_brand (b : list Z) (g : cpuid_globals) : cpuid_globals :=
  mk_cpuid (max_cpuid_command g) (cpuid_vendor g) (max_extended_cpuid_command g) b.

(** Storing words of 32 bits over an array of [char]. *)
Definition words_bytes (ws : list Z) : list Z := flat_map (le_bytes 4) ws.
Definition store_words (pos : nat) (ws arr : list Z) : list Z :=
  take pos arr ++ words_bytes ws ++ drop (pos + 4 * length ws) arr.
(** The vendor's name comes in [ebx], [edx], [ecx]. *)
Definition vendor_words (r : cpuid_reg) : list Z := [ebx r; edx r; ecx r].

Section cpuid.
Context {D : Type} `{Processor D}.
(** Built with [-DDEBUG] or not. *)
Context (DEBUG : bool).
Local Abbreviation C A := (M D cpuid_globals A).

(** The end of [call_cpuid], from the [switch] on.  Functions with subleafs take any. *)
Definition call_checked (cpu_function : CpuidFunction) (subleaf_ecx : Z) : C cpuid_verified_result :=
  match cpu_function with
  | ExtendedFeatures | ExtendedTopology | XSAVE_Features =>
      r ← _cpuid (function_value cpu_function) subleaf_ecx; mret (mk_result r none)
  | TSC_INFO => mret (failed unknown_cpu_function)
  | _ =>
      if negb (subleaf_ecx =? 0) then mret (failed function_doesnt_have_subleaf)
      else r ← _cpuid (function_value cpu_function) 0; mret (mk_result r none)
  end.

(** The two functions that [call_cpuid] does not validate: with them it is [call_checked]. *)
Definition reports_max (cpu_function : CpuidFunction) : bool :=
  bool_decide (cpu_function = Basic_MaxFunction) || bool_decide (cpu_function = Extended_MaxFunction).

Definition get_cpuid_max : C Z :=
  g ← get;
  if negb (max_cpuid_command g =? 0) then mret (max_cpuid_command g) else
  result ← call_checked Extended_MaxFunction 0;
  (if DEBUG then
     if has_error result then abort_msg "CPUID extended max failed: %u\n" [PNum (error_value (err result))]
     else mret tt
   else mret tt);;
  modify (fun g => set_max (eax (regs result)) (store_words 0 (vendor_words (regs result)) (cpuid_vendor g)) g);;
  mret (eax (regs result)).

Definition get_cpuid_max_extended : C Z :=
  g ← get;
  if negb (max_extended_cpuid_command g =? 0) then mret (max_extended_cpuid_command g) else
  result ← call_checked Extended_MaxFunction 0;
  (if DEBUG then
     if has_error result then abort_msg "CPUID extended max failed: %u\n" [PNum (error_value (err result))]
     else mret tt
   else mret tt);;
  modify (set_max_extended (eax (regs result)));;
  mret (eax (regs result)).

Definition validate_cpuid_function (cpu_function : CpuidFunction) : C cpuid_error :=
  let raw := function_value cpu_function in
  if raw <=? function_value XSAVE_Features then
    max_basic ← get_cpuid_max;
    mret (if raw >? max_basic then cpuid_function_not_supported_by_hardware else none)
  else if raw >=? function_value Extended_MaxFunction then
    max_ext ← get_cpuid_max_extended;
    mret (if raw >? max_ext then cpuid_extended_function_not_supported_by_hardware else none)
  else mret unknown_cpu_function.

Definition call_cpuid (cpu_function : CpuidFunction) (subleaf_ecx : Z) : C cpuid_verified_result :=
  e ← (if negb (reports_max cpu_function) then validate_cpuid_function cpu_function else mret none);
  if negb (bool_decide (e = none)) then mret (failed e)
  else call_checked cpu_function subleaf_ecx.

Definition get_cpuid_vendor : C (list Z) :=
  g ← get;
  if negb (default 0 (cpuid_vendor g !! 0%nat) =? 0) then mret (cpuid_vendor g) else
  result ← call_cpuid Basic_MaxFunction 0;
  (if DEBUG then
     if has_error result then
       abort_msg "This is impossible case, result has an error: %u\n" [PNum (error_value (err result))]
     else mret tt
   else mret tt);;
  modify (fun g => set_max (eax (regs result))
    (<[12%nat := 0]> (store_words 0 (vendor_words (regs result)) (cpuid_vendor g))) g);;
  gets cpuid_vendor.

(** The vendor is returned with the registers. *)
Definition get_cpuid_max_and_vendor : C (cpuid_reg * list Z) :=
  result ← call_cpuid Basic_MaxFunction 0;
  (if DEBUG then
     if has_error result then
       abort_msg "This is impossible case, result has an error: %u\n" [PNum (error_value (err result))]
     else mret tt
   else mret tt);;
  modify (fun g => set_max (eax (regs result))
    (<[12%nat := 0]> (store_words 0 (vendor_words (regs result)) (cpuid_vendor g))) g);;
  vendor ← gets cpuid_vendor;
  mret (regs result, vendor).

Definition leaves : list CpuidFunction := [Brand_String1; Brand_String2; Brand_String3].

(** One of the three parts; the failure is fatal in a build without [DEBUG]. *)
Definition brand_part (i : Z) : C unit :=
  leaf ← read_cell (leaves !! Z.to_nat i);
  res ← call_cpuid leaf 0;
  (if DEBUG then mret tt else
   if has_error res then
     abort_msg "CPUID brand string leaf failed: %u, %s\n"
       [PNum (error_value (err res)); PStr (to_string (error_value (err res)))]
   else mret tt);;
  let r := regs res in
  modify (fun g => set_brand (store_words (16 * Z.to_nat i) [eax r; ebx r; ecx r; edx r] (brand_string g)) g).

Definition get_cpuid_brand_string : C (list Z) :=
  g ← get;
  if negb (default 0 (brand_string g !! 0%nat) =? 0) then mret (brand_string g) else
  for_range 3 0 brand_part;;
  modify (fun g => set_brand (<[48%nat := 0]> (brand_string g)) g);;
  gets brand_string.
End cpuid.

(** ** Feature flags ([cpuid_results.hpp], [cpuid_internal.hpp]) *)

Definition cpuid_basic_ecx : layout :=
  [("sse3", 1); ("pclmulqdq", 1); ("dtes64", 1); ("monitor", 1); ("ds_cpl", 1); ("vmx", 1); ("smx", 1);
   ("est", 1); ("tm2", 1); ("ssse3", 1); ("reserved1", 1); ("cnxt_id", 1); ("sdbg", 1); ("fma", 1);
   ("cx16", 1); ("xtpr", 1); ("pdcm", 1); ("reserved2", 1); ("pcid", 1); ("dca", 1); ("sse4_1", 1);
   ("sse4_2", 1); ("x2apic", 1); ("movbe", 1); ("popcnt", 1); ("tsc_deadline", 1); ("aes", 1);
   ("xsave", 1); ("osxsave", 1); ("avx", 1); ("f16c", 1); ("rdrand", 1)].
Definition cpuid_basic_edx : layout :=
  [("fpu", 1); ("vme", 1); ("de", 1); ("pse", 1); ("tsc", 1); ("msr", 1); ("pae", 1); ("mce", 1);
   ("cx8", 1); ("apic", 1); ("reserved1", 1); ("sep", 1); ("mtrr", 1); ("pge", 1); ("mca", 1);
   ("cmov", 1); ("pat", 1); ("pse36", 1); ("psn", 1); ("clfsh", 1); ("reserved2", 1); ("ds", 1);
   ("acpi", 1); ("mmx", 1); ("fxsr", 1); ("sse", 1); ("sse2", 1); ("ss", 1); ("htt", 1); ("tm", 1);
   ("reserved3", 1)].

(** The masks [CPUID_FEAT_ECX_*] and [CPUID_FEAT_EDX_*], by the bit they shift by. *)
Definition CPUID_FEAT_ECX : list (string * Z) :=
  [("SSE3", 0); ("PCLMUL", 1); ("DTES64", 2); ("MONITOR", 3); ("DS_CPL", 4); ("VMX", 5); ("SMX", 6);
   ("EST", 7); ("TM2", 8); ("SSSE3", 9); ("CID", 10); ("SDBG", 11); ("FMA", 12); ("CX16", 13);
   ("XTPR", 14); ("PDCM", 15); ("PCID", 17); ("DCA", 18); ("SSE4_1", 19); ("SSE4_2", 20);
   ("X2APIC", 21); ("MOVBE", 22); ("POPCNT", 23); ("TSC", 24); ("AES", 25); ("XSAVE", 26);
   ("OSXSAVE", 27); ("AVX", 28); ("F16C", 29); ("RDRAND", 30); ("HYPERVISOR", 31)].
Definition CPUID_FEAT_EDX : list (string * Z) :=
  [("FPU", 0); ("VME", 1); ("DE", 2); ("PSE", 3); ("TSC", 4); ("MSR", 5); ("PAE", 6); ("MCE", 7);
   ("CX8", 8); ("APIC", 9); ("SEP", 11); ("MTRR", 12); ("PGE", 13); ("MCA", 14); ("CMOV", 15);
   ("PAT", 16); ("PSE36", 17); ("PSN", 18); ("CLFLUSH", 19); ("DS", 21); ("ACPI", 22); ("MMX", 23);
   ("FXSR", 24); ("SSE", 25); ("SSE2", 26); ("SS", 27); ("HTT", 28); ("TM", 29); ("IA64", 30);
   ("PBE", 31)].

(** The mask itself. *)
Definition feature (features : list (string * Z)) (name : string) : Z :=
  from_option (fun f => 1 ≪ snd f) 0 (List.find (fun f => String.eqb (fst f) name) features).
