(* ===== verification/CpuidFacts.v ===== *)
(** * Facts about [cpuid]

    What [call_cpuid] answers, the two ways the largest basic function becomes known, the
    strings, and the positions of the feature flags. *)

From S2P Require Import Prelude Machine BitStruct Phys Processor Cpuid.

(** ** The checks *)

(** The functions that take a subleaf. *)
Definition has_subleaf (f : CpuidFunction) : bool :=
  match f with ExtendedFeatures | ExtendedTopology | XSAVE_Features => true | _ => false end.

(** What the checks in front of the instruction find once both maxima are known. *)
Definition range_error (g : cpuid_globals) (f : CpuidFunction) : cpuid_error :=
  let raw := function_value f in
  if reports_max f then none
  else if raw <=? 13 then
    (if max_cpuid_command g <? raw then cpuid_function_not_supported_by_hardware else none)
  else if 0x80000000 <=? raw then
    (if max_extended_cpuid_command g <? raw then cpuid_extended_function_not_supported_by_hardware else none)
  else unknown_cpu_function.
Definition subleaf_error (f : CpuidFunction) (subleaf : Z) : cpuid_error :=
  if has_subleaf f || (subleaf =? 0) then none else function_doesnt_have_subleaf.
Definition expected (g : cpuid_globals) (f : CpuidFunction) (subleaf : Z) : cpuid_error :=
  match range_error g f with none => subleaf_error f subleaf | e => e end.

Section cpuid.
Context {D : Type} `{Processor D} (DEBUG : bool).
Local Abbreviation C A := (M D cpuid_globals A).

Lemma tsc_info_unknown subleaf g :
  returns (call_cpuid DEBUG TSC_INFO subleaf : C _) g (failed unknown_cpu_function) g.
Proof. by intros d. Qed.

Lemma call_checked_run d g f subleaf : f <> TSC_INFO ->
  (call_checked f subleaf : C _) d g =
    match subleaf_error f subleaf with
    | none => Outcome d g [ECall "cpuid" [function_value f; subleaf]]
        (Done (mk_result (cut_regs (cpuid_in (function_value f) subleaf d)) none))
    | e => Outcome d g [] (Done (failed e))
    end.
Proof.
  intros Hf. unfold subleaf_error, mbind, M_bind.
  destruct f; try done; cbn; destruct (Z.eqb_spec subleaf 0) as [->|]; reflexivity.
Qed.

Lemma max_cached d g : max_cpuid_command g <> 0 ->
  (get_cpuid_max DEBUG : C _) d g = Outcome d g [] (Done (max_cpuid_command g)).
Proof.
  intros Hm. unfold get_cpuid_max. rewrite (bind_done get _ d g d g [] g) by done.
  by rewrite (proj2 (Z.eqb_neq _ 0) Hm).
Qed.

Lemma max_extended_cached d g : max_extended_cpuid_command g <> 0 ->
  (get_cpuid_max_extended DEBUG : C _) d g = Outcome d g [] (Done (max_extended_cpuid_command g)).
Proof.
  intros Hm. unfold get_cpuid_max_extended. rewrite (bind_done get _ d g d g [] g) by done.
  by rewrite (proj2 (Z.eqb_neq _ 0) Hm).
Qed.

(** The outcome of a call, by the error that is expected. *)
Lemma call_cpuid_run d g f subleaf :
  max_cpuid_command g <> 0 -> max_extended_cpuid_command g <> 0 ->
  (call_cpuid DEBUG f subleaf : C _) d g =
    match expected g f subleaf with
    | none => Outcome d g [ECall "cpuid" [function_value f; subleaf]]
        (Done (mk_result (cut_regs (cpuid_in (function_value f) subleaf d)) none))
    | e => Outcome d g [] (Done (failed e))
    end.
Proof.
  intros Hm He.
  assert (Hc : (if negb (reports_max f) then validate_cpuid_function DEBUG f else mret none : C _) d g =
    Outcome d g [] (Done (range_error g f))).
  { unfold range_error. destruct (reports_max f); [done|]. cbn [negb].
    unfold validate_cpuid_function. change (function_value XSAVE_Features) with 13.
    change (function_value Extended_MaxFunction) with 0x80000000.
    rewrite Z.geb_leb. destruct (_ <=? 13); [|destruct (_ <=? _); [|done]].
    - rewrite (bind_done _ _ _ _ _ _ _ _ (max_cached d g Hm)). cbn. by rewrite Z.gtb_ltb.
    - rewrite (bind_done _ _ _ _ _ _ _ _ (max_extended_cached d g He)). cbn. by rewrite Z.gtb_ltb. }
  unfold call_cpuid, expected. rewrite (bind_done _ _ _ _ _ _ _ _ Hc). cbv zeta.
  destruct (range_error g f) eqn:Er; try reflexivity.
  rewrite bool_decide_eq_true_2 by done. cbn [negb].
  rewrite call_checked_run by (intros ->; by vm_compute in Er).
  by destruct (subleaf_error f subleaf).
Qed.

(** C30: Once both maxima are known, a call that passes the checks executes the instruction and returns
    its registers; any other executes nothing and returns zeros with the error. *)
Theorem call_cpuid_checks d g f subleaf :
  max_cpuid_command g <> 0 -> max_extended_cpuid_command g <> 0 ->
  (call_cpuid DEBUG f subleaf : C _) d g =
    match expected g f subleaf with
    | none => Outcome d g [ECall "cpuid" [function_value f; subleaf]]
        (Done (mk_result (cut_regs (cpuid_in (function_value f) subleaf d)) none))
    | e => Outcome d g [] (Done (failed e))
    end.
Proof. apply call_cpuid_run. Qed.

(** The debug checks on a call that cannot fail. *)
Lemma debug_passes fmt args r d g :
  (if DEBUG then if has_error (mk_result r none) then abort_msg fmt args else mret tt else mret tt : C unit) d g =
    Outcome d g [] (Done tt).
Proof. by destruct DEBUG. Qed.

Lemma extended_asked d g : (call_checked Extended_MaxFunction 0 : C _) d g =
  Outcome d g [ECall "cpuid" [0x80000000; 0]] (Done (mk_result (cut_regs (cpuid_in 0x80000000 0 d)) none)).
Proof. done. Qed.

(** Asking for the maxima when they are not cached: both functions ask the same leaf. *)
Lemma get_cpuid_max_asks d g : max_cpuid_command g = 0 ->
  exists g', (get_cpuid_max DEBUG : C _) d g =
    Outcome d g' [ECall "cpuid" [0x80000000; 0]] (Done (u32 (eax (cpuid_in 0x80000000 0 d)))).
Proof.
  intros Hm. eexists. unfold get_cpuid_max. rewrite (bind_done get _ d g d g [] g) by done.
  rewrite Hm. cbn [negb Z.eqb]. rewrite (bind_done _ _ _ _ _ _ _ _ (extended_asked d g)).
  cbv zeta. erewrite bind_done by apply debug_passes. reflexivity.
Qed.

Lemma vendor_asks d g : default 0 (cpuid_vendor g !! 0%nat) = 0 ->
  let v := <[12%nat := 0]> (store_words 0 (vendor_words (cut_regs (cpuid_in 0 0 d))) (cpuid_vendor g)) in
  (get_cpuid_vendor DEBUG : C _) d g =
    Outcome d (set_max (u32 (eax (cpuid_in 0 0 d))) v g) [ECall "cpuid" [0; 0]] (Done v).
Proof.
  intros Hv v. unfold get_cpuid_vendor. rewrite (bind_done get _ d g d g [] g) by done.
  rewrite Hv. cbn [negb Z.eqb]. rewrite (bind_done (call_cpuid DEBUG Basic_MaxFunction 0) _ d g d g
    [ECall "cpuid" [0; 0]] (mk_result (cut_regs (cpuid_in 0 0 d)) none)) by done.
  cbv zeta. erewrite bind_done by apply debug_passes. reflexivity.
Qed.

(** [get_cpuid_max] asks the leaf of the extended maximum: unless the vendor's name was asked for
    before, every basic function passes its check, even one that the processor does not have. *)
Theorem basic_check_depends_on_history d g f :
  max_cpuid_command g = 0 -> default 0 (cpuid_vendor g !! 0%nat) = 0 ->
  reports_max f = false -> f <> TSC_INFO ->
  u32 (eax (cpuid_in 0 0 d)) < function_value f <= 13 -> u32 (eax (cpuid_in 0 0 d)) <> 0 ->
  13 <= u32 (eax (cpuid_in 0x80000000 0 d)) ->
  (exists r, o_exit ((call_cpuid DEBUG f 0 : C _) d g) = Done (mk_result r none)) /\
  o_exit ((get_cpuid_vendor DEBUG;; call_cpuid DEBUG f 0 : C _) d g) =
    Done (failed cpuid_function_not_supported_by_hardware).
Proof.
  intros Hm Hv Hr Hf Hlt Hne Hx.
  assert (Hb : forall m d g d' g' es, (get_cpuid_max DEBUG : C _) d g = Outcome d' g' es (Done m) ->
    (call_cpuid DEBUG f 0 : C _) d g =
      (let r := (if function_value f >? m then mret (failed cpuid_function_not_supported_by_hardware)
         else call_checked f 0 : C _) d' g' in
       Outcome (o_dev r) (o_glob r) (es ++ o_events r) (o_exit r))).
  { intros m d0 g0 d1 g1 es Hg. unfold call_cpuid, validate_cpuid_function. rewrite Hr. cbn [negb].
    rewrite (proj2 (Z.leb_le (function_value f) (function_value XSAVE_Features))) by (cbn; lia).
    erewrite bind_done by (erewrite bind_done by exact Hg; reflexivity).
    cbn [app]. rewrite app_nil_r. by destruct (_ >? _). }
  split.
  - destruct (get_cpuid_max_asks d g Hm) as (g' & Hg). rewrite (Hb _ _ _ _ _ _ Hg).
    rewrite Z.gtb_ltb, (proj2 (Z.ltb_ge _ (function_value f))) by lia.
    rewrite call_checked_run by done. unfold subleaf_error. rewrite orb_true_r. cbn. by eexists.
  - rewrite (bind_done _ _ _ _ _ _ _ _ (vendor_asks d g Hv)). cbv zeta.
    erewrite Hb by (by apply max_cached). cbn [max_cpuid_command set_max].
    rewrite Z.gtb_ltb, (proj2 (Z.ltb_lt _ (function_value f))) by lia. done.
Qed.

(** ** The strings *)

Lemma store_words_app pos ws pre mid post : length pre = pos -> length mid = (4 * length ws)%nat ->
  store_words pos ws (pre ++ mid ++ post) = pre ++ words_bytes ws ++ post.
Proof.
  intros Hp Hm. unfold store_words. rewrite take_app_length' by done. do 2 f_equal.
  rewrite (assoc_L (++)), drop_app_length'; [done|]. rewrite length_app. lia.
Qed.

Lemma length_words_bytes ws : length (words_bytes ws) = (4 * length ws)%nat.
Proof. unfold words_bytes. induction ws as [|w ws IH]; cbn [flat_map length]; [done|]. rewrite length_app, length_le_bytes, IH. lia. Qed.

Lemma terminated l n x : length l = n -> <[n := 0]> (l ++ [x]) = l ++ [0].
Proof. intros <-. rewrite insert_app_r_alt by done. by rewrite Nat.sub_diag. Qed.

(** An array cut behind the words that go into it. *)
Lemma split_at (arr : list Z) n : (n < length arr)%nat -> length arr = S n ->
  exists x, arr = take n arr ++ [x] /\ length (take n arr) = n.
Proof.
  intros Hn Hl. destruct (lookup_lt_is_Some_2 arr n Hn) as [x Hx]. exists x.
  split; [|rewrite length_take; lia]. rewrite <- (take_drop n arr) at 1. f_equal.
  rewrite (drop_S _ _ _ Hx), drop_ge by lia. done.
Qed.

Definition brand_words (d : D) : list Z :=
  flat_map (fun f => let r := cut_regs (cpuid_in f 0 d) in [eax r; ebx r; ecx r; edx r])
    [0x80000002; 0x80000003; 0x80000004].

Lemma brand_part_run d g i w : max_cpuid_command g <> 0 -> 0x80000004 <= max_extended_cpuid_command g ->
  leaves !! Z.to_nat i = Some w ->
  (brand_part DEBUG i : C _) d g = let r := cut_regs (cpuid_in (function_value w) 0 d) in
    Outcome d (set_brand (store_words (16 * Z.to_nat i) [eax r; ebx r; ecx r; edx r] (brand_string g)) g)
      [ECall "cpuid" [function_value w; 0]] (Done tt).
Proof.
  intros Hm Hx Hw. unfold brand_part. rewrite Hw. rewrite (bind_done _ _ d g d g [] w) by done.
  assert (Hc : (call_cpuid DEBUG w 0 : C _) d g = Outcome d g [ECall "cpuid" [function_value w; 0]]
    (Done (mk_result (cut_regs (cpuid_in (function_value w) 0 d)) none))).
  { rewrite call_cpuid_run by (try done; lia).
    assert (He : expected g w 0 = none); [|by rewrite He].
    unfold expected, range_error, subleaf_error. rewrite orb_true_r.
    assert (Hle : 0x80000002 <= function_value w <= 0x80000004).
    { unfold leaves in Hw. destruct (Z.to_nat i) as [|[|[|n]]]; cbn in Hw; try discriminate;
        injection Hw as <-; cbn; lia. }
    destruct (reports_max w); [done|]. rewrite (proj2 (Z.leb_gt _ 13)) by lia.
    rewrite (proj2 (Z.leb_le 0x80000000 (function_value w))) by lia.
    rewrite (proj2 (Z.ltb_ge (max_extended_cpuid_command g) (function_value w))) by lia. done. }
  rewrite (bind_done _ _ _ _ _ _ _ _ Hc). cbv zeta. by destruct DEBUG.
Qed.

Definition brand_part_words (d : D) (f : Z) : list Z :=
  let r := cut_regs (cpuid_in f 0 d) in [eax r; ebx r; ecx r; edx r].

Lemma brand_run d g : max_cpuid_command g <> 0 -> 0x80000004 <= max_extended_cpuid_command g ->
  default 0 (brand_string g !! 0%nat) = 0 ->
  o_exit ((get_cpuid_brand_string DEBUG : C _) d g) =
    Done (<[48%nat := 0]> (store_words 32 (brand_part_words d 0x80000004)
      (store_words 16 (brand_part_words d 0x80000003)
        (store_words 0 (brand_part_words d 0x80000002) (brand_string g))))).
Proof.
  intros Hm Hx Hb. unfold get_cpuid_brand_string. rewrite (bind_done get _ d g d g [] g) by done.
  rewrite Hb. cbn [negb Z.eqb].
  set (g1 := set_brand (store_words 0 (brand_part_words d 0x80000002) (brand_string g)) g).
  set (g2 := set_brand (store_words 16 (brand_part_words d 0x80000003) (brand_string g1)) g1).
  set (g3 := set_brand (store_words 32 (brand_part_words d 0x80000004) (brand_string g2)) g2).
  assert (Hf : exists es, (for_range 3 0 (brand_part DEBUG) : C unit) d g = Outcome d g3 es (Done tt)).
  { eexists. cbn [for_range].
    rewrite (bind_done _ _ _ _ _ _ _ _ (brand_part_run d g 0 Brand_String1 Hm Hx eq_refl)). cbv zeta.
    rewrite (bind_done _ _ _ _ _ _ _ _ (brand_part_run d g1 1 Brand_String2 Hm Hx eq_refl)). cbv zeta.
    rewrite (bind_done _ _ _ _ _ _ _ _ (brand_part_run d g2 2 Brand_String3 Hm Hx eq_refl)). cbv zeta.
    reflexivity. }
  destruct Hf as [es Hf]. rewrite (bind_done _ _ _ _ _ _ _ _ Hf). reflexivity.
Qed.

Lemma store_three (arr w0 w1 w2 : list Z) : length arr = 49%nat ->
  length w0 = 4%nat -> length w1 = 4%nat -> length w2 = 4%nat ->
  <[48%nat := 0]> (store_words 32 w2 (store_words 16 w1 (store_words 0 w0 arr))) =
    words_bytes (w0 ++ w1 ++ w2) ++ [0].
Proof.
  intros Hl H0 H1 H2. destruct (split_at arr 48 ltac:(lia) Hl) as (x & Hs & Hn).
  rewrite <- (take_drop 16 (take 48 arr)), <- (take_drop 16 (drop 16 (take 48 arr))) in Hs.
  set (p0 := take 16 (take 48 arr)) in Hs. set (p1 := take 16 (drop 16 _)) in Hs. set (p2 := drop 16 _) in Hs.
  assert (length p0 = 16%nat /\ length p1 = 16%nat /\ length p2 = 16%nat) as (L0 & L1 & L2).
  { unfold p0, p1, p2. repeat rewrite ?length_take, ?length_drop. lia. }
  pose proof (length_words_bytes w0). pose proof (length_words_bytes w1). pose proof (length_words_bytes w2).
  assert (E0 : store_words 0 w0 arr = words_bytes w0 ++ p1 ++ (p2 ++ [x])).
  { rewrite Hs, <- !(assoc_L (++)). by apply (store_words_app 0 w0 []); [|lia]. }
  assert (E1 : store_words 16 w1 (store_words 0 w0 arr) = (words_bytes w0 ++ words_bytes w1) ++ p2 ++ [x]).
  { rewrite E0, store_words_app by lia. apply (assoc_L (++)). }
  rewrite E1, store_words_app by (rewrite ?length_app; lia).
  rewrite (assoc_L (++)). rewrite terminated by (rewrite !length_app; lia).
  unfold words_bytes. rewrite !flat_map_app. by rewrite <- !(assoc_L (++)).
Qed.

(** The vendor's name and the brand are the bytes of the registers, each asked for once. *)
Theorem processor_strings d g :
  (length (cpuid_vendor g) = 13%nat -> default 0 (cpuid_vendor g !! 0%nat) = 0 ->
   let r := (get_cpuid_vendor DEBUG : C _) d g in
   o_exit r = Done (words_bytes (vendor_words (cut_regs (cpuid_in 0 0 d))) ++ [0]) /\
   o_events r = [ECall "cpuid" [0; 0]] /\ max_cpuid_command (o_glob r) = u32 (eax (cpuid_in 0 0 d))) /\
  (length (brand_string g) = 49%nat -> default 0 (brand_string g !! 0%nat) = 0 ->
   max_cpuid_command g <> 0 -> 0x80000004 <= max_extended_cpuid_command g ->
   o_exit ((get_cpuid_brand_string DEBUG : C _) d g) = Done (words_bytes (brand_words d) ++ [0])) /\
  (default 0 (cpuid_vendor g !! 0%nat) <> 0 ->
   (get_cpuid_vendor DEBUG : C _) d g = Outcome d g [] (Done (cpuid_vendor g))).
Proof.
  split; [|split].
  - intros Hl Hv. destruct (split_at (cpuid_vendor g) 12 ltac:(lia) Hl) as (x & Hs & Hn). cbv zeta.
    rewrite (vendor_asks d g Hv). split; [|done]. cbn [o_exit]. f_equal. rewrite Hs.
    pose proof (store_words_app 0 (vendor_words (cut_regs (cpuid_in 0 0 d))) [] _ [x] eq_refl Hn) as E.
    cbn [app] in E. rewrite E. apply terminated, length_words_bytes.
  - intros Hl Hb Hm Hx. rewrite (brand_run d g Hm Hx Hb).
    by rewrite store_three.
  - intros Hv. unfold get_cpuid_vendor. rewrite (bind_done get _ d g d g [] g) by done.
    by rewrite (proj2 (Z.eqb_neq _ 0) Hv).
Qed.
End cpuid.

(** ** The theorems at concrete inputs

    A processor with five basic functions. *)
Definition five_functions : Processor no_device := {|
  cpuid_in := fun f _ _ =>
    if f =? 0 then mk_regs 5 0x756e6547 0x6c65746e 0x49656e69
    else if f =? 0x80000000 then mk_regs 0x80000008 0 0 0
    else mk_regs 0x41414141 0x42424242 0x43434343 0x44444444;
  cr_in := fun _ _ => 0; cr_out := fun _ _ d => d;
  msr_in := fun _ _ => (0, 0); msr_out := fun _ _ _ d => d;
  xcr0_in := fun _ => (0, 0); xcr0_out := fun _ _ d => d;
  fpu_cw_in := fun _ => 0; fpu_cw_out := fun _ d => d;
  mxcsr_in := fun _ => 0; mxcsr_out := fun _ d => d;
  fs_word := fun _ => 0
|}.
#[local] Existing Instance five_functions.

Definition maxima_known : cpuid_globals := mk_cpuid 5 (repeat 0 13) 0x80000008 (repeat 0 49).

Lemma call_cpuid_checks_witness :
  o_exit (call_cpuid (D:=no_device) false ExtendedFeatures 0 ND maxima_known) =
    Done (failed cpuid_function_not_supported_by_hardware) /\
  o_events (call_cpuid (D:=no_device) false ProcessorInfo 0 ND maxima_known) = [ECall "cpuid" [1; 0]].
Proof.
  pose proof (fun f => call_cpuid_checks (D:=no_device) false ND maxima_known f 0
    ltac:(done) ltac:(done)) as H.
  rewrite !H. by split; vm_compute.
Defined.

Lemma basic_check_depends_on_history_witness :
  exists r, o_exit (call_cpuid (D:=no_device) false ExtendedTopology 0 ND cpuid_boot) = Done (mk_result r none).
Proof.
  destruct (basic_check_depends_on_history (D:=no_device) false ND cpuid_boot ExtendedTopology
    eq_refl eq_refl eq_refl ltac:(done) ltac:(vm_compute; split; congruence) ltac:(done)
    ltac:(vm_compute; congruence)) as [H _].
  exact H.
Defined.

Lemma processor_strings_witness :
  o_exit (get_cpuid_vendor (D:=no_device) false ND cpuid_boot) =
    Done [71; 101; 110; 117; 105; 110; 101; 73; 110; 116; 101; 108; 0].
Proof.
  destruct (processor_strings (D:=no_device) false ND cpuid_boot) as [Hv _].
  destruct (Hv eq_refl eq_refl) as [He _]. rewrite He. by vm_compute.
Defined.
