(* ===== verification/ControlRegisters.v ===== *)
(** * Control registers and the FPU ([cpu/control_registers], [cpu/fpu])

    The structs of [control_registers.h] and [control_registers64.hpp], the functions that read,
    change and write the registers, and [init_fpu] with the feature flags it is led by. *)

From S2P Require Import Prelude Machine BitStruct Phys Processor Cpuid.

(** ** The registers *)

Definition cr0_t : layout :=
  [("pe", 1); ("mp", 1); ("em", 1); ("ts", 1); ("et", 1); ("ne", 1); ("reserved1", 10); ("wp", 1);
   ("reserved2", 1); ("am", 1); ("reserved3", 10); ("nw", 1); ("cd", 1); ("pg", 1)].
Definition cr3_t : layout :=
  [("page_directory_base", 20); ("reserved", 3); ("pwt", 1); ("pcd", 1); ("reserved2", 7)].
Definition cr4_t : layout :=
  [("vme", 1); ("pvi", 1); ("tsd", 1); ("de", 1); ("pse", 1); ("pae", 1); ("mce", 1); ("pge", 1);
   ("pce", 1); ("osfxsr", 1); ("osxmmexcpt", 1); ("umip", 1); ("reserved1", 1); ("fsgsbase", 1);
   ("pcide", 1); ("osxsave", 1); ("reserved2", 1); ("smep", 1); ("smap", 1); ("pke", 1);
   ("reserved3", 10)].

Definition xcr0_t : layout :=
  [("x87", 1); ("sse", 1); ("avx", 1); ("bndreg", 1); ("bndcsr", 1); ("opmask", 1); ("zmm_hi256", 1);
   ("hi16_zmm", 1); ("reserved1", 1); ("pkru", 1); ("reserved2", 54)].
Definition msr_efer_t : layout :=
  [("sce", 1); ("reserved1", 7); ("lme", 1); ("reserved2", 1); ("lma", 1); ("nxe", 1); ("svme", 1);
   ("lmsle", 1); ("ffxsr", 1); ("tce", 1); ("reserved3", 48)].
Definition fpu_control_word_t : layout :=
  [("invalid_operation", 1); ("denormal_operand", 1); ("zero_divide", 1); ("overflow", 1);
   ("underflow", 1); ("precision", 1); ("reserved1", 2); ("precision_control", 2);
   ("rounding_control", 2); ("infinity_control", 1); ("reserved2", 3)].
Definition mxcsr_t : layout :=
  [("invalid_operation", 1); ("denormal_operand", 1); ("zero_divide", 1); ("overflow", 1);
   ("underflow", 1); ("precision", 1); ("denormals_are_zeros", 1); ("invalid_operation_mask", 1);
   ("denormal_operand_mask", 1); ("zero_divide_mask", 1); ("overflow_mask", 1); ("underflow_mask", 1);
   ("precision_mask", 1); ("rounding_control", 2); ("flush_to_zero", 1); ("reserved", 16)].

(** [namespace defaults]; the fields not named are zero. *)
Definition fpu_cw : Z := struct_of fpu_control_word_t [("precision_control", 3)].
Definition mxcsr : Z :=
  struct_of mxcsr_t [("invalid_operation_mask", 1); ("denormal_operand_mask", 1); ("zero_divide_mask", 1);
    ("overflow_mask", 1); ("underflow_mask", 1); ("precision_mask", 1)].

(** Several assignments, in order. *)
Definition assign (l : layout) (fields : list (string * Z)) (word : Z) : Z :=
  foldl (fun word f => set_field l (fst f) (snd f) word) word fields.

Section registers.
Context {D G : Type} `{Processor D}.
Local Abbreviation R A := (M D G A).

Definition get_cr0 : R Z := read_cr 0.
Definition set_cr0 (cr0 : Z) : R unit := write_cr 0 cr0.
Definition get_cr3 : R Z := read_cr 3.
Definition set_cr3 (cr3 : Z) : R unit := write_cr 3 cr3.
Definition get_cr4 : R Z := read_cr 4.
Definition set_cr4 (cr4 : Z) : R unit := write_cr 4 cr4.

(** *** The class of [control_registers.cpp] *)

Definition enable_paging : R unit := current ← get_cr0; set_cr0 (set_field cr0_t "pg" 1 current).
Definition disable_paging : R unit := current ← get_cr0; set_cr0 (set_field cr0_t "pg" 0 current).
Definition enable_fpu : R unit :=
  current ← get_cr0; set_cr0 (assign cr0_t [("em", 0); ("mp", 1); ("ts", 0)] current).
Definition enable_sse_cr4 : R unit :=
  current ← get_cr4; set_cr4 (assign cr4_t [("osfxsr", 1); ("osxmmexcpt", 1)] current).

(** *** The class of [control_registers64.hpp] *)

Definition enable_x87_fpu : R unit :=
  cr0 ← get_cr0;
  set_cr0 (assign cr0_t [("em", 0); ("mp", 1); ("ts", 0); ("ne", 1)] cr0);;
  fninit;;
  fldcw 0x037F.

Definition enable_sse : R unit :=
  cr4 ← get_cr4;
  set_cr4 (assign cr4_t [("osfxsr", 1); ("osxmmexcpt", 1)] cr4);;
  ldmxcsr 0x1F80.

(** [xcr0] is a word of 64 bits whose high half is lost: [xgetbv] clears that half of [rax]. *)
Definition enable_avx : R unit :=
  enable_sse;;
  cr4 ← get_cr4;
  set_cr4 (set_field cr4_t "osxsave" 1 cr4);;
  '(lo, _) ← xgetbv;
  let xcr0 := (lo .| (1 ≪ 1)) .| (1 ≪ 2) in
  xsetbv xcr0 (xcr0 ≫ 32).

Definition has_sse : R bool := r ← _cpuid 1 0; mret (Z.testbit (edx r) 25).

Definition has_avx : R bool :=
  r ← _cpuid 1 0;
  if negb (Z.testbit (ecx r) 27) || negb (Z.testbit (ecx r) 26) || negb (Z.testbit (ecx r) 28)
  then mret false
  else '(lo, _) ← xgetbv; mret (negb (lo .& (1 ≪ 2) =? 0)).

Definition read_fpu_cw : R Z := fstcw.
Definition write_fpu_cw (cw : Z) : R unit := fldcw cw.
Definition read_mxcsr : R Z := stmxcsr.
Definition write_mxcsr (v : Z) : R unit := ldmxcsr v.

Definition save_fpu_state (buffer : Z) : R unit :=
  avx ← has_avx;
  if (avx : bool) then emit (ECall "xsave" [buffer]) else
  sse ← has_sse;
  if (sse : bool) then emit (ECall "fxsave" [buffer]) else emit (ECall "fsave" [buffer]).
Definition restore_fpu_state (buffer : Z) : R unit :=
  avx ← has_avx;
  if (avx : bool) then emit (ECall "xrstor" [buffer]) else
  sse ← has_sse;
  if (sse : bool) then emit (ECall "fxrstor" [buffer]) else emit (ECall "frstor" [buffer]).
End registers.

(** ** The FPU *)

Record fpu_features := mk_features {
  fpu : bool; mmx : bool; sse : bool; sse2 : bool; sse3 : bool; ssse3 : bool; sse41 : bool;
  sse42 : bool; avx_256 : bool; xsave : bool; avx_512 : bool; avx2 : bool;
}.

(** [fpu.hpp] *)
Definition cpuid_fpu_1_ecx : layout :=
  [("sse3", 1); ("pclmulqdq", 1); ("others1", 7); ("ssse3", 1); ("others2", 2); ("fma", 1);
   ("others3", 6); ("sse4_1", 1); ("sse4_2", 1); ("others4", 3); ("others5", 1); ("aes", 1);
   ("xsave", 1); ("osxsave", 1); ("avx", 1); ("f16c", 1); ("others6", 2)].
Definition cpuid_fpu_1_edx : layout :=
  [("fpu", 1); ("others1", 22); ("mmx", 1); ("others2", 1); ("sse", 1); ("sse2", 1); ("others3", 5)].
Definition cpuid_fpu_7_0_ebx : layout :=
  [("fsgsbase", 1); ("sgx", 1); ("bmi1", 1); ("hle", 1); ("avx2", 1); ("others1", 2); ("bmi2", 1);
   ("erms", 1); ("invpcid", 1); ("rtm", 1); ("rtm_m", 1); ("mpx", 1); ("avx512f", 1); ("avx512dq", 1);
   ("rdseed", 1); ("adx", 1); ("smap", 1); ("avx512ifma", 1); ("others2", 3); ("clflushopt", 1);
   ("clwb", 1); ("intel_pt", 1); ("avx512pf", 1); ("avx512er", 1); ("avx512cd", 1); ("sha", 1);
   ("avx512bw", 1); ("avx512vl", 1)].
Definition cpuid_fpu_7_0_ecx : layout :=
  [("others1", 1); ("avx512vbmi", 1); ("others2", 1); ("avx512vbmi2", 1); ("others3", 1);
   ("avx512vnni", 1); ("avx512bitalg", 1); ("others4", 1); ("avx512vpopcntdq", 1); ("others5", 6);
   ("avx512vp2intersect", 1); ("others6", 15)].
Definition cpuid_7_0_edx : layout :=
  [("others1", 2); ("avx512_4vnniw", 1); ("avx512_4fmaps", 1); ("others2", 28)].

(** A field of one bit as a condition. *)
Definition flag (l : layout) (name : string) (word : Z) : bool := negb (get_field l name word =? 0).

Section fpu.
Context {D : Type} `{Processor D}.
Context (DEBUG : bool).
Local Abbreviation C A := (M D cpuid_globals A).

Definition bool_arg (b : bool) : list parg := [PNum (if b then 1 else 0)].

Definition print_activated_fpu_features (ff : fpu_features) : C unit :=
  kprintf "\n-----Activated FPU Features-----\n" [];;
  kprintf "fpu   		= %b\n" (bool_arg (fpu ff));;
  kprintf "mmx   		= %b\n" (bool_arg (mmx ff));;
  kprintf "sse   		= %b\n" (bool_arg (sse ff));;
  kprintf "sse2  		= %b\n" (bool_arg (sse2 ff));;
  kprintf "sse3  		= %b\n" (bool_arg (sse3 ff));;
  kprintf "sse41 		= %b\n" (bool_arg (sse41 ff));;
  kprintf "sse42 		= %b\n" (bool_arg (sse42 ff));;
  kprintf "avx_256   	= %b\n" (bool_arg (avx_256 ff));;
  kprintf "xsave 		= %b\n" (bool_arg (xsave ff));;
  kprintf "avx_512   	= %b\n" (bool_arg (avx_512 ff));;
  kprintf "avx2 		= %b\n" (bool_arg (avx2 ff));;
  kprintf "\n" [].

(** The part under [fpu_edx.fpu]: the value of [cr0] that is kept for the end. *)
Definition start_x87 (present : bool) (cr0 : Z) : C Z :=
  if present then
    let cr0 := assign cr0_t [("mp", 1); ("em", 0); ("ts", 0)] cr0 in
    set_cr0 cr0;;
    fninit;;
    fldcw 0x037F;;
    mret cr0
  else mret cr0.

(** The part under [fpu_edx.sse || fpu_edx.sse2]. *)
Definition start_sse (present : bool) (cr4 : Z) : C Z :=
  if present then
    let cr4 := assign cr4_t [("osfxsr", 1); ("osxmmexcpt", 1)] cr4 in
    set_cr4 cr4;;
    ldmxcsr 0x1F80;;
    mret cr4
  else mret cr4.

(** The part under [fpu_ecx.avx && fpu_ecx.osxsave]: [cr4] and whether AVX is on. *)
Definition start_avx (present : bool) (cr4 : Z) : C (Z * bool) :=
  if present then
    let cr4 := set_field cr4_t "osxsave" 1 cr4 in
    set_cr4 cr4;;
    '(lo, hi) ← xgetbv;
    xsetbv (lo .| ((1 ≪ 1) .| (1 ≪ 2))) hi;;
    '(lo, hi) ← xgetbv;
    if lo .& (1 ≪ 2) =? 0
    then kprintf "AVX-256 wasn't actually enabled though it tried\n" [];; mret (cr4, false)
    else mret (cr4, true)
  else mret (cr4, false).

(** Built without [ENABLE_ADVANCED_FEATURES], as the file is. *)
Definition init_fpu : C fpu_features :=
  cr0 ← get_cr0;
  cr4 ← get_cr4;
  cpuid_1 ← call_cpuid DEBUG ProcessorInfo 0;
  if has_error cpuid_1 then abort_msg "If we can't even get cpuid1, we are fucked anyway\n" [] else
  let fpu_ecx := ecx (regs cpuid_1) in
  let fpu_edx := edx (regs cpuid_1) in
  let has_sse := flag cpuid_fpu_1_edx "sse" fpu_edx || flag cpuid_fpu_1_edx "sse2" fpu_edx in
  let has_avx := flag cpuid_fpu_1_ecx "avx" fpu_ecx && flag cpuid_fpu_1_ecx "osxsave" fpu_ecx in
  cr0 ← start_x87 (flag cpuid_fpu_1_edx "fpu" fpu_edx) cr0;
  cr4 ← start_sse has_sse cr4;
  '(cr4, avx) ← start_avx has_avx cr4;
  set_cr0 cr0;;
  set_cr4 cr4;;
  mret (mk_features (flag cpuid_fpu_1_edx "fpu" fpu_edx) (flag cpuid_fpu_1_edx "mmx" fpu_edx)
    (has_sse && flag cpuid_fpu_1_edx "sse" fpu_edx) (has_sse && flag cpuid_fpu_1_edx "sse2" fpu_edx)
    (flag cpuid_fpu_1_ecx "sse3" fpu_ecx) (flag cpuid_fpu_1_ecx "ssse3" fpu_ecx)
    (flag cpuid_fpu_1_ecx "sse4_1" fpu_ecx) (flag cpuid_fpu_1_ecx "sse4_2" fpu_ecx)
    avx has_avx false false).
End fpu.
