(* ===== verification/ControlRegistersFacts.v ===== *)
(** * Facts about the control registers and the FPU

    What [init_fpu] reports and what it leaves in [cr0] and [cr4]. *)

From S2P Require Import Prelude Machine BitStruct Phys Processor Cpuid CpuidFacts ControlRegisters.

(** The bit a mask of [cpuid_internal.hpp] tests. *)
Definition tests (features : list (string * Z)) (name : string) (word : Z) : bool :=
  negb (word .& feature features name =? 0).

Lemma land_pow2 w i : 0 <= i -> negb (w .& (1 ≪ i) =? 0) = Z.testbit w i.
Proof.
  intros Hi. rewrite Z.shiftl_1_l. destruct (Z.eqb_spec (w .& 2 ^ i) 0) as [E|E]; cbn.
  - apply (f_equal (fun z => Z.testbit z i)) in E. rewrite Z.land_spec, Z.pow2_bits_true, andb_true_r in E by lia.
    by rewrite E, Z.bits_0.
  - symmetry. apply not_false_is_true. intros Hf. apply E. apply Z.bits_inj'. intros j Hj.
    rewrite Z.land_spec, Z.bits_0. destruct (decide (i = j)) as [->|Hne]; [by rewrite Hf|].
    by rewrite Z.pow2_bits_false, andb_false_r by done.
Qed.

(** A flag of a struct is the flag of the masks when both are at the same bit. *)
Lemma flag_tests l name features name' word o :
  place l name = Some (o, 1) -> feature features name' = 1 ≪ o -> 0 <= o ->
  flag l name word = tests features name' word.
Proof. intros Hp Hf Ho. unfold flag, tests. rewrite (get_bit_testbit _ _ _ _ Hp Ho), Hf. by rewrite land_pow2. Qed.

(** The flags of [fpu.hpp] are at the bits of the masks. *)
Lemma fpu_flags c e :
  flag cpuid_fpu_1_edx "fpu" e = tests CPUID_FEAT_EDX "FPU" e /\
  flag cpuid_fpu_1_edx "mmx" e = tests CPUID_FEAT_EDX "MMX" e /\
  flag cpuid_fpu_1_edx "sse" e = tests CPUID_FEAT_EDX "SSE" e /\
  flag cpuid_fpu_1_edx "sse2" e = tests CPUID_FEAT_EDX "SSE2" e /\
  flag cpuid_fpu_1_ecx "sse3" c = tests CPUID_FEAT_ECX "SSE3" c /\
  flag cpuid_fpu_1_ecx "ssse3" c = tests CPUID_FEAT_ECX "SSSE3" c /\
  flag cpuid_fpu_1_ecx "sse4_1" c = tests CPUID_FEAT_ECX "SSE4_1" c /\
  flag cpuid_fpu_1_ecx "sse4_2" c = tests CPUID_FEAT_ECX "SSE4_2" c /\
  flag cpuid_fpu_1_ecx "avx" c = tests CPUID_FEAT_ECX "AVX" c /\
  flag cpuid_fpu_1_ecx "osxsave" c = tests CPUID_FEAT_ECX "OSXSAVE" c.
Proof. repeat split; eapply flag_tests; by vm_compute. Qed.

Lemma cr_u32 l fields v : widths_ok (map snd l) -> total_width (map snd l) <= 32 -> is_u32 v ->
  is_u32 (assign l fields v).
Proof.
  intros Hw Ht. unfold assign. revert v. induction fields as [|f fields IH]; intros v Hv; [done|].
  apply IH. by apply set_field_range.
Qed.

Lemma cr0_widths : widths_ok (map snd cr0_t).
Proof. apply (bool_decide_eq_true_1 _). by vm_compute. Qed.
Lemma cr4_widths : widths_ok (map snd cr4_t).
Proof. apply (bool_decide_eq_true_1 _). by vm_compute. Qed.
#[local] Hint Resolve cr0_widths cr4_widths : core.

(** The values the three parts leave. *)
Definition cr0_with_x87 (present : bool) (cr0 : Z) : Z :=
  if present then assign cr0_t [("mp", 1); ("em", 0); ("ts", 0)] cr0 else cr0.
Definition cr4_with_sse (present : bool) (cr4 : Z) : Z :=
  if present then assign cr4_t [("osfxsr", 1); ("osxmmexcpt", 1)] cr4 else cr4.
Definition cr4_with_avx (present : bool) (cr4 : Z) : Z :=
  if present then set_field cr4_t "osxsave" 1 cr4 else cr4.

Lemma cr0_with_x87_u32 b v : is_u32 v -> is_u32 (cr0_with_x87 b v).
Proof. intros Hv. unfold cr0_with_x87. destruct b; [|exact Hv]. apply cr_u32; [apply cr0_widths|done|exact Hv]. Qed.
Lemma cr4_with_sse_u32 b v : is_u32 v -> is_u32 (cr4_with_sse b v).
Proof. intros Hv. unfold cr4_with_sse. destruct b; [|exact Hv]. apply cr_u32; [apply cr4_widths|done|exact Hv]. Qed.
Lemma cr4_with_avx_u32 b v : is_u32 v -> is_u32 (cr4_with_avx b v).
Proof.
  intros Hv. unfold cr4_with_avx. destruct b; [|exact Hv].
  apply set_field_range; [apply cr4_widths|done|exact Hv].
Qed.

(** What the bits become. *)
Lemma cr0_bits b v i : 0 <= i -> Z.testbit (cr0_with_x87 b v) i =
  if b && (1 <=? i) && (i <=? 3) then i =? 1 else Z.testbit v i.
Proof.
  intros Hi. unfold cr0_with_x87. destruct b; [|done]. unfold assign. cbn [foldl fst snd andb].
  rewrite (set_bit_testbit _ "ts" _ _ 3), (set_bit_testbit _ "em" _ _ 2), (set_bit_testbit _ "mp" _ _ 1) by done.
  destruct (Z.eqb_spec i 3) as [->|]; [done|]. destruct (Z.eqb_spec i 2) as [->|]; [done|].
  destruct (Z.eqb_spec i 1) as [->|]; [done|].
  destruct (Z.leb_spec 1 i), (Z.leb_spec i 3); try done. lia.
Qed.

Lemma cr4_sse_bits b v i : 0 <= i -> Z.testbit (cr4_with_sse b v) i =
  (b && ((i =? 9) || (i =? 10))) || Z.testbit v i.
Proof.
  intros Hi. unfold cr4_with_sse. destruct b; [|done]. unfold assign. cbn [foldl fst snd andb].
  rewrite (set_bit_testbit _ "osxmmexcpt" _ _ 10), (set_bit_testbit _ "osfxsr" _ _ 9) by done.
  destruct (Z.eqb_spec i 10) as [->|]; [by rewrite orb_true_r|]. by destruct (Z.eqb_spec i 9).
Qed.

Lemma cr4_avx_bits b v i : 0 <= i -> Z.testbit (cr4_with_avx b v) i = (b && (i =? 15)) || Z.testbit v i.
Proof.
  intros Hi. unfold cr4_with_avx. destruct b; [|done].
  rewrite (set_bit_testbit _ "osxsave" _ _ 15) by done. by destruct (Z.eqb_spec i 15).
Qed.

Section init_fpu.
Context {D : Type} `{Processor D} (DEBUG : bool).
Local Abbreviation C A := (M D cpuid_globals A).

Lemma start_x87_spec present v s : ensures (start_x87 present v : C Z) s (fun v' s' _ =>
  s' = s /\ v' = cr0_with_x87 present v).
Proof. intros d. destruct present; by eexists. Qed.
Lemma start_sse_spec present v s : ensures (start_sse present v : C Z) s (fun v' s' _ =>
  s' = s /\ v' = cr4_with_sse present v).
Proof. intros d. destruct present; by eexists. Qed.
Lemma start_avx_spec present v s : ensures (start_avx present v : C (Z * bool)) s (fun r s' _ =>
  s' = s /\ fst r = cr4_with_avx present v /\ (snd r = true -> present = true)).
Proof.
  destruct present; [|apply ensures_ret; by split].
  eapply ensures_step; [apply yields_write_cr|].
  eapply ensures_bind; [apply ensures_xgetbv|]. intros [lo hi] ? ? (_ & _ & -> & ->).
  eapply ensures_step; [apply yields_xsetbv|].
  eapply ensures_bind; [apply ensures_xgetbv|]. intros [lo' hi'] ? ? (_ & _ & -> & ->).
  destruct (_ =? 0); [|by apply ensures_ret].
  eapply ensures_step; [apply yields_kprintf|]. by apply ensures_ret.
Qed.

Lemma processor_info_run d g : 1 <= max_cpuid_command g ->
  (call_cpuid DEBUG ProcessorInfo 0 : C _) d g =
    Outcome d g [ECall "cpuid" [1; 0]] (Done (mk_result (cut_regs (cpuid_in 1 0 d)) none)).
Proof.
  intros Hm. unfold call_cpuid.
  erewrite bind_done with (a := none).
  2:{ change (negb (reports_max ProcessorInfo)) with true. unfold validate_cpuid_function.
      change (function_value ProcessorInfo <=? function_value XSAVE_Features) with true. cbv zeta iota.
      rewrite (bind_done _ _ _ _ _ _ _ _ (max_cached DEBUG d g ltac:(lia))). cbv zeta.
      change (function_value ProcessorInfo) with 1.
      rewrite Z.gtb_ltb, (proj2 (Z.ltb_ge (max_cpuid_command g) 1)) by lia. reflexivity. }
  reflexivity.
Qed.

(** The two writes at the end, and what is reported. *)
Lemma init_fpu_ensures d g : 1 <= max_cpuid_command g ->
  let c := u32 (ecx (cpuid_in 1 0 d)) in
  let e := u32 (edx (cpuid_in 1 0 d)) in
  let has_sse := flag cpuid_fpu_1_edx "sse" e || flag cpuid_fpu_1_edx "sse2" e in
  let has_avx := flag cpuid_fpu_1_ecx "avx" c && flag cpuid_fpu_1_ecx "osxsave" c in
  let r := (init_fpu DEBUG : C _) d g in
  exists avx es,
    o_exit r = Done (mk_features (flag cpuid_fpu_1_edx "fpu" e) (flag cpuid_fpu_1_edx "mmx" e)
      (has_sse && flag cpuid_fpu_1_edx "sse" e) (has_sse && flag cpuid_fpu_1_edx "sse2" e)
      (flag cpuid_fpu_1_ecx "sse3" c) (flag cpuid_fpu_1_ecx "ssse3" c)
      (flag cpuid_fpu_1_ecx "sse4_1" c) (flag cpuid_fpu_1_ecx "sse4_2" c) avx has_avx false false) /\
    o_glob r = g /\ (avx = true -> has_avx = true) /\
    o_events r = es ++
      [ECall "write cr" [0; u32 (cr0_with_x87 (flag cpuid_fpu_1_edx "fpu" e) (u32 (cr_in 0 d)))];
       ECall "write cr" [4; u32 (cr4_with_avx has_avx (cr4_with_sse has_sse (u32 (cr_in 4 d))))]].
Proof.
  intros Hm c e has_sse has_avx.
  assert (Hk : exists k es0, (init_fpu DEBUG : C _) d g =
      (let r := k d g in Outcome (o_dev r) (o_glob r) (es0 ++ o_events r) (o_exit r)) /\
    ensures k g (fun f s' es => exists avx es', s' = g /\ (avx = true -> has_avx = true) /\
      f = mk_features (flag cpuid_fpu_1_edx "fpu" e) (flag cpuid_fpu_1_edx "mmx" e)
      (has_sse && flag cpuid_fpu_1_edx "sse" e) (has_sse && flag cpuid_fpu_1_edx "sse2" e)
      (flag cpuid_fpu_1_ecx "sse3" c) (flag cpuid_fpu_1_ecx "ssse3" c)
      (flag cpuid_fpu_1_ecx "sse4_1" c) (flag cpuid_fpu_1_ecx "sse4_2" c) avx has_avx false false /\
      es = es' ++
      [ECall "write cr" [0; u32 (cr0_with_x87 (flag cpuid_fpu_1_edx "fpu" e) (u32 (cr_in 0 d)))];
       ECall "write cr" [4; u32 (cr4_with_avx has_avx (cr4_with_sse has_sse (u32 (cr_in 4 d))))]])).
  { eexists _, _. split.
    - unfold init_fpu.
      rewrite (bind_done get_cr0 _ d g d g [ECall "read cr" [0; u32 (cr_in 0 d)]] (u32 (cr_in 0 d))) by done.
      rewrite (bind_done get_cr4 _ d g d g [ECall "read cr" [4; u32 (cr_in 4 d)]] (u32 (cr_in 4 d))) by done.
      rewrite (bind_done _ _ _ _ _ _ _ _ (processor_info_run d g Hm)).
      change (has_error _) with false. cbv zeta iota. cbn [o_dev o_glob o_events o_exit regs cut_regs ecx edx].
      rewrite !(assoc_L (++)). reflexivity.
    - cbv beta. fold c e has_sse has_avx.
      eapply ensures_bind; [apply start_x87_spec|]. intros v0 ? es0 [-> ->].
      eapply ensures_bind; [apply start_sse_spec|]. intros v1 ? es1 [-> ->].
      eapply ensures_bind; [apply start_avx_spec|]. intros [v2 avx] ? es2 (-> & Hv2 & Havx). cbn in Hv2. subst v2.
      eapply ensures_step; [apply yields_write_cr|]. eapply ensures_step; [apply yields_write_cr|].
      apply ensures_ret. exists avx, (es0 ++ es1 ++ es2). split; [done|]. split; [exact Havx|].
      split; [done|]. by rewrite <- !(assoc_L (++)). }
  destruct Hk as (k & es0 & -> & Hk). destruct (Hk d) as (f & He & avx & es' & Hg & Havx & -> & Hes).
  exists avx, (es0 ++ es'). cbv zeta. cbn [o_exit o_glob o_events].
  split; [exact He|]. split; [exact Hg|]. split; [exact Havx|]. by rewrite Hes, (assoc_L (++)).
Qed.

(** C31: [init_fpu] reports the features by the bits of the masks; its last two writes are [cr0] and
    [cr4] with the bits of the features turned on. *)
Theorem init_fpu_spec d g : 1 <= max_cpuid_command g ->
  let r := (init_fpu DEBUG : C _) d g in
  let c := u32 (ecx (cpuid_in 1 0 d)) in
  let e := u32 (edx (cpuid_in 1 0 d)) in
  let has_sse := tests CPUID_FEAT_EDX "SSE" e || tests CPUID_FEAT_EDX "SSE2" e in
  let has_avx := tests CPUID_FEAT_ECX "AVX" c && tests CPUID_FEAT_ECX "OSXSAVE" c in
  exists f es cr0 cr4,
    o_exit r = Done f /\ o_glob r = g /\
    o_events r = es ++ [ECall "write cr" [0; cr0]; ECall "write cr" [4; cr4]] /\
    (fpu f, mmx f, sse f, sse2 f) =
      (tests CPUID_FEAT_EDX "FPU" e, tests CPUID_FEAT_EDX "MMX" e, tests CPUID_FEAT_EDX "SSE" e,
       tests CPUID_FEAT_EDX "SSE2" e) /\
    (sse3 f, ssse3 f, sse41 f, sse42 f) =
      (tests CPUID_FEAT_ECX "SSE3" c, tests CPUID_FEAT_ECX "SSSE3" c, tests CPUID_FEAT_ECX "SSE4_1" c,
       tests CPUID_FEAT_ECX "SSE4_2" c) /\
    xsave f = has_avx /\ (avx_256 f = true -> has_avx = true) /\ avx2 f = false /\ avx_512 f = false /\
    (forall i, 0 <= i -> Z.testbit cr0 i =
      if fpu f && (1 <=? i) && (i <=? 3) then i =? 1 else Z.testbit (u32 (cr_in 0 d)) i) /\
    (forall i, 0 <= i -> Z.testbit cr4 i =
      (has_sse && ((i =? 9) || (i =? 10))) || (has_avx && (i =? 15)) || Z.testbit (u32 (cr_in 4 d)) i).
Proof.
  intros Hm r c e has_sse has_avx.
  destruct (init_fpu_ensures d g Hm) as (avx & es & He & Hg & Havx & Hes). fold c e in He, Havx, Hes.
  destruct (fpu_flags c e) as (F1 & F2 & F3 & F4 & F5 & F6 & F7 & F8 & F9 & F10).
  rewrite F1, F2, F3, F4, F5, F6, F7, F8, F9, F10 in He. rewrite F1, F3, F4, F9, F10 in Hes.
  rewrite F9, F10 in Havx. fold has_sse has_avx in He, Hes, Havx.
  eexists _, es, _, _. split; [exact He|]. split; [exact Hg|]. split; [exact Hes|].
  cbn [fpu mmx sse sse2 sse3 ssse3 sse41 sse42 xsave avx_256 avx2 avx_512].
  split; [unfold has_sse; by destruct (tests _ "SSE" e), (tests _ "SSE2" e)|].
  split; [done|]. split; [done|]. split; [exact Havx|]. split; [done|]. split; [done|].
  pose proof (u32_range (cr_in 0 d)) as R0. pose proof (u32_range (cr_in 4 d)) as R4. split.
  - intros i Hi. rewrite u32_small by (apply cr0_with_x87_u32, R0). by apply cr0_bits.
  - intros i Hi. rewrite u32_small by (apply cr4_with_avx_u32, cr4_with_sse_u32, R4).
    rewrite cr4_avx_bits, cr4_sse_bits by done. rewrite orb_assoc. f_equal. apply orb_comm.
Qed.
End init_fpu.

(** ** The theorem at a concrete input *)
#[local] Existing Instance five_functions.

Lemma init_fpu_spec_witness :
  exists f, o_exit (init_fpu (D:=no_device) false ND maxima_known) = Done f /\ sse2 f = true /\ avx_256 f = false.
Proof.
  destruct (init_fpu_spec (D:=no_device) false ND maxima_known ltac:(done))
    as (f & es & cr0 & cr4 & He & _ & _ & Hf & _ & _ & Ha & _).
  exists f. split; [exact He|]. split.
  - apply (f_equal snd) in Hf. exact Hf.
  - destruct (avx_256 f); [|done]. specialize (Ha eq_refl). by vm_compute in Ha.
Defined.
