(* ===== verification/Apic.v ===== *)
(** * The local APIC driver ([cpu/apic/apic.cpp])

    Switching the APIC on, commands to other processors, waking one and waiting for an interrupt.
    The driver uses the timer and [cpuid]; the other processors are part of the machine. *)

From stdpp Require Import gmap.
From S2P Require Import Prelude Machine BitStruct StringHelper Terminal BitHex FloatText Lapic Pit Phys Processor Cpuid.

(** [core_has_booted[i]], which processor [i] sets; the store to [master_tells_core_to_start[i]],
    which it waits for then; and the interrupts that other processors send to this one while it is
    halted, as pairs of sender and vector. *)
Class OtherCores (D : Type) := {
  core_has_booted : Z -> D -> bool * D;
  told_to_start : Z -> D -> D;
  sent_meanwhile : D -> list (Z * Z) * D;
}.

Definition TIMEOUT_IPI_PENDING : Z := 1000000.
Definition MAX_CORE_COUNT : Z := 12.
Definition NO_INTERRUPT : Z := 255.
Definition apic_msr : Z := 0x1B.
Definition spurious_interrupt_vector : Z := 56.
Definition interrupt_entered_main : Z := 57.
Definition number_of_reserved_interrupt : Z := 32.

(** [enum class error] *)
Inductive error := no_error | boot_core_timeout | bad_time | timeout_sending_ipi.
#[export] Instance error_eq : EqDecision error.
Proof. solve_decision. Defined.

Record apic_support := mk_support { apic : bool; x2apic : bool; tsc_deadline : bool }.

(** The globals, and those of the timer and of [cpuid]. *)
Record apic_globals := mk_apic {
  support_tsc_deadline : bool;
  last_interrupt_received : list (list Z);
  last_interrupt_received_spin_lock : Z;
  master_tells_core_to_start : list bool;
  core_mains : list Z;
  runtime_core_count : Z;
  of_pit : pit_globals;
  of_cpuid : cpuid_globals;
}.

Definition set_support (b : bool) (g : apic_globals) : apic_globals :=
  mk_apic b (last_interrupt_received g) (last_interrupt_received_spin_lock g)
    (master_tells_core_to_start g) (core_mains g) (runtime_core_count g) (of_pit g) (of_cpuid g).
Definition set_received (t : list (list Z)) (lock : Z) (g : apic_globals) : apic_globals :=
  mk_apic (support_tsc_deadline g) t lock (master_tells_core_to_start g) (core_mains g)
    (runtime_core_count g) (of_pit g) (of_cpuid g).
Definition set_cores (start : list bool) (mains : list Z) (g : apic_globals) : apic_globals :=
  mk_apic (support_tsc_deadline g) (last_interrupt_received g) (last_interrupt_received_spin_lock g)
    start mains (runtime_core_count g) (of_pit g) (of_cpuid g).
Definition set_pit (p : pit_globals) (g : apic_globals) : apic_globals :=
  mk_apic (support_tsc_deadline g) (last_interrupt_received g) (last_interrupt_received_spin_lock g)
    (master_tells_core_to_start g) (core_mains g) (runtime_core_count g) p (of_cpuid g).
Definition set_cpuid (c : cpuid_globals) (g : apic_globals) : apic_globals :=
  mk_apic (support_tsc_deadline g) (last_interrupt_received g) (last_interrupt_received_spin_lock g)
    (master_tells_core_to_start g) (core_mains g) (runtime_core_count g) (of_pit g) c.

(** Element [i][j] of [last_interrupt_received]. *)
Definition received (t : list (list Z)) (i j : Z) : option Z :=
  row ← t !! Z.to_nat i; row !! Z.to_nat j.
Definition receive (t : list (list Z)) (i j v : Z) : list (list Z) :=
  alter (<[Z.to_nat j := v]>) (Z.to_nat i) t.

(** The times of the waits, in seconds: [10.f / 1000.f], [0.001f], [(float)50 / 1000.f]. *)
Definition ten_ms : spec_float := fdiv (float_of 10) (float_of 1000).
Definition one_ms : spec_float := fdiv (float_of 1) (float_of 1000).
Definition long_timeout_ms : Z := 1000.
Definition short_timeut_ms : Z := 50.
Definition timeout_count : Z := long_timeout_ms / short_timeut_ms.
Definition short_time : spec_float := fdiv (float_of short_timeut_ms) (float_of 1000).

Section apic.
Context {D : Type} `{PortDevice D} `{RegisterDevice D} `{Interrupts D} `{Processor D} `{OtherCores D}.
(** Built with [-DDEBUG] or not. *)
Context (DEBUG : bool).
(** The interrupts a wait sees and the rounds a loop makes before the model gives up. *)
Context (wakeups : nat).
(** Where the local variable [finished] of [wake_core] lies. *)
Context (finished : Z).
Local Abbreviation A T := (M D apic_globals T).

Definition with_pit {T} (m : M D pit_globals T) : A T := zoom of_pit set_pit m.
Definition with_cpuid {T} (m : M D cpuid_globals T) : A T := zoom of_cpuid set_cpuid m.

(** *** The APIC as a whole *)

Definition has_apic : A apic_support :=
  cpuid_1 ← with_cpuid (call_cpuid DEBUG ProcessorInfo 0);
  if has_error cpuid_1 then abort_msg "If we can't even get cpuid1, we are fucked anyway\n" [] else
  let c := ecx (regs cpuid_1) in
  let e := edx (regs cpuid_1) in
  let deadline := negb (get_field cpuid_basic_ecx "tsc_deadline" c =? 0) in
  modify (set_support deadline);;
  mret (mk_support (negb (get_field cpuid_basic_edx "apic" e =? 0))
    (negb (get_field cpuid_basic_ecx "x2apic" c =? 0)) deadline).

(** The high word is passed through as it is. *)
Definition read_apic_msr : A (apic_msr_eax * Z) :=
  '(eax_raw, edx_raw) ← read_msr apic_msr;
  mret (msr_eax_of eax_raw, edx_raw).
Definition write_apic_msr (e : apic_msr_eax) (high : Z) : A unit :=
  write_msr apic_msr (msr_eax_raw e) high.

Definition get_base_address : A Z :=
  '(e, _) ← read_apic_msr;
  assert_handler_fmt (Lapic.x2apic e =? 0) "x2 apic doesn't work with base address mmio, but msr!\n" [];;
  mret (u32 (base_low_page_idx e ≪ 12)).

Definition four_kb : Z := 1 ≪ 12.
Definition page_mask : Z := (four_kb ≪ 1) - 1.
Definition set_base_address (base_address : Z) : A unit :=
  assert_handler_fmt (base_address .& page_mask =? 0) "Base address must be page aligned!\n" [];;
  '(e, high) ← read_apic_msr;
  assert_handler_fmt (Lapic.x2apic e =? 0) "x2 apic doesn't work with base address mmio, but msr!\n" [];;
  write_apic_msr (mk_msr_eax (eax_reserved0 e) (is_bootstrap_processor e) (eax_reserved1 e)
    (Lapic.x2apic e) (apic_enable e) (base_address ≫ 12)) high.

Definition init_apic : A error :=
  '(e, high) ← read_apic_msr;
  let e := mk_msr_eax (eax_reserved0 e) (is_bootstrap_processor e) (eax_reserved1 e)
    (Lapic.x2apic e) 1 (base_low_page_idx e) in
  assert_handler_fmt (negb (is_bootstrap_processor e =? 0))
    "This must only be executed once by the bootstrap processor\n" [];;
  write_apic_msr e high;;
  mret no_error.

Definition get_core_id : A Z :=
  word ← mmio_read (register lapic_registers_offset.lapic_id); mret (apic_id_of word).
(** [get_core_id_fast] and [apic_get_core_id] *)
Definition get_core_id_fast : A Z := apic_id ← read_fs_0; mret (u8 apic_id).
Definition send_eoi : A unit := lapic_send_eoi.

Definition init_lapic : A error :=
  word ← mmio_read (register lapic_registers_offset.spurious_interrupt_vector);
  let spivr := spivr_of word in
  mmio_write (register lapic_registers_offset.spurious_interrupt_vector)
    (spivr_raw (mk_spivr spurious_interrupt_vector 1 (spivr_reserved1 spivr) 0 (spivr_reserved2 spivr)));;
  core_id ← get_core_id_fast;
  (if negb (core_id =? 0) then
     mmio_write (register lapic_registers_offset.lvt_lint0)
       (lvt_lint_raw 0 lvt_delivery_mode.fixed 0 trigger_mode.edge mask.disable)
   else mret tt);;
  mmio_write (register lapic_registers_offset.task_priority)
    (task_priority_raw task_priority_subclass.default_ task_priority.all);;
  mret no_error.

(** *** Commands *)

Definition test_cmd : A Z :=
  send_command (icr_low_raw (icr_command 0 delivery_mode.init level.assert trigger_mode.edge))
    (icr_high_raw 1);;
  mret 1.

(** [for (i = 0; i < TIMEOUT_IPI_PENDING; i++)]: whether the command was accepted in time. *)
Fixpoint poll_pending (n : nat) : A bool :=
  match n with
  | O => mret false
  | S n =>
      word ← mmio_read (register lapic_registers_offset.command_low);
      if delivery_status_pending_ro (icr_low_of word) =? 0 then mret true else poll_pending n
  end.
Definition poll : A bool := poll_pending (Z.to_nat TIMEOUT_IPI_PENDING).

Definition send_init (core_id : Z) : A error :=
  assert_handler_fmt (core_id <=? 15) "Won't fit\n" [];;
  send_command (icr_low_raw (icr_command 0 delivery_mode.init level.assert trigger_mode.edge))
    (icr_high_raw core_id);;
  accepted ← poll;
  if negb accepted then mret timeout_sending_ipi else
  with_pit (wait DEBUG wakeups ten_ms);;
  send_command (icr_low_raw (icr_command 0 delivery_mode.init level.deassert trigger_mode.level))
    (icr_high_raw core_id);;
  accepted ← poll;
  mret (if (accepted : bool) then no_error else timeout_sending_ipi).

Definition send_sipi (core_id core_bootstrap : Z) : A error :=
  kprintf "Core bootstrap location: %h\n" [PNum core_bootstrap];;
  assert_handler_fmt (core_id <=? 15) "Won't fit\n" [];;
  assert_handler_fmt (core_bootstrap <? 0xFF * 0x1000) "Start address must be a 16bit address" [];;
  assert_handler_fmt (core_bootstrap .& 0xFFF =? 0) "SIPI start address must be 4 KB aligned" [];;
  send_command (icr_low_raw (icr_command (u8 (core_bootstrap / 0x1000)) delivery_mode.start_up
    level.assert trigger_mode.edge)) (icr_high_raw core_id);;
  accepted ← poll;
  mret (if (accepted : bool) then no_error else timeout_sending_ipi).

(** The lock around [last_interrupt_received], taken by this processor only. *)
Definition lock_received : A unit :=
  lock ← gets last_interrupt_received_spin_lock;
  if lock =? 0 then modify (fun g => set_received (last_interrupt_received g) 1 g) else stop Spinning.
Definition unlock_received : A unit := modify (fun g => set_received (last_interrupt_received g) 0 g).

(** [last_interrupt_received[i][j] = v] *)
Definition store_received (i j v : Z) : A unit :=
  t ← gets last_interrupt_received;
  read_cell (received t i j);;
  modify (fun g => set_received (receive t i j v) (last_interrupt_received_spin_lock g) g).

Definition send_ipi (core_id int_vector : Z) : A error :=
  (if DEBUG then assert_handler_fmt (core_id <=? 15) "Won't fit\n" [] else mret tt);;
  this_core_id ← get_core_id_fast;
  lock_received;;
  store_received core_id this_core_id int_vector;;
  unlock_received;;
  send_command (icr_low_raw (icr_command int_vector delivery_mode.fixed level.assert trigger_mode.edge))
    (icr_high_raw core_id);;
  accepted ← poll;
  if (accepted : bool) then mret no_error else
  kprintf "Timed out waiting for sending ipi\n" [];;
  mret timeout_sending_ipi.

(** *** Waking a processor *)

Definition read_booted (core_id : Z) : A bool :=
  if core_id <? MAX_CORE_COUNT
  then fun d g => let '(b, d) := core_has_booted core_id d in Outcome d g [] (Done b)
  else stop Undefined.
Definition read_finished : A bool :=
  g ← get; v ← read_cell (words (of_pit g) !! finished); mret (negb (v =? 0)).
Definition write_finished (v : Z) : A unit :=
  modify (fun g => set_pit (let p := of_pit g in
    set_messages (pit_is_new_timeout p) (pit_write_index p) (pit_msg_address p) (pit_msg_value p)
      (<[finished := v]> (words p)) p) g).
Definition tell_to_start (core_id : Z) : A unit := fun d g =>
  Outcome (told_to_start core_id d)
    (set_cores (<[Z.to_nat core_id := true]> (master_tells_core_to_start g)) (core_mains g) g) [] (Done tt).

(** The loop that ends with the processor booted (true) or the timeout finished (false). *)
Fixpoint boot_loop (n : nat) (core_id : Z) : A bool :=
  match n with
  | O => stop Spinning
  | S n =>
      with_pit running;;
      booted ← read_booted core_id;
      if (booted : bool) then tell_to_start core_id;; mret true else
      over ← read_finished;
      if (over : bool) then mret false else boot_loop n core_id
  end.

(** The rounds of the long poll, [n] to go. *)
Fixpoint long_poll (n : nat) (i core_id : Z) : A error :=
  match n with
  | O =>
      kprintf "Boot timeout happened\n" [];;
      mret boot_core_timeout
  | S n =>
      pit_err ← with_pit (short_timeout_async DEBUG short_time finished false);
      if negb (pit_err =? 0) then
        kprintf "There was an error waiting for the short timeout (In Long Poll), i = %u\n" [PNum i];;
        mret bad_time
      else
      booted ← boot_loop wakeups core_id;
      if (booted : bool) then mret no_error else long_poll n (i + 1) core_id
  end.

(** [wake_core] from the first start-up command on: whether the processor boots in time, the second
    command and the long poll. *)
Definition after_sipi (core_id core_bootstrap : Z) (apic_err : error) : A error :=
  if negb (bool_decide (apic_err = no_error)) then mret apic_err else
  write_finished 0;;
  pit_err ← with_pit (short_timeout_async DEBUG one_ms finished true);
  if negb (pit_err =? 0) then
    kprintf "There was an error waiting for the short timeout\n" [];;
    mret bad_time
  else
  booted ← boot_loop wakeups core_id;
  if (booted : bool) then mret no_error else
  apic_err ← send_sipi core_id core_bootstrap;
  if negb (bool_decide (apic_err = no_error)) then mret apic_err else
  long_poll (Z.to_nat timeout_count) 0 core_id.

Definition wake_core (core_id core_bootstrap core_main : Z) : A error :=
  kprintf "Trying to wake %u\n" [PNum core_id];;
  apic_err ← send_init core_id;
  if negb (bool_decide (apic_err = no_error)) then mret apic_err else
  kprintf "Core main = %h\n" [PNum core_main];;
  mains ← gets core_mains;
  read_cell (mains !! Z.to_nat core_id);;
  modify (fun g => set_cores (master_tells_core_to_start g) (<[Z.to_nat core_id := core_main]> (core_mains g)) g);;
  with_pit (wait DEBUG wakeups ten_ms);;
  apic_err ← send_sipi core_id core_bootstrap;
  after_sipi core_id core_bootstrap apic_err.

(** *** Waiting for an interrupt from another processor *)

(** [irq_save] and [irq_restore] of [multicore.h], of the flags the interrupt flag. *)
Definition irq_save : A bool := flag ← gets (fun g => interrupt_flag (of_pit g)); with_pit cli;; mret flag.
Definition irq_restore (flag : bool) : A unit :=
  with_pit (modify (fun p => set_processor flag (pit_pending p) p)).

(** The senders from [sender_id] on, [n] to go: whether one sent the interrupt.  The lock is
    released only where it did. *)
Fixpoint check_senders (n : nat) (core_id sender_id interrupt_vector : Z) : A bool :=
  match n with
  | O => mret false
  | S n =>
      lock_received;;
      t ← gets last_interrupt_received;
      lir ← read_cell (received t core_id sender_id);
      if lir =? interrupt_vector then
        store_received core_id sender_id NO_INTERRUPT;;
        unlock_received;;
        mret true
      else check_senders n core_id (sender_id + 1) interrupt_vector
  end.

(** The senders store the vectors before they send. *)
Definition others_send (core_id : Z) : A unit := fun d g =>
  let '(sent, d) := sent_meanwhile d in
  Outcome d (set_received (foldl (fun t s => receive t core_id (fst s) (snd s)) (last_interrupt_received g) sent)
    (last_interrupt_received_spin_lock g) g) [] (Done tt).

Fixpoint halt_till_sent (n : nat) (core_id interrupt_vector : Z) : A unit :=
  match n with
  | O => stop Spinning
  | S n =>
      with_pit hlt;;
      others_send core_id;;
      count ← gets runtime_core_count;
      sent ← check_senders (Z.to_nat count) core_id 0 interrupt_vector;
      if (sent : bool) then mret tt else halt_till_sent n core_id interrupt_vector
  end.

Definition wait_till_interrupt (interrupt_vector : Z) : A unit :=
  assert_handler_fmt (negb (interrupt_vector =? NO_INTERRUPT))
    "make no sense to wait for a never interrupt\n" [];;
  core_id ← get_core_id_fast;
  flags ← irq_save;
  with_pit sti;;
  halt_till_sent wakeups core_id interrupt_vector;;
  irq_restore flags.
End apic.
