(* ===== verification/ApicFacts.v ===== *)
(** * Facts about the local APIC driver

    The commands that are sent, waking a processor, waiting for an interrupt and the registers of
    the APIC as a whole. *)

From stdpp Require Import gmap.
From S2P Require Import Prelude Machine BitStruct StringHelper Terminal BitHex FloatText Lapic Pit PitFacts.
From S2P Require Import Phys Processor Cpuid CpuidFacts ControlRegisters ControlRegistersFacts Apic.

(** ** Command words *)

Definition ICR_HIGH : Z := 0xFEE00310.
Definition ICR_LOW : Z := 0xFEE00300.

Lemma ipi_word v : is_u8 v ->
  icr_low_raw (icr_command v delivery_mode.fixed level.assert trigger_mode.edge) = 0x4000 + v.
Proof.
  intros Hv. unfold is_u8 in Hv. unfold icr_low_raw, icr_command.
  cbn [icr_low_widths icr_low_fields zip zip_with pack icr_vector_number icr_delivery_mode
    icr_destination_mode delivery_status_pending_ro icr_reserved icr_level icr_trigger_mode
    icr_remote_read_status icr_destination_type icr_reserved3].
  rewrite (Z.mod_small v) by lia.
  match goal with |- v + 2 ^ 8 * ?x = _ => replace x with 64 by reflexivity end. lia.
Qed.

Lemma sipi_word v : is_u8 v ->
  icr_low_raw (icr_command v delivery_mode.start_up level.assert trigger_mode.edge) = 0x4600 + v.
Proof.
  intros Hv. unfold is_u8 in Hv. unfold icr_low_raw, icr_command.
  cbn [icr_low_widths icr_low_fields zip zip_with pack icr_vector_number icr_delivery_mode
    icr_destination_mode delivery_status_pending_ro icr_reserved icr_level icr_trigger_mode
    icr_remote_read_status icr_destination_type icr_reserved3].
  rewrite (Z.mod_small v) by lia.
  match goal with |- v + 2 ^ 8 * ?x = _ => replace x with 70 by reflexivity end. lia.
Qed.

Definition INIT : Z := 0x4500.
Definition INIT_DEASSERT : Z := 0x8500.
Definition SIPI (core_bootstrap : Z) : Z := 0x4600 + core_bootstrap / 0x1000.

Lemma high_word id : 0 <= id <= 15 -> icr_high_raw id = id * 2 ^ 24.
Proof. intros Hi. unfold icr_high_raw. cbn [pack]. rewrite !Z.mod_0_l, (Z.mod_small id) by lia. lia. Qed.

(** ** The commands of a run

    A command is the two writes of [send_command]; a script is what is still allowed to be
    written to the command registers, in order. *)
Definition command (core_id low : Z) : list (Z * Z) := [(ICR_HIGH, core_id * 2 ^ 24); (ICR_LOW, low)].

Definition is_icr (a : Z) : bool := (a =? ICR_HIGH) || (a =? ICR_LOW).
Definition icr (es : list event) : list (Z * Z) :=
  omap (fun e => match e with EWrite a v => if is_icr a then Some (a, v) else None | _ => None end) es.

Definition script : monitor := Monitor (list (Z * Z)) (fun e s =>
  match e with
  | EWrite a v =>
      if is_icr a then
        match s with (a', v') :: s => if (a =? a') && (v =? v') then Some s else None | [] => None end
      else Some s
  | _ => Some s
  end).

(** An accepted run wrote the script up to what is left of it. *)
Lemma script_accepts es s s' : mo_run script es s = Some s' -> s = icr es ++ s'.
Proof.
  revert s. induction es as [|e es IH]; intros s; cbn; [by intros [= ->]|].
  destruct e as [ | | |a v| | ]; cbn; try apply IH. destruct (is_icr a); [|apply IH].
  destruct s as [|[a' v'] s]; [done|].
  destruct (Z.eqb_spec a a') as [<-|]; [|done]. destruct (Z.eqb_spec v v') as [<-|]; [|done].
  cbn. intros Hr. by rewrite (IH _ Hr) at 1.
Qed.

(** Events that are no command. *)
Definition no_command (e : event) : Prop := match e with EWrite a _ => is_icr a = false | _ => True end.
Lemma no_command_ignored e (s : mo_state script) : no_command e -> mo_step script e s = Some s.
Proof. destruct e; cbn; try done. by intros ->. Qed.

Section pit_quiet.
Context {D : Type} `{PortDevice D} `{RegisterDevice D} `{Interrupts D} (DEBUG : bool) (wakeups : nat).
Local Abbreviation P A := (M D pit_globals A).

(** The timer's code sends no command, whatever the machine does. *)
Lemma eoi_quiet {G} : emits (D:=D) (G:=G) no_command lapic_send_eoi.
Proof. by apply emits_mmio_write. Qed.
Lemma interrupt_quiet : emits no_command (pit_interrupt : P unit).
Proof.
  unfold pit_interrupt. apply emits_bind; [apply emits_gets|]. intros q. apply emits_if.
  - apply emits_bind; [apply emits_modify|]. intros _. apply eoi_quiet.
  - unfold pit_interrupt_handler. apply emits_bind; [apply emits_gets|]. intros m.
    apply emits_bind; [destruct m; [apply emits_ret|by apply emits_emit]|]. intros _.
    apply emits_bind; [apply emits_modify|]. intros _. apply emits_bind; [apply emits_get|]. intros g.
    apply emits_bind; [apply emits_cell|]. intros a. apply emits_bind; [|intros _].
    + apply emits_if; [|apply emits_ret]. apply emits_bind; [apply emits_cell|]. intros v. apply emits_put.
    + apply emits_bind; [apply emits_modify|]. intros _. apply eoi_quiet.
Qed.
#[local] Hint Resolve interrupt_quiet : emits.
Lemma take_pending_quiet : emits no_command (take_pending : P bool).
Proof. unfold take_pending. emits_steps. Qed.
#[local] Hint Resolve take_pending_quiet : emits.
Lemma arrives_quiet i : emits no_command (arrives i : P unit).
Proof. destruct i; cbn [arrives]; emits_steps. Qed.
#[local] Hint Resolve arrives_quiet : emits.
Lemma running_quiet : emits no_command (running : P unit).
Proof.
  unfold running. apply emits_bind; [apply take_pending_quiet|]. intros t. apply emits_if; [apply emits_ret|].
  apply emits_bind; [intros d g; by destruct (passing d)|]. intros [i|]; [apply arrives_quiet|apply emits_ret].
Qed.
#[local] Hint Resolve running_quiet : emits.
Lemma hlt_quiet : emits no_command (hlt : P unit).
Proof.
  unfold hlt. apply emits_bind; [by apply emits_emit|]. intros _.
  apply emits_bind; [apply take_pending_quiet|]. intros t. apply emits_if; [apply emits_ret|].
  apply emits_bind; [apply emits_gets|]. intros f. apply emits_if; [apply emits_stop|].
  apply emits_bind; [intros d g; by destruct (next_interrupt d)|].
  intros [i|]; [apply arrives_quiet|apply emits_stop].
Qed.
#[local] Hint Resolve hlt_quiet : emits.
Lemma program_quiet mode count : emits no_command (program_count DEBUG mode count : P unit).
Proof. unfold program_count, set_operation_mode, send_command_to_pit, set_pit_count, send_byte_to_pit, cli. emits_steps. Qed.
#[local] Hint Resolve program_quiet : emits.
Lemma halt_loop_quiet n : emits no_command (halt_loop n : P unit).
Proof. induction n as [|n IH]; cbn [halt_loop]; unfold sti; emits_steps. Qed.
#[local] Hint Resolve halt_loop_quiet : emits.
Lemma wait_quiet seconds : emits no_command (wait DEBUG wakeups seconds : P Z).
Proof.
  unfold wait, wait_lte_one_cycle, send_wait_count_command, start_loop_wait, wait_till_pit_interrupt.
  emits_steps.
Qed.
Lemma short_timeout_quiet seconds f n : emits no_command (short_timeout_async DEBUG seconds f n : P Z).
Proof. unfold short_timeout_async, send_wait_count_command. emits_steps. Qed.
End pit_quiet.

#[export] Hint Resolve wait_quiet short_timeout_quiet running_quiet hlt_quiet : emits.

Section apic.
Context {D : Type} `{PortDevice D} `{RegisterDevice D} `{Interrupts D} `{Processor D} `{OtherCores D}.
Context (DEBUG : bool) (wakeups : nat) (finished : Z).
Local Abbreviation A T := (M D apic_globals T).

(** ** Which commands are sent *)

Lemma poll_quiet : emits no_command (poll : A bool).
Proof.
  unfold poll. induction (Z.to_nat TIMEOUT_IPI_PENDING) as [|n IH]; cbn [poll_pending]; [apply emits_ret|].
  apply emits_bind; [by apply emits_mmio_read|]. intros w. apply emits_if; [apply emits_ret|exact IH].
Qed.
#[local] Hint Resolve poll_quiet : emits.

Lemma boot_loop_quiet n core_id : emits no_command (boot_loop finished n core_id : A bool).
Proof.
  induction n as [|n IH]; cbn [boot_loop]; [apply emits_stop|].
  apply emits_bind; [apply emits_zoom, running_quiet|]. intros _.
  apply emits_bind; [unfold read_booted; apply emits_if; [intros d g; by destruct (core_has_booted core_id d)|apply emits_stop]|].
  intros b. apply emits_if; [unfold tell_to_start; emits_steps|].
  apply emits_bind; [unfold read_finished; emits_steps|]. intros o. by apply emits_if; [apply emits_ret|].
Qed.

Lemma long_poll_quiet n i core_id : emits no_command (long_poll DEBUG wakeups finished n i core_id : A error).
Proof.
  revert i. induction n as [|n IH]; intros i; cbn [long_poll]; [emits_steps|].
  apply emits_bind; [apply emits_zoom, short_timeout_quiet|]. intros e. apply emits_if; [emits_steps|].
  apply emits_bind; [apply boot_loop_quiet|]. intros b. apply emits_if; [apply emits_ret|apply IH].
Qed.

(** Code that sends nothing leaves the script alone. *)
Lemma quiet_script {T} (m : A T) (pre : list (Z * Z) -> Prop) : emits no_command m ->
  monitored script pre m (fun _ => pre).
Proof. intros Hm. by eapply monitored_ignored; [|apply no_command_ignored]. Qed.

Lemma send_command_script low core_id rest : 0 <= core_id <= 15 -> is_u32 low ->
  monitored (D:=D) (G:=apic_globals) script (fun s => s = command core_id low ++ rest)
    (send_command low (icr_high_raw core_id)) (fun _ s => s = rest).
Proof.
  intros Hi Hl. rewrite (high_word core_id Hi). unfold send_command.
  change (register lapic_registers_offset.command_high) with ICR_HIGH.
  change (register lapic_registers_offset.command_low) with ICR_LOW.
  apply (monitored_bind script _ _ _ (fun _ s => s = (ICR_LOW, low) :: rest));
    [apply monitored_mmio_write|intros []; apply monitored_mmio_write]; intros s ->.
  - exists ((ICR_LOW, low) :: rest). split; [|done]. unfold u32. rewrite Z.mod_small by lia.
    cbn -[Z.mul]. by rewrite Z.eqb_refl.
  - exists rest. split; [|done]. unfold u32. rewrite Z.mod_small by exact Hl. cbn. by rewrite Z.eqb_refl.
Qed.

Lemma send_init_script core_id rest : 0 <= core_id <= 15 ->
  monitored script (fun s => s = command core_id INIT ++ command core_id INIT_DEASSERT ++ rest)
    (send_init DEBUG wakeups core_id : A error)
    (fun e s => (e = no_error /\ s = rest) \/ e = timeout_sending_ipi).
Proof.
  intros Hi. unfold send_init.
  eapply monitored_bind; [apply quiet_script; emits_steps|]. intros [].
  eapply monitored_bind; [by apply send_command_script|]. intros [].
  eapply monitored_bind; [apply quiet_script, poll_quiet|]. intros [|]; cbn [negb]; [|apply monitored_ret; by right].
  eapply monitored_bind; [apply quiet_script, emits_zoom, wait_quiet|]. intros w.
  eapply monitored_bind; [by apply send_command_script|]. intros [].
  eapply monitored_bind; [apply quiet_script, poll_quiet|]. intros [|]; apply monitored_ret; [by left|by right].
Qed.

Lemma send_sipi_script core_id core_bootstrap rest : 0 <= core_id <= 15 -> 0 <= core_bootstrap < 0xFF000 ->
  monitored script (fun s => s = command core_id (SIPI core_bootstrap) ++ rest)
    (send_sipi core_id core_bootstrap : A error)
    (fun e s => s = rest /\ (e = no_error \/ e = timeout_sending_ipi)).
Proof.
  intros Hi Hb. unfold send_sipi.
  assert (Hp : 0 <= core_bootstrap / 0x1000 < 0xFF).
  { split; [apply Z.div_pos; lia|apply Z.div_lt_upper_bound; lia]. }
  do 4 (eapply monitored_bind; [apply quiet_script; emits_steps|]; intros []).
  unfold u8. rewrite Z.mod_small by lia. rewrite sipi_word by (unfold is_u8; lia).
  eapply monitored_bind; [apply send_command_script; [done|unfold is_u32; lia]|]. intros [].
  eapply monitored_bind; [apply quiet_script, poll_quiet|]. intros a.
  apply monitored_ret. intros s ->. destruct a; auto.
Qed.

(** The commands that wake a processor: INIT, its deassertion, one or two start-up commands. *)
Definition wake_script (core_id core_bootstrap : Z) : list (Z * Z) :=
  command core_id INIT ++ command core_id INIT_DEASSERT ++ command core_id (SIPI core_bootstrap) ++
  command core_id (SIPI core_bootstrap).

Lemma wake_after_sipi core_id core_bootstrap e : 0 <= core_id <= 15 -> 0 <= core_bootstrap < 0xFF000 ->
  monitored script (fun s => s = command core_id (SIPI core_bootstrap) /\ (e = no_error \/ e = timeout_sending_ipi))
    (after_sipi DEBUG wakeups finished core_id core_bootstrap e : A error) (fun e s =>
      (e = boot_core_timeout -> s = []) /\
      (e = no_error -> s = [] \/ s = command core_id (SIPI core_bootstrap))).
Proof.
  intros Hi Hb. unfold after_sipi.
  destruct (decide (e = no_error)) as [->|He]; [rewrite bool_decide_eq_true_2 by done
    |rewrite bool_decide_eq_false_2 by done]; cbn [negb].
  2:{ apply monitored_ret. by intros s [_ [?| ->]]. }
  eapply monitored_bind; [apply quiet_script; unfold write_finished; emits_steps|]. intros [].
  eapply monitored_bind; [apply quiet_script, emits_zoom, short_timeout_quiet|]. intros v.
  destruct (negb (v =? 0)).
  { eapply monitored_bind; [apply quiet_script; emits_steps|]. intros []. by apply monitored_ret. }
  eapply monitored_bind; [apply quiet_script, boot_loop_quiet|]. intros [|].
  { apply monitored_ret. intros s [-> _]. by split; [|right]. }
  eapply monitored_bind.
  { eapply monitored_weaken; [by apply (send_sipi_script core_id core_bootstrap []) | |intros a s HQ; exact HQ].
    intros s [-> _]. by rewrite app_nil_r. }
  intros e. cbn beta.
  destruct (decide (e = no_error)) as [->|He]; [rewrite bool_decide_eq_true_2 by done
    |rewrite bool_decide_eq_false_2 by done]; cbn [negb].
  2:{ apply monitored_ret. by intros s [_ [?| ->]]. }
  eapply monitored_weaken; [apply quiet_script, long_poll_quiet|intros s HQ; exact HQ|].
  intros a s [-> _]. by split; [|left].
Qed.

(** C13: Whatever the machine does and however the call ends, [wake_core] writes a beginning of that
    script and nothing else to the command registers; the whole script when it reports that the
    processor did not boot, all but the second start-up command at least when it succeeds. *)
Theorem wake_core_commands d g core_id core_bootstrap core_main : 0 <= core_id <= 15 ->
  0 <= core_bootstrap < 0xFF000 ->
  let r := (wake_core DEBUG wakeups finished core_id core_bootstrap core_main : A error) d g in
  exists rest, wake_script core_id core_bootstrap = icr (o_events r) ++ rest /\
    (o_exit r = Done boot_core_timeout -> rest = []) /\
    (o_exit r = Done no_error -> rest = [] \/ rest = command core_id (SIPI core_bootstrap)).
Proof.
  intros Hi Hb r.
  assert (Hm : monitored script (fun s => s = wake_script core_id core_bootstrap)
    (wake_core DEBUG wakeups finished core_id core_bootstrap core_main : A error) (fun e s =>
      (e = boot_core_timeout -> s = []) /\
      (e = no_error -> s = [] \/ s = command core_id (SIPI core_bootstrap)))).
  { unfold wake_core, wake_script.
    eapply monitored_bind; [apply quiet_script; emits_steps|]. intros [].
    eapply monitored_bind; [by apply send_init_script|]. intros e.
    destruct (decide (e = no_error)) as [->|He]; [rewrite bool_decide_eq_true_2 by done
      |rewrite bool_decide_eq_false_2 by done]; cbn [negb].
    2:{ apply monitored_ret. intros s [[? _]| ->]; done. }
    eapply (monitored_weaken script _ (fun s => s = command core_id (SIPI core_bootstrap) ++
      command core_id (SIPI core_bootstrap))); [|by intros s [[_ HQ]|]|intros a s HQ; exact HQ].
    eapply monitored_bind; [apply quiet_script; emits_steps|]. intros [].
    eapply monitored_bind; [apply quiet_script; emits_steps|]. intros mains.
    eapply monitored_bind; [apply quiet_script; emits_steps|]. intros m.
    eapply monitored_bind; [apply quiet_script; emits_steps|]. intros [].
    eapply monitored_bind; [apply quiet_script, emits_zoom, wait_quiet|]. intros w.
    eapply monitored_bind; [by apply send_sipi_script|]. intros e.
    by apply wake_after_sipi. }
  destruct (Hm d g _ eq_refl) as (rest & Hr & Hp). exists rest.
  split; [by apply script_accepts|]. split; intros He; by apply (Hp _ He).
Qed.

(** ** A processor that does not boot *)

(** With the processor's interrupts off, running code changes neither that nor the words. *)
Lemma running_off p : interrupt_flag p = false ->
  returning (running : M D pit_globals unit) p (fun _ p' => interrupt_flag p' = false /\ words p' = words p).
Proof.
  intros Hf. unfold running.
  eapply (returning_bind _ _ _ (fun t p' => t = false /\ p' = p)).
  { unfold take_pending. eapply returning_bind; [apply returning_get|]. intros a p' [-> ->]. rewrite Hf.
    by apply returning_ret. }
  intros t p' [-> ->].
  eapply (returning_bind _ _ _ (fun _ p' => p' = p)).
  { intros d a. destruct (passing d). by intros _. }
  intros [[|]|] p' ->; [|by apply returning_ret..].
  cbn [arrives]. eapply returning_bind; [apply returning_gets|]. intros a p' [-> ->]. rewrite Hf.
  eapply returning_weaken; [apply returning_modify|]. by intros _ p' ->.
Qed.

Lemma program_count_off mode count p : returning (program_count DEBUG mode count : M D pit_globals unit) p
  (fun _ p' => interrupt_flag p' = false /\ words p' = words p).
Proof.
  unfold program_count, set_operation_mode, send_command_to_pit, set_pit_count, send_byte_to_pit, cli.
  eapply (returning_bind _ _ _ (fun _ p' => p' = p)).
  { destruct DEBUG; [|by apply returning_ret]. eapply returning_weaken; [apply returning_assert|]. by intros _ p' [_ ->]. }
  intros [] p' ->. eapply returning_bind; [apply returning_outb|]. intros [] p' ->.
  eapply (returning_bind _ _ _ (fun _ p' => interrupt_flag p' = false /\ words p' = words p)).
  { eapply returning_bind; [apply returning_emit|]. intros [] p' ->.
    eapply returning_weaken; [apply returning_modify|]. by intros _ p' ->. }
  intros [] p1 Hp1. eapply returning_bind; [apply returning_outb|]. intros [] p' ->.
  eapply returning_weaken; [apply returning_outb|]. by intros _ p' ->.
Qed.

(** A new timeout leaves its word clear and the interrupts off, however it ends. *)
Lemma short_timeout_off seconds p : SFleb seconds (S754_zero false) = false ->
  (exists r, compute_pit_wait seconds max_single_wait MAX_FREQ_DIVIDER = Some (mk_split 0 r)) ->
  returning (short_timeout_async DEBUG seconds finished true : M D pit_globals Z) p
    (fun v p' => v = 0 /\ interrupt_flag p' = false /\ words p' !! finished = Some 0).
Proof.
  intros Hs [r Hr]. unfold short_timeout_async. rewrite Hs, Hr.
  eapply (returning_bind _ _ _ (fun sp p' => sp = mk_split 0 r /\ p' = p)); [by apply returning_ret|].
  intros sp p' [-> ->]. cbn [full_cycles Z.gtb Z.compare reminder_pit_count].
  eapply (returning_bind _ _ _ (fun _ p' => words p' !! finished = Some 0)).
  { eapply returning_bind; [apply returning_gets|]. intros i p' [-> ->].
    eapply returning_bind; [apply returning_assert|]. intros [] p' [_ ->].
    eapply returning_weaken; [apply returning_modify|]. intros _ p' ->. cbn. apply lookup_insert_eq. }
  intros [] p1 Hp1. eapply returning_bind; [apply program_count_off|]. intros [] p2 [Hf Hw].
  apply returning_ret. by rewrite Hw.
Qed.

(** The loop that waits for the processor does not end by the timeout. *)
Lemma boot_loop_stuck n core_id g : (forall d, fst (core_has_booted core_id d) = false) ->
  interrupt_flag (of_pit g) = false -> words (of_pit g) !! finished = Some 0 ->
  returning (boot_loop finished n core_id : A bool) g (fun _ _ => False).
Proof.
  intros Hb. revert g. induction n as [|n IH]; intros g Hf Hw; cbn [boot_loop]; [by apply returning_stop|].
  eapply returning_bind; [eapply returning_zoom, returning_weaken; [by apply running_off|]|].
  { intros a p' Hp. instantiate (1 := fun _ g' => interrupt_flag (of_pit g') = false /\
      words (of_pit g') = words (of_pit g)). exact Hp. }
  intros [] g1 [Hf1 Hw1].
  eapply (returning_bind _ _ _ (fun b g' => b = false /\ g' = g1)).
  { unfold read_booted. destruct (core_id <? MAX_CORE_COUNT); [|by apply returning_stop].
    intros d a. specialize (Hb d). destruct (core_has_booted core_id d) as [b d']. cbn in *. by intros [= <-]. }
  intros b g2 [-> ->].
  eapply (returning_bind _ _ _ (fun o g' => o = false /\ g' = g1)).
  { unfold read_finished. eapply returning_bind; [apply returning_get|]. intros a g' [-> ->].
    eapply returning_bind; [apply returning_cell|]. intros v g' [Hv ->].
    rewrite Hw1, Hw in Hv. injection Hv as <-. by apply returning_ret. }
  intros o g3 [-> ->]. apply IH; [exact Hf1|]. by rewrite Hw1.
Qed.

Lemma returning_any {T} (m : A T) g : returning m g (fun _ _ => True).
Proof. by intros d a _. Qed.

Lemma send_init_errors core_id g : returning (send_init DEBUG wakeups core_id : A error) g
  (fun e _ => e = no_error \/ e = timeout_sending_ipi).
Proof.
  unfold send_init. do 2 (eapply returning_bind; [apply returning_any|]; intros [] ? _).
  eapply returning_bind; [apply returning_any|]. intros [|] ? _; cbn [negb]; [|apply returning_ret; by right].
  do 2 (eapply returning_bind; [apply returning_any|]; intros ? ? _).
  eapply returning_bind; [apply returning_any|]. intros [|] ? _; apply returning_ret; auto.
Qed.

Lemma send_sipi_errors core_id core_bootstrap g : returning (send_sipi core_id core_bootstrap : A error) g
  (fun e _ => e = no_error \/ e = timeout_sending_ipi).
Proof.
  unfold send_sipi. do 5 (eapply returning_bind; [apply returning_any|]; intros [] ? _).
  eapply returning_bind; [apply returning_any|]. intros [|] ? _; apply returning_ret; auto.
Qed.

(** C32: The timeout programs the timer with the interrupts of the processor off and nothing turns them
    on again: a processor that never boots is waited for for ever.  [boot_core_timeout] is never
    reported; a call that returns has failed to send a command. *)
Theorem wake_core_never_times_out d g core_id core_bootstrap core_main :
  (forall d, fst (core_has_booted core_id d) = false) ->
  match o_exit ((wake_core DEBUG wakeups finished core_id core_bootstrap core_main : A error) d g) with
  | Done e => e = timeout_sending_ipi
  | _ => True
  end.
Proof.
  intros Hb. cut (returning (wake_core DEBUG wakeups finished core_id core_bootstrap core_main : A error) g
    (fun e _ => e = timeout_sending_ipi)).
  { intros Hr. specialize (Hr d). destruct (o_exit _) as [e| | |]; [by apply Hr|done..]. }
  unfold wake_core. eapply returning_bind; [apply returning_any|]. intros [] ? _.
  eapply returning_bind; [apply send_init_errors|]. intros e1 ? [-> | ->]; [|by apply returning_ret].
  rewrite bool_decide_eq_true_2 by done. cbn [negb].
  eapply returning_bind; [apply returning_any|]. intros [] ? _.
  eapply returning_bind; [apply returning_any|]. intros mains ? _.
  eapply returning_bind; [apply returning_any|]. intros m ? _.
  eapply returning_bind; [apply returning_any|]. intros [] ? _.
  eapply returning_bind; [apply returning_any|]. intros w ? _.
  eapply returning_bind; [apply send_sipi_errors|]. intros e2 g2 [-> | ->]; [|by apply returning_ret].
  unfold after_sipi. rewrite bool_decide_eq_true_2 by done. cbn [negb].
  eapply returning_bind; [apply returning_any|]. intros [] g3 _.
  eapply (returning_bind _ _ _ (fun v g' => v = 0 /\ interrupt_flag (of_pit g') = false /\
    words (of_pit g') !! finished = Some 0)).
  { apply returning_zoom. eapply returning_weaken.
    - apply short_timeout_off; [done|]. exists 65. by vm_compute.
    - intros v p' Hp. exact Hp. }
  intros v g4 (-> & Hf & Hw). cbn [Z.eqb negb].
  eapply returning_bind; [by apply boot_loop_stuck|]. by intros b g5 [].
Qed.

(** ** Waiting for an interrupt *)

(** A sender whose interrupt is not the one waited for leaves the lock taken; the next look at a
    sender is never over. *)
Lemma check_senders_locked n core_id sender_id v g : last_interrupt_received_spin_lock g <> 0 -> (0 < n)%nat ->
  returning (check_senders n core_id sender_id v : A bool) g (fun _ _ => False).
Proof.
  intros Hl Hn. destruct n as [|n]; [lia|]. cbn [check_senders].
  apply (returning_bind _ _ _ (fun _ _ => False)); [|by intros ? ? []].
  unfold lock_received. eapply returning_bind; [apply returning_gets|]. intros l g' [-> ->].
  rewrite (proj2 (Z.eqb_neq _ 0) Hl). by apply returning_stop.
Qed.

Lemma check_senders_first n core_id sender_id v g : received (last_interrupt_received g) core_id sender_id <> Some v ->
  returning (check_senders (S n) core_id sender_id v : A bool) g (fun b g' =>
    b = false /\ n = O /\ last_interrupt_received_spin_lock g' <> 0).
Proof.
  intros Hv. cbn [check_senders]. eapply (returning_bind _ _ _ (fun _ g' =>
    last_interrupt_received g' = last_interrupt_received g /\ last_interrupt_received_spin_lock g' = 1)).
  { unfold lock_received. eapply returning_bind; [apply returning_gets|]. intros l g' [-> ->].
    destruct (_ =? 0); [|by apply returning_stop]. eapply returning_weaken; [apply returning_modify|].
    by intros _ g' ->. }
  intros [] g1 [Ht Hl]. eapply returning_bind; [apply returning_gets|]. intros t g' [-> ->].
  eapply returning_bind; [apply returning_cell|]. intros lir g' [Hr ->]. rewrite Ht in Hr.
  destruct (Z.eqb_spec lir v) as [->|]; [by destruct Hv|].
  destruct n as [|n].
  - apply returning_ret. rewrite Hl. done.
  - eapply returning_weaken; [apply check_senders_locked; [by rewrite Hl|lia]|]. by intros.
Qed.

Lemma received_other t i j w : 0 < j -> received (receive t i j w) i 0 = received t i 0.
Proof.
  intros Hj. unfold received, receive. rewrite list_lookup_alter_eq.
  destruct (t !! Z.to_nat i) as [row|]; [|done]. cbn. rewrite list_lookup_insert_ne by lia. done.
Qed.

(** Nothing that happens while the processor is halted concerns sender 0 or the lock. *)
Definition not_from_0 (core_id v : Z) (g : apic_globals) : Prop :=
  last_interrupt_received_spin_lock g <> 0 \/ received (last_interrupt_received g) core_id 0 <> Some v.

Lemma others_send_not_from_0 core_id v g : (forall d, Forall (fun s => 0 < fst s) (fst (sent_meanwhile d))) ->
  not_from_0 core_id v g -> returning (others_send core_id : A unit) g (fun _ g' => not_from_0 core_id v g').
Proof.
  intros Ho Hn d a. specialize (Ho d). unfold others_send. destruct (sent_meanwhile d) as [sent d'].
  intros _. cbn in *. destruct Hn as [Hl|Hv]; [by left|right]. cbn.
  revert Hv. generalize (last_interrupt_received g). induction Ho as [|s sent Hs Ho IH]; intros t Hv; [exact Hv|].
  cbn. apply IH. by rewrite received_other.
Qed.

(** C34: [wait_till_interrupt] notices an interrupt of processor 0 only: when all that arrive are sent
    by others, it does not return, whatever they send. *)
Theorem wait_till_interrupt_only_from_0 d g v :
  (forall d, Forall (fun s => 0 < fst s) (fst (sent_meanwhile d))) ->
  (forall i, received (last_interrupt_received g) i 0 <> Some v) ->
  forall a, o_exit ((wait_till_interrupt wakeups v : A unit) d g) <> Done a.
Proof.
  intros Ho Hv a Ha.
  assert (Hloop : forall core_id n g, not_from_0 core_id v g ->
    returning (halt_till_sent n core_id v : A unit) g (fun _ _ => False)).
  { intros core_id n. induction n as [|n IH]; intros g0 Hg; cbn [halt_till_sent]; [by apply returning_stop|].
    apply (returning_bind _ _ _ (fun _ g' => not_from_0 core_id v g')).
    { apply returning_zoom. intros d0 a0 _. exact Hg. }
    intros [] g1 Hg1. eapply returning_bind; [by apply others_send_not_from_0|]. intros [] g2 Hg2.
    eapply returning_bind; [apply returning_gets|]. intros count g' [-> ->].
    apply (returning_bind _ _ _ (fun b g' => b = false /\ not_from_0 core_id v g')).
    - destruct (Z.to_nat (runtime_core_count g2)) as [|m]; [by apply returning_ret|].
      destruct Hg2 as [Hl|Hr].
      + eapply returning_weaken; [apply check_senders_locked; [exact Hl|lia]|]. by intros.
      + eapply returning_weaken; [by apply check_senders_first|]. intros b g3 (-> & _ & Hl). split; [done|by left].
    - intros b g3 [-> Hg3]. by apply IH. }
  cut (returning (wait_till_interrupt wakeups v : A unit) g (fun _ _ => False)).
  { intros Hr. exact (Hr d a Ha). }
  unfold wait_till_interrupt. eapply returning_bind; [apply returning_assert|]. intros [] g' [_ ->].
  apply (returning_bind _ _ _ (fun _ g' => g' = g)).
  { unfold get_core_id_fast. apply (returning_bind _ _ _ (fun _ g' => g' = g)); [by intros d0 i _|].
    intros i g' ->. by apply returning_ret. }
  intros core_id g' ->.
  apply (returning_bind _ _ _ (fun _ g' => not_from_0 core_id v g')).
  { intros d0 flag _. right. apply Hv. }
  intros flag g1 Hg1. apply (returning_bind _ _ _ (fun _ g' => not_from_0 core_id v g')).
  { apply returning_zoom. intros d0 a0 _. exact Hg1. }
  intros [] g2 Hg2. eapply returning_bind; [by apply Hloop|]. by intros ? ? [].
Qed.

(** ** The APIC as a whole *)

Lemma processor_info_exit d g : 1 <= max_cpuid_command (of_cpuid g) ->
  (with_cpuid (call_cpuid DEBUG ProcessorInfo 0) : A _) d g =
    Outcome d (set_cpuid (of_cpuid g) g) [ECall "cpuid" [1; 0]] (Done (mk_result (cut_regs (cpuid_in 1 0 d)) none)).
Proof. intros Hm. unfold with_cpuid, zoom. by rewrite processor_info_run. Qed.

(** [has_apic] reads the flag of the APIC at its bit, but those of x2APIC and of the deadline mode
    one bit too high: what it returns are the flags of [movbe] and [aes]. *)
Theorem has_apic_flags d g : 1 <= max_cpuid_command (of_cpuid g) ->
  let c := u32 (ecx (cpuid_in 1 0 d)) in
  let e := u32 (edx (cpuid_in 1 0 d)) in
  let r := (has_apic DEBUG : A _) d g in
  o_exit r = Done (mk_support (tests CPUID_FEAT_EDX "APIC" e) (tests CPUID_FEAT_ECX "MOVBE" c)
    (tests CPUID_FEAT_ECX "AES" c)) /\
  support_tsc_deadline (o_glob r) = tests CPUID_FEAT_ECX "AES" c.
Proof.
  intros Hm c e r. unfold r, has_apic. rewrite (bind_done _ _ _ _ _ _ _ _ (processor_info_exit d g Hm)).
  change (has_error _) with false. cbv zeta iota. cbn [o_exit o_glob o_dev o_events regs cut_regs ecx edx].
  fold c e.
  assert (Ha : negb (get_field cpuid_basic_edx "apic" e =? 0) = tests CPUID_FEAT_EDX "APIC" e)
    by exact (flag_tests cpuid_basic_edx "apic" CPUID_FEAT_EDX "APIC" e 9 eq_refl eq_refl ltac:(lia)).
  assert (Hx : negb (get_field cpuid_basic_ecx "x2apic" c =? 0) = tests CPUID_FEAT_ECX "MOVBE" c)
    by exact (flag_tests cpuid_basic_ecx "x2apic" CPUID_FEAT_ECX "MOVBE" c 22 eq_refl eq_refl ltac:(lia)).
  assert (Ht : negb (get_field cpuid_basic_ecx "tsc_deadline" c =? 0) = tests CPUID_FEAT_ECX "AES" c)
    by exact (flag_tests cpuid_basic_ecx "tsc_deadline" CPUID_FEAT_ECX "AES" c 25 eq_refl eq_refl ltac:(lia)).
  rewrite Ha, Hx, Ht. split; reflexivity.
Qed.

(** The register of the base address with the page replaced. *)
Lemma msr_with_page w page : 0 <= page < 2 ^ 20 ->
  msr_eax_raw (mk_msr_eax (eax_reserved0 (msr_eax_of w)) (is_bootstrap_processor (msr_eax_of w))
    (eax_reserved1 (msr_eax_of w)) (Lapic.x2apic (msr_eax_of w)) (apic_enable (msr_eax_of w)) page) =
  w mod 2 ^ 12 + 2 ^ 12 * page.
Proof.
  intros Hp. unfold msr_eax_raw.
  assert (Hw : widths_ok [8; 1; 1; 1; 1]) by (apply (bool_decide_eq_true_1 _); by vm_compute).
  change (zip msr_eax_widths _) with (zip [8; 1; 1; 1; 1] (unpack [8; 1; 1; 1; 1] w) ++ [(20, page)]).
  rewrite pack_app by (exact Hw). rewrite pack_unpack by exact Hw.
  change (total_width (map fst (zip [8; 1; 1; 1; 1] (unpack [8; 1; 1; 1; 1] w)))) with 12.
  cbn [pack]. rewrite (Z.mod_small page) by lia. change (total_width [8; 1; 1; 1; 1]) with 12. lia.
Qed.

Lemma x2apic_bit w : (Lapic.x2apic (msr_eax_of w) =? 0) = negb (Z.testbit w 10).
Proof.
  change (Lapic.x2apic (msr_eax_of w)) with ((w / 2 ^ 8 / 2 ^ 1 / 2 ^ 1) mod 2 ^ 1).
  rewrite !Z.div_div by lia. change (w / _) with (w / 2 ^ 10). change (2 ^ 1) with 2.
  rewrite Z.testbit_eqb by lia. pose proof (Z.mod_pos_bound (w / 2 ^ 10) 2 ltac:(lia)).
  destruct (Z.eqb_spec ((w / 2 ^ 10) mod 2) 0), (Z.eqb_spec ((w / 2 ^ 10) mod 2) 1); try done; lia.
Qed.

Lemma page_of w : base_low_page_idx (msr_eax_of w) = (w / 2 ^ 12) mod 2 ^ 20.
Proof.
  change (base_low_page_idx (msr_eax_of w)) with ((w / 2 ^ 8 / 2 ^ 1 / 2 ^ 1 / 2 ^ 1 / 2 ^ 1) mod 2 ^ 20).
  rewrite !Z.div_div by lia. done.
Qed.

(** [set_base_address] takes every second page only: its mask is that of eight kilobytes.  A base
    it takes is written with the flags of the register kept, and read back from there. *)
Theorem base_address_set_and_read d g base : is_u32 base ->
  let lo := u32 (fst (msr_in apic_msr d)) in
  let hi := u32 (snd (msr_in apic_msr d)) in
  let r := (set_base_address base : A unit) d g in
  o_exit r = (if (base mod 2 ^ 13 =? 0) && negb (Z.testbit lo 10) then Done tt else Aborted) /\
  (o_exit r = Done tt -> exists es, o_events r = es ++ [ECall "wrmsr" [apic_msr; base + lo mod 2 ^ 12; hi]]) /\
  (forall d' hi', msr_in apic_msr d' = (base + lo mod 2 ^ 12, hi') -> base mod 2 ^ 12 = 0 ->
   o_exit ((get_base_address : A Z) d' g) = if Z.testbit lo 10 then Aborted else Done base).
Proof.
  intros Hb lo hi r. unfold is_u32 in Hb. pose proof (u32_range (fst (msr_in apic_msr d))) as Hlo.
  fold lo in Hlo. unfold is_u32 in Hlo. pose proof (Z.mod_pos_bound lo (2 ^ 12) ltac:(lia)).
  assert (Hmask : (base .& page_mask =? 0) = (base mod 2 ^ 13 =? 0)).
  { change page_mask with (Z.ones 13). by rewrite Z.land_ones by lia. }
  assert (Hread : (read_apic_msr : A _) d g =
    Outcome d g [ECall "rdmsr" [apic_msr; lo; hi]] (Done (msr_eax_of lo, hi))).
  { unfold read_apic_msr. rewrite (bind_done (read_msr apic_msr) _ d g d g
      [ECall "rdmsr" [apic_msr; lo; hi]] (lo, hi)); [done|].
    unfold read_msr, lo, hi. by destruct (msr_in apic_msr d). }
  assert (Hw : base mod 2 ^ 12 = 0 -> lo mod 2 ^ 12 + 2 ^ 12 * (base / 2 ^ 12) = base + lo mod 2 ^ 12).
  { intros Hm. pose proof (Z.div_mod base (2 ^ 12) ltac:(lia)). lia. }
  assert (Hbound : base mod 2 ^ 12 = 0 -> 0 <= base + lo mod 2 ^ 12 < 2 ^ 32).
  { intros Hm. pose proof (Z.div_mod base (2 ^ 12) ltac:(lia)). lia. }
  unfold r, set_base_address. rewrite Hmask. split; [|split].
  - destruct (base mod 2 ^ 13 =? 0); [|done]. rewrite (bind_done (assert_handler_fmt true _ _) _ d g d g [] tt) by done.
    rewrite (bind_done _ _ _ _ _ _ _ _ Hread), x2apic_bit. by destruct (Z.testbit lo 10).
  - destruct (base mod 2 ^ 13 =? 0) eqn:Em; [|done].
    rewrite (bind_done (assert_handler_fmt true _ _) _ d g d g [] tt) by done.
    rewrite (bind_done _ _ _ _ _ _ _ _ Hread), x2apic_bit. destruct (Z.testbit lo 10); [done|]. intros _.
    assert (Hm : base mod 2 ^ 12 = 0).
    { apply Z.eqb_eq in Em. apply Z.mod_divide in Em as [k Hk]; [|lia]. rewrite Hk.
      replace (k * 2 ^ 13) with (2 * k * 2 ^ 12) by lia. apply Z.mod_mul. lia. }
    exists [ECall "rdmsr" [apic_msr; lo; hi]]. unfold write_apic_msr.
    rewrite Z.shiftr_div_pow2 by lia.
    rewrite msr_with_page by (split; [apply Z.div_pos; lia|apply Z.div_lt_upper_bound; lia]).
    rewrite (Hw Hm). unfold write_msr. cbn -[Z.pow u32].
    rewrite (u32_small (base + _)), (u32_small hi) by (by apply Hbound || apply u32_range). done.
  - intros d' hi' Hd' Hm. unfold get_base_address, read_apic_msr, read_msr.
    rewrite (bind_done _ _ d' g d' g [ECall "rdmsr" [apic_msr; base + lo mod 2 ^ 12; u32 hi']]
      (msr_eax_of (base + lo mod 2 ^ 12), u32 hi')).
    2:{ unfold mbind, M_bind. rewrite Hd'. cbn -[msr_eax_of Z.pow u32]. unfold u32 at 1 2 3 4.
        rewrite (Z.mod_small (base + _)) by (by apply Hbound). done. }
    rewrite x2apic_bit.
    assert (Hbit : Z.testbit (base + lo mod 2 ^ 12) 10 = Z.testbit lo 10).
    { rewrite <- (Hw Hm), <- lor_shiftl_add by lia. rewrite Z.lor_spec, Z.shiftl_spec_low, orb_false_r by lia.
      by rewrite Z.mod_pow2_bits_low by lia. }
    rewrite Hbit. destruct (Z.testbit lo 10); [done|]. cbn -[base_low_page_idx msr_eax_of Z.pow u32]. do 2 f_equal.
    rewrite page_of, <- (Hw Hm), (Z.add_comm (lo mod 2 ^ 12)), (Z.mul_comm (2 ^ 12)), Z.div_add_l by lia.
    rewrite (Z.div_small (lo mod 2 ^ 12)), Z.add_0_r by lia.
    rewrite Z.mod_small by (split; [apply Z.div_pos|apply Z.div_lt_upper_bound]; lia).
    rewrite Z.shiftl_mul_pow2 by lia. pose proof (Z.div_mod base (2 ^ 12) ltac:(lia)).
    unfold u32. replace (base / 2 ^ 12 * 2 ^ 12) with base by lia. rewrite Z.mod_small by lia. done.
Qed.

(** ** Sending an interrupt *)

(** The words read from the command register. *)
Definition statuses (es : list event) : list Z :=
  omap (fun e => match e with ERead a v => if a =? ICR_LOW then Some v else None | _ => None end) es.
Definition pending (word : Z) : bool := negb (delivery_status_pending_ro (icr_low_of word) =? 0).

Lemma poll_pending_spec n g : ensures (poll_pending n : A bool) g (fun b g' es =>
  g' = g /\ icr es = [] /\
  if (b : bool) then exists ws w, statuses es = ws ++ [w] /\ forallb pending ws = true /\ pending w = false /\
    (length ws < n)%nat
  else length (statuses es) = n /\ forallb pending (statuses es) = true).
Proof.
  induction n as [|n IH]; cbn [poll_pending]; [by apply ensures_ret|].
  change (register lapic_registers_offset.command_low) with ICR_LOW.
  eapply ensures_bind; [apply ensures_mmio_read|]. intros w g' es (_ & -> & ->).
  destruct (delivery_status_pending_ro (icr_low_of w) =? 0) eqn:E.
  - apply ensures_ret. split; [done|]. split; [done|]. exists [], w. cbn. unfold pending. rewrite E. repeat split. lia.
  - eapply ensures_weaken; [exact IH|]. intros b g' es (-> & Hi & Hb). split; [done|]. split; [exact Hi|].
    assert (Hw : pending w = true) by (unfold pending; by rewrite E).
    change (statuses ([ERead ICR_LOW w] ++ es)) with (w :: statuses es).
    destruct b.
    + destruct Hb as (ws & w' & -> & Hp & Hw' & Hl). exists (w :: ws), w'. cbn [forallb length app].
      rewrite Hw, Hp. repeat split; [exact Hw'|lia].
    + destruct Hb as [Hl Hp]. cbn [length forallb]. rewrite Hw, Hp, Hl. done.
Qed.

Lemma send_command_yields low core_id g : 0 <= core_id <= 15 -> is_u32 low ->
  exists es, yields (send_command low (icr_high_raw core_id) : A unit) g tt g es /\
    icr es = command core_id low /\ statuses es = [].
Proof.
  intros Hi Hl. exists [EWrite ICR_HIGH (core_id * 2 ^ 24); EWrite ICR_LOW low]. split; [|done].
  unfold send_command. rewrite (high_word core_id Hi).
  change (register lapic_registers_offset.command_high) with ICR_HIGH.
  change (register lapic_registers_offset.command_low) with ICR_LOW.
  apply (yields_bind _ _ g tt g tt g [_] [_]).
  - pose proof (yields_mmio_write (D:=D) ICR_HIGH (core_id * 2 ^ 24) g) as E.
    rewrite u32_small in E by (unfold is_u32; lia). exact E.
  - pose proof (yields_mmio_write (D:=D) ICR_LOW low g) as E. by rewrite u32_small in E.
Qed.

Lemma icr_app es es' : icr (es ++ es') = icr es ++ icr es'.
Proof. apply omap_app. Qed.
Lemma statuses_app es es' : statuses (es ++ es') = statuses es ++ statuses es'.
Proof. apply omap_app. Qed.

(** The end of [send_ipi], with [n] looks at the register. *)
Lemma send_ipi_tail n core_id v g : 0 <= core_id <= 15 -> is_u8 v ->
  ensures (send_command (icr_low_raw (icr_command v delivery_mode.fixed level.assert trigger_mode.edge))
      (icr_high_raw core_id);;
    accepted ← poll_pending n;
    if (accepted : bool) then mret no_error else
    kprintf "Timed out waiting for sending ipi\n" [];;
    mret timeout_sending_ipi : A error) g (fun e g' es => g' = g /\ icr es = command core_id (0x4000 + v) /\
    match e with
    | no_error => exists ws w, statuses es = ws ++ [w] /\ forallb pending ws = true /\
        pending w = false /\ Z.of_nat (length ws) < Z.of_nat n
    | _ => e = timeout_sending_ipi /\ Z.of_nat (length (statuses es)) = Z.of_nat n /\
        forallb pending (statuses es) = true
    end).
Proof.
  intros Hi Hv. rewrite (ipi_word v Hv). unfold is_u8 in Hv.
  destruct (send_command_yields (0x4000 + v) core_id g Hi ltac:(unfold is_u32; lia)) as (es0 & Hy & Hi0 & Hs0).
  eapply ensures_step; [exact Hy|].
  eapply ensures_bind; [apply poll_pending_spec|]. intros b g' es (-> & Hi1 & Hb). destruct b.
  - apply ensures_ret. rewrite app_nil_r, icr_app, statuses_app, Hi0, Hi1, Hs0, app_nil_r. split; [done|].
    split; [done|]. destruct Hb as (ws & w & -> & Hp & Hw & Hn). exists ws, w. repeat split; try done. lia.
  - eapply ensures_step; [apply yields_kprintf|]. apply ensures_ret. destruct Hb as [Hn Hp].
    rewrite app_nil_r, !icr_app, !statuses_app, Hi0, Hi1, Hs0. cbn [app].
    change (icr [EPrint _ _]) with (@nil (Z * Z)). change (statuses [EPrint _ _]) with (@nil Z).
    rewrite !app_nil_r. split; [done|]. split; [done|]. split; [done|].
    rewrite Hn. split; [done|exact Hp].
Qed.

(** C33: [send_ipi] stores the vector for the receiver, sends one command to it and reports a timeout
    exactly when a million looks at the register all showed the command pending. *)
Theorem send_ipi_spec d g core_id v : 0 <= core_id <= 15 -> is_u8 v ->
  last_interrupt_received_spin_lock g = 0 ->
  let this := u8 (u32 (fs_word d)) in
  is_Some (received (last_interrupt_received g) core_id this) ->
  let r := (send_ipi DEBUG core_id v : A error) d g in
  exists e, o_exit r = Done e /\
    last_interrupt_received (o_glob r) = receive (last_interrupt_received g) core_id this v /\
    last_interrupt_received_spin_lock (o_glob r) = 0 /\
    icr (o_events r) = command core_id (0x4000 + v) /\
    match e with
    | no_error => exists ws w, statuses (o_events r) = ws ++ [w] /\ forallb pending ws = true /\
        pending w = false /\ Z.of_nat (length ws) < TIMEOUT_IPI_PENDING
    | _ => e = timeout_sending_ipi /\ Z.of_nat (length (statuses (o_events r))) = TIMEOUT_IPI_PENDING /\
        forallb pending (statuses (o_events r)) = true
    end.
Proof.
  intros Hi Hv Hl this [old Hold] r. unfold r, send_ipi, poll.
  assert (Hn : Z.of_nat (Z.to_nat TIMEOUT_IPI_PENDING) = TIMEOUT_IPI_PENDING) by (by apply Z2Nat.id).
  revert Hn. generalize (Z.to_nat TIMEOUT_IPI_PENDING). intros n Hn. rewrite <- Hn. clear Hn.
  set (g1 := set_received (receive (last_interrupt_received g) core_id this v) 0 g).
  destruct (send_ipi_tail n core_id v g1 Hi Hv d) as (e & He & Hg & Hi1 & Hr).
  rewrite (bind_done (if DEBUG then _ else _) _ d g d g [] tt)
    by (destruct DEBUG; [by rewrite (proj2 (Z.leb_le core_id 15)) by lia|done]).
  rewrite (bind_done get_core_id_fast _ d g d g [] this) by done.
  rewrite (bind_done lock_received _ d g d (set_received (last_interrupt_received g) 1 g) [] tt)
    by (unfold lock_received, mbind, M_bind; cbn; by rewrite Hl).
  rewrite (bind_done (store_received core_id this v) _ d _ d
    (set_received (receive (last_interrupt_received g) core_id this v) 1 g) [] tt)
    by (unfold store_received, mbind, M_bind; cbn; by rewrite Hold).
  rewrite (bind_done unlock_received _ d _ d g1 [] tt) by done.
  cbv zeta. cbn [o_exit o_glob o_events app]. exists e. rewrite He, Hg.
  split; [done|]. split; [done|]. split; [done|]. split; [exact Hi1|exact Hr].
Qed.
End apic.

(** ** The theorems at concrete inputs

    Two processors, of which the second never boots and sends interrupt 7. *)
#[local] Existing Instance ticking.
#[local] Existing Instance five_functions.
#[local] Instance second_core : OtherCores no_device := {
  core_has_booted := fun _ d => (false, d);
  told_to_start := fun _ d => d;
  sent_meanwhile := fun d => ([(1, 7)], d)
}.
Definition apic_boot : apic_globals :=
  mk_apic false (repeat (repeat 0 12) 12) 0 (repeat false 12) (repeat 0 12) 2 pit_boot maxima_known.

Lemma wake_core_commands_witness :
  exists rest, wake_script 1 0x8000 =
    icr (o_events (wake_core (D:=no_device) false 3 4096 1 0x8000 0x100000 ND apic_boot)) ++ rest.
Proof.
  destruct (wake_core_commands (D:=no_device) false 3 4096 ND apic_boot 1 0x8000 0x100000
    ltac:(lia) ltac:(lia)) as (rest & Hr & _).
  exists rest. exact Hr.
Defined.

Lemma wake_core_never_times_out_witness :
  o_exit (wake_core (D:=no_device) false 3 4096 1 0x8000 0x100000 ND apic_boot) <> Done boot_core_timeout.
Proof.
  pose proof (wake_core_never_times_out (D:=no_device) false 3 4096 ND apic_boot 1 0x8000 0x100000
    (fun _ => eq_refl)) as Ht.
  intros He. rewrite He in Ht. discriminate Ht.
Defined.

Lemma wait_till_interrupt_only_from_0_witness :
  o_exit (wait_till_interrupt (D:=no_device) 3 7 ND apic_boot) <> Done tt.
Proof.
  apply (wait_till_interrupt_only_from_0 (D:=no_device) 3 ND apic_boot 7).
  - intros d. by repeat constructor.
  - intros i. unfold apic_boot, received. cbn [last_interrupt_received].
    destruct (repeat (repeat 0 12) 12 !! Z.to_nat i) as [row|] eqn:E; [|done].
    apply list_elem_of_lookup_2, list_elem_of_In, repeat_spec in E. by subst row.
Defined.

Lemma has_apic_flags_witness :
  o_exit (has_apic (D:=no_device) false ND apic_boot) = Done (mk_support false true true).
Proof.
  destruct (has_apic_flags (D:=no_device) false ND apic_boot ltac:(done)) as [He _].
  rewrite He. by vm_compute.
Defined.

Lemma base_address_set_and_read_witness :
  o_exit (set_base_address (D:=no_device) 0xFEE01000 ND apic_boot) = Aborted /\
  o_exit (set_base_address (D:=no_device) 0xFEE00000 ND apic_boot) = Done tt.
Proof.
  destruct (base_address_set_and_read (D:=no_device) ND apic_boot 0xFEE01000 ltac:(done)) as [Ha _].
  destruct (base_address_set_and_read (D:=no_device) ND apic_boot 0xFEE00000 ltac:(done)) as [Hb _].
  rewrite Ha, Hb. by split; vm_compute.
Defined.

Lemma send_ipi_spec_witness :
  exists e, o_exit (send_ipi (D:=no_device) true 1 57 ND apic_boot) = Done e /\
    icr (o_events (send_ipi (D:=no_device) true 1 57 ND apic_boot)) = command 1 0x4039.
Proof.
  destruct (send_ipi_spec (D:=no_device) true ND apic_boot 1 57 ltac:(lia) ltac:(done) eq_refl
    ltac:(by eexists)) as (e & He & _ & _ & Hi & _).
  exists e. split; [exact He|exact Hi].
Defined.
