(* ===== verification/ApicIo.v ===== *)
(** * The I/O APIC ([cpu/apic_io])

    [apic_io.cpp] and [apic_io_internals.hpp]: the registers behind the pair of a select register
    and a window, the redirection entries and the start of the chip. *)

From S2P Require Import Prelude Machine BitStruct.

Module RegisterOffsets.
Definition id : Z := 0x00.
Definition version : Z := 0x01.
Definition arbitration : Z := 0x02.
Definition relocation_table_base : Z := 0x10.
End RegisterOffsets.

Definition io_apic_address : Z := 0xFEC00000.
Definition number_of_apic_io_irq : Z := 24.
Definition IOREGSEL : Z := io_apic_address + 0x00.
Definition IOWIN : Z := io_apic_address + 0x10.

Definition id : layout := [("reserved", 24); ("apic_id", 4)].
Definition version : layout := [("version", 8); ("reserved", 8); ("max_redirection_entry", 8)].
Definition arbitartion : layout := [("reserved", 24); ("arbitration_id", 4)].

(** [redirection_entry_low]; its enumerations are their values, [mask] is 0 for enabled.  Of
    [redirection_entry_high] the byte of the destination is kept. *)
Record redirection_entry_low := mk_red_low {
  vector : Z; red_delivery_mode : Z; red_destination_mode : Z; delivery_status : Z; pin_polarity : Z;
  remote_interrupt_request : Z; red_trigger_mode : Z; red_mask : Z; red_reserved : Z;
}.
Definition red_low_widths : list Z := [8; 3; 1; 1; 1; 1; 1; 1; 15].
Definition red_low_fields (r : redirection_entry_low) : list Z :=
  [vector r; red_delivery_mode r; red_destination_mode r; delivery_status r; pin_polarity r;
   remote_interrupt_request r; red_trigger_mode r; red_mask r; red_reserved r].
Definition red_low_raw (r : redirection_entry_low) : Z := pack (zip red_low_widths (red_low_fields r)).
Definition red_low_of (word : Z) : redirection_entry_low :=
  let f := fun i => field_at red_low_widths i word in
  mk_red_low (f 0) (f 1) (f 2) (f 3) (f 4) (f 5) (f 6) (f 7) (f 8).
(** [{.vector = v, .mask = mask::enable}]: the other members at their defaults. *)
Definition enabled_vector (v : Z) : redirection_entry_low := mk_red_low v 0 0 0 0 0 0 0 0.

Record redirection_entry_high := mk_red_high { high_reserved : Z; destination : Z }.
Definition red_high_widths : list Z := [24; 8].
Definition red_high_fields (r : redirection_entry_high) : list Z := [high_reserved r; destination r].
Definition red_high_raw (r : redirection_entry_high) : Z := pack (zip red_high_widths (red_high_fields r)).
Definition red_high_of (word : Z) : redirection_entry_high :=
  mk_red_high (field_at red_high_widths 0 word) (field_at red_high_widths 1 word).
(** [{.destination = {.phyiscal_apic_id = n}}]: four bits of the byte. *)
Definition to_processor (n : Z) : redirection_entry_high := mk_red_high 0 (n mod 2 ^ 4).

Record full_redirection_entry := mk_full { red_low : redirection_entry_low; red_high : redirection_entry_high }.

(** [get_offsets]: the offsets of the low and the high word. *)
Definition get_offsets (red_idx : Z) : Z * Z :=
  let offset_raw_low := u32 (RegisterOffsets.relocation_table_base + red_idx * 2) in
  (offset_raw_low, u32 (offset_raw_low + 1)).

Section io_apic.
Context {D G : Type} `{RegisterDevice D}.
(** Built with [-DDEBUG] or not. *)
Context (DEBUG : bool).
Local Abbreviation I A := (M D G A).

Definition get_apic_id_of_owner : I Z :=
  mmio_write IOREGSEL RegisterOffsets.id;;
  win ← mmio_read IOWIN;
  mret (get_field id "apic_id" win).

Definition set_apic_id_of_owner (apic_id_of_owner : Z) : I unit :=
  (if DEBUG then assert_handler_fmt (apic_id_of_owner <? 15) "Can't set a apic id too big. Max 15\n" []
   else mret tt);;
  mmio_write IOREGSEL RegisterOffsets.id;;
  mmio_write IOWIN (struct_of id [("apic_id", apic_id_of_owner)]).

(** The word of [struct version]. *)
Definition get_version_and_max_red : I Z :=
  mmio_write IOREGSEL RegisterOffsets.version;;
  win ← mmio_read IOWIN;
  mret win.
Definition get_max_redirection_entry_count : I Z :=
  v ← get_version_and_max_red; mret (get_field version "max_redirection_entry" v).

Definition get_arbitration : I Z :=
  mmio_write IOREGSEL RegisterOffsets.arbitration;;
  win ← mmio_read IOWIN;
  mret (get_field arbitartion "arbitration_id" win).

Definition write_redirection (irq : Z) (low : redirection_entry_low) (high : redirection_entry_high) : I unit :=
  let '(l, h) := get_offsets irq in
  mmio_write IOREGSEL h;;
  mmio_write IOWIN (red_high_raw high);;
  mmio_write IOREGSEL l;;
  mmio_write IOWIN (red_low_raw low).

Definition read_redirection (irq : Z) : I full_redirection_entry :=
  let '(l, h) := get_offsets irq in
  mmio_write IOREGSEL l;;
  low_u ← mmio_read IOWIN;
  mmio_write IOREGSEL h;;
  high_u ← mmio_read IOWIN;
  mret (mk_full (red_low_of low_u) (red_high_of high_u)).

(** [read_redirection_ws]: the two words through references. *)
Definition read_redirection_ws (irq : Z) : I (redirection_entry_low * redirection_entry_high) :=
  let '(l, h) := get_offsets irq in
  mmio_write IOREGSEL l;;
  low_u ← mmio_read IOWIN;
  mmio_write IOREGSEL h;;
  high_u ← mmio_read IOWIN;
  mret (red_low_of low_u, red_high_of high_u).

(** [irq_to_gsi] is an array of bytes. *)
Definition init_io_apic (irq_to_gsi : list Z) : I unit :=
  cur_owner ← get_apic_id_of_owner;
  kprintf "The current owner is %u\n" [PNum cur_owner];;
  (if negb (cur_owner =? 0) then set_apic_id_of_owner 0 else mret tt);;
  v ← get_version_and_max_red;
  kprintf "Version = %u, Max Redirection Entry = %u\n"
    [PNum (get_field version "version" v); PNum (get_field version "max_redirection_entry" v)];;
  pit ← read_cell (irq_to_gsi !! 0%nat);
  write_redirection pit (enabled_vector 32) (to_processor 0);;
  keyboard ← read_cell (irq_to_gsi !! 1%nat);
  write_redirection keyboard (enabled_vector 33) (to_processor 0);;
  mouse ← read_cell (irq_to_gsi !! 12%nat);
  write_redirection mouse (enabled_vector 44) (to_processor 0).
End io_apic.
