(* ===== verification/ApicIoFacts.v ===== *)
(** * Facts about the I/O APIC

    The driver against what the chip promises: entries that were written read back, the others
    stay, and what the start of the chip leaves in it. *)

From S2P Require Import Prelude Machine BitStruct ApicIo.

(** ** The chip

    [holds d sel regs]: the select register holds [sel], register [i] behind the window holds
    [regs i].  The laws are those of the data sheet for entries without a pending interrupt. *)
Class IoApicChip (D : Type) `{RegisterDevice D} := {
  holds : D -> Z -> (Z -> Z) -> Prop;
  select_law d sel regs v : holds d sel regs -> holds (register_out IOREGSEL v d) v regs;
  write_law d sel regs v : holds d sel regs ->
    holds (register_out IOWIN v d) sel (fun i => if i =? sel then v else regs i);
  read_law d sel regs : holds d sel regs ->
    fst (register_in IOWIN d) = regs sel /\ holds (snd (register_in IOWIN d)) sel regs;
}.

Section chip.
Context {D G : Type} `{IoApicChip D}.
Implicit Types g : G.

(** [m] returns [a] from [d] and leaves a machine that satisfies [Q]. *)
Definition reaches {A} (m : M D G A) (d : D) (g : G) (a : A) (Q : D -> Prop) : Prop :=
  exists d' es, m d g = Outcome d' g es (Done a) /\ Q d'.

Lemma reaches_ret {A} (a : A) d g (Q : D -> Prop) : Q d -> reaches (mret a) d g a Q.
Proof. intros HQ. by exists d, []. Qed.

Lemma reaches_bind {A B} (m : M D G A) (k : A -> M D G B) d g a b Q R :
  reaches m d g a Q -> (forall d', Q d' -> reaches (k a) d' g b R) -> reaches (m ≫= k) d g b R.
Proof.
  intros (d1 & es1 & Hm & HQ) Hk. destruct (Hk d1 HQ) as (d2 & es2 & Hk' & HR).
  exists d2, (es1 ++ es2). split; [|exact HR]. rewrite (bind_done _ _ _ _ _ _ _ _ Hm), Hk'. done.
Qed.

Lemma reaches_weaken {A} (m : M D G A) d g a (Q R : D -> Prop) :
  reaches m d g a Q -> (forall d', Q d' -> R d') -> reaches m d g a R.
Proof. intros (d' & es & Hm & HQ) HR. exists d', es. auto. Qed.

(** Steps that leave the chip alone. *)
Lemma reaches_kprintf fmt args d g sel regs : holds d sel regs ->
  reaches (kprintf fmt args : M D G unit) d g tt (fun d' => holds d' sel regs).
Proof. intros HQ. by exists d, [EPrint fmt args]. Qed.
Lemma reaches_same {A} (a : A) d g sel regs : holds d sel regs ->
  reaches (mret a) d g a (fun d' => holds d' sel regs).
Proof. intros Hd. by apply reaches_ret. Qed.

Lemma reaches_select d g sel regs v : holds d sel regs -> is_u32 v ->
  reaches (mmio_write IOREGSEL v) d g tt (fun d' => holds d' v regs).
Proof.
  intros Hd Hv. unfold mmio_write. replace (u32 v) with v by (symmetry; by apply Z.mod_small).
  eexists _, _. split; [done|]. by eapply select_law.
Qed.

Lemma reaches_window_write d g sel regs v : holds d sel regs -> is_u32 v ->
  reaches (mmio_write IOWIN v) d g tt (fun d' => holds d' sel (fun i => if i =? sel then v else regs i)).
Proof.
  intros Hd Hv. unfold mmio_write. replace (u32 v) with v by (symmetry; by apply Z.mod_small).
  eexists _, _. split; [done|]. by apply write_law.
Qed.

Lemma reaches_window_read d g sel regs : holds d sel regs ->
  reaches (mmio_read IOWIN) d g (u32 (regs sel)) (fun d' => holds d' sel regs).
Proof.
  intros Hd. destruct (read_law d sel regs Hd) as [Hr Hd']. unfold reaches, mmio_read.
  destruct (register_in IOWIN d) as [v d1]. cbn in Hr, Hd'. rewrite <- Hr. exists d1, [ERead IOWIN (u32 v)]. done.
Qed.

(** ** Redirection entries *)

Definition red_low_fits (r : redirection_entry_low) : Prop := fits (zip red_low_widths (red_low_fields r)).
Definition red_high_fits (r : redirection_entry_high) : Prop := fits (zip red_high_widths (red_high_fields r)).

Lemma red_low_ok : widths_ok red_low_widths.
Proof. apply (bool_decide_eq_true_1 _). by vm_compute. Qed.
Lemma red_high_ok : widths_ok red_high_widths.
Proof. apply (bool_decide_eq_true_1 _). by vm_compute. Qed.

Lemma red_low_round r : red_low_fits r -> red_low_of (red_low_raw r) = r.
Proof.
  intros Hf. pose proof (unpack_pack_fits (zip red_low_widths (red_low_fields r)) red_low_ok Hf) as E.
  change (map fst (zip red_low_widths (red_low_fields r))) with red_low_widths in E.
  unfold red_low_of, field_at, red_low_raw. rewrite E. by destruct r.
Qed.
Lemma red_high_round r : red_high_fits r -> red_high_of (red_high_raw r) = r.
Proof.
  intros Hf. pose proof (unpack_pack_fits (zip red_high_widths (red_high_fields r)) red_high_ok Hf) as E.
  change (map fst (zip red_high_widths (red_high_fields r))) with red_high_widths in E.
  unfold red_high_of, field_at, red_high_raw. rewrite E. by destruct r.
Qed.
Lemma red_low_raw_u32 r : is_u32 (red_low_raw r).
Proof. exact (pack_range (zip red_low_widths (red_low_fields r)) red_low_ok). Qed.
Lemma red_high_raw_u32 r : is_u32 (red_high_raw r).
Proof. exact (pack_range (zip red_high_widths (red_high_fields r)) red_high_ok). Qed.

(** The offsets of an entry. *)
Lemma get_offsets_eq irq : is_u8 irq -> get_offsets irq = (16 + 2 * irq, 17 + 2 * irq).
Proof.
  intros Hi. unfold get_offsets, RegisterOffsets.relocation_table_base, u32, is_u8 in *.
  rewrite !Z.mod_small by (rewrite ?Z.mod_small; lia). f_equal; lia.
Qed.

(** The registers after an entry was written. *)
Definition with_entry (irq : Z) (low : redirection_entry_low) (high : redirection_entry_high)
    (regs : Z -> Z) : Z -> Z :=
  fun i => if i =? 16 + 2 * irq then red_low_raw low
    else if i =? 17 + 2 * irq then red_high_raw high else regs i.

Lemma write_redirection_reaches d g sel regs irq low high : holds d sel regs -> is_u8 irq ->
  reaches (write_redirection irq low high) d g tt (fun d' =>
    exists sel' regs', holds d' sel' regs' /\ forall i, regs' i = with_entry irq low high regs i).
Proof.
  intros Hd Hi. unfold write_redirection. rewrite get_offsets_eq by done. unfold is_u8 in Hi.
  eapply reaches_bind; [apply (reaches_select _ _ _ _ _ Hd); unfold is_u32; lia|]. intros d1 H1.
  eapply reaches_bind; [apply (reaches_window_write _ _ _ _ _ H1), red_high_raw_u32|]. intros d2 H2.
  eapply reaches_bind; [apply (reaches_select _ _ _ _ _ H2); unfold is_u32; lia|]. intros d3 H3.
  eapply reaches_weaken; [apply (reaches_window_write _ _ _ _ _ H3), red_low_raw_u32|]. intros d4 H4.
  eexists _, _. split; [exact H4|]. done.
Qed.

Lemma read_redirection_reaches d g sel regs irq : holds d sel regs -> is_u8 irq ->
  reaches (read_redirection irq) d g
    (mk_full (red_low_of (u32 (regs (16 + 2 * irq)))) (red_high_of (u32 (regs (17 + 2 * irq)))))
    (fun d' => holds d' (17 + 2 * irq) regs).
Proof.
  intros Hd Hi. unfold read_redirection. rewrite get_offsets_eq by done. unfold is_u8 in Hi.
  eapply reaches_bind; [apply (reaches_select _ _ _ _ _ Hd); unfold is_u32; lia|]. intros d1 H1.
  eapply reaches_bind; [apply (reaches_window_read _ _ _ _ H1)|]. intros d2 H2.
  eapply reaches_bind; [apply (reaches_select _ _ _ _ _ H2); unfold is_u32; lia|]. intros d3 H3.
  eapply reaches_bind; [apply (reaches_window_read _ _ _ _ H3)|]. intros d4 H4.
  by apply reaches_ret.
Qed.

(** An entry that was written reads back; every other one is left as it was. *)
Theorem redirection_roundtrip d g sel regs irq irq' low high : holds d sel regs ->
  is_u8 irq -> is_u8 irq' -> red_low_fits low -> red_high_fits high ->
  o_exit ((write_redirection irq low high;; read_redirection irq') d g) =
    if irq =? irq' then Done (mk_full low high) else o_exit (read_redirection irq' d g).
Proof.
  intros Hd Hi Hi' Hl Hh.
  assert (Hw : reaches (write_redirection irq low high;; read_redirection irq') d g
    (mk_full (red_low_of (u32 (with_entry irq low high regs (16 + 2 * irq'))))
       (red_high_of (u32 (with_entry irq low high regs (17 + 2 * irq'))))) (fun _ => True)).
  { eapply reaches_bind; [by apply (write_redirection_reaches _ _ _ _ _ _ _ Hd)|].
    intros d1 (sel1 & regs1 & H1 & Hr). rewrite <- !Hr.
    eapply reaches_weaken; [by apply (read_redirection_reaches _ _ _ _ _ H1)|done]. }
  destruct Hw as (d' & es & -> & _). cbn [o_exit]. unfold with_entry.
  destruct (Z.eqb_spec irq irq') as [<-|Hne].
  - rewrite Z.eqb_refl, (proj2 (Z.eqb_neq (17 + 2 * irq) (16 + 2 * irq))), Z.eqb_refl by lia.
    unfold u32. rewrite !Z.mod_small by (apply red_low_raw_u32 || apply red_high_raw_u32).
    by rewrite red_low_round, red_high_round.
  - destruct (read_redirection_reaches d g sel regs irq' Hd Hi') as (d1 & es1 & -> & _).
    cbn [o_exit]. do 2 f_equal.
    + by rewrite (proj2 (Z.eqb_neq _ _)), (proj2 (Z.eqb_neq _ _)) by lia.
    + by rewrite (proj2 (Z.eqb_neq _ _)), (proj2 (Z.eqb_neq _ _)) by lia.
Qed.

(** ** The start *)

Definition entry_of (irq i : Z) : bool := (i =? 16 + 2 * irq) || (i =? 17 + 2 * irq).

Lemma with_entry_raw irq v regs i : is_u8 v ->
  with_entry irq (enabled_vector v) (to_processor 0) regs i =
    if i =? 16 + 2 * irq then v else if i =? 17 + 2 * irq then 0 else regs i.
Proof.
  intros Hv. unfold with_entry. destruct (i =? 16 + 2 * irq); [|done].
  unfold red_low_raw, enabled_vector. cbn [red_low_fields red_low_widths zip zip_with pack vector
    red_delivery_mode red_destination_mode delivery_status pin_polarity remote_interrupt_request
    red_trigger_mode red_mask red_reserved].
  rewrite !Z.mod_0_l by done. unfold is_u8 in Hv. change (2 ^ 8) with 256. rewrite Z.mod_small by lia. lia.
Qed.

(** Reading register [o] through the window. *)
Lemma register_reads {A} (f : Z -> A) o d g sel regs : is_u32 o -> holds d sel regs ->
  reaches (mmio_write IOREGSEL o;; win ← mmio_read IOWIN; mret (f win)) d g (f (u32 (regs o)))
    (fun d' => holds d' o regs).
Proof.
  intros Ho Hd. eapply reaches_bind; [by apply (reaches_select _ _ _ _ _ Hd)|]. intros d1 H1.
  eapply reaches_bind; [apply (reaches_window_read _ _ _ _ H1)|]. intros d2 H2. apply reaches_same, H2.
Qed.

(** The step that makes processor 0 the owner, if it is not. *)
Lemma owner_becomes_0 DEBUG d g regs : holds d 0 regs ->
  reaches (if negb (get_field id "apic_id" (u32 (regs 0)) =? 0) then set_apic_id_of_owner DEBUG 0 else mret tt)
    d g tt (fun d' => exists sel' regs', holds d' sel' regs' /\
      get_field id "apic_id" (u32 (regs' 0)) = 0 /\ forall i, i <> 0 -> regs' i = regs i).
Proof.
  intros H3. destruct (get_field id "apic_id" (u32 (regs 0)) =? 0) eqn:E; cbn [negb].
  - apply Z.eqb_eq in E. apply reaches_ret. by exists 0, regs.
  - unfold set_apic_id_of_owner. eapply reaches_bind.
    { instantiate (1 := fun d' => holds d' 0 regs). instantiate (1 := tt). by destruct DEBUG; apply reaches_same. }
    intros d4 H4.
    eapply reaches_bind; [apply (reaches_select _ _ _ _ _ H4); by unfold is_u32, RegisterOffsets.id|].
    intros d5 H5. eapply reaches_weaken; [by apply (reaches_window_write _ _ _ _ _ H5)|].
    intros d6 H6. eexists _, _. split; [exact H6|]. split; [done|].
    intros i Hi. by rewrite (proj2 (Z.eqb_neq i RegisterOffsets.id) Hi).
Qed.

(** The start routes the timer, the keyboard and the mouse to their vectors on processor 0, makes
    processor 0 the owner and leaves every other register as it was. *)
Theorem init_io_apic_routes DEBUG d g sel regs irq_to_gsi pit keyboard mouse : holds d sel regs ->
  irq_to_gsi !! 0%nat = Some pit -> irq_to_gsi !! 1%nat = Some keyboard -> irq_to_gsi !! 12%nat = Some mouse ->
  is_u8 pit -> is_u8 keyboard -> is_u8 mouse -> pit <> keyboard -> pit <> mouse -> keyboard <> mouse ->
  reaches (init_io_apic DEBUG irq_to_gsi) d g tt (fun d' =>
    exists sel' regs', holds d' sel' regs' /\
      get_field id "apic_id" (u32 (regs' 0)) = 0 /\
      (regs' (16 + 2 * pit), regs' (17 + 2 * pit)) = (32, 0) /\
      (regs' (16 + 2 * keyboard), regs' (17 + 2 * keyboard)) = (33, 0) /\
      (regs' (16 + 2 * mouse), regs' (17 + 2 * mouse)) = (44, 0) /\
      forall i, i <> 0 -> entry_of pit i = false -> entry_of keyboard i = false ->
        entry_of mouse i = false -> regs' i = regs i).
Proof.
  intros Hd Hp Hk Hm Bp Bk Bm Npk Npm Nkm. unfold init_io_apic.
  eapply reaches_bind; [by apply (register_reads (get_field id "apic_id") RegisterOffsets.id _ _ _ _ ltac:(done) Hd)|].
  intros d2 H2. eapply reaches_bind; [apply reaches_kprintf, H2|]. intros d3 H3.
  eapply reaches_bind; [by apply owner_becomes_0|]. intros d4 (sel4 & regs4 & H4 & Ho & Hr4).
  eapply reaches_bind; [by apply (register_reads (fun win => win) RegisterOffsets.version _ _ _ _ ltac:(done) H4)|].
  intros d6 H6. eapply reaches_bind; [apply reaches_kprintf, H6|]. intros d7 H7.
  rewrite Hp, Hk, Hm.
  eapply reaches_bind; [by apply reaches_same, H7|]. intros d8 H8.
  eapply reaches_bind; [by apply (write_redirection_reaches _ _ _ _ _ _ _ H8)|]. intros d9 (s9 & r9 & H9 & E9).
  eapply reaches_bind; [by apply reaches_same, H9|]. intros d10 H10.
  eapply reaches_bind; [by apply (write_redirection_reaches _ _ _ _ _ _ _ H10)|]. intros d11 (s11 & r11 & H11 & E11).
  eapply reaches_bind; [by apply reaches_same, H11|]. intros d12 H12.
  eapply reaches_weaken; [by apply (write_redirection_reaches _ _ _ _ _ _ _ H12)|]. intros d13 (s13 & r13 & H13 & E13).
  exists s13, r13. split; [exact H13|].
  assert (Er : forall i, r13 i =
    if i =? 16 + 2 * mouse then 44 else if i =? 17 + 2 * mouse then 0 else
    if i =? 16 + 2 * keyboard then 33 else if i =? 17 + 2 * keyboard then 0 else
    if i =? 16 + 2 * pit then 32 else if i =? 17 + 2 * pit then 0 else regs4 i).
  { intros i. rewrite E13, with_entry_raw, E11, with_entry_raw, E9, with_entry_raw by done. done. }
  unfold is_u8, entry_of in *. rewrite !Er.
  repeat match goal with |- context [?a =? ?b] =>
    first [rewrite (proj2 (Z.eqb_neq a b)) by lia | rewrite (proj2 (Z.eqb_eq a b)) by lia] end.
  repeat split; try done.
  intros i Hi Fp Fk Fm. rewrite Er. apply orb_false_iff in Fp as [-> ->], Fk as [-> ->], Fm as [-> ->]. by apply Hr4.
Qed.
End chip.

(** ** A chip, and the theorems on it

    The select register and the registers behind the window. *)
Record chip := Chip { select : Z; registers : Z -> Z }.
#[local] Instance chip_device : RegisterDevice chip := {
  register_in := fun a d => (if a =? IOWIN then registers d (select d) else 0, d);
  register_out := fun a v d =>
    if a =? IOREGSEL then Chip v (registers d)
    else if a =? IOWIN then Chip (select d) (fun i => if i =? select d then v else registers d i)
    else d
}.
#[local] Instance chip_laws : IoApicChip chip.
Proof.
  refine {| holds := fun d sel regs => select d = sel /\ forall i, registers d i = regs i |}.
  - intros d sel regs v [_ Hr]. done.
  - intros d sel regs v [<- Hr]. split; [done|]. intros i. change (registers _ i) with (if i =? select d then v else registers d i). by rewrite Hr.
  - intros d sel regs [<- Hr]. split; [exact (Hr (select d))|by split].
Defined.

Lemma redirection_roundtrip_witness :
  o_exit ((write_redirection 3 (enabled_vector 35) (to_processor 2);; read_redirection 3 : M chip unit _)
    (Chip 0 (fun _ => 7)) tt) = Done (mk_full (enabled_vector 35) (to_processor 2)).
Proof.
  apply (redirection_roundtrip (D:=chip) (Chip 0 (fun _ => 7)) tt 0 (fun _ => 7) 3 3).
  all: try by repeat constructor.
Defined.

Lemma init_io_apic_routes_witness :
  exists d' es, init_io_apic true [2; 1; 0; 3; 4; 5; 6; 7; 8; 9; 10; 11; 12] (Chip 0 (fun _ => 0)) tt =
    Outcome d' tt es (Done tt) /\ registers d' 20 = 32.
Proof.
  destruct (init_io_apic_routes (D:=chip) true (Chip 0 (fun _ => 0)) tt 0 (fun _ => 0)
    [2; 1; 0; 3; 4; 5; 6; 7; 8; 9; 10; 11; 12] 2 1 12) as (d' & es & He & sel' & regs' & Hh & _ & Hp & _).
  all: try done.
  exists d', es. split; [exact He|]. destruct Hh as [_ Hr]. rewrite Hr. by injection Hp.
Defined.
