(* ===== verification/ApicTimer.v ===== *)
(** * The timer of the local APIC ([cpu/apic/apic_timers.cpp])

    Starting it, asking for the frequency of the time-stamp counter and measuring the timer
    against the programmable interval timer. *)

From stdpp Require Import gmap.
From S2P Require Import Prelude Machine BitStruct StringHelper Terminal BitHex FloatText Lapic Pit Phys Processor Cpuid Apic.

Definition apic_sync_interrupt : Z := 61.
Definition invariant_tsc_bit_index : Z := 8.
Definition qemu_apic_freq : Z := 1000000000.

(** The globals of the APIC and [apic_frequency]. *)
Record timer_globals := mk_timer { of_apic : apic_globals; apic_frequency : Z }.
Definition set_apic (a : apic_globals) (g : timer_globals) : timer_globals := mk_timer a (apic_frequency g).
Definition set_frequency (f : Z) (g : timer_globals) : timer_globals := mk_timer (of_apic g) f.

(** The conversion of an unsigned number to [int], and an [int] result, which may not overflow. *)
Definition to_int (z : Z) : Z := if z mod 2 ^ 32 <? 2 ^ 31 then z mod 2 ^ 32 else z mod 2 ^ 32 - 2 ^ 32.
Definition int_result (z : Z) : option Z := if (- 2 ^ 31 <=? z) && (z <? 2 ^ 31) then Some z else None.

Section timer.
Context {D : Type} `{PortDevice D} `{RegisterDevice D} `{Interrupts D} `{Processor D}.
(** Built with [-DDEBUG], with [-DQEMU], or not. *)
Context (DEBUG QEMU : bool).
Context (wakeups : nat).
Local Abbreviation T A := (M D timer_globals A).

Definition on_apic {A} (m : M D apic_globals A) : T A := zoom of_apic set_apic m.

Definition start_timer (vector initial_count divide_configuration timer_mode mask : Z) : T unit :=
  (if DEBUG then
     assert_handler_fmt (timer_mode <=? timer_mode.tsc_deadline) "Invalid timer mode" [];;
     support ← gets (fun g => support_tsc_deadline (of_apic g));
     if negb support && (timer_mode =? timer_mode.tsc_deadline)
     then abort_msg "Tsc deadline not supported, don't try to use it\n" [] else mret tt
   else mret tt);;
  mmio_write (register lapic_registers_offset.divide_configuration_register)
    (divide_configuration_raw divide_configuration);;
  mmio_write (register lapic_registers_offset.lvt_timer) (lvt_timer_raw vector mask timer_mode);;
  mmio_write (register lapic_registers_offset.initial_count) initial_count.

(** [(1 < invariant_tsc_bit_index)] is a comparison, the number 1. *)
Definition get_tsc_frequency : T Z :=
  cpuid_87 ← on_apic (with_cpuid (call_cpuid DEBUG AdvancedPowerMgmt 0));
  if has_error cpuid_87 then kprintf "Couldn't use cpuid h800...7\n" [];; mret 0 else
  let e := edx (regs cpuid_87) .& (if 1 <? invariant_tsc_bit_index then 1 else 0) in
  if e =? 0 then kprintf "The TSC isn't invariant\n" [];; mret 1 else
  cpuid_15 ← on_apic (with_cpuid (call_cpuid DEBUG TSC_INFO 0));
  if has_error cpuid_15 then kprintf "Couldn't use cpuid h15\n" [];; mret 2 else
  mret 0xFFFF.

(** A [kprintf] of a [double]: the event holds the numbers the value is computed from. *)
Definition kprintf_double (fmt : string) (args : list Z) : T unit := emit (ECall fmt args).

(** [#ifdef QEMU] *)
Definition qemu_correction : T unit :=
  freq ← gets apic_frequency;
  difference ← read_cell (int_result (to_int freq - qemu_apic_freq));
  let ghz_diff := Z.abs difference in
  (if negb (ghz_diff =? 0) then
     kprintf "\n" [];;
     kprintf "ghz_diff : %u\n" [PNum ghz_diff];;
     let pos_ratio := qemu_apic_freq / ghz_diff in
     kprintf "Pos ratio : %u\n" [PNum pos_ratio];;
     if pos_ratio >? 100 then modify (set_frequency qemu_apic_freq) else mret tt
   else mret tt);;
  freq ← gets apic_frequency;
  kprintf "APIC frequency: %u Hz\n" [PNum freq].

(** The comparisons that are printed when the frequency of the counter is known. *)
Definition print_comparisons (freq tsc_freq : Z) : T unit :=
  kprintf "TSC frequency: %u Hz\n" [PNum tsc_freq];;
  kprintf "\n" [];;
  kprintf "APIC - TSC: %d Hz\n" [PNum (freq - tsc_freq)];;
  kprintf "TSC - APIC: %d Hz\n" [PNum (tsc_freq - freq)];;
  kprintf "\n" [];;
  kprintf_double "APIC / TSC ratio: %f.6\n" [freq; tsc_freq];;
  kprintf_double "TSC / APIC ratio: %f.6 \n" [tsc_freq; freq];;
  kprintf "\n" [];;
  kprintf_double "Absolute difference: %f.0 Hz\n" [freq; tsc_freq];;
  kprintf_double "Difference as perc of TSC: %f.3 \n" [freq; tsc_freq];;
  kprintf_double "Difference as perc of APIC: %f.3 \n" [freq; tsc_freq];;
  kprintf "\n" [].

Definition sync_apic_with_pit : T Z :=
  tsc_freq ← get_tsc_frequency;
  (if tsc_freq >? 10 then kprintf "tsc freq = %u\n\n" [PNum tsc_freq] else mret tt);;
  pit_quick ← on_apic (with_pit get_quick_path_mode);
  on_apic (with_pit (set_quick_path_mode true));;
  let start_count := 0xFFFFFFFF in
  start_timer apic_sync_interrupt start_count divide_configuration.divide_by_1 timer_mode.single_shot mask.disable;;
  on_apic (with_pit (wait_pit_count_precise DEBUG wakeups 0));;
  cc ← mmio_read (register lapic_registers_offset.current_count);
  let diff := u32 (start_count - cc) in
  on_apic (with_pit (set_quick_path_mode pit_quick));;
  modify (set_frequency (u32 (PIT_FREQ_HZ * (diff / 65536))));;
  let ratio := diff / 65536 in
  kprintf "The APIC is %u faster then the pit: \n" [PNum ratio];;
  freq ← gets apic_frequency;
  kprintf "APIC frequency: %u Hz (No comparse)\n" [PNum freq];;
  (if QEMU then qemu_correction else mret tt);;
  freq ← gets apic_frequency;
  (if tsc_freq >? 10 then print_comparisons freq tsc_freq else mret tt);;
  kprintf "\n" [];;
  kprintf_double "APIC: %f.3 MHz\n" [freq];;
  kprintf_double "PIT: %f.3 MHz\n" [PIT_FREQ_HZ];;
  (if tsc_freq >? 10 then kprintf_double "TSC: %f.3 MHz\n" [tsc_freq] else mret tt);;
  mret (u32 freq).
End timer.
