(* ===== verification/ApicTimerFacts.v ===== *)
(** * Facts about the timer of the local APIC

    The order in which the timer is started, waited for and read, the frequency that is measured,
    and the frequency of the time-stamp counter, which is never found. *)

From stdpp Require Import gmap.
From S2P Require Import Prelude Machine BitStruct StringHelper Terminal BitHex FloatText Lapic Pit PitFacts.
From S2P Require Import Phys Processor Cpuid CpuidFacts ControlRegisters ControlRegistersFacts Apic ApicTimer.

(** ** Reads of the current count *)

Definition current_count_address : Z := 0xFEE00390.
Definition counts (es : list event) : list Z :=
  omap (fun e => match e with ERead a v => if a =? current_count_address then Some v else None | _ => None end) es.
Lemma counts_app es es' : counts (es ++ es') = counts es ++ counts es'.
Proof. apply omap_app. Qed.

(** The writes to the timer's registers and to the others, in order. *)
Definition writes (es : list event) : list (Z * Z) :=
  omap (fun e => match e with EWrite a v => if a =? 0xFEE000B0 then None else Some (a, v) | _ => None end) es.
Lemma writes_app es es' : writes (es ++ es') = writes es ++ writes es'.
Proof. apply omap_app. Qed.

(** Neither, and nothing written to a port. *)
Definition silent (es : list event) : Prop := counts es = [] /\ writes es = [] /\ ports es = [].
Lemma silent_app es es' : silent es -> silent es' -> silent (es ++ es').
Proof.
  intros (Hc & Hw & Hp) (Hc' & Hw' & Hp'). unfold silent.
  by rewrite counts_app, writes_app, ports_app, Hc, Hw, Hp, Hc', Hw', Hp'.
Qed.
Lemma silent_nil : silent [].
Proof. done. Qed.

Section busy.
Context {D : Type} `{PortDevice D} `{RegisterDevice D} `{Interrupts D}.
Local Abbreviation P A := (M D pit_globals A).

(** Among the next [n] stretches of running code is one with the timer's interrupt. *)
Fixpoint arrives_within (n : nat) (d : D) : Prop :=
  match n with
  | O => False
  | S n => match passing d with (Some IRQ0, _) => True | (_, d) => arrives_within n d end
  end.

Definition ok (g : pit_globals) : Prop := messages_ok g /\ quick_pit_lock g = 0.

(** An interrupt from such a state. *)
Lemma interrupt_handled d g : ok g ->
  let r := (pit_interrupt : P unit) d g in
  o_exit r = Done tt /\ ok (o_glob r) /\ pit_interrupt_handled (o_glob r) = true /\ silent (o_events r) /\
  eois (o_events r) = 1%nat.
Proof.
  intros [Hg Hl] r.
  destruct (after_interrupt_ok g Hg) as (Hok & Hh & _).
  assert (Hlock : quick_pit_lock (after_interrupt g) = 0).
  { unfold after_interrupt. destruct (quick_pit g); [exact Hl|]. unfold deliver. by destruct (_ =? 0). }
  assert (Hy : exists es, yields (pit_interrupt : P unit) g tt (after_interrupt g) es /\ silent es /\ eois es = 1%nat).
  { unfold pit_interrupt, after_interrupt. destruct (quick_pit g) eqn:Hq.
    - exists [EOI]. split; [|done]. apply returns_gets. rewrite Hq. by intros d0.
    - exists (handler_events g). split; [apply returns_gets; rewrite Hq; by apply handler_yields|].
      unfold handler_events. by destruct (g_pit_mode g). }
  destruct Hy as (es & Hy & Hs). destruct (Hy d) as (He & Hg' & Hes). unfold r. rewrite Hg', Hes. done.
Qed.

(** A stretch of running code with the interrupts on: the timer's interrupt is handled, or nothing
    has changed but the machine. *)
Lemma running_on d g : ok g -> interrupt_flag g = true ->
  let r := (running : P unit) d g in
  o_exit r = Done tt /\ silent (o_events r) /\
  ((ok (o_glob r) /\ pit_interrupt_handled (o_glob r) = true /\ eois (o_events r) = 1%nat) \/
   (o_glob r = g /\ pit_pending g = false /\ o_dev r = snd (passing d) /\ fst (passing d) <> Some IRQ0)).
Proof.
  intros Hg Hf r. unfold r, running, take_pending.
  rewrite (bind_done (g0 ← get; if interrupt_flag g0 && pit_pending g0 then _ else _) _ d g
    (o_dev (if pit_pending g then (pit_interrupt : P unit) d (set_processor true false g) else Outcome d g [] (Done tt)))
    (o_glob (if pit_pending g then (pit_interrupt : P unit) d (set_processor true false g) else Outcome d g [] (Done tt)))
    (o_events (if pit_pending g then (pit_interrupt : P unit) d (set_processor true false g) else Outcome d g [] (Done tt)))
    (pit_pending g)).
  2:{ rewrite (bind_done get _ d g d g [] g) by done. rewrite Hf. destruct (pit_pending g); [|done]. cbn [andb].
      rewrite (bind_done (modify _) _ d g d (set_processor true false g) [] tt) by done.
      destruct (interrupt_handled d (set_processor true false g) Hg) as (He & _).
      destruct ((pit_interrupt : P unit) d (set_processor true false g)) as [d1 g1 es1 e1] eqn:E. cbn in He. subst e1.
      rewrite (bind_done _ _ _ _ _ _ _ _ E). cbn. by rewrite app_nil_r. }
  destruct (pit_pending g) eqn:Hp.
  - destruct (interrupt_handled d (set_processor true false g) Hg) as (He & Hok & Hh & Hs & Hn).
    cbn. rewrite app_nil_r. split; [done|]. split; [exact Hs|]. by left.
  - cbn [o_dev o_glob o_events o_exit app].
    rewrite (bind_done (fun d g => let '(i, d) := passing d in Outcome d g [] (Done i)) _ d g
      (snd (passing d)) g [] (fst (passing d))) by (by destruct (passing d)).
    destruct (passing d) as [[[|]|] d']; cbn [fst snd].
    + cbn [arrives]. rewrite (bind_done (gets interrupt_flag) _ d' g d' g [] (interrupt_flag g)) by done.
      rewrite Hf. destruct (interrupt_handled d' g Hg) as (He & Hok & Hh & Hs & Hn).
      cbn. split; [exact He|]. split; [exact Hs|]. by left.
    + split; [done|]. split; [done|]. by right.
    + split; [done|]. split; [done|]. by right.
Qed.

(** The busy loop ends with the timer's interrupt. *)
Lemma busy_loop_on n d g : ok g -> interrupt_flag g = true -> pit_interrupt_handled g = false ->
  pit_pending g = true \/ arrives_within n d ->
  let r := (busy_loop (S n) : P unit) d g in
  o_exit r = Done tt /\ ok (o_glob r) /\ silent (o_events r) /\ (1 <= eois (o_events r))%nat.
Proof.
  revert d g. induction n as [|n IH]; intros d g Hg Hf Hh Ha r; unfold r; cbn [busy_loop];
    destruct (running_on d g Hg Hf) as (He & Hs & Hc);
    destruct ((running : P unit) d g) as [d1 g1 es1 e1] eqn:E; cbn in He, Hs, Hc; subst e1;
    rewrite (bind_done _ _ _ _ _ _ _ _ E); cbv zeta;
    rewrite (bind_done (gets pit_interrupt_handled) _ d1 g1 d1 g1 [] (pit_interrupt_handled g1)) by done.
  - destruct Hc as [(Hok & Hh1 & Hn)|(-> & Hp & _)]; [|by destruct Ha as [Ha|[]]; congruence].
    rewrite Hh1. cbn. rewrite !app_nil_r, Hn. done.
  - destruct Hc as [(Hok & Hh1 & Hn)|(-> & Hp & -> & Hpass)].
    + rewrite Hh1. cbn. rewrite !app_nil_r, Hn. done.
    + rewrite Hh. cbn [negb]. destruct Ha as [Ha|Ha]; [congruence|].
      assert (Ha' : arrives_within n (snd (passing d))).
      { cbn in Ha. by destruct (passing d) as [[[|]|] d2]. }
      rewrite (bind_done sti _ (snd (passing d)) g (snd (passing d)) (set_processor true (pit_pending g) g)
        [ECall "sti" []] tt) by done. cbv zeta. cbn [o_exit o_glob o_events].
      destruct (IH (snd (passing d)) (set_processor true (pit_pending g) g) Hg eq_refl Hh (or_intror Ha'))
        as (He & Hok & Hs2 & Hn).
      split; [exact He|]. split; [exact Hok|]. cbn [app]. split; [apply silent_app; [exact Hs|exact Hs2]|].
      rewrite eois_app. etransitivity; [exact Hn|]. apply Nat.le_add_l.
Qed.

Lemma running_masked d g : interrupt_flag g = false ->
  exists g', (running : P unit) d g = Outcome (snd (passing d)) g' [] (Done tt) /\
    (ok g -> ok g') /\ pit_interrupt_handled g' = pit_interrupt_handled g.
Proof.
  intros Hf. unfold running, take_pending.
  rewrite (bind_done (g0 ← get; if interrupt_flag g0 && pit_pending g0 then _ else _) _ d g d g [] false)
    by (rewrite (bind_done get _ d g d g [] g) by done; by rewrite Hf).
  rewrite (bind_done (fun d g => let '(i, d) := passing d in Outcome d g [] (Done i)) _ d g
    (snd (passing d)) g [] (fst (passing d))) by (by destruct (passing d)).
  destruct (passing d) as [[[|]|] d']; cbn [fst snd]; [|by exists g..].
  exists (set_processor false true g). split; [|done]. cbn [arrives].
  rewrite (bind_done (gets interrupt_flag) _ d' g d' g [] (interrupt_flag g)) by done. by rewrite Hf.
Qed.

Lemma wait_pit_count_precise_ends DEBUG n g : ok g -> (forall d, arrives_within n d) ->
  ensures (wait_pit_count_precise DEBUG (S (S n)) 0 : P unit) g (fun _ g' es =>
    ok g' /\ counts es = [] /\ writes es = [] /\ waits_through Bit_1_3.single_shot (2 ^ 16) 1 es).
Proof.
  intros Hg Ha. unfold wait_pit_count_precise, send_wait_count_command_q.
  apply (ensures_bind _ _ _ (fun _ g' es => ok g' /\ interrupt_flag g' = false /\ counts es = [] /\
    writes es = [] /\ ports es = programming Bit_1_3.single_shot 0)).
  { apply (ensures_step _ _ g tt g []); [by destruct DEBUG; apply returns_ret|].
    apply (ensures_step _ _ g tt g [EOut 0x43 48]); [by intros d|].
    eapply ensures_yields; [by apply set_pit_count_yields|]. done. }
  intros [] g1 es1 (Hg1 & Hf1 & Hc1 & Hw1 & Hp1). unfold wait_till_pit_interrupt_busy. apply ensures_modify. intros d.
  set (g2 := set_handled false g1). assert (Hg2 : ok g2) by exact Hg1.
  destruct (running_masked d g2 Hf1) as (g3 & Hr & Hok & Hh). specialize (Hok Hg2).
  set (d3 := snd (passing d)) in *. set (g4 := set_processor true (pit_pending g3) g3).
  assert (Hb : (busy_loop (S (S n)) : P unit) d g2 =
    (let r := (busy_loop (S n) : P unit) d3 g4 in
     Outcome (o_dev r) (o_glob r) ([ECall "sti" []] ++ o_events r) (o_exit r))).
  { cbn [busy_loop]. rewrite (bind_done _ _ _ _ _ _ _ _ Hr). cbv zeta. cbn [app].
    rewrite (bind_done (gets pit_interrupt_handled) _ d3 g3 d3 g3 [] (pit_interrupt_handled g3)) by done.
    rewrite Hh. change (pit_interrupt_handled g2) with false. cbn [negb].
    rewrite (bind_done sti _ d3 g3 d3 g4 [ECall "sti" []] tt) by done. done. }
  rewrite Hb. destruct (busy_loop_on n d3 g4 Hok eq_refl Hh (or_intror (Ha d3))) as (He & Hok5 & Hs & Hn).
  exists tt. split; [exact He|]. split; [exact Hok5|]. cbn [o_events].
  destruct (silent_app [ECall "sti" []] _ ltac:(done) Hs) as (Hc2 & Hw2 & Hp2).
  rewrite counts_app, writes_app, Hc1, Hw1, Hc2, Hw2. split; [done|]. split; [done|].
  apply (programs_waits _ 0); [done|done|exact Hp1|exact Hp2|]. rewrite eois_app. lia.
Qed.

(** The lock of the quick path is free before and after. *)
Lemma quick_path_yields b g : ok g -> exists g', yields (set_quick_path_mode b : P unit) g tt g' [] /\ ok g'.
Proof.
  intros [Hg Hl]. exists (set_quick b 0 g). split; [|done]. unfold set_quick_path_mode, simple_spin_lock.
  apply (returns_bind _ _ g tt (set_quick (quick_pit g) 1 g)).
  { apply returns_gets. rewrite Hl. by intros d. }
  by intros d.
Qed.
Lemma get_quick_path_yields g : ok g -> exists g', yields (get_quick_path_mode : P bool) g (quick_pit g) g' [] /\ ok g'.
Proof.
  intros [Hg Hl]. exists (set_quick (quick_pit g) 0 g). split; [|done]. unfold get_quick_path_mode, simple_spin_lock.
  apply (returns_bind _ _ g tt (set_quick (quick_pit g) 1 g)).
  { apply returns_gets. rewrite Hl. by intros d. }
  by intros d.
Qed.
End busy.

Section timer.
Context {D : Type} `{PortDevice D} `{RegisterDevice D} `{Interrupts D} `{Processor D}.
Context (DEBUG : bool).
Local Abbreviation T A := (M D timer_globals A).

(** ** The frequency of the time-stamp counter *)

Definition maxima_of (g : timer_globals) : Prop :=
  max_cpuid_command (of_cpuid (of_apic g)) <> 0 /\ max_extended_cpuid_command (of_cpuid (of_apic g)) <> 0.

Lemma on_cpuid_same {A} (m : M D cpuid_globals A) d g d' es a :
  m d (of_cpuid (of_apic g)) = Outcome d' (of_cpuid (of_apic g)) es (Done a) ->
  (on_apic (with_cpuid m) : T A) d g = Outcome d' g es (Done a).
Proof.
  intros Hm. unfold on_apic, with_cpuid, zoom. cbn. rewrite Hm. cbn.
  by destruct g as [[] f].
Qed.

Lemma tsc_unknown d c :
  (call_cpuid DEBUG TSC_INFO 0 : M D cpuid_globals _) d c = Outcome d c [] (Done (failed unknown_cpu_function)).
Proof. reflexivity. Qed.

(** [get_tsc_frequency] tests bit 0 of the leaf, not bit 8, and then asks for a leaf that
    [call_cpuid] refuses: the frequency is never found. *)
Theorem tsc_frequency_never_found d g : maxima_of g ->
  exists es, (get_tsc_frequency DEBUG : T Z) d g = Outcome d g es (Done (
    if max_extended_cpuid_command (of_cpuid (of_apic g)) <? 0x80000007 then 0
    else if Z.testbit (u32 (edx (cpuid_in 0x80000007 0 d))) 0 then 2 else 1)) /\ silent es.
Proof.
  intros [Hm Hx]. set (c := of_cpuid (of_apic g)) in *.
  pose proof (call_cpuid_run DEBUG d c AdvancedPowerMgmt 0 Hm Hx) as Hc.
  assert (Hexp : expected c AdvancedPowerMgmt 0 = if max_extended_cpuid_command c <? 0x80000007
    then cpuid_extended_function_not_supported_by_hardware else none).
  { unfold expected, range_error. change (reports_max AdvancedPowerMgmt) with false. cbn.
    by destruct (_ <? _). }
  rewrite Hexp in Hc. unfold get_tsc_frequency.
  destruct (max_extended_cpuid_command c <? 0x80000007).
  - rewrite (bind_done _ _ _ _ _ _ _ _ (on_cpuid_same _ d g d [] _ Hc)). by eexists.
  - rewrite (bind_done _ _ _ _ _ _ _ _ (on_cpuid_same _ d g d _ _ Hc)).
    change (has_error (mk_result (cut_regs (cpuid_in (function_value AdvancedPowerMgmt) 0 d)) none)) with false.
    cbv zeta iota. cbn [regs cut_regs edx].
    change (if 1 <? invariant_tsc_bit_index then 1 else 0) with (1 ≪ 0).
    set (e := u32 (edx _)). pose proof (land_pow2 e 0 ltac:(lia)) as Hb.
    destruct (Z.testbit e 0); [|apply negb_false_iff in Hb; rewrite Hb; by eexists].
    apply negb_true_iff in Hb. rewrite Hb.
    rewrite (bind_done _ _ _ _ _ _ _ _ (on_cpuid_same _ d g d [] _ (tsc_unknown d c))).
    by eexists.
Qed.

(** ** The measurement *)

#[local] Opaque wait_pit_count_precise.

(** The three registers, in the order in which they are written: the count starts last. *)
Definition timer_writes (vector initial_count divide mode mask : Z) : list (Z * Z) :=
  [(0xFEE003E0, u32 (divide_configuration_raw divide)); (0xFEE00320, u32 (lvt_timer_raw vector mask mode));
   (0xFEE00380, u32 initial_count)].

Lemma start_timer_yields vector initial_count divide mode mask g : mode < timer_mode.tsc_deadline ->
  yields (start_timer DEBUG vector initial_count divide mode mask : T unit) g tt g
    (map (fun w => EWrite (fst w) (snd w)) (timer_writes vector initial_count divide mode mask)).
Proof.
  intros Hm. unfold start_timer. apply (returns_bind _ _ g tt g); [|by intros d].
  destruct DEBUG; [|by intros d].
  rewrite (proj2 (Z.leb_le mode timer_mode.tsc_deadline)) by lia.
  apply (returns_bind _ _ g tt g); [by intros d|]. apply returns_gets.
  rewrite (proj2 (Z.eqb_neq mode timer_mode.tsc_deadline)) by lia. rewrite andb_false_r. by intros d.
Qed.

Definition pit_of (g : timer_globals) : pit_globals := of_pit (of_apic g).

Lemma on_pit_yields {A} (m : M D pit_globals A) g a p es : yields m (pit_of g) a p es ->
  exists g', yields (on_apic (with_pit m) : T A) g a g' es /\ pit_of g' = p.
Proof. intros Hm. eexists. split; [by apply yields_zoom, yields_zoom|done]. Qed.

(** The whole number of times that the counter is faster, and the product with the frequency. *)
Lemma frequency_bounds cc : is_u32 cc -> (0xFFFFFFFF - cc) / 65536 < 3600 ->
  let f := u32 (PIT_FREQ_HZ * ((0xFFFFFFFF - cc) / 65536)) in
  65536 * f <= PIT_FREQ_HZ * (0xFFFFFFFF - cc) < 65536 * (f + PIT_FREQ_HZ).
Proof.
  intros Hcc Hlt. cbv zeta. set (q := (0xFFFFFFFF - cc) / 65536) in *.
  assert (Hq : 65536 * q <= 0xFFFFFFFF - cc < 65536 * (q + 1)).
  { unfold q. pose proof (Z.div_mod (0xFFFFFFFF - cc) 65536 ltac:(lia)).
    pose proof (Z.mod_pos_bound (0xFFFFFFFF - cc) 65536 ltac:(lia)). lia. }
  assert (0 <= q) by (unfold is_u32 in *; lia).
  rewrite (u32_small (PIT_FREQ_HZ * q)) by (unfold is_u32, PIT_FREQ_HZ; lia). unfold PIT_FREQ_HZ in *. lia.
Qed.

(** C36: On a machine whose timer ticks, the measurement returns, and it is of this order: the three
    registers of the APIC's timer are written, the count last; the interval timer is set to one shot
    of 65536 ticks and an interrupt of it is handled; the count of the APIC's timer is read, once.
    Nothing else is written to either timer, nor is the count read elsewhere.  The frequency that comes
    out is that of the interval timer times the whole number of times that the APIC's count fell faster:
    below the one that the count shows by less than one frequency of the interval timer as long as the
    product fits. *)
Theorem sync_measures n g : ok (pit_of g) -> maxima_of g -> (forall d, arrives_within n d) ->
  ensures (sync_apic_with_pit DEBUG false (S (S n)) : T Z) g (fun f g' es => exists cc before waiting after,
    es = before ++
         map (fun w => EWrite (fst w) (snd w)) (timer_writes apic_sync_interrupt 0xFFFFFFFF
           divide_configuration.divide_by_1 timer_mode.single_shot mask.disable) ++
         waiting ++ ERead current_count_address cc :: after /\
    silent before /\ silent after /\
    counts waiting = [] /\ writes waiting = [] /\ waits_through Bit_1_3.single_shot (2 ^ 16) 1 waiting /\
    is_u32 cc /\ f = u32 (PIT_FREQ_HZ * ((0xFFFFFFFF - cc) / 2 ^ 16)) /\ apic_frequency g' = f /\
    ((0xFFFFFFFF - cc) / 2 ^ 16 < 3600 ->
      2 ^ 16 * f <= PIT_FREQ_HZ * (0xFFFFFFFF - cc) < 2 ^ 16 * (f + PIT_FREQ_HZ))).
Proof.
  intros Hok Hm Ha. unfold sync_apic_with_pit.
  apply (ensures_bind _ _ _ (fun f g' es => (f >? 10) = false /\ g' = g /\ silent es)).
  { intros d. destruct (tsc_frequency_never_found d g Hm) as (es & Hr & Hs). rewrite Hr. eexists.
    split; [done|]. cbn [o_glob o_events]. split; [|done]. destruct (_ <? _); [done|]. by destruct (Z.testbit _ _). }
  intros tsc ? es0 (-> & -> & Hs0).
  apply (ensures_step _ _ g tt g []); [by intros d|].
  destruct (get_quick_path_yields (D:=D) _ Hok) as (p1 & Hy1 & Hok1).
  destruct (on_pit_yields _ g _ p1 _ Hy1) as (g1 & Hg1 & <-).
  apply (ensures_step _ _ _ _ _ _ _ Hg1).
  destruct (quick_path_yields (D:=D) true _ Hok1) as (p2 & Hy2 & Hok2).
  destruct (on_pit_yields _ g1 _ p2 _ Hy2) as (g2 & Hg2 & <-).
  apply (ensures_step _ _ _ _ _ _ _ Hg2). cbv zeta.
  apply (ensures_step _ _ _ _ _ _ _ (start_timer_yields _ _ _ timer_mode.single_shot _ g2 eq_refl)).
  apply (ensures_bind _ _ _ (fun _ g' es => ok (pit_of g') /\ counts es = [] /\ writes es = [] /\
    waits_through Bit_1_3.single_shot (2 ^ 16) 1 es)).
  { apply ensures_zoom, ensures_zoom. by apply (wait_pit_count_precise_ends DEBUG n (pit_of g2)). }
  intros [] g3 es3 (Hok3 & Hc3 & Hw3 & Hp3).
  eapply ensures_bind; [apply ensures_mmio_read|]. intros cc ? ? (Hcc & -> & ->).
  destruct (quick_path_yields (D:=D) (quick_pit (pit_of g)) _ Hok3) as (p4 & Hy4 & Hok4).
  destruct (on_pit_yields _ g3 _ p4 _ Hy4) as (g4 & Hg4 & <-).
  apply (ensures_step _ _ _ _ _ _ _ Hg4). apply ensures_modify.
  eapply ensures_step; [apply yields_kprintf|]. apply ensures_gets.
  eapply ensures_step; [apply yields_kprintf|].
  apply (ensures_step _ _ _ _ _ _ _ (returns_ret tt _)). apply ensures_gets.
  apply (ensures_step _ _ _ _ _ _ _ (returns_ret tt _)).
  eapply ensures_step; [apply yields_kprintf|].
  eapply ensures_step; [apply yields_emit|].
  eapply ensures_step; [apply yields_emit|].
  apply (ensures_step _ _ _ _ _ _ _ (returns_ret tt _)).
  intros d. eexists. split; [reflexivity|]. cbn [o_glob o_events]. change (2 ^ 16) with 65536 in *.
  eexists cc, es0, es3, _. split; [reflexivity|]. split; [exact Hs0|]. split; [done|].
  split; [exact Hc3|]. split; [exact Hw3|]. split; [exact Hp3|]. split; [done|].
  assert (Hu : u32 (0xFFFFFFFF - cc) = 0xFFFFFFFF - cc) by (apply u32_small; unfold is_u32 in *; lia).
  cbn [apic_frequency set_frequency]. rewrite Hu.
  split; [unfold u32; by rewrite Z.mod_mod by done|]. split.
  { cbn. unfold u32. by rewrite Z.mod_mod. }
  intros Hlt. rewrite (u32_small (u32 _)) by apply u32_range. by apply frequency_bounds.
Qed.
End timer.

(** ** Examples *)

(** A computer whose every stretch of running code brings the timer's interrupt, and whose
    processor has no leaves. *)
#[local] Instance always_interrupted : Interrupts no_device := {
  next_interrupt := fun d => (Some IRQ0, d);
  passing := fun d => (Some IRQ0, d)
}.
#[local] Existing Instance five_functions.

Definition before_sync : timer_globals :=
  mk_timer (mk_apic false [] 0 [] [] 1 pit_boot maxima_known) 0.

Lemma sync_measures_witness :
  ok (pit_of before_sync) /\ maxima_of before_sync /\ exists f cc waiting,
    o_exit (sync_apic_with_pit (D:=no_device) true false 3 ND before_sync) = Done f /\
    f = u32 (PIT_FREQ_HZ * ((0xFFFFFFFF - cc) / 2 ^ 16)) /\
    waits_through Bit_1_3.single_shot (2 ^ 16) 1 waiting.
Proof.
  assert (Hok : ok (pit_of before_sync)) by exact (conj boot_ok eq_refl).
  assert (Ha : forall d : no_device, arrives_within 1 d) by (intros d; exact I).
  assert (Hm : maxima_of before_sync) by (by split).
  split; [exact Hok|]. split; [exact Hm|].
  destruct (sync_measures (D:=no_device) true 1 before_sync Hok Hm Ha ND)
    as (f & He & cc & before & waiting & after & _ & _ & _ & _ & _ & Hw & _ & Hf & _).
  exists f, cc, waiting. split; [exact He|]. split; [exact Hf|exact Hw].
Defined.
