(* ===== verification/MulticoreGdt.v ===== *)
(** * A segment per processor ([cpu/gdt/multicore_gdt.cpp])

    The new descriptor table: the entries of the old one and, for every processor, one segment to
    be used through [fs] and one through [gs].  A processor finds its number at [fs:0]. *)

From S2P Require Import Prelude Machine Bits StringHelper Terminal BitHex SegmentDescriptor.

(** [multicore/core_count.h] *)
Definition GDT_KERNEL_CODE : Z := 0x08.
Definition GDT_KERNEL_DATA : Z := 0x10.
Definition GDT_TLS_BASE : Z := 0x28.
Definition GDT_TLS_STRIDE : Z := 0x10.
Definition MAX_CORE_COUNT : Z := 12.
Definition NEW_GDT_ENTRY_COUNT : Z := 4 + MAX_CORE_COUNT * 2.

(** [sizeof] of the structs: [GDT_ENTRY], [FS_CONTENT] (one byte), [GS_CONTENT], [FS_GS]. *)
Definition GDT_ENTRY_size : Z := 8.
Definition FS_CONTENT_size : Z := 1.
Definition GS_CONTENT_size : Z := 4.
Definition FS_GS_size : Z := 8.

Inductive fs_or_gs := fs | gs.
Definition fs_or_gs_value (w : fs_or_gs) : Z := match w with fs => 0 | gs => 1 end.

(** The limit of the descriptor table register, the entries of the table it points to, and the
    selectors in [fs] and [gs]. *)
Record gdt_globals := mk_gdt_globals {
  gdt_limit : Z;
  gdt : list segment_descriptor_t;
  fs_selector : Z;
  gs_selector : Z;
}.
Definition set_table (lim : Z) (t : list segment_descriptor_t) (g : gdt_globals) : gdt_globals :=
  mk_gdt_globals lim t (fs_selector g) (gs_selector g).

Definition no_entry : segment_descriptor_t := mk_descriptor 0 0 0 0 0 0 0 0 0 0 0 0 0.
(** [new_gdt], in the section of zeros. *)
Definition new_gdt : list segment_descriptor_t := repeat no_entry (Z.to_nat NEW_GDT_ENTRY_COUNT).

Section multicore_gdt.
Context {D : Type}.
(** Where [new_gdt], its end and [all_fs_and_gs] lie. *)
Context (new_gdt_address new_gdt_end all_fs_and_gs : Z).
Local Abbreviation K A := (M D gdt_globals A).

(** The entries of the table according to the limit. *)
Definition entry_count (g : gdt_globals) : Z := u16 ((gdt_limit g + 1) / GDT_ENTRY_size).

Definition init_new_gdt : K unit :=
  g ← get;
  let entries_to_copy := entry_count g in
  if entries_to_copy >? NEW_GDT_ENTRY_COUNT
  then abort_msg "New gdt isn't big enough to have the old gdt entry values\n" [] else
  (if Z.of_nat (length (gdt g)) <? entries_to_copy then stop Undefined else mret tt);;
  let new_limit := u16 (entries_to_copy * GDT_ENTRY_size - 1) in
  kprintf "new_gdtr = (%h, %u)\n" [PNum new_gdt_address; PNum new_limit];;
  Machine.put (set_table new_limit
    (take (Z.to_nat entries_to_copy) (gdt g) ++ drop (Z.to_nat entries_to_copy) new_gdt) g).

Definition add_gdt_entry (entry : segment_descriptor_t) : K unit :=
  g ← get;
  let current_entries := entry_count g in
  if current_entries >=? NEW_GDT_ENTRY_COUNT
  then abort_msg "GDT is full! Cannot add more entries.\n" [] else
  read_cell (gdt g !! Z.to_nat current_entries);;
  let new_limit := u16 (gdt_limit g + GDT_ENTRY_size) in
  kprintf "Added GDT entry at index %u, new limit = %u\n" [PNum current_entries; PNum new_limit];;
  Machine.put (set_table new_limit (<[Z.to_nat current_entries := entry]> (gdt g)) g).

(** The entry of [add_fs_or_gs]; the base and the limit are set in it afterwards. *)
Definition data_entry : segment_descriptor_t := mk_descriptor 0 0 0 3 1 0 1 0 0 0 1 0 0.
Definition add_fs_or_gs (base size : Z) : K unit :=
  add_gdt_entry (set_segment_descriptor_limit (set_segment_descriptor_base data_entry base) (u32 (size - 1))).

Definition add_multicore_gdt_entry : K unit :=
  for_range (Z.to_nat MAX_CORE_COUNT) 0 (fun i =>
    add_fs_or_gs (u32 (all_fs_and_gs + FS_GS_size * i)) FS_CONTENT_size;;
    add_fs_or_gs (u32 (all_fs_and_gs + FS_GS_size * i + 4)) GS_CONTENT_size).

Definition init_multicore_gdt : K unit :=
  kprintf "new gdt = %h\n" [PNum new_gdt_address];;
  kprintf "new gdt end = %h\n" [PNum new_gdt_end];;
  init_new_gdt;;
  add_multicore_gdt_entry.

(** A selector with its 13 bits of index, privilege 0, of this table. *)
Definition selector (index : Z) : Z := index mod 2 ^ 13 * 2 ^ 3.

(** As written: the selector for [fs] goes to [gs] and the other way round. *)
Definition set_fs_or_segment_selector (core_id : Z) (segment_selector : fs_or_gs) : K unit :=
  let seg := selector (4 + core_id * 2 + fs_or_gs_value segment_selector) in
  match segment_selector with
  | fs => modify (fun g => mk_gdt_globals (gdt_limit g) (gdt g) (fs_selector g) seg)
  | gs => modify (fun g => mk_gdt_globals (gdt_limit g) (gdt g) seg (gs_selector g))
  end.
End multicore_gdt.
