(* ===== verification/MulticoreGdtFacts.v ===== *)
(** * Facts about the segments of the processors

    The table after the start, and which segment a processor reads its number through. *)

From S2P Require Import Prelude Machine Bits StringHelper Terminal BitHex SegmentDescriptor SegmentDescriptorFacts.
From S2P Require Import Machine MulticoreGdt.

(** What an access of [size] bytes at [offset] of the segment behind a selector reaches: the linear
    address, [None] beyond the limit (the granularity is bytes) or the table. *)
Definition segment_access (g : gdt_globals) (sel offset size : Z) : option Z :=
  let i := sel / 2 ^ 3 in
  if (i + 1) * GDT_ENTRY_size - 1 >? gdt_limit g then None else
  d ← gdt g !! Z.to_nat i;
  if offset + size - 1 >? get_segment_descriptor_limit d then None
  else Some (u32 (get_segment_descriptor_base d + offset)).

Definition fs_entry (all_fs_and_gs i : Z) : segment_descriptor_t :=
  set_segment_descriptor_limit (set_segment_descriptor_base data_entry (u32 (all_fs_and_gs + FS_GS_size * i))) 0.
Definition gs_entry (all_fs_and_gs i : Z) : segment_descriptor_t :=
  set_segment_descriptor_limit (set_segment_descriptor_base data_entry (u32 (all_fs_and_gs + FS_GS_size * i + 4))) 3.

Section facts.
Context {D : Type} (new_gdt_address new_gdt_end A : Z).
Local Abbreviation K T := (M D gdt_globals T).

Lemma entry_count_of g c : gdt_limit g = 8 * c - 1 -> 0 <= c < 2 ^ 13 -> entry_count g = c.
Proof.
  intros Hl Hc. unfold entry_count, GDT_ENTRY_size, u16. rewrite Hl.
  replace (8 * c - 1 + 1) with (c * 8) by lia. rewrite Z.div_mul by lia. apply Z.mod_small. lia.
Qed.

Lemma put_yields (g' g : gdt_globals) : yields (Machine.put g' : K unit) g tt g' [].
Proof. by intros d. Qed.

(** An entry is added behind the last one. *)
Lemma add_gdt_entry_yields entry g c : gdt_limit g = 8 * c - 1 -> 0 <= c < NEW_GDT_ENTRY_COUNT ->
  length (gdt g) = Z.to_nat NEW_GDT_ENTRY_COUNT ->
  exists es, yields (add_gdt_entry entry : K unit) g tt
    (set_table (8 * (c + 1) - 1) (<[Z.to_nat c := entry]> (gdt g)) g) es.
Proof.
  intros Hl Hc Hn. change NEW_GDT_ENTRY_COUNT with 28 in *. eexists. unfold add_gdt_entry.
  apply returns_get. rewrite (entry_count_of g c Hl) by lia.
  rewrite Z.geb_leb, (proj2 (Z.leb_gt NEW_GDT_ENTRY_COUNT c)) by (change NEW_GDT_ENTRY_COUNT with 28; lia).
  destruct (lookup_lt_is_Some_2 (gdt g) (Z.to_nat c)) as [old Hold]; [lia|].
  rewrite Hold. eapply returns_bind; [apply returns_ret|].
  eapply yields_bind; [apply yields_kprintf|].
  replace (8 * (c + 1) - 1) with (u16 (gdt_limit g + GDT_ENTRY_size)); [apply put_yields|].
  rewrite Hl. unfold u16, GDT_ENTRY_size. rewrite Z.mod_small; lia.
Qed.

(** The table with the segments of [n] processors from [i] on, behind [e] entries. *)
Fixpoint filled (e : Z) (n : nat) (i : Z) (t : list segment_descriptor_t) : list segment_descriptor_t :=
  match n with
  | O => t
  | S n =>
      filled e n (i + 1) (<[Z.to_nat (e + 2 * i + 1) := gs_entry A i]> (<[Z.to_nat (e + 2 * i) := fs_entry A i]> t))
  end.

Lemma length_filled e n : forall i t, length (filled e n i t) = length t.
Proof. induction n as [|n IH]; intros i t; cbn; [done|]. by rewrite IH, !length_insert. Qed.

Lemma filled_low e n : forall i t (k : nat), 0 <= e -> 0 <= i -> Z.of_nat k < e + 2 * i -> filled e n i t !! k = t !! k.
Proof.
  induction n as [|n IH]; intros i t k He Hi Hk; cbn [filled]; [done|].
  rewrite IH by lia. by rewrite !list_lookup_insert_ne by lia.
Qed.

Lemma filled_slots e n : forall i t j, 0 <= e -> 0 <= i <= j -> j < i + Z.of_nat n ->
  e + 2 * (i + Z.of_nat n) <= Z.of_nat (length t) ->
  filled e n i t !! Z.to_nat (e + 2 * j) = Some (fs_entry A j) /\
  filled e n i t !! Z.to_nat (e + 2 * j + 1) = Some (gs_entry A j).
Proof.
  induction n as [|n IH]; intros i t j He Hi Hj Hl; [lia|]. cbn [filled].
  destruct (decide (j = i)) as [->|Hne].
  - rewrite !filled_low by lia. split.
    + rewrite list_lookup_insert_ne by lia. apply list_lookup_insert_eq. lia.
    + apply list_lookup_insert_eq. rewrite length_insert. lia.
  - apply IH; try lia. rewrite !length_insert. lia.
Qed.

Lemma fill_yields e n : forall i g, 0 <= e -> 0 <= i -> gdt_limit g = 8 * (e + 2 * i) - 1 ->
  length (gdt g) = Z.to_nat NEW_GDT_ENTRY_COUNT -> e + 2 * (i + Z.of_nat n) <= NEW_GDT_ENTRY_COUNT ->
  exists es, yields (for_range n i (fun i =>
      add_fs_or_gs (u32 (A + FS_GS_size * i)) FS_CONTENT_size;;
      add_fs_or_gs (u32 (A + FS_GS_size * i + 4)) GS_CONTENT_size) : K unit) g tt
    (set_table (8 * (e + 2 * (i + Z.of_nat n)) - 1) (filled e n i (gdt g)) g) es.
Proof.
  induction n as [|n IH]; intros i g He Hi Hl Hn Hb; cbn [for_range filled].
  - exists []. replace (set_table _ _ g) with g; [apply returns_ret|].
    destruct g as [lim t f s]. unfold set_table. cbn in *. f_equal. lia.
  - destruct (add_gdt_entry_yields (fs_entry A i) g (e + 2 * i) Hl ltac:(lia) Hn) as [es1 H1].
    set (g1 := set_table _ _ g) in H1.
    destruct (add_gdt_entry_yields (gs_entry A i) g1 (e + 2 * i + 1) ltac:(done) ltac:(lia)) as [es2 H2].
    { unfold g1. cbn. by rewrite length_insert. }
    set (g2 := set_table _ _ g1) in H2.
    destruct (IH (i + 1) g2 He) as [es3 H3]; [lia|cbn; lia|cbn; by rewrite !length_insert|lia|].
    eexists. eapply yields_bind; [eapply yields_bind; [exact H1|exact H2]|].
    replace (e + 2 * (i + Z.of_nat (S n))) with (e + 2 * (i + 1 + Z.of_nat n)) by lia. exact H3.
Qed.

(** The start copies the old entries and adds the two segments of every processor behind them. *)
Theorem multicore_gdt_slots g e : 1 <= e <= 4 -> gdt_limit g = 8 * e - 1 -> e <= Z.of_nat (length (gdt g)) ->
  ensures (init_multicore_gdt new_gdt_address new_gdt_end A : K unit) g (fun _ g' _ =>
    gdt_limit g' = 8 * (e + 24) - 1 /\ length (gdt g') = 28%nat /\
    (forall k : nat, Z.of_nat k < e -> gdt g' !! k = gdt g !! k) /\
    (forall i, 0 <= i < MAX_CORE_COUNT ->
      gdt g' !! Z.to_nat (e + 2 * i) = Some (fs_entry A i) /\
      gdt g' !! Z.to_nat (e + 2 * i + 1) = Some (gs_entry A i))).
Proof.
  intros He Hl Hn. unfold init_multicore_gdt.
  eapply ensures_step; [apply yields_kprintf|]. eapply ensures_step; [apply yields_kprintf|].
  set (t := take (Z.to_nat e) (gdt g) ++ drop (Z.to_nat e) new_gdt).
  assert (Ht : length t = 28%nat).
  { unfold t. rewrite length_app, length_take, length_drop. change (length new_gdt) with 28%nat. lia. }
  apply (ensures_bind _ _ _ (fun _ g' _ => g' = set_table (8 * e - 1) t g)).
  { unfold init_new_gdt. apply ensures_get. rewrite (entry_count_of g e Hl) by lia.
    rewrite Z.gtb_ltb, (proj2 (Z.ltb_ge NEW_GDT_ENTRY_COUNT e)) by (change NEW_GDT_ENTRY_COUNT with 28; lia).
    rewrite (proj2 (Z.ltb_ge (Z.of_nat (length (gdt g))) e)) by lia.
    eapply ensures_step; [apply returns_ret|]. eapply ensures_step; [apply yields_kprintf|].
    intros d. exists tt. split; [done|].
    replace (8 * e - 1) with (u16 (e * GDT_ENTRY_size - 1)); [done|].
    unfold u16, GDT_ENTRY_size. rewrite Z.mod_small; lia. }
  intros [] g1 es ->. unfold add_multicore_gdt_entry.
  destruct (fill_yields e (Z.to_nat MAX_CORE_COUNT) 0 (set_table (8 * e - 1) t g)) as [es' Hy];
    [lia|lia|cbn; lia|exact Ht|change NEW_GDT_ENTRY_COUNT with 28; change (Z.to_nat MAX_CORE_COUNT) with 12%nat; lia|].
  eapply ensures_yields; [exact Hy|]. cbn [gdt gdt_limit set_table].
  change (Z.to_nat MAX_CORE_COUNT) with 12%nat.
  split; [lia|]. split; [by rewrite length_filled|]. split.
  - intros k Hk. rewrite filled_low by lia. unfold t. rewrite lookup_app_l by (rewrite length_take; lia).
    apply lookup_take_lt. lia.
  - intros i Hi. change MAX_CORE_COUNT with 12 in Hi. apply filled_slots; lia.
Qed.

(** The selector that [set_fs_or_segment_selector] computes. *)
Lemma selector_index i : 0 <= i < 2 ^ 13 -> selector i / 2 ^ 3 = i.
Proof. intros Hi. unfold selector. rewrite Z.mod_small, Z.div_mul; lia. Qed.

Lemma entry_reads base limit : is_u32 base -> 0 <= limit < 2 ^ 20 ->
  let d := set_segment_descriptor_limit (set_segment_descriptor_base data_entry base) limit in
  get_segment_descriptor_base d = base /\ get_segment_descriptor_limit d = limit.
Proof.
  intros Hb Hl d. split.
  - unfold d. change (get_segment_descriptor_base (set_segment_descriptor_limit ?x limit))
      with (get_segment_descriptor_base x). by apply base_read_back.
  - unfold d. rewrite limit_read_back by (unfold is_u32; lia). by apply Z.mod_small.
Qed.

(** C37: With the four entries the indices count on: asked for [gs], the driver loads [fs] with the
    segment of the processor's [gs], four bytes at [all_fs_and_gs + 8 * core_id + 4]; asked for [fs]
    it loads [gs] with a segment of one byte, in which an access of four bytes fails. *)
Theorem core_segments_swapped g core_id : gdt_limit g = 31 -> 4 <= Z.of_nat (length (gdt g)) ->
  0 <= core_id < MAX_CORE_COUNT -> 0 <= A -> A + 8 * MAX_CORE_COUNT <= 2 ^ 32 ->
  ensures (init_multicore_gdt new_gdt_address new_gdt_end A;;
           set_fs_or_segment_selector core_id gs;;
           set_fs_or_segment_selector core_id fs : K unit) g (fun _ g' _ =>
    segment_access g' (fs_selector g') 0 4 = Some (A + 8 * core_id + 4) /\
    segment_access g' (gs_selector g') 0 4 = None /\
    segment_access g' (gs_selector g') 0 1 = Some (A + 8 * core_id)).
Proof.
  intros Hl Hn Hc HA HA'. change MAX_CORE_COUNT with 12 in *.
  eapply ensures_bind; [apply (multicore_gdt_slots g 4); lia|].
  intros [] g1 es (Hl1 & Hn1 & _ & Hs). destruct (Hs core_id Hc) as [Hfs Hgs].
  destruct (entry_reads (u32 (A + FS_GS_size * core_id)) 0 (u32_range _) ltac:(lia)) as [Bf Lf].
  destruct (entry_reads (u32 (A + FS_GS_size * core_id + 4)) 3 (u32_range _) ltac:(lia)) as [Bg Lg].
  apply ensures_modify. intros d. exists tt. split; [done|].
  change (o_glob _) with (mk_gdt_globals (gdt_limit g1) (gdt g1) (selector (4 + core_id * 2 + 1))
    (selector (4 + core_id * 2 + 0))).
  unfold segment_access. cbn [gdt_limit gdt fs_selector gs_selector].
  rewrite !selector_index, Hl1 by lia. unfold GDT_ENTRY_size.
  rewrite !Z.gtb_ltb, !(proj2 (Z.ltb_ge (8 * (4 + 24) - 1) _)) by lia.
  replace (4 + core_id * 2 + 1) with (4 + 2 * core_id + 1) by lia. rewrite Hgs.
  replace (4 + core_id * 2 + 0) with (4 + 2 * core_id) by lia. rewrite Hfs.
  cbn [mbind option_bind]. unfold fs_entry, gs_entry in *. rewrite Bf, Lf, Bg, Lg.
  change (3 <? 0 + 4 - 1) with false. change (0 <? 0 + 4 - 1) with true. change (0 <? 0 + 1 - 1) with false.
  rewrite !Z.add_0_r. unfold FS_GS_size, u32. rewrite !(Z.mod_small (_ + _)) by (rewrite ?Z.mod_small; lia). done.
Qed.
End facts.

(** ** The theorems at concrete inputs

    A table of four entries, as the boot code leaves it. *)
Definition boot_gdt : gdt_globals := mk_gdt_globals 31 (repeat no_entry 4) 0 0.

Lemma multicore_gdt_slots_witness :
  exists g', o_glob (init_multicore_gdt (D:=no_device) 0x9000 0x90E0 0x110000 ND boot_gdt) = g' /\ gdt_limit g' = 223.
Proof.
  destruct (multicore_gdt_slots (D:=no_device) 0x9000 0x90E0 0x110000 boot_gdt 4 ltac:(lia) eq_refl
    ltac:(done) ND) as (v & _ & Hl & _).
  eexists. split; [reflexivity|exact Hl].
Defined.

Lemma core_segments_swapped_witness :
  exists g', segment_access g' (fs_selector g') 0 4 = Some 0x110014 /\ segment_access g' (gs_selector g') 0 4 = None.
Proof.
  destruct (core_segments_swapped (D:=no_device) 0x9000 0x90E0 0x110000 boot_gdt 2 eq_refl ltac:(done)
    ltac:(by split) ltac:(done) ltac:(done) ND) as (v & _ & Hf & Hg & _).
  eexists. split; [exact Hf|exact Hg].
Defined.
