(* ===== verification/EventLoop.v ===== *)
(** * The pointer on the screen ([cpp_event_loop] of [kernel/cpp/kernel_cpp.cpp])

    Each round of the main loop of the kernel puts the pixel under the old position of the mouse
    back, saves the pixel under the new one and draws the pointer there.  The handler of the mouse
    may run between any two of these steps. *)

From S2P Require Import Prelude Machine Framebuffer FramebufferFacts Mouse.

(** The static variables of the function. *)
Record cursor := mk_cursor { old_x : Z; old_y : Z; old_color : Color; current_color : Color; first_itt : bool }.
Definition cursor_boot : cursor := mk_cursor 0 0 (Color_of_hex 0xff0000) (Color_of_hex 0x00ff00) true.

Record event_globals := mk_event { of_mouse : Mouse.globals; of_cursor : cursor }.
Definition set_mouse (m : Mouse.globals) (g : event_globals) : event_globals := mk_event m (of_cursor g).
Definition set_cursor (c : cursor) (g : event_globals) : event_globals := mk_event (of_mouse g) c.

Section event_loop.
Context {D : Type} `{PortDevice D}.
(** Built with [-DDEBUG] or not. *)
Context (DEBUG : bool).
Local Abbreviation E A := (M D event_globals A).

Definition on_mouse {A} (m : M D Mouse.globals A) : E A := zoom of_mouse set_mouse m.
Definition on_frame {A} (m : M D FrameBuffer A) : E A := on_mouse (Mouse.frame m).
Definition position_of_mouse : E (Z * Z) :=
  gets (fun g => (m_x (g_mouse_prop (of_mouse g)), m_y (g_mouse_prop (of_mouse g)))).

(** [interrupted] is what interrupts do between the reading and the drawing of the pointer's pixel. *)
Definition cpp_event_loop (interrupted : E unit) : E Z :=
  c ← gets of_cursor;
  (if negb (first_itt c) then on_frame (set_pixel DEBUG (old_x c) (old_y c) (old_color c));; mret tt
   else mret tt);;
  '(x, y) ← position_of_mouse;
  current ← on_frame (get_pixel DEBUG x y);
  interrupted;;
  '(x, y) ← position_of_mouse;
  on_frame (set_pixel DEBUG (u16 x) (u16 y) (Color_of_hex 0xffffff));;
  modify (set_cursor (mk_cursor x y current current false));;
  mret 0.
End event_loop.
