(* ===== verification/EventLoopFacts.v ===== *)
(** * The pointer leaves no trace

    As long as the mouse does not move while a round of the event loop runs, the frame is what has
    been drawn on it with the pointer on top; a movement in the middle of a round leaves a wrong
    pixel behind. *)

From S2P Require Import Prelude Machine Bits Framebuffer FramebufferFacts Mouse EventLoop.

Lemma byte_testbit v n s i : 0 <= n -> 0 <= s -> 0 <= i ->
  Z.testbit (((v ≫ n) .& Z.ones 8) ≪ s) i = (s <=? i) && (i <? s + 8) && Z.testbit v (i - s + n).
Proof.
  intros Hn Hs Hi. destruct (Z.leb_spec s i); [|by rewrite Z.shiftl_spec_low by lia].
  rewrite Z.shiftl_spec, Z.land_spec, Z.shiftr_spec, ones_testbit by lia.
  replace (i - s <? 8) with (i <? s + 8) by (apply eq_bool_prop_intro; rewrite !Is_true_true, !Z.ltb_lt; lia).
  rewrite (proj2 (Z.leb_le 0 (i - s))) by lia. by rewrite andb_true_l, andb_comm.
Qed.

(** The colour that is saved is the word that is put back. *)
Lemma packed_hex v : is_u32 v -> packed (Color_of_hex v) = v.
Proof.
  intros Hv. unfold packed, Color_of_hex. cbn [a r g b]. change 0xFF with (Z.ones 8).
  assert (Hu : forall x, u8 (x .& Z.ones 8) = x .& Z.ones 8).
  { intros x. rewrite Z.land_ones by lia. apply Z.mod_mod. lia. }
  rewrite !Hu. apply Z.bits_inj'. intros i Hi.
  replace (v .& Z.ones 8) with (((v ≫ 0) .& Z.ones 8) ≪ 0) by (by rewrite Z.shiftr_0_r, Z.shiftl_0_r).
  rewrite !Z.lor_spec, !byte_testbit by lia. rewrite !Z.sub_add.
  destruct (Z.ltb_spec i 32).
  - assert (Hc : (24 <=? i) && (i <? 24 + 8) || (16 <=? i) && (i <? 16 + 8) || (8 <=? i) && (i <? 8 + 8) ||
      (0 <=? i) && (i <? 0 + 8) = true) by lia.
    rewrite <- !andb_orb_distrib_l, Hc. done.
  - rewrite (testbit_u32 v i) by (done || lia). by rewrite !andb_false_r.
Qed.

Definition white : Z := packed (Color_of_hex 0xffffff).

(** ** Dots *)

Lemma dot_width f w : width (dot f w) = width f. Proof. done. Qed.

Lemma dot_framed f w : framed f -> framed (dot f w).
Proof. exact (paint_framed [w] f). Qed.

(** The last of two dots on a point stays; dots on different points do not disturb each other. *)
Lemma dot_dot f p c c' : dot (dot f (p, c)) (p, c') = dot f (p, c').
Proof. unfold dot, set_pixels, index. cbn. by rewrite list_insert_insert_eq. Qed.

Lemma dot_comm f p q c c' : framed f -> inside f p -> inside f q -> p <> q ->
  dot (dot f (p, c)) (q, c') = dot (dot f (q, c')) (p, c).
Proof.
  intros Hf Hp Hq Hne. unfold dot. cbn. unfold set_pixels at 1 4. cbn. f_equal.
  change (index (set_pixels _ f) q) with (index f q). change (index (set_pixels _ f) p) with (index f p).
  apply list_insert_insert_ne. intros He. apply Hne. symmetry in He. by apply (index_inj f p q).
Qed.

(** A list of dots that leaves the point of a dot alone. *)
Lemma paint_dot w : forall f p c, framed f -> inside f p -> Forall (fun d => inside f d.1 /\ d.1 <> p) w ->
  paint w (dot f (p, c)) = dot (paint w f) (p, c).
Proof.
  induction w as [|[q c'] w IH]; intros f p c Hf Hp Hw; [done|].
  inversion Hw as [|? ? [Hq Hne] Hw']; subst. cbn [fst] in *.
  change (paint ((q, c') :: w) (dot f (p, c))) with (paint w (dot (dot f (p, c)) (q, c'))).
  change (paint ((q, c') :: w) f) with (paint w (dot f (q, c'))).
  rewrite dot_comm by (done || congruence). apply IH; [by apply dot_framed|exact Hp|exact Hw'].
Qed.

(** Putting a point's own word back changes nothing. *)
Lemma dot_own f p : framed f -> inside f p -> dot f (p, default 0 (pixel f p)) = f.
Proof.
  intros Hf Hp. unfold dot, pixel. cbn.
  pose proof (index_bound f p Hf Hp) as Hb. destruct Hf as [? ? ? Hm].
  destruct (lookup_lt_is_Some_2 (pixels f) (index f p)) as [w Hw]; [unfold index; lia|].
  rewrite Hw. cbn. rewrite list_insert_id by done. by destruct f.
Qed.

Lemma pixel_dot f p q c : framed f -> inside f p -> inside f q ->
  pixel (dot f (p, c)) q = if decide (p = q) then Some c else pixel f q.
Proof.
  intros Hf Hp Hq. unfold pixel. cbn. change (index (dot f (p, c)) q) with (index f q). case_decide as Hd.
  - subst. apply list_lookup_insert_eq. pose proof (index_bound f q Hf Hq). destruct Hf as [? ? ? Hm].
    unfold index. lia.
  - apply list_lookup_insert_ne. intros He. apply Hd. by apply (index_inj f p q).
Qed.

Lemma pixel_paint_other w : forall f p, framed f -> inside f p ->
  Forall (fun d => inside f d.1 /\ d.1 <> p) w -> pixel (paint w f) p = pixel f p.
Proof.
  induction w as [|[q c] w IH]; intros f p Hf Hp Hw; [done|].
  inversion Hw as [|? ? [Hq Hne] Hw']; subst. cbn [fst] in *.
  change (paint ((q, c) :: w) f) with (paint w (dot f (q, c))).
  rewrite (IH (dot f (q, c)) p (dot_framed _ _ Hf) Hp Hw'), pixel_dot by done.
  by rewrite decide_False.
Qed.

(** ** Rounds *)

Definition screen (g : event_globals) : FrameBuffer := g_framebuffer (of_mouse g).
Definition pointer (g : event_globals) : point := (m_x (g_mouse_prop (of_mouse g)), m_y (g_mouse_prop (of_mouse g))).
Definition old_position (g : event_globals) : point := (old_x (of_cursor g), old_y (of_cursor g)).
Definition words_u32 (f : FrameBuffer) : Prop := Forall is_u32 (pixels f).

(** What the rest of the kernel does: the mouse moves, something is drawn. *)
Definition move_pointer (p : point) (g : event_globals) : event_globals :=
  set_mouse (set_prop (with_y p.2 (with_x p.1 (g_mouse_prop (of_mouse g)))) (of_mouse g)) g.
Definition draw (f : FrameBuffer) (g : event_globals) : event_globals :=
  set_mouse (Mouse.set_framebuffer f (of_mouse g)) g.

Lemma pixel_u32 f p : words_u32 f -> is_u32 (default 0 (pixel f p)).
Proof.
  intros Hf. unfold pixel. destruct (pixels f !! index f p) as [v|] eqn:Hv; [|done].
  by apply (Forall_lookup_1 _ _ _ _ Hf Hv).
Qed.

(** [base] without the pointer, and the frame with the pointer on it. *)
Record covers (base : FrameBuffer) (g : event_globals) : Prop := {
  covers_framed : framed base;
  covers_words : words_u32 base;
  covers_screen : screen g = if first_itt (of_cursor g) then base else dot base (old_position g, white);
  covers_old : first_itt (of_cursor g) = false -> inside base (old_position g) /\
    packed (old_color (of_cursor g)) = default 0 (pixel base (old_position g));
}.

Section rounds.
Context {D : Type} `{PortDevice D} (DEBUG : bool).
Local Abbreviation E A := (M D event_globals A).

Lemma on_frame_yields {A} (m : M D FrameBuffer A) g v f es :
  yields m (screen g) v f es -> yields (on_frame m : E A) g v (draw f g) es.
Proof. intros Hm. unfold on_frame, on_mouse, Mouse.frame.
  by apply (yields_zoom of_mouse set_mouse), (yields_zoom g_framebuffer Mouse.set_framebuffer).
Qed.

(** The first step takes the pointer off. *)
Lemma restored base g : covers base g ->
  returns ((if negb (first_itt (of_cursor g)) then
     on_frame (set_pixel DEBUG (old_x (of_cursor g)) (old_y (of_cursor g)) (old_color (of_cursor g)));; mret tt
   else mret tt) : E unit) g tt (draw base g).
Proof.
  intros [Hf Hw Hs Ho]. destruct (first_itt (of_cursor g)); cbn [negb].
  - unfold draw. rewrite <- Hs. unfold screen. destruct g as [[] ?]. apply returns_ret.
  - destruct (Ho eq_refl) as [Hin Hc].
    eapply returns_bind; [|apply returns_ret].
    replace base with (dot (screen g) (old_position g, packed (old_color (of_cursor g)))) at 1.
    2:{ by rewrite Hs, dot_dot, Hc, dot_own. }
    apply on_frame_yields. apply (set_pixel_inside DEBUG _ (old_position g)).
    + rewrite Hs. by apply dot_framed.
    + rewrite Hs. exact Hin.
Qed.

(** A round in whose middle the pointer moves to [q]. *)
Lemma round_interrupted i base g q : covers base g -> inside base (pointer g) -> inside base q ->
  (forall g', pointer g' = pointer g -> returns (i : E unit) g' tt (move_pointer q g')) ->
  let c := Color_of_hex (default 0 (pixel base (pointer g))) in
  returns (cpp_event_loop DEBUG i : E Z) g 0
    (set_cursor (mk_cursor q.1 q.2 c c false) (draw (dot base (q, white)) (move_pointer q g))).
Proof.
  intros Hc Hp Hq Hi' c. unfold cpp_event_loop. apply returns_gets.
  eapply returns_bind; [by apply restored|]. unfold position_of_mouse. apply returns_gets. cbv beta.
  change (m_x (g_mouse_prop (of_mouse (draw base g)))) with (pointer g).1.
  change (m_y (g_mouse_prop (of_mouse (draw base g)))) with (pointer g).2.
  eapply returns_bind.
  { apply on_frame_yields. apply (get_pixel_inside DEBUG base (pointer g)); [apply Hc|done]. }
  eapply returns_bind; [by apply Hi'|]. apply returns_gets. cbv beta.
  change (m_x (g_mouse_prop (of_mouse (move_pointer q (draw base (draw base g)))))) with q.1.
  change (m_y (g_mouse_prop (of_mouse (move_pointer q (draw base (draw base g)))))) with q.2.
  destruct (covers_framed _ _ Hc) as [Hw [Hu [Hh ?]] Hi Hm] eqn:?.
  rewrite !u16_small by (destruct Hq; unfold is_u16 in *; lia).
  eapply returns_bind.
  { apply on_frame_yields. apply (set_pixel_inside DEBUG base q); [apply Hc|done]. }
  by intros d.
Qed.

Lemma move_nowhere g : move_pointer (pointer g) g = g.
Proof. by destruct g as [[? ? ? [] ? ? ? ? ?] ?]. Qed.

(** What a round without an interruption leaves. *)
Lemma round_covers base g : covers base g -> inside base (pointer g) -> exists g',
  returns (cpp_event_loop DEBUG (mret tt) : E Z) g 0 g' /\ covers base g' /\
  old_position g' = pointer g /\ first_itt (of_cursor g') = false /\ pointer g' = pointer g.
Proof.
  intros Hc Hp.
  pose proof (round_interrupted (mret tt) base g (pointer g) Hc Hp Hp) as Hr.
  eexists. split; [apply Hr; intros g' <-; rewrite move_nowhere; apply returns_ret|].
  destruct Hc as [Hf Hw _ _]. split; [|done]. split; [done..|].
  intros _. split; [done|]. apply packed_hex. by apply pixel_u32.
Qed.

(** Between two rounds the frame is drawn on and the mouse moves. *)
Record round := mk_round { drawn : list (point * Z); moved_to : point }.
Definition world (r : round) (g : event_globals) : event_globals :=
  move_pointer (moved_to r) (draw (paint (drawn r) (screen g)) g).
Lemma pointer_world r g : pointer (world r g) = moved_to r.
Proof. unfold pointer, world. cbn. by destruct (moved_to r). Qed.
Fixpoint rounds (rs : list round) : E unit :=
  match rs with
  | [] => mret tt
  | r :: rs => modify (world r);; cpp_event_loop DEBUG (mret tt);; rounds rs
  end.

(** Nothing is drawn outside of the frame or on the pointer, and the mouse stays in the frame. *)
Fixpoint admissible (base : FrameBuffer) (shown : option point) (rs : list round) : Prop :=
  match rs with
  | [] => True
  | r :: rs =>
      Forall (fun d => inside base d.1 /\ Some d.1 <> shown /\ is_u32 d.2) (drawn r) /\
      inside base (moved_to r) /\ admissible base (Some (moved_to r)) rs
  end.
Definition shown (g : event_globals) : option point :=
  if first_itt (of_cursor g) then None else Some (old_position g).

Lemma admissible_paint w base : forall o rs, admissible base o rs -> admissible (paint w base) o rs.
Proof.
  intros o rs. revert o. induction rs as [|r rs IH]; intros o; [done|]. intros (Hd & Hm & Hr). split; [|split].
  - eapply Forall_impl; [|exact Hd]. cbn. intros d (H1 & H2). by rewrite paint_inside.
  - by apply paint_inside.
  - by apply IH.
Qed.

Lemma paint_words w : forall f, words_u32 f -> Forall (fun d => is_u32 d.2) w -> words_u32 (paint w f).
Proof.
  induction w as [|d w IH]; intros f Hf Hw; [done|]. inversion Hw; subst. apply IH; [|done].
  unfold words_u32, dot. cbn. by apply Forall_insert.
Qed.

Lemma world_covers base g r : covers base g ->
  Forall (fun d => inside base d.1 /\ Some d.1 <> shown g /\ is_u32 d.2) (drawn r) ->
  covers (paint (drawn r) base) (world r g).
Proof.
  intros [Hf Hw Hs Ho] Hd. unfold shown in Hd.
  assert (Hn : Forall (fun d => is_u32 d.2) (drawn r)) by (eapply Forall_impl; [|exact Hd]; cbn; tauto).
  split.
  - by apply paint_framed.
  - by apply paint_words.
  - change (screen (world r g)) with (paint (drawn r) (screen g)).
    change (first_itt (of_cursor (world r g))) with (first_itt (of_cursor g)).
    change (old_position (world r g)) with (old_position g). rewrite Hs.
    destruct (first_itt (of_cursor g)); [done|]. destruct (Ho eq_refl) as [Hin _].
    apply paint_dot; [done|done|]. eapply Forall_impl; [|exact Hd]. cbn. intros d (H1 & H2 & _). split; [done|congruence].
  - change (first_itt (of_cursor (world r g))) with (first_itt (of_cursor g)).
    change (old_position (world r g)) with (old_position g). intros Hfi. rewrite Hfi in Hd.
    destruct (Ho Hfi) as [Hin Hc]. split; [by apply paint_inside|].
    rewrite pixel_paint_other; [exact Hc|done|done|].
    eapply Forall_impl; [|exact Hd]. cbn. intros d (H1 & H2 & _). split; [done|].
    congruence.
Qed.

(** Whatever is drawn and wherever the mouse goes between the rounds, after each of them the frame
    is what has been drawn, with the pointer on top of it. *)
Lemma rounds_covers rs : forall base g r, covers base g -> admissible base (shown g) (rs ++ [r]) ->
  exists g', returns (rounds (rs ++ [r])) g tt g' /\ covers (paint (mjoin (map drawn (rs ++ [r]))) base) g' /\
    old_position g' = moved_to r /\ first_itt (of_cursor g') = false.
Proof.
  induction rs as [|r' rs IH]; intros base g r Hc (Hd & Hm & Hr).
  - destruct (round_covers (paint (drawn r) base) (world r g)) as (g' & Hg' & Hc' & Ho & Hf & _);
      [by apply world_covers|by apply paint_inside|].
    exists g'. cbn [app map mjoin list_join]. rewrite app_nil_r.
    split; [|split; [exact Hc'|split; [|exact Hf]]].
    + cbn [rounds]. eapply returns_bind; [apply returns_modify|]. eapply returns_bind; [exact Hg'|apply returns_ret].
    + rewrite Ho. apply pointer_world.
  - destruct (round_covers (paint (drawn r') base) (world r' g)) as (g1 & Hg1 & Hc1 & Ho1 & Hf1 & _);
      [by apply world_covers|by apply paint_inside|].
    destruct (IH (paint (drawn r') base) g1 r Hc1) as (g' & Hg' & Hc' & Ho & Hf).
    { unfold shown. rewrite Hf1, Ho1, pointer_world. by apply admissible_paint. }
    exists g'. cbn [app map mjoin list_join]. rewrite paint_app. split; [|done].
    cbn [rounds]. eapply returns_bind; [apply returns_modify|]. eapply returns_bind; [exact Hg1|exact Hg'].
Qed.

(** C11: However the mouse moves and whatever is drawn beside the pointer between the rounds of the event
    loop: after the last round the frame holds what has been drawn on it and the pointer at the last
    position, nothing else; no position leaves a trace. *)
Theorem pointer_leaves_no_trace base g rs r : framed base -> words_u32 base ->
  first_itt (of_cursor g) = true -> screen g = base -> admissible base None (rs ++ [r]) ->
  exists g', returns (rounds (rs ++ [r])) g tt g' /\
    screen g' = dot (paint (mjoin (map drawn (rs ++ [r]))) base) (moved_to r, white).
Proof.
  intros Hf Hw Hi Hs Ha. destruct (rounds_covers rs base g r) as (g' & Hg' & Hc & Ho & Hfi).
  - split; [done|done|by rewrite Hi|by rewrite Hi].
  - unfold shown. by rewrite Hi.
  - exists g'. split; [exact Hg'|]. rewrite (covers_screen _ _ Hc), Hfi, Ho. done.
Qed.

(** A movement from [p] to [q] in the middle of a round: the next round puts the pixel of [p] on
    [q]. *)
Theorem moving_pointer_leaves_trace base g q r : framed base -> words_u32 base ->
  first_itt (of_cursor g) = true -> screen g = base -> inside base (pointer g) -> inside base q -> inside base r ->
  exists g', returns (cpp_event_loop DEBUG (modify (move_pointer q));; modify (move_pointer r);;
      cpp_event_loop DEBUG (mret tt) : E Z) g 0 g' /\
    screen g' = dot (dot base (q, default 0 (pixel base (pointer g)))) (r, white).
Proof.
  intros Hf Hw Hi Hs Hp Hq Hr.
  assert (Hc : covers base g) by (split; [done|done|by rewrite Hi|by rewrite Hi]).
  set (c := Color_of_hex (default 0 (pixel base (pointer g)))).
  set (g1 := set_cursor (mk_cursor q.1 q.2 c c false) (draw (dot base (q, white)) (move_pointer q g))).
  set (base' := dot base (q, default 0 (pixel base (pointer g)))).
  assert (Hc' : covers base' (move_pointer r g1)).
  { split.
    - by apply dot_framed.
    - apply (paint_words [_] base Hw). constructor; [by apply pixel_u32|constructor].
    - cbn. change (screen (move_pointer r g1)) with (dot base (q, white)). unfold base'. destruct q. by rewrite dot_dot.
    - intros _. split; [done|]. change (old_position (move_pointer r g1)) with (q.1, q.2). unfold base'.
      destruct q as [x y]. cbn [fst snd]. rewrite pixel_dot by done. rewrite decide_True by done.
      apply packed_hex. by apply pixel_u32. }
  destruct (round_covers base' (move_pointer r g1) Hc' Hr) as (g' & Hg' & Hcov & Ho & Hfi & _).
  exists g'. split.
  - eapply returns_bind; [apply (round_interrupted _ base g q Hc Hp Hq); intros g0 _; by intros d|].
    eapply returns_bind; [apply returns_modify|exact Hg'].
  - rewrite (covers_screen _ _ Hcov), Hfi, Ho. by destruct r.
Qed.
End rounds.

(** ** Examples *)

Definition small_frame : FrameBuffer := mk_fb 4096 4 3 4 (map (fun i => i * 0x010203) (seqZ 0 12)).
Definition before_rounds : event_globals :=
  mk_event (mk_globals (mk_packet (first_packet_of 0) 0 0) 0 (mk_buttons false false false false false)
    (mk_mouse 0 0 0 (Color_of_hex 0)) small_frame 1 2 0 0) cursor_boot.

Lemma small_framed : framed small_frame.
Proof. by split; vm_compute; repeat split. Qed.
Lemma small_words : words_u32 small_frame.
Proof. by repeat constructor. Qed.

Lemma pointer_leaves_no_trace_witness : exists g',
  returns (rounds (D:=no_device) true
    [mk_round [] (1, 1); mk_round [((2, 1), 7)] (2, 2); mk_round [((1, 1), 9)] (3, 0)]) before_rounds tt g' /\
  pixels (screen g') = [0; 0x010203; 2 * 0x010203; 0xffffff; 4 * 0x010203; 9; 7; 7 * 0x010203;
    8 * 0x010203; 9 * 0x010203; 10 * 0x010203; 11 * 0x010203].
Proof.
  destruct (pointer_leaves_no_trace (D:=no_device) true small_frame before_rounds
    [mk_round [] (1, 1); mk_round [((2, 1), 7)] (2, 2)] (mk_round [((1, 1), 9)] (3, 0)) small_framed small_words
    eq_refl eq_refl) as (g' & Hg' & Hs).
  { cbn. repeat split; try lia; repeat constructor; cbn; (lia || congruence). }
  exists g'. split; [exact Hg'|]. rewrite Hs. by vm_compute.
Defined.

Lemma moving_pointer_leaves_trace_witness : exists g',
  returns (cpp_event_loop (D:=no_device) true (modify (move_pointer (2, 1)));; modify (move_pointer (3, 2));;
    cpp_event_loop true (mret tt)) before_rounds 0 g' /\
  pixel small_frame (2, 1) = Some (6 * 0x010203) /\ pixel (screen g') (2, 1) = Some 0.
Proof.
  destruct (moving_pointer_leaves_trace (D:=no_device) true small_frame before_rounds (2, 1) (3, 2) small_framed
    small_words eq_refl eq_refl ltac:(done) ltac:(done) ltac:(done)) as (g' & Hg' & Hs).
  exists g'. split; [exact Hg'|]. rewrite Hs. split; by vm_compute.
Defined.
