(* ===== verification/KernelCpp.v ===== *)
(** * The start of the processors and the main loops
    ([kernel/cpp/kernel_cpp.cpp], [cpu/multicore/multicore.cpp])

    [multicore_setup] reads the tables of the firmware, switches the APIC on, builds the segments of
    the processors, routes the interrupts, measures the timer and wakes the other processors;
    [cpp_main] follows it with the main loop of the first processor, [application_core_main] is
    that of the others. *)

From stdpp Require Import gmap.
From S2P Require Import Prelude Machine BitStruct StringHelper Terminal BitHex FloatText Lapic Pit Phys Processor Cpuid Apic.
From S2P Require Import Pic Idt SegmentDescriptor MulticoreGdt ApicIo ApicTimer Acpi Framebuffer Mouse EventLoop.
From S2P Require Import Machine.

(** What the machine adds: the store to [fs:0], and [multicore::entered_main[i]], which processor
    [i] sets when it enters its main function. *)
Class CoreMains (D : Type) := {
  fs_out : Z -> D -> D;
  entered_main : Z -> D -> bool * D;
}.

(** The globals of the parts. *)
Record kernel_globals := mk_kernel {
  of_timer : timer_globals;
  of_gdt : gdt_globals;
  of_event : event_globals;
}.
Definition set_timer (t : timer_globals) (g : kernel_globals) : kernel_globals := mk_kernel t (of_gdt g) (of_event g).
Definition set_gdt (t : gdt_globals) (g : kernel_globals) : kernel_globals := mk_kernel (of_timer g) t (of_event g).
Definition set_event (e : event_globals) (g : kernel_globals) : kernel_globals := mk_kernel (of_timer g) (of_gdt g) e.

Definition apic_wait_interrupt : Z := 58.

(** An [apic::error] as a number. *)
Definition error_number (e : error) : Z :=
  match e with no_error => 0 | boot_core_timeout => 1 | bad_time => 2 | timeout_sending_ipi => 3 end.

Section kernel.
Context {D : Type} `{PortDevice D} `{RegisterDevice D} `{Interrupts D} `{Processor D} `{OtherCores D} `{CoreMains D}.
(** Built with [-DDEBUG], with [-DQEMU], or not. *)
Context (DEBUG QEMU : bool).
(** The memory with the tables, and the addresses that the linker and the stack give. *)
Context (mem : Z -> Z) (new_gdt_address new_gdt_end all_fs_and_gs finished core_bootstrap application_core_main_address : Z).
(** The rounds of a loop, and the entries of a table, before the model gives up. *)
Context (wakeups : nat).
(** The interrupts of the mouse that are handled between two statements of [cpp_event_loop]. *)
Context (interrupted : M D event_globals unit).
Local Abbreviation K A := (M D kernel_globals A).

Definition on_timer {A} (m : M D timer_globals A) : K A := zoom of_timer set_timer m.
Definition on_lapic {A} (m : M D apic_globals A) : K A := on_timer (on_apic m).
Definition on_gdt {A} (m : M D gdt_globals A) : K A := zoom of_gdt set_gdt m.
Definition on_event {A} (m : M D event_globals A) : K A := zoom of_event set_event m.

(** *** Parts of [multicore_setup] *)

(** [multicore_gdt::set_fast_core_id] *)
Definition set_fast_core_id (core_id : Z) : K unit := fun d g =>
  Outcome (fs_out core_id d) g [ECall "mov fs:0" [core_id]] (Done tt).

(** [irq_to_gsi[i] = i], then the overrides of the table in order. *)
Definition identity_irqs : list Z := seqZ 0 number_of_apic_io_irq.
Fixpoint apply_overrides (entries irq_to_gsi : list Z) : K (list Z) :=
  match entries with
  | [] => mret irq_to_gsi
  | ios :: entries =>
      let gsi := u8 (u32_at mem (ios + 4)) in
      let irq := u8_at mem (ios + 3) in
      read_cell (irq_to_gsi !! Z.to_nat irq);;
      assert_handler_fmt (u8_at mem (ios + 2) =? 0) "If not ISA (0), then issue?\n" [];;
      kprintf "Irq Source: %u -> GSI : %u\n" [PNum irq; PNum gsi];;
      apply_overrides entries (<[Z.to_nat irq := gsi]> irq_to_gsi)
  end.

(** An assignment [core_is_active[core_id] = b]. *)
Definition set_active (active : list bool) (core_id : Z) (b : bool) : option (list bool) :=
  if core_id <? Z.of_nat (length active) then Some (<[Z.to_nat core_id := b]> active) else None.

(** [while (!multicore::entered_main[core_id])] *)
Fixpoint wait_entered (n : nat) (core_id : Z) : K unit :=
  match n with
  | O => stop Spinning
  | S n =>
      entered ← (fun d g => let '(b, d) := entered_main core_id d in Outcome d g [] (Done b));
      if (entered : bool) then mret tt else wait_entered n core_id
  end.

Definition wake_one (core_id : Z) (active : list bool) : K (list bool) :=
  err ← on_lapic (wake_core DEBUG wakeups finished core_id core_bootstrap application_core_main_address);
  if negb (bool_decide (err = no_error)) then
    active ← read_cell (set_active active core_id false);
    _ ← on_event (on_frame (draw_horizontal_line DEBUG (hline 20 0 1000 0xFFbb00 1)));
    kprintf "core %u timeout with error %u\n" [PNum core_id; PNum (error_number err)];;
    mret active
  else
    active ← read_cell (set_active active core_id true);
    wait_entered wakeups core_id;;
    kprintf "BSP Acknowledges Core %u entered it's main function\n" [PNum core_id];;
    mret active.

(** The processors of the table, but this one. *)
Fixpoint wake_cores (entries : list Z) (boot_core_id : Z) (active : list bool) : K (list bool) :=
  match entries with
  | [] => mret active
  | entry :: entries =>
      let core_id := u8_at mem (entry + 3) in
      if core_id =? boot_core_id then wake_cores entries boot_core_id active
      else
        active ← wake_one core_id active;
        kprintf "\n\n" [];;
        wake_cores entries boot_core_id active
  end.

Fixpoint check_active (i : Z) (entries : list Z) (active : list bool) : K unit :=
  match entries with
  | [] => mret tt
  | entry :: entries =>
      let core_id := u8_at mem (entry + 3) in
      is_active ← read_cell (active !! Z.to_nat core_id);
      kprintf "i: %u, core_id: %u, active: %b\n" [PNum i; PNum core_id; PNum (if (is_active : bool) then 1 else 0)];;
      assert_handler_fmt is_active "i: %u, Core %u must be active. All or nothing for now\n" [PNum i; PNum core_id];;
      check_active (i + 1) entries active
  end.

(** *** [multicore_setup], in its steps *)

Definition bool_number (b : bool) : Z := if b then 1 else 0.

(** The tables of the firmware; the results are the addresses of the table and its entries. *)
Definition parse_firmware (rsdp : Z) : K (Z * MADTParseResult) :=
  support ← on_lapic (has_apic DEBUG);
  kprintf "Support:\n  Apic: %b\n  x2Apic: %b\n\n\n" [PNum (bool_number (Apic.apic support)); PNum (bool_number (Apic.x2apic support))];;
  assert_handler_fmt (Apic.apic support || Apic.x2apic support) "Must have apic\n" [];;
  kprintf "Do we support tsc deadline? %b\n" [PNum (bool_number (Apic.tsc_deadline support))];;
  kprintf "rsdp address: %h\n" [PNum rsdp];;
  print_rsdp mem rsdp;;
  let rsdt := u32_at mem (rsdp + 16) in
  kprintf "rsdt address: %h\n" [PNum rsdt];;
  print_rsdt mem rsdt;;
  let madt := findMADT mem rsdt in
  kprintf "madt = %h\n" [PNum madt];;
  print_madt mem madt;;
  parsed ← parse_madt mem wakeups madt;
  kprintf "\n\n\n\n======================\n\n\n\n" [];;
  print_parsed_madt mem parsed;;
  mret (madt, parsed).

(** The addresses of the table, of the register and of the code agree; the number of processors. *)
Definition check_addresses (madt : Z) (parsed : MADTParseResult) : K unit :=
  lapic_address_msr ← on_lapic get_base_address;
  let lapic_address_madt := u32_at mem (madt + 36) in
  io ← read_cell (parsed Acpi.io_apic !! 0%nat);
  let io_address := u32_at mem (io + 4) in
  kprintf "lapic_address (msr) = %h\n" [PNum lapic_address_msr];;
  kprintf "lapic_address = %h\n" [PNum lapic_address_madt];;
  kprintf "io_apic_address = %h\n" [PNum io_address];;
  kprintf "\n" [];;
  assert_handler_fmt (lapic_address =? lapic_address_madt) "Firmware obtained adddress must be = to hardcoded one\n" [];;
  assert_handler_fmt (lapic_address =? lapic_address_msr) "Msr obtained address be be == to hardcoded one\n" [];;
  assert_handler_fmt (io_apic_address =? io_address) "io apic, must be equal to hardcoded one\n" [];;
  on_lapic (modify (fun g => mk_apic (support_tsc_deadline g) (last_interrupt_received g)
    (last_interrupt_received_spin_lock g) (master_tells_core_to_start g) (core_mains g)
    (u8 (Z.of_nat (length (parsed processor_local_apic)))) (of_pit g) (of_cpuid g))).

(** The APIC and the segments of this processor; returns its id. *)
Definition start_this_core : K Z :=
  on_lapic init_apic;;
  on_lapic init_lapic;;
  boot_core_id ← on_lapic get_core_id;
  kprintf "The core id of the bsp: %u\n" [PNum boot_core_id];;
  on_gdt (init_multicore_gdt new_gdt_address new_gdt_end all_fs_and_gs);;
  on_gdt (set_fs_or_segment_selector boot_core_id fs);;
  on_gdt (set_fs_or_segment_selector boot_core_id gs);;
  set_fast_core_id boot_core_id;;
  fast ← on_lapic get_core_id_fast;
  assert_handler_fmt (fast =? boot_core_id) "Apic core id must be equal to boot core id\n" [];;
  kprintf "\nGot through the init multicore gdt\n\n" [];;
  mret boot_core_id.

Definition route_interrupts (parsed : MADTParseResult) : K unit :=
  kprintf "The number of io apic: %u\n" [PNum (u8 (Z.of_nat (length (parsed Acpi.io_apic))))];;
  io ← read_cell (parsed Acpi.io_apic !! 0%nat);
  let io_apic_base := u32_at mem (io + 8) in
  io_apic_len ← get_max_redirection_entry_count;
  kprintf "This apic io uses GSI : [%u %u]\n" [PNum io_apic_base; PNum (u32 (io_apic_base + io_apic_len))];;
  assert_handler_fmt (Z.of_nat (length (parsed Acpi.io_apic)) =? 1) "Only one io apic support\n" [];;
  irq_to_gsi ← apply_overrides (parsed io_apic_interrupt_source_override) identity_irqs;
  kprintf "\n" [];;
  init_io_apic DEBUG irq_to_gsi;;
  IRQ_set_mask 0;;
  kprintf "Initiated io apic\n" [].

Definition wake_all (parsed : MADTParseResult) (boot_core_id : Z) : K unit :=
  count ← on_lapic (gets runtime_core_count);
  kprintf "runtime count : %u\n" [PNum count];;
  fs_value ← on_gdt (gets fs_selector);
  kprintf "fs = 0x%hx\n" [PNum fs_value];;
  let entries := take (Z.to_nat count) (parsed processor_local_apic) in
  active ← wake_cores entries boot_core_id (true :: repeat false (Z.to_nat MulticoreGdt.MAX_CORE_COUNT - 1));
  kprintf "Tried to activate all the cores\n" [];;
  check_active 0 entries active.

Definition multicore_setup (rsdp : Z) : K unit :=
  '(madt, parsed) ← parse_firmware rsdp;
  check_addresses madt parsed;;
  boot_core_id ← start_this_core;
  route_interrupts parsed;;
  apic_freq ← on_timer (sync_apic_with_pit DEBUG QEMU wakeups);
  kprintf "Calibrated lapic timer. Frequency: %u\n" [PNum apic_freq];;
  kprintf "\n\n" [];;
  wake_all parsed boot_core_id.

(** *** The main loop of the first processor *)

(** [1.f / 144.f] *)
Definition frame_time : spec_float := fdiv (float_of 1) (float_of 144).

(** The next number and the processor it picks. *)
Definition next_prime (prime1 : Z) : Z := u32 (u32 (prime1 * 12301) + 12301) mod 19997.
Definition target_core_id (prime1 : Z) : Z := u8 (prime1 mod MulticoreGdt.MAX_CORE_COUNT).

Fixpoint main_loop (n : nat) (prime1 : Z) : K unit :=
  match n with
  | O => stop Spinning
  | S n =>
      _ ← on_event (cpp_event_loop DEBUG interrupted);
      _ ← on_lapic (with_pit (wait DEBUG wakeups frame_time));
      let prime1 := next_prime prime1 in
      _ ← on_lapic (send_ipi DEBUG (target_core_id prime1) apic_wait_interrupt);
      main_loop n prime1
  end.

Definition cpp_main (rsdp : Z) : K unit :=
  multicore_setup rsdp;;
  kprintf "\n\n================= Start of CPP Main =================\n\n" [];;
  kprintf "got here\n" [];;
  core_id ← on_lapic get_core_id_fast;
  on_timer (start_timer DEBUG apic_wait_interrupt 10000 divide_configuration.divide_by_128 timer_mode.single_shot mask.enable);;
  emit (ECall "terminal_writestring: ====kernel cpp entering main loop====" []);;
  main_loop wakeups 4001.
End kernel.

(** *** The other processors

    Their main function, over the table of interrupts they load and the marks they set. *)
Record core_globals := mk_core { of_lapic : apic_globals; of_idt : idt_globals; entered : list bool }.
Definition set_lapic (a : apic_globals) (g : core_globals) : core_globals := mk_core a (of_idt g) (entered g).
Definition set_core_idt (t : idt_globals) (g : core_globals) : core_globals := mk_core (of_lapic g) t (entered g).
Definition set_entered (l : list bool) (g : core_globals) : core_globals := mk_core (of_lapic g) (of_idt g) l.

Section application_core.
Context {D : Type} `{PortDevice D} `{RegisterDevice D} `{Interrupts D} `{Processor D} `{OtherCores D}.
(** The selector in [fs] that the assembly has loaded. *)
Context (fs_value : Z).
Local Abbreviation K A := (M D core_globals A).

Definition on_core {A} (m : M D apic_globals A) : K A := zoom of_lapic set_lapic m.

(** [err] is [none]: the command to processor 0 is commented out. *)
Definition enter_main : K Z :=
  kprintf "First entry\n" [];;
  on_core init_lapic;;
  core_id ← on_core get_core_id;
  core_id_f ← on_core get_core_id_fast;
  kprintf "Core %u(%u) Reporting for duty!\n\n" [PNum core_id_f; PNum core_id];;
  kprintf "Core %u has  fs = 0x%hx\n" [PNum core_id_f; PNum fs_value];;
  marks ← gets entered;
  read_cell (marks !! Z.to_nat core_id_f);;
  modify (fun g => set_entered (<[Z.to_nat core_id_f := true]> (entered g)) g);;
  zoom of_idt set_core_idt idt_finalize;;
  kprintf "Core %u Entering main loop\n" [PNum core_id_f];;
  mret core_id_f.

(** [n] rounds of the loop that never ends. *)
Fixpoint halt_and_report (n : nat) (core_id_f : Z) : K unit :=
  match n with
  | O => stop Spinning
  | S n =>
      on_core (with_pit hlt);;
      kprintf "Core %u Recieved an interrupt\n" [PNum core_id_f];;
      halt_and_report n core_id_f
  end.

Definition application_core_main (n : nat) : K unit :=
  core_id_f ← enter_main;
  halt_and_report n core_id_f.
End application_core.
