(* ===== verification/CoreStages.v ===== *)
(** * What the start of the processors relies on

    The other processors as the first one sees them: where each of them is between being off and
    running its main function, how commands, stores and time move it on, and what the flags that
    it sets show.  [CoresObey] states this of a machine; the start-up code is proved against it
    ([KernelCppFacts]), by rules for runs that change the machine ([moves], [drives]). *)

From stdpp Require Import gmap.
From S2P Require Import Prelude Machine BitStruct StringHelper Terminal BitHex FloatText Lapic Pit PitFacts.
From S2P Require Import Phys Processor Cpuid Apic ApicFacts Acpi SegmentDescriptor MulticoreGdt ApicTimer Framebuffer Mouse EventLoop KernelCpp.
From S2P Require Import Machine.

(** ** Stages

    Off; waiting for the start-up command after INIT; on its way to setting [core_has_booted],
    for [n] more looks at its flags at most; there, waiting to be told to start; on its way to its
    main function; in it ([entered_main] is set). *)

Inductive core_stage :=
| Off
| Ready
| Starting (n : nat)
| Booted
| Entering (n : nat)
| InMain.

Definition has_booted (s : core_stage) : bool :=
  match s with Booted | Entering _ | InMain => true | _ => false end.
Definition in_main (s : core_stage) : bool := match s with InMain => true | _ => false end.

(** Time passes: a processor on its way may come nearer or arrive. *)
Definition later (s s' : core_stage) : Prop :=
  s' = s \/
  match s with
  | Starting n => s' = Booted \/ exists m, (m <= n)%nat /\ s' = Starting m
  | Entering n => s' = InMain \/ exists m, (m <= n)%nat /\ s' = Entering m
  | _ => False
  end.

(** The same after a look at one of its flags, by which it must come nearer. *)
Definition looked (s s' : core_stage) : Prop :=
  match s with
  | Starting n => s' = Booted \/ exists m, (m < n)%nat /\ s' = Starting m
  | Entering n => s' = InMain \/ exists m, (m < n)%nat /\ s' = Entering m
  | _ => s' = s
  end.

#[export] Instance later_preorder : PreOrder later.
Proof.
  split; [by left|]. intros s s' s'' [->|Hs] Hs'; [exact Hs'|]. right. destruct s as [| |n| |n|]; try done.
  - destruct Hs as [->|(m & Hm & ->)].
    + destruct Hs' as [->|[]]. by left.
    + destruct Hs' as [->|[->|(k & Hk & ->)]]; [right; eauto|by left|right; exists k; split; [lia|done]].
  - destruct Hs as [->|(m & Hm & ->)].
    + destruct Hs' as [->|[]]. by left.
    + destruct Hs' as [->|[->|(k & Hk & ->)]]; [right; eauto|by left|right; exists k; split; [lia|done]].
Qed.
Lemma looked_later s s' : looked s s' -> later s s'.
Proof.
  unfold later. destruct s as [| |n| |n|]; cbn; try by left.
  - intros [->|(m & Hm & ->)]; right; [by left|right; exists m; split; [lia|done]].
  - intros [->|(m & Hm & ->)]; right; [by left|right; exists m; split; [lia|done]].
Qed.

(** The commands of the APIC's registers are the words [INIT], [INIT_DEASSERT] and [SIPI]
    ([ApicFacts]); a processor starts at the page that the start-up command names only when INIT has
    made it ready, takes at most [latency] looks to set its flag, and goes on only when it is told
    to.  Everything else the kernel does leaves it alone. *)
Class CoresObey (D : Type) `{PortDevice D} `{RegisterDevice D} `{Interrupts D} `{OtherCores D} `{CoreMains D}
    (core_bootstrap : Z) (latency : nat) := {
  stage : Z -> D -> core_stage;
  in_later p d id : later (stage id d) (stage id (snd (port_in p d)));
  out_later p v d id : later (stage id d) (stage id (port_out p v d));
  register_in_later a d id : later (stage id d) (stage id (snd (register_in a d)));
  register_out_later a v d id : a <> ICR_LOW -> later (stage id d) (stage id (register_out a v d));
  interrupt_later d id : later (stage id d) (stage id (snd (next_interrupt d)));
  passing_later d id : later (stage id d) (stage id (snd (passing d)));
  commanded core_id low d id :
    let d' := register_out ICR_LOW low (register_out ICR_HIGH (core_id * 2 ^ 24) d) in
    if decide (id = core_id) then
      (low = INIT -> stage id d' = Ready) /\
      (low = INIT_DEASSERT -> later (stage id d) (stage id d')) /\
      (low = SIPI core_bootstrap -> stage id d = Ready -> exists n, (n < latency)%nat /\ stage id d' = Starting n)
    else later (stage id d) (stage id d');
  look_booted core_id d id :
    let d' := snd (core_has_booted core_id d) in
    if decide (id = core_id)
    then fst (core_has_booted core_id d) = has_booted (stage id d) /\ looked (stage id d) (stage id d')
    else later (stage id d) (stage id d');
  look_entered core_id d id :
    let d' := snd (entered_main core_id d) in
    if decide (id = core_id)
    then fst (entered_main core_id d) = in_main (stage id d) /\ looked (stage id d) (stage id d')
    else later (stage id d) (stage id d');
  told_starts core_id d id :
    let d' := told_to_start core_id d in
    if decide (id = core_id)
    then stage id d = Booted -> exists n, (n < latency)%nat /\ stage id d' = Entering n
    else later (stage id d) (stage id d');
}.

(** ** Runs that change the machine

    [moves R m]: however [m] ends, the machine has moved along [R]. *)
Definition moves {D G A} (R : relation D) (m : M D G A) : Prop := forall d g, R d (o_dev (m d g)).

(** [drives P m g Q]: from [g] and a machine of [P], [m] returns, and its result, the state and
    machine it leaves and its events satisfy [Q]. *)
Definition drives {D G A} (P : D -> Prop) (m : M D G A) (g : G) (Q : A -> G -> list event -> D -> Prop) : Prop :=
  forall d, P d -> exists a, o_exit (m d g) = Done a /\ Q a (o_glob (m d g)) (o_events (m d g)) (o_dev (m d g)).

Section moves.
Context {D G : Type} (R : relation D) `{!PreOrder R}.

Lemma moves_still {A} (m : M D G A) : (forall d g, o_dev (m d g) = d) -> moves R m.
Proof. intros Hm d g. by rewrite Hm. Qed.
Lemma moves_cell {A} (c : option A) : moves R (read_cell c : M D G A).
Proof. apply moves_still. by destruct c. Qed.
Lemma moves_assert b fmt args : moves R (assert_handler_fmt b fmt args : M D G unit).
Proof. apply moves_still. by destruct b. Qed.
Lemma moves_bind {A B} (m : M D G A) (k : A -> M D G B) :
  moves R m -> (forall a, moves R (k a)) -> moves R (m ≫= k).
Proof.
  intros Hm Hk d g. unfold mbind, M_bind. pose proof (Hm d g) as Hd.
  destruct (o_exit (m d g)) as [a| | |]; try exact Hd. cbn. etransitivity; [exact Hd|apply Hk].
Qed.
Lemma moves_if {A} (b : bool) (m m' : M D G A) : moves R m -> moves R m' -> moves R (if b then m else m').
Proof. by destruct b. Qed.
Lemma moves_for n i body : (forall j, moves R (body j)) -> moves R (for_range n i body : M D G unit).
Proof.
  intros Hb. revert i. induction n as [|n IH]; intros i; cbn; [by apply moves_still|].
  apply moves_bind; [apply Hb|]. intros _. apply IH.
Qed.
Lemma moves_zoom {G' A} (view : G' -> G) over (m : M D G A) : moves R m -> moves R (zoom view over m).
Proof. intros Hm d g. exact (Hm d (view g)). Qed.
End moves.

Section drives.
Context {D G : Type}.
Implicit Types P : D -> Prop.

Lemma drives_ret {A} (a : A) g P Q : (forall d, P d -> Q a g [] d) -> drives P (mret a : M D G A) g Q.
Proof. intros HQ d Hd. exists a. split; [done|]. by apply HQ. Qed.
Lemma drives_bind {A B} P (m : M D G A) (k : A -> M D G B) g Q S :
  drives P m g Q ->
  (forall a g' es, drives (Q a g' es) (k a) g' (fun b g'' es' d => S b g'' (es ++ es') d)) ->
  drives P (m ≫= k) g S.
Proof.
  intros Hm Hk d Hd. destruct (Hm d Hd) as (a & Ha & HQ).
  destruct (Hk _ _ _ _ HQ) as (b & Hb & HS). exists b. unfold mbind, M_bind. by rewrite Ha.
Qed.
Lemma drives_weaken {A} P P' (m : M D G A) g Q Q' :
  drives P m g Q -> (forall d, P' d -> P d) -> (forall a g' es d, Q a g' es d -> Q' a g' es d) ->
  drives P' m g Q'.
Proof. intros Hm HP HQ d Hd. destruct (Hm d (HP d Hd)) as (a & Ha & Hq). eauto. Qed.
(** A step with one result that leaves the machine alone. *)
Lemma drives_step {A B} P (m : M D G A) (k : A -> M D G B) g a g1 es Q :
  yields m g a g1 es -> (forall d s, o_dev (m d s) = d) ->
  drives P (k a) g1 (fun b g2 es' d => Q b g2 (es ++ es') d) -> drives P (m ≫= k) g Q.
Proof.
  intros Hm Hd Hk. apply (drives_bind P _ _ _ (fun a' g' es' d => P d /\ a' = a /\ g' = g1 /\ es' = es)).
  - intros d HP. destruct (Hm d) as (He & Hg & Hes). exists a. rewrite Hd. done.
  - intros a' g' es' d (HP & -> & -> & ->). by apply Hk.
Qed.
Lemma drives_gets {A B} P (f : G -> A) (k : A -> M D G B) g Q :
  drives P (k (f g)) g Q -> drives P (gets f ≫= k) g Q.
Proof. apply (drives_step P (gets f) k g (f g) g []); by intros d. Qed.
Lemma drives_modify {B} P f (k : unit -> M D G B) g Q : drives P (k tt) (f g) Q -> drives P (modify f ≫= k) g Q.
Proof. apply (drives_step P (modify f) k g tt (f g) []); by intros d. Qed.
Lemma drives_cell {A B} P (o : option A) v (k : A -> M D G B) g Q :
  o = Some v -> drives P (k v) g Q -> drives P (read_cell o ≫= k) g Q.
Proof. intros ->. apply (drives_step P (read_cell (Some v)) k g v g []); by intros d. Qed.
Lemma drives_zoom {G' A} P (view : G' -> G) over (m : M D G A) g (Q : A -> G' -> list event -> D -> Prop) :
  drives P m (view g) (fun a s es d => Q a (over s g) es d) -> drives P (zoom view over m) g Q.
Proof. intros Hm d Hd. destruct (Hm d Hd) as (a & He & HQ). exists a. unfold zoom. cbn. by rewrite He. Qed.
(** A condition on the machine that is known anyway. *)
Lemma drives_pure_l {A} (P0 : Prop) P (m : M D G A) g Q :
  (P0 -> drives P m g Q) -> drives (fun d => P0 /\ P d) m g Q.
Proof. intros Hm d [H0 Hd]. by apply Hm. Qed.
(** What holds after every run, where the machine moves along a relation that keeps [P]. *)
Lemma drives_moves {A} P (R : relation D) (m : M D G A) g Q :
  ensures m g Q -> moves R m -> (forall d d', R d d' -> P d -> P d') ->
  drives P m g (fun a g' es d => Q a g' es /\ P d).
Proof. intros Hm Hr HP d Hd. destruct (Hm d) as (a & He & HQ). exists a. split; [done|]. eauto. Qed.
End drives.

(** ** Code that sends nothing

    The timer's code and the polls only let time pass. *)
Section passing.
Context {D : Type} `{CoresObey D core_bootstrap latency}.
Local Abbreviation P A := (M D pit_globals A).

Definition time_passes (d d' : D) : Prop := forall id, later (stage id d) (stage id d').
#[export] Instance time_preorder : PreOrder time_passes.
Proof. split; [intros d id; done|]. intros d d' d'' H1' H2' id. etransitivity; [apply H1'|apply H2']. Qed.

Context {G : Type}.
Lemma moves_inb p : moves time_passes (inb p : M D G Z).
Proof. intros d g id. unfold inb. pose proof (in_later p d id) as Hl. by destruct (port_in p d). Qed.
Lemma moves_outb p v : moves time_passes (outb p v : M D G unit).
Proof. intros d g id. apply out_later. Qed.
Lemma moves_mmio_read a : moves time_passes (mmio_read a : M D G Z).
Proof. intros d g id. unfold mmio_read. pose proof (register_in_later a d id) as Hl. by destruct (register_in a d). Qed.
Lemma moves_mmio_write a v : a <> ICR_LOW -> moves time_passes (mmio_write a v : M D G unit).
Proof. intros Ha d g id. by apply register_out_later. Qed.
Lemma moves_next : moves time_passes (fun d g => let '(i, d) := next_interrupt d in Outcome d g [] (Done i) : outcome D G _).
Proof. intros d g id. pose proof (interrupt_later d id) as Hl. by destruct (next_interrupt d). Qed.
Lemma moves_passing : moves time_passes (fun d g => let '(i, d) := passing d in Outcome d g [] (Done i) : outcome D G _).
Proof. intros d g id. pose proof (passing_later d id) as Hl. by destruct (passing d). Qed.
End passing.

Create HintDb moving.
Ltac moves_step :=
  first [ apply moves_inb | apply moves_outb | apply moves_mmio_read | apply moves_next | apply moves_passing
        | apply moves_mmio_write; done | apply moves_for; [apply _|intros ?] | apply moves_zoom
        | apply moves_cell; apply _ | apply moves_assert; apply _
        | apply moves_if | apply moves_bind; [apply _| |intros ?]
        | apply moves_still; [apply _|done] ].
Ltac moves_auto := repeat first [ progress (eauto with moving) | moves_step ].

Section quiet_code.
Context {D : Type} `{CoresObey D core_bootstrap latency} (DEBUG : bool) (wakeups : nat).
Local Abbreviation P A := (M D pit_globals A).
Local Abbreviation goes m := (moves (D:=D) time_passes m).

Lemma moves_eoi {G} : goes (lapic_send_eoi : M D G unit).
Proof. by apply moves_mmio_write. Qed.
Hint Resolve moves_eoi : moving.
Lemma moves_interrupt : goes (pit_interrupt : P unit).
Proof.
  unfold pit_interrupt, pit_interrupt_handler. apply moves_bind; [apply _|by apply moves_still; [apply _|]|].
  intros quick. apply moves_if; [moves_auto|].
  apply moves_bind; [apply _|by apply moves_still; [apply _|]|]. intros m.
  apply moves_bind; [apply _|destruct m; by apply moves_still; [apply _|]|]. intros _.
  moves_auto.
Qed.
Hint Resolve moves_interrupt : moving.
Lemma moves_take_pending : goes (take_pending : P bool).
Proof. unfold take_pending. moves_auto. Qed.
Hint Resolve moves_take_pending : moving.
Lemma moves_arrives i : goes (arrives i : P unit).
Proof. destruct i; cbn [arrives]; moves_auto. Qed.
Hint Resolve moves_arrives : moving.
Lemma moves_running : goes (running : P unit).
Proof.
  unfold running. apply moves_bind; [apply _|apply moves_take_pending|]. intros t. apply moves_if; [moves_auto|].
  apply moves_bind; [apply _|apply moves_passing|]. intros [i|]; moves_auto.
Qed.
Hint Resolve moves_running : moving.
Lemma moves_hlt : goes (hlt : P unit).
Proof.
  unfold hlt. do 2 (apply moves_bind; [apply _|moves_auto|]; intros ?). apply moves_if; [moves_auto|].
  apply moves_bind; [apply _|moves_auto|]. intros f. apply moves_if; [moves_auto|].
  apply moves_bind; [apply _|apply moves_next|]. intros [i|]; moves_auto.
Qed.
Hint Resolve moves_hlt : moving.
Lemma moves_program mode count : goes (program_count DEBUG mode count : P unit).
Proof. unfold program_count, set_operation_mode, send_command_to_pit, set_pit_count, send_byte_to_pit, cli. moves_auto. Qed.
Hint Resolve moves_program : moving.
Lemma moves_halt_loop n : goes (halt_loop n : P unit).
Proof. induction n as [|n IH]; cbn [halt_loop]; unfold sti; moves_auto. Qed.
Hint Resolve moves_halt_loop : moving.
Lemma moves_wait seconds : goes (wait DEBUG wakeups seconds : P Z).
Proof.
  unfold wait, wait_lte_one_cycle, send_wait_count_command, start_loop_wait, wait_till_pit_interrupt. moves_auto.
Qed.
Lemma moves_short_timeout seconds f n : goes (short_timeout_async DEBUG seconds f n : P Z).
Proof. unfold short_timeout_async, send_wait_count_command. moves_auto. Qed.
Lemma moves_poll `{Processor D} : goes (poll : M D apic_globals bool).
Proof. unfold poll. induction (Z.to_nat TIMEOUT_IPI_PENDING) as [|n IH]; cbn [poll_pending]; moves_auto. Qed.
End quiet_code.
