(* ===== verification/KernelCppFacts.v ===== *)
(** * Facts about the start of the processors

    The routes that the overrides of the firmware give, the commands that wake the other
    processors and bring them to their main function, and the assertion that ends the start. *)

From stdpp Require Import gmap.
From S2P Require Import Prelude Machine BitStruct StringHelper Terminal BitHex FloatText Lapic Pit PitFacts.
From S2P Require Import Phys Processor Cpuid CpuidFacts Apic ApicFacts Pic ApicIo ApicIoFacts.
From S2P Require Import SegmentDescriptor MulticoreGdt ApicTimer Acpi Framebuffer Mouse EventLoop EventLoopFacts KernelCpp CoreStages.
From S2P Require Import Machine.

(** ** State that a run keeps *)

Definition stays {D G A} (I : G -> Prop) (m : M D G A) : Prop := forall d g, I g -> I (o_glob (m d g)).

Section stays.
Context {D G : Type} (I : G -> Prop).

Lemma stays_bind {A B} (m : M D G A) (k : A -> M D G B) :
  stays I m -> (forall a, stays I (k a)) -> stays I (m ≫= k).
Proof.
  intros Hm Hk d g Hg. pose proof (Hm d g Hg) as H1. unfold mbind, M_bind.
  destruct (o_exit (m d g)); try exact H1. cbn. by apply Hk.
Qed.
Lemma stays_if {A} (b : bool) (m m' : M D G A) : stays I m -> stays I m' -> stays I (if b then m else m').
Proof. by destruct b. Qed.
Lemma stays_modify f : (forall g, I g -> I (f g)) -> stays I (modify f : M D G unit).
Proof. intros Hf d g. apply Hf. Qed.
Lemma stays_for n i body : (forall j, stays I (body j)) -> stays I (for_range n i body : M D G unit).
Proof. intros Hb. revert i. induction n as [|n IH]; intros i; cbn; [by intros d g|]. by apply stays_bind. Qed.
(** Code that does not write the globals. *)
Lemma stays_same {A} (m : M D G A) : (forall d g, o_glob (m d g) = g) -> stays I m.
Proof. intros Hm d g Hg. by rewrite Hm. Qed.

Lemma ensures_stays {A} (m : M D G A) s Q : ensures m s Q -> stays I m -> I s ->
  ensures m s (fun a s' es => Q a s' es /\ I s').
Proof. intros Hm Hs Hi d. destruct (Hm d) as (a & He & HQ). exists a. auto. Qed.
End stays.

(** [wait] never moves the index of the messages up. *)
Section index.
Context {D : Type} `{PortDevice D} `{RegisterDevice D} `{Interrupts D} (DEBUG : bool) (wakeups : nat) (k : Z).
Local Abbreviation P A := (M D pit_globals A).

Definition index_below (p : pit_globals) : Prop := pit_write_index p <= k.

Lemma interrupt_index : stays index_below (pit_interrupt : P unit).
Proof.
  unfold pit_interrupt, index_below. apply stays_bind; [by intros d g|]. intros [|].
  { apply stays_bind; [by apply stays_modify|]. intros []. by intros d g. }
  unfold pit_interrupt_handler. apply stays_bind; [by intros d g|]. intros m.
  apply stays_bind; [destruct m; by intros d g|]. intros [].
  apply stays_bind.
  { apply stays_modify. intros g Hg. destruct (_ && _); cbn; lia. }
  intros []. intros d g Hg. unfold mbind, M_bind, get, read_cell. cbn.
  destruct (pit_msg_address g !! _) as [a|]; [|exact Hg]. cbn. destruct (negb (a =? 0)); [|exact Hg]. cbn.
  destruct (pit_msg_value g !! _) as [v|]; exact Hg.
Qed.
Lemma take_pending_index : stays index_below (take_pending : P bool).
Proof.
  unfold take_pending. intros d g Hg. unfold mbind at 1, M_bind at 1, get. cbn.
  destruct (_ && _); [|exact Hg]. revert d g Hg.
  change (stays index_below (modify (set_processor true false);; pit_interrupt;; mret true : P bool)).
  apply stays_bind; [by apply stays_modify|]. intros [].
  apply stays_bind; [apply interrupt_index|]. by intros [] d g.
Qed.
Lemma arrives_index i : stays index_below (arrives i : P unit).
Proof.
  destruct i; [|by intros d g]. cbn [arrives]. apply stays_bind; [by intros d g|].
  intros [|]; [apply interrupt_index|by apply stays_modify].
Qed.
Lemma running_index : stays index_below (running : P unit).
Proof.
  unfold running. apply stays_bind; [apply take_pending_index|]. intros [|]; [by intros d g|].
  apply stays_bind; [intros d g; by destruct (passing d)|]. intros [i|]; [apply arrives_index|by intros d g].
Qed.
Lemma halt_loop_index n : stays index_below (halt_loop n : P unit).
Proof.
  induction n as [|n IH]; cbn [halt_loop]; [by intros d g|].
  apply stays_bind; [by intros d g|]. intros []. apply stays_bind.
  - unfold hlt. apply stays_bind; [by intros d g|]. intros [].
    apply stays_bind; [apply take_pending_index|]. intros [|]; [by intros d g|].
    apply stays_bind; [by intros d g|]. intros [|]; cbn [negb]; [|by intros d g].
    apply stays_bind; [intros d g; by destruct (next_interrupt d)|]. intros [i|]; [apply arrives_index|by intros d g].
  - intros []. apply stays_bind; [by intros d g|]. intros [|]; [by intros d g|exact IH].
Qed.
Lemma wait_till_index : stays index_below (wait_till_pit_interrupt wakeups : P unit).
Proof.
  unfold wait_till_pit_interrupt. apply stays_bind; [apply running_index|]. intros [].
  apply stays_bind; [by apply stays_modify|]. intros []. apply halt_loop_index.
Qed.
Lemma program_index mode count : stays index_below (program_count DEBUG mode count : P unit).
Proof.
  unfold program_count. apply stays_bind; [|intros []].
  - destruct DEBUG; [|by intros d g]. unfold assert_handler_fmt. by destruct (negb _); intros d g.
  - apply stays_bind; [by intros d g|]. intros []. by intros d g.
Qed.
Lemma wait_index seconds : stays index_below (wait DEBUG wakeups seconds : P Z).
Proof.
  unfold wait. apply stays_if; [by intros d g|].
  apply stays_bind; [destruct (compute_pit_wait _ _ _); by intros d g|]. intros sp.
  apply stays_bind; [apply stays_if; [apply program_index|by intros d g]|]. intros [].
  apply stays_bind; [apply stays_for; intros _; apply wait_till_index|]. intros [].
  apply stays_bind; [|by intros [] d g].
  unfold wait_lte_one_cycle. apply stays_bind; [apply program_index|]. intros []. apply wait_till_index.
Qed.
End index.

(** ** Waking one processor

    On a machine that accepts commands at once, whose timer ticks and whose processors start when
    they are told to. *)

Lemma no_icr es : Forall no_command es -> icr es = [].
Proof. induction 1 as [|[ | | |a v| | ] es He Hes IH]; try done. unfold icr in *. cbn in *. by rewrite He. Qed.

Lemma ensures_quiet {D G A} (m : M D G A) s Q : ensures m s Q -> emits no_command m ->
  ensures m s (fun a s' es => Q a s' es /\ icr es = []).
Proof. intros Hm He d. destruct (Hm d) as (a & Hd & HQ). exists a. by rewrite (no_icr _ (He d s)). Qed.

Lemma one_ms_short : is_short one_ms.
Proof. split; [done|]. exists 65. by split; [vm_compute|]. Qed.
Lemma ten_ms_split : compute_pit_wait ten_ms max_single_wait MAX_FREQ_DIVIDER = Some (mk_split 0 655).
Proof. by vm_compute. Qed.

Definition wake_commands (core_bootstrap core_id : Z) : list (Z * Z) :=
  command core_id INIT ++ command core_id INIT_DEASSERT ++ command core_id (SIPI core_bootstrap).

Section wake.
Context {D : Type} `{PortDevice D} `{RegisterDevice D} `{Interrupts D} `{Processor D} `{OtherCores D} `{CoreMains D}.
Context (DEBUG : bool) (wakeups : nat) (finished core_bootstrap core_main : Z) (latency : nat).
Context `{!CoresObey D core_bootstrap latency}.
Local Abbreviation A T := (M D apic_globals T).

Hypothesis timer_ticks : forall d : D, ticks_within wakeups d.
Hypothesis commands_accepted : forall d : D, pending (u32 (fst (register_in ICR_LOW d))) = false.
Hypothesis enough_looks : (latency < wakeups)%nat.
Hypothesis bootstrap_page : 0 <= core_bootstrap < 0xFF000 /\ core_bootstrap mod 0x1000 = 0.

(** The timer's part of the globals is sound and at most [k] messages are stored. *)
Definition pit_ready (k : Z) (p : pit_globals) : Prop := messages_ok p /\ pit_write_index p <= k.

(** Processor [id] is at a stage of [X]; the others have gone on since [d0] as time goes on. *)
Definition at_stage (id : Z) (X : core_stage -> Prop) (d0 d : D) : Prop :=
  X (stage id d) /\ forall id', id' <> id -> later (stage id' d0) (stage id' d).
Definition steady (X : core_stage -> Prop) : Prop := forall s s', X s -> later s s' -> X s'.
Definition anywhere (s : core_stage) : Prop := True.
Definition ready (s : core_stage) : Prop := s = Ready.
Definition coming (n : nat) (s : core_stage) : Prop := s = Booted \/ exists m, (m < n)%nat /\ s = Starting m.
Definition going (n : nat) (s : core_stage) : Prop := s = InMain \/ exists m, (m < n)%nat /\ s = Entering m.

Lemma steady_anywhere : steady anywhere. Proof. done. Qed.
Lemma steady_ready : steady ready. Proof. by intros s s' -> [->|[]]. Qed.
Lemma steady_coming n : steady (coming n).
Proof.
  intros s s' [->|(m & Hm & ->)] Hl; [destruct Hl as [->|[]]; by left|].
  destruct Hl as [->|[->|(k & Hk & ->)]]; [right; eauto|by left|right; exists k; split; [lia|done]].
Qed.
Lemma steady_going n : steady (going n).
Proof.
  intros s s' [->|(m & Hm & ->)] Hl; [destruct Hl as [->|[]]; by left|].
  destruct Hl as [->|[->|(k & Hk & ->)]]; [right; eauto|by left|right; exists k; split; [lia|done]].
Qed.
Hint Resolve steady_anywhere steady_ready steady_coming steady_going : core.

(** Code during which only time passes. *)
Lemma drives_passing {G T} id X d0 (m : M D G T) g Q : steady X -> ensures m g Q -> moves time_passes m ->
  drives (at_stage id X d0) m g (fun a g' es d => Q a g' es /\ at_stage id X d0 d).
Proof.
  intros HX Hm Hr. apply (drives_moves _ time_passes); [exact Hm|exact Hr|].
  intros d d' Ht [Hs Ho]. split; [exact (HX _ _ Hs (Ht id))|]. intros id' Hne.
  etransitivity; [by apply Ho|apply Ht].
Qed.

Lemma poll_accepted g : ensures (poll : A bool) g (fun b g' es => b = true /\ g' = g /\ icr es = []).
Proof.
  unfold poll. assert (Hn : (0 < Z.to_nat TIMEOUT_IPI_PENDING)%nat) by (unfold TIMEOUT_IPI_PENDING; lia).
  destruct (Z.to_nat TIMEOUT_IPI_PENDING) as [|n]; [lia|]. clear Hn. cbn [poll_pending]. intros d.
  change (register lapic_registers_offset.command_low) with ICR_LOW.
  pose proof (commands_accepted d) as Hp. destruct (register_in ICR_LOW d) as [w d'] eqn:E. cbn [fst] in Hp.
  rewrite (bind_done (mmio_read ICR_LOW) _ d g d' g [ERead ICR_LOW (u32 w)] (u32 w))
    by (unfold mmio_read; by rewrite E).
  unfold pending in Hp. apply negb_false_iff in Hp. cbv zeta. rewrite Hp. by exists true.
Qed.

Lemma wait_ten k g : pit_ready k (of_pit g) ->
  ensures (with_pit (wait DEBUG wakeups ten_ms) : A Z) g (fun _ g' es =>
    exists p, g' = set_pit p g /\ pit_ready k p /\ icr es = []).
Proof.
  intros [Hok Hk]. apply ensures_zoom. eapply ensures_weaken.
  - apply ensures_quiet; [|apply wait_quiet]. apply (ensures_stays (index_below k)); [|apply wait_index|exact Hk].
    apply (wait_runs DEBUG wakeups (of_pit g) ten_ms _ Hok eq_refl ten_ms_split); [cbn; lia|exact timer_ticks].
  - intros v p es [[(_ & Hp & _) Hi] Hq]. exists p. done.
Qed.

(** A command and the poll for its acceptance, with its effect on the processor. *)
Lemma command_drives low id X Y d0 g : 0 <= id <= 15 -> is_u32 low ->
  (forall d, X (stage id d) -> Y (stage id (register_out ICR_LOW low (register_out ICR_HIGH (id * 2 ^ 24) d)))) ->
  drives (at_stage id X d0) (send_command low (icr_high_raw id) : A unit) g (fun _ g' es d =>
    (g' = g /\ icr es = command id low) /\ at_stage id Y d0 d).
Proof.
  intros Hi Hl He d [Hs Ho].
  destruct (send_command_yields (D:=D) low id g Hi Hl) as (es & Hy & Hc & _).
  destruct (Hy d) as (Hx & Hg & Hes). exists tt. split; [exact Hx|]. rewrite Hes. split; [by split|].
  assert (Hd : o_dev ((send_command low (icr_high_raw id) : A unit) d g) =
    register_out ICR_LOW low (register_out ICR_HIGH (id * 2 ^ 24) d)).
  { unfold send_command, mmio_write, mbind, M_bind. cbn [o_dev o_exit]. rewrite (high_word id Hi).
    rewrite (u32_small low) by exact Hl. rewrite (u32_small (id * 2 ^ 24)) by (unfold is_u32; lia). done. }
  rewrite Hd. split; [by apply He|]. intros id' Hne.
  etransitivity; [by apply Ho|]. pose proof (commanded id low d id') as Hc'. cbv zeta in Hc'.
  by rewrite decide_False in Hc' by done.
Qed.
Lemma poll_drives id X d0 g : steady X ->
  drives (at_stage id X d0) (poll : A bool) g (fun b g' es d =>
    (b = true /\ g' = g /\ icr es = []) /\ at_stage id X d0 d).
Proof. intros HX. apply drives_passing; [exact HX|apply poll_accepted|apply moves_poll]. Qed.
Lemma wait_drives k id X d0 g : steady X -> pit_ready k (of_pit g) ->
  drives (at_stage id X d0) (with_pit (wait DEBUG wakeups ten_ms) : A Z) g (fun _ g' es d =>
    (exists p, g' = set_pit p g /\ pit_ready k p /\ icr es = []) /\ at_stage id X d0 d).
Proof. intros HX Hk. apply drives_passing; [exact HX|by apply wait_ten|]. apply moves_zoom, moves_wait. Qed.

(** From any stage INIT makes the processor ready. *)
Lemma send_init_succeeds k g id d0 : 0 <= id < 12 -> pit_ready k (of_pit g) ->
  drives (at_stage id anywhere d0) (send_init DEBUG wakeups id : A error) g (fun e g' es d =>
    (e = no_error /\ exists p, g' = set_pit p g /\ pit_ready k p /\
      icr es = command id INIT ++ command id INIT_DEASSERT) /\ at_stage id ready d0 d).
Proof.
  intros Hc Hk. unfold send_init.
  rewrite (proj2 (Z.leb_le id 15)) by lia.
  eapply drives_step; [apply returns_ret|done|].
  change (icr_low_raw (icr_command 0 delivery_mode.init level.assert trigger_mode.edge)) with INIT.
  change (icr_low_raw (icr_command 0 delivery_mode.init level.deassert trigger_mode.level)) with INIT_DEASSERT.
  eapply drives_bind; [apply (command_drives INIT id anywhere ready); [lia|done|]|].
  { intros d _. pose proof (commanded id INIT d id) as Hd. cbv zeta in Hd. rewrite decide_True in Hd by done.
    by apply Hd. }
  intros [] g1 es1. apply drives_pure_l. intros [-> Hi1].
  eapply drives_bind; [by apply poll_drives|]. intros b g2 es2. apply drives_pure_l. intros (-> & -> & Hi2). cbn [negb].
  eapply drives_bind; [by apply (wait_drives k)|]. intros v g3 es3. apply drives_pure_l. intros (p & -> & Hp & Hi3).
  eapply drives_bind; [apply (command_drives INIT_DEASSERT id ready ready); [lia|done|]|].
  { intros d Hr. pose proof (commanded id INIT_DEASSERT d id) as Hd. cbv zeta in Hd. rewrite decide_True in Hd by done.
    exact (steady_ready _ _ Hr (proj1 (proj2 Hd) eq_refl)). }
  intros [] g4 es4. apply drives_pure_l. intros [-> Hi4].
  eapply drives_bind; [by apply poll_drives|]. intros b g5 es5. apply drives_pure_l. intros (-> & -> & Hi5).
  apply drives_ret. intros d Hd. split; [|exact Hd]. split; [done|]. exists p. split; [done|]. split; [exact Hp|].
  rewrite !icr_app, Hi1, Hi2, Hi3, Hi4, Hi5. by rewrite !app_nil_r.
Qed.

(** The start-up command puts a ready processor on its way. *)
Lemma send_sipi_succeeds g id d0 : 0 <= id < 12 ->
  drives (at_stage id ready d0) (send_sipi id core_bootstrap : A error) g (fun e g' es d =>
    (e = no_error /\ g' = g /\ icr es = command id (SIPI core_bootstrap)) /\ at_stage id (coming latency) d0 d).
Proof.
  intros Hc. destruct bootstrap_page as [Hb Hm]. unfold send_sipi.
  assert (Hp : 0 <= core_bootstrap / 0x1000 < 0xFF).
  { split; [apply Z.div_pos; lia|apply Z.div_lt_upper_bound; lia]. }
  rewrite (proj2 (Z.leb_le id 15)) by lia.
  rewrite (proj2 (Z.ltb_lt core_bootstrap (0xFF * 0x1000))) by lia.
  change 0xFFF with (Z.ones 12). rewrite Z.land_ones by lia. change (2 ^ 12) with 0x1000. rewrite Hm, Z.eqb_refl.
  eapply drives_step; [apply yields_kprintf|done|]. do 3 (eapply drives_step; [apply returns_ret|done|]).
  unfold u8. rewrite Z.mod_small by lia. rewrite sipi_word by (unfold is_u8; lia). fold (SIPI core_bootstrap).
  eapply drives_bind; [apply (command_drives (SIPI core_bootstrap) id ready (coming latency));
    [lia|unfold is_u32, SIPI; lia|]|].
  { intros d Hr. pose proof (commanded id (SIPI core_bootstrap) d id) as Hd. cbv zeta in Hd.
    rewrite decide_True in Hd by done. right. by apply Hd. }
  intros [] g1 es1. apply drives_pure_l. intros [-> Hi1].
  eapply drives_bind; [by apply poll_drives|]. intros b g2 es2. apply drives_pure_l. intros (-> & -> & Hi2).
  apply drives_ret. intros d Hd. split; [|exact Hd]. split; [done|]. split; [done|].
  rewrite !icr_app, Hi1, Hi2. by rewrite !app_nil_r.
Qed.

(** One look at the processor that is on its way. *)
Lemma look_drives n id d0 (g : apic_globals) : 0 <= id < 12 ->
  drives (at_stage id (coming n) d0) (read_booted id : A bool) g (fun b g' es d =>
    (g' = g /\ es = []) /\ at_stage id (if b then eq Booted else coming (pred n)) d0 d /\ (b = false -> (0 < n)%nat)).
Proof.
  intros Hc d [Hs Ho]. unfold read_booted.
  rewrite (proj2 (Z.ltb_lt id Apic.MAX_CORE_COUNT)) by (unfold Apic.MAX_CORE_COUNT; lia).
  pose proof (fun id' => look_booted id d id') as Hl. cbv zeta in Hl.
  destruct (core_has_booted id d) as [b d']. cbn [fst snd] in Hl. exists b. split; [done|]. cbn [o_glob o_events o_dev].
  split; [done|]. pose proof (Hl id) as Hid. rewrite decide_True in Hid by done. destruct Hid as [Hb Hk].
  assert (Hothers : forall id', id' <> id -> later (stage id' d0) (stage id' d')).
  { intros id' Hne. etransitivity; [by apply Ho|]. specialize (Hl id'). by rewrite decide_False in Hl by done. }
  destruct Hs as [E|(m & Hm & E)]; rewrite E in Hb, Hk; cbn in Hb, Hk; subst b; [done|].
  split; [|intros _; lia]. split; [|exact Hothers].
  destruct Hk as [->|(m' & Hm' & ->)]; [by left|right; exists m'; split; [lia|done]].
Qed.

Lemma tell_drives id d0 (g : apic_globals) :
  drives (at_stage id (eq Booted) d0) (tell_to_start id : A unit) g (fun _ g' es d =>
    (g' = set_cores (<[Z.to_nat id := true]> (master_tells_core_to_start g)) (core_mains g) g /\ es = []) /\
    at_stage id (going latency) d0 d).
Proof.
  intros d [Hs Ho]. exists tt. split; [done|]. split; [done|]. pose proof (fun id' => told_starts id d id') as Ht.
  cbv zeta in Ht. split.
  - specialize (Ht id). rewrite decide_True in Ht by done. right. by apply Ht.
  - intros id' Hne. etransitivity; [by apply Ho|]. specialize (Ht id'). by rewrite decide_False in Ht by done.
Qed.

(** The processor's interrupts are off and the timeout has not finished. *)
Definition waiting (k : Z) (p : pit_globals) : Prop :=
  pit_ready k p /\ interrupt_flag p = false /\ words p !! finished = Some 0.

Lemma running_waits k p : waiting k p ->
  ensures (running : M D pit_globals unit) p (fun _ p' es => waiting k p' /\ icr es = []).
Proof.
  intros ([Hok Hk] & Hf & Hw) d.
  destruct (ensures_quiet _ _ _ (ensures_stays (index_below k) _ _ _ (running_spec p Hok) (running_index k) Hk)
    running_quiet d) as ([] & He & [[Hq Hi] Hc]).
  exists tt. split; [exact He|]. split; [|exact Hc].
  destruct (running_off p Hf d tt He) as [Hf' Hw']. destruct Hq as (Hok' & _).
  split; [by split|]. split; [exact Hf'|]. by rewrite Hw'.
Qed.

(** The loop ends with the processor there: every look brings it nearer, and the timeout does not
    come in between. *)
Lemma boot_loop_succeeds k id d0 n rounds : forall g, 0 <= id < 12 -> waiting k (of_pit g) -> (n < rounds)%nat ->
  drives (at_stage id (coming n) d0) (boot_loop finished rounds id : A bool) g (fun b g' es d =>
    (b = true /\ (exists p, pit_ready k p /\ g' = set_pit p
      (set_cores (<[Z.to_nat id := true]> (master_tells_core_to_start g)) (core_mains g) g)) /\ icr es = []) /\
    at_stage id (going latency) d0 d).
Proof.
  revert n. induction rounds as [|rounds IH]; intros n g Hc Hk Hn; [lia|]. cbn [boot_loop].
  eapply drives_bind.
  { apply (drives_passing id (coming n) d0 _ _ (fun _ g' es => (exists p, waiting k p /\ g' = set_pit p g) /\ icr es = []));
      [auto|..|apply moves_zoom, moves_running].
    apply ensures_zoom. eapply ensures_weaken; [by apply running_waits|]. intros [] p es [Hp Hi]. eauto. }
  intros [] g1 es1. apply drives_pure_l. intros [(p & Hp & ->) Hi1].
  eapply drives_bind; [by apply look_drives|]. intros b g2 es2. apply drives_pure_l. intros [-> ->].
  destruct b.
  - eapply (drives_bind _ _ _ _ (fun _ g' es d => (g' = set_cores (<[Z.to_nat id := true]>
      (master_tells_core_to_start (set_pit p g))) (core_mains (set_pit p g)) (set_pit p g) /\ es = []) /\
      at_stage id (going latency) d0 d)).
    { eapply drives_weaken; [apply tell_drives|by intros d [Hd _]|done]. }
    intros [] g3 es3. apply drives_pure_l. intros [-> ->]. apply drives_ret. intros d Hd. split; [|exact Hd].
    split; [done|]. split; [exists p; split; [exact (proj1 Hp)|done]|]. rewrite !icr_app, Hi1. done.
  - apply (drives_step _ _ _ _ false (set_pit p g) []); [|intros d s; unfold read_finished, get, mbind, M_bind; cbn; by destruct (words (of_pit s) !! finished)|].
    { unfold read_finished. apply returns_get. eapply returns_cell; [exact (proj2 (proj2 Hp))|]. apply returns_ret. }
    eapply (drives_weaken (fun d => (0 < n)%nat /\ at_stage id (coming (pred n)) d0 d));
      [|intros d [Hd Hpos]; auto|].
    { apply drives_pure_l. intros Hpos. apply (IH (pred n) (set_pit p g) Hc Hp). lia. }
    intros b g3 es3 d [(-> & (p' & Hp' & ->) & Hi3) Hd]. split; [|exact Hd]. split; [done|].
    split; [by exists p'|]. by rewrite !icr_app, Hi1, Hi3.
Qed.

(** What waking leaves behind. *)
Definition told (core_id : Z) (g : apic_globals) : apic_globals :=
  set_cores (<[Z.to_nat core_id := true]> (master_tells_core_to_start g))
    (<[Z.to_nat core_id := core_main]> (core_mains g)) g.

(** From any stage of the processor: it has booted and is on its way to its main function. *)
Lemma wake_core_succeeds k g core_id d0 : 0 <= core_id < 12 -> pit_ready k (of_pit g) -> k < 32 ->
  length (core_mains g) = 12%nat ->
  drives (at_stage core_id anywhere d0) (wake_core DEBUG wakeups finished core_id core_bootstrap core_main : A error) g
    (fun e g' es d => (e = no_error /\ (exists p, g' = set_pit p (told core_id g) /\ pit_ready (k + 1) p) /\
      icr es = wake_commands core_bootstrap core_id) /\ at_stage core_id (going latency) d0 d).
Proof.
  intros Hc Hk Hk32 Hl. unfold wake_core. eapply drives_step; [apply yields_kprintf|done|].
  eapply drives_bind; [by apply (send_init_succeeds k)|]. intros e1 g1 es1.
  apply drives_pure_l. intros (-> & p1 & -> & Hp1 & Hi1).
  rewrite bool_decide_eq_true_2 by done. cbn [negb].
  eapply drives_step; [apply yields_kprintf|done|]. apply drives_gets.
  destruct (lookup_lt_is_Some_2 (core_mains (set_pit p1 g)) (Z.to_nat core_id)) as [v Hv]; [cbn; lia|].
  eapply drives_cell; [exact Hv|]. apply drives_modify.
  eapply drives_bind; [by apply (wait_drives k)|]. intros w g2 es2. apply drives_pure_l. intros (p2 & -> & Hp2 & Hi2).
  eapply drives_bind; [by apply send_sipi_succeeds|]. intros e3 g3 es3. apply drives_pure_l. intros (-> & -> & Hi3).
  unfold after_sipi. rewrite bool_decide_eq_true_2 by done. cbn [negb]. apply drives_modify.
  set (g4 := set_pit _ _). assert (Hp4 : pit_ready k (of_pit g4)) by exact Hp2.
  destruct (short_timeout_yields (D:=D) DEBUG (of_pit g4) one_ms finished true one_ms_short (proj1 Hp4))
    as [es5 Hy5]; [intros _; pose proof (proj2 Hp4); lia|].
  eapply drives_bind.
  { apply (drives_passing core_id (coming latency) d0 _ _ (fun v g' es => v = 0 /\
      g' = set_pit (add_timeout finished (of_pit g4)) g4 /\ icr es = []));
      [auto|..|apply moves_zoom, moves_short_timeout].
    apply ensures_zoom. eapply ensures_weaken.
    - apply ensures_quiet; [|apply short_timeout_quiet].
      apply (ensures_yields _ _ _ _ _ (fun v p es => v = 0 /\ p = add_timeout finished (of_pit g4)) Hy5). done.
    - intros w0 p es [[-> ->] Hq]. done. }
  intros v5 g5 es6. apply drives_pure_l. intros (-> & -> & Hi5). cbn [Z.eqb negb].
  assert (Hp5 : waiting (k + 1) (add_timeout finished (of_pit g4))).
  { pose proof (proj2 Hp4). split; [split; [apply add_timeout_ok; [exact (proj1 Hp4)|lia]|cbn in *; lia]|].
    split; [done|]. apply lookup_insert_eq. }
  eapply drives_bind; [by apply (boot_loop_succeeds (k + 1) core_id d0 latency wakeups)|].
  intros b g6 es7. apply drives_pure_l. intros (-> & (p & Hp & ->) & Hi7).
  apply drives_ret. intros d Hd. split; [|exact Hd]. split; [done|]. split; [exists p; split; [reflexivity|exact Hp]|].
  rewrite !icr_app, Hi1, Hi2, Hi3, Hi5, Hi7. cbn [icr omap list_omap app]. rewrite !app_nil_r. done.
Qed.
End wake.

(** ** Waking all of them *)

Lemma icr_nil_app es : icr es = [] -> forall es', icr (es ++ es') = icr es'.
Proof. intros He es'. by rewrite icr_app, He. Qed.

Section wake_all.
Context {D : Type} `{PortDevice D} `{RegisterDevice D} `{Interrupts D} `{Processor D} `{OtherCores D} `{CoreMains D}.
Context (DEBUG : bool) (mem : Z -> Z) (finished core_bootstrap core_main : Z) (wakeups latency : nat).
Context `{!CoresObey D core_bootstrap latency}.
Local Abbreviation K T := (M D kernel_globals T).

Hypothesis timer_ticks : forall d : D, ticks_within wakeups d.
Hypothesis commands_accepted : forall d : D, pending (u32 (fst (register_in ICR_LOW d))) = false.
Hypothesis enough_looks : (latency < wakeups)%nat.
Hypothesis bootstrap_page : 0 <= core_bootstrap < 0xFF000 /\ core_bootstrap mod 0x1000 = 0.

(** The processors of the table and the ones to wake. *)
Definition core_ids (entries : list Z) : list Z := map (fun entry => u8_at mem (entry + 3)) entries.
Definition others (boot : Z) (ids : list Z) : list Z := List.filter (fun id => negb (id =? boot)) ids.
Definition mark {A} (v : A) (l : list A) (ids : list Z) : list A := foldl (fun l id => <[Z.to_nat id := v]> l) l ids.

Definition lapic_of (g : kernel_globals) : apic_globals := of_apic (of_timer g).

(** [k] messages at most, and the array of main functions has its size. *)
Definition kernel_ready (k : Z) (g : kernel_globals) : Prop :=
  pit_ready k (of_pit (lapic_of g)) /\ length (core_mains (lapic_of g)) = 12%nat.

(** The wait for the main function ends with the processor in it. *)
Lemma wait_entered_arrives core_id d0 n rounds g : (n < rounds)%nat ->
  drives (at_stage core_bootstrap latency core_id (going n) d0) (wait_entered rounds core_id : K unit) g
    (fun _ g' es d => (g' = g /\ es = []) /\ at_stage core_bootstrap latency core_id (eq InMain) d0 d).
Proof.
  revert n. induction rounds as [|rounds IH]; intros n Hn; [lia|]. cbn [wait_entered].
  apply (drives_bind (D:=D) _ _ _ _ (fun (b : bool) g' es d => (g' = g /\ es = []) /\
    at_stage core_bootstrap latency core_id (if b then eq InMain else going (pred n)) d0 d /\ (b = false -> (0 < n)%nat))).
  { intros d [Hs Ho]. pose proof (fun id' => look_entered core_id d id') as Hl. cbv zeta in Hl.
    destruct (entered_main core_id d) as [b d']. cbn [fst snd] in Hl. exists b. split; [done|]. cbn [o_glob o_events o_dev].
    split; [done|]. pose proof (Hl core_id) as Hid. rewrite decide_True in Hid by done. destruct Hid as [Hb Hk].
    assert (Hothers : forall id', id' <> core_id -> later (stage id' d0) (stage id' d')).
    { intros id' Hne. etransitivity; [by apply Ho|]. specialize (Hl id'). by rewrite decide_False in Hl by done. }
    destruct Hs as [E|(m & Hm & E)]; rewrite E in Hb, Hk; cbn in Hb, Hk; subst b; [done|].
    split; [|intros _; lia]. split; [|exact Hothers].
    destruct Hk as [->|(m' & Hm' & ->)]; [by left|right; exists m'; split; [lia|done]]. }
  intros b g1 es1. apply drives_pure_l. intros [-> ->]. destruct b.
  - apply drives_ret. by intros d [Hd _].
  - eapply (drives_weaken (fun d => (0 < n)%nat /\ at_stage core_bootstrap latency core_id (going (pred n)) d0 d));
      [|intros d [Hd Hpos]; auto|intros a g' es d HQ; exact HQ].
    apply drives_pure_l. intros Hpos. apply (IH (pred n)). lia.
Qed.

Lemma wake_one_succeeds k g core_id active d0 : 0 <= core_id < 12 -> kernel_ready k g -> k < 32 ->
  length active = 12%nat ->
  drives (at_stage core_bootstrap latency core_id anywhere d0)
    (wake_one DEBUG finished core_bootstrap core_main wakeups core_id active : K (list bool)) g
    (fun a g' es d => (a = <[Z.to_nat core_id := true]> active /\ kernel_ready (k + 1) g' /\
      core_mains (lapic_of g') = <[Z.to_nat core_id := core_main]> (core_mains (lapic_of g)) /\
      master_tells_core_to_start (lapic_of g') =
        <[Z.to_nat core_id := true]> (master_tells_core_to_start (lapic_of g)) /\
      icr es = wake_commands core_bootstrap core_id) /\ at_stage core_bootstrap latency core_id (eq InMain) d0 d).
Proof.
  intros Hc [Hk Hl] Hk32 Ha. unfold wake_one.
  apply (drives_bind (D:=D) _ _ _ _ (fun e g' es d => (e = no_error /\ kernel_ready (k + 1) g' /\
    core_mains (lapic_of g') = <[Z.to_nat core_id := core_main]> (core_mains (lapic_of g)) /\
    master_tells_core_to_start (lapic_of g') =
      <[Z.to_nat core_id := true]> (master_tells_core_to_start (lapic_of g)) /\
    icr es = wake_commands core_bootstrap core_id) /\ at_stage core_bootstrap latency core_id (going latency) d0 d)).
  { apply drives_zoom, drives_zoom. eapply drives_weaken.
    - by apply (wake_core_succeeds DEBUG wakeups finished core_bootstrap core_main latency timer_ticks
        commands_accepted enough_looks bootstrap_page k).
    - done.
    - intros e g1 es d [(-> & (p & -> & Hp) & Hi) Hd]. split; [|exact Hd]. split; [done|]. split; [|done].
      split; [exact Hp|]. cbn. by rewrite length_insert. }
  intros e g1 es1. apply drives_pure_l. intros (-> & Hk1 & Hm & Ht & Hi). rewrite bool_decide_eq_true_2 by done. cbn [negb].
  unfold set_active. rewrite (proj2 (Z.ltb_lt core_id (Z.of_nat (length active)))) by lia.
  eapply drives_cell; [reflexivity|].
  eapply drives_bind; [by apply (wait_entered_arrives core_id d0 latency wakeups)|].
  intros [] g2 es2. apply drives_pure_l. intros [-> ->].
  eapply drives_step; [apply yields_kprintf|done|]. apply drives_ret. intros d Hd. split; [|exact Hd].
  repeat (split; [done|]). cbn [app]. rewrite icr_app, Hi. by rewrite app_nil_r.
Qed.

(** The processors of a list are in their main functions. *)
Definition all_in_main (ids : list Z) (d : D) : Prop :=
  Forall (fun id => stage (latency:=latency) id d = InMain) ids.

Lemma wake_one_adds k g core_id active done_ids : 0 <= core_id < 12 -> kernel_ready k g -> k < 32 ->
  length active = 12%nat ->
  drives (all_in_main done_ids)
    (wake_one DEBUG finished core_bootstrap core_main wakeups core_id active : K (list bool)) g
    (fun a g' es d => (a = <[Z.to_nat core_id := true]> active /\ kernel_ready (k + 1) g' /\
      core_mains (lapic_of g') = <[Z.to_nat core_id := core_main]> (core_mains (lapic_of g)) /\
      master_tells_core_to_start (lapic_of g') =
        <[Z.to_nat core_id := true]> (master_tells_core_to_start (lapic_of g)) /\
      icr es = wake_commands core_bootstrap core_id) /\ all_in_main (done_ids ++ [core_id]) d).
Proof.
  intros Hc Hk Hk32 Ha d Hd.
  destruct (wake_one_succeeds k g core_id active d Hc Hk Hk32 Ha d) as (a & He & HQ & [Hs Ho]); [by split|].
  exists a. split; [exact He|]. split; [exact HQ|]. unfold all_in_main. apply Forall_app. split; [|by constructor].
  eapply List.Forall_impl; [|exact Hd]. intros id Hid. cbn beta in Hid |- *.
  destruct (decide (id = core_id)) as [->|Hne]; [done|].
  destruct (Ho id Hne) as [->|Hl]; [done|]. by rewrite Hid in Hl.
Qed.

Lemma wake_cores_succeeds boot entries : forall k g active done_ids,
  Forall (fun id => 0 <= id < 12) (core_ids entries) ->
  kernel_ready k g -> k + Z.of_nat (length (others boot (core_ids entries))) <= 32 -> length active = 12%nat ->
  drives (all_in_main done_ids)
    (wake_cores DEBUG mem finished core_bootstrap core_main wakeups entries boot active : K (list bool)) g
    (fun a g' es d => let ids := others boot (core_ids entries) in
      (a = mark true active ids /\ core_mains (lapic_of g') = mark core_main (core_mains (lapic_of g)) ids /\
       master_tells_core_to_start (lapic_of g') = mark true (master_tells_core_to_start (lapic_of g)) ids /\
       icr es = ids ≫= wake_commands core_bootstrap) /\ all_in_main (done_ids ++ ids) d).
Proof.
  induction entries as [|entry entries IH]; intros k g active done_ids Hids Hg Hk Ha; cbn [wake_cores].
  { apply drives_ret. intros d Hd. cbn. by rewrite app_nil_r. }
  cbn [core_ids map] in Hids, Hk |- *. apply Forall_cons_iff in Hids as [Hid Hids]. cbn [others List.filter] in Hk |- *.
  destruct (Z.eqb_spec (u8_at mem (entry + 3)) boot) as [He|He]; cbn [negb] in *.
  { by apply (IH k). }
  cbn [length] in Hk.
  eapply drives_bind; [apply (wake_one_adds k); [exact Hid|exact Hg|lia|exact Ha]|].
  intros a g1 es1. apply drives_pure_l. intros (-> & Hg1 & Hm1 & Ht1 & Hi1).
  eapply drives_step; [apply yields_kprintf|done|].
  eapply drives_weaken; [apply (IH (k + 1)); [exact Hids|exact Hg1| |by rewrite length_insert]|intros d Hd; exact Hd|].
  { change (map _ entries) with (core_ids entries) in Hk. fold (others boot (core_ids entries)) in Hk. lia. }
  cbn beta zeta. intros a g2 es2 d [(-> & Hm & Ht & Hi) Hd]. rewrite Hm, Ht, Hm1, Ht1.
  split; [|by rewrite <- (assoc_L (++)) in Hd].
  split; [done|]. split; [done|]. split; [done|].
  rewrite icr_app, Hi1. change (([EPrint "\n\n" []] ++ es2)) with (EPrint "\n\n" [] :: es2).
  change (icr (EPrint "\n\n" [] :: es2)) with (icr es2). rewrite Hi. done.
Qed.

(** *** The assertion at the end *)

Lemma lookup_mark {A} (v : A) ids : forall l i, Forall (fun id => 0 <= id < Z.of_nat (length l)) ids -> 0 <= i ->
  mark v l ids !! Z.to_nat i = if existsb (Z.eqb i) ids then Some v else l !! Z.to_nat i.
Proof.
  induction ids as [|id ids IH]; intros l i Hids Hi; [done|]. apply Forall_cons_iff in Hids as [Hid Hids].
  change (mark v l (id :: ids)) with (mark v (<[Z.to_nat id := v]> l) ids). cbn [existsb].
  rewrite IH; [|by rewrite length_insert|done]. destruct (existsb (Z.eqb i) ids); [by rewrite orb_true_r|].
  rewrite orb_false_r. destruct (Z.eqb_spec i id) as [->|Hne].
  - apply list_lookup_insert_eq. lia.
  - apply list_lookup_insert_ne. lia.
Qed.

Lemma length_mark {A} (v : A) ids : forall l, length (mark v l ids) = length l.
Proof.
  induction ids as [|id ids IH]; intros l; [done|].
  change (mark v l (id :: ids)) with (mark v (<[Z.to_nat id := v]> l) ids). by rewrite IH, length_insert.
Qed.

Definition is_marked (active : list bool) (id : Z) : bool := default false (active !! Z.to_nat id).

Lemma check_active_run entries : forall i active d g,
  Forall (fun id => 0 <= id < 12) (core_ids entries) -> length active = 12%nat ->
  let r := (check_active mem i entries active : K unit) d g in
  o_exit r = (if forallb (is_marked active) (core_ids entries) then Done tt else Aborted) /\
  o_glob r = g /\ o_dev r = d /\ icr (o_events r) = [].
Proof.
  induction entries as [|entry entries IH]; intros i active d g Hids Ha; [done|]. cbn [check_active].
  cbn [core_ids map] in Hids |- *. apply Forall_cons_iff in Hids as [Hid Hids]. cbn [forallb].
  destruct (lookup_lt_is_Some_2 active (Z.to_nat (u8_at mem (entry + 3)))) as [b Hb]; [lia|].
  rewrite (bind_done _ _ d g d g [] b) by (by rewrite Hb).
  rewrite (bind_done (kprintf _ _) _ d g d g [EPrint "i: %u, core_id: %u, active: %b\n"
    [PNum i; PNum (u8_at mem (entry + 3)); PNum (if b then 1 else 0)]] tt) by done.
  unfold is_marked at 1. rewrite Hb. destruct b; [|done].
  rewrite (bind_done (assert_handler_fmt true _ _) _ d g d g [] tt) by done.
  destruct (IH (i + 1) active d g Hids Ha) as (He & Hg & Hd & Hi).
  cbv zeta. cbn [o_exit o_glob o_events o_dev default andb app]. done.
Qed.

Lemma in_others boot ids i : existsb (Z.eqb i) (others boot ids) = existsb (Z.eqb i) ids && negb (i =? boot).
Proof.
  induction ids as [|id ids IH]; [done|]. cbn [others List.filter existsb].
  destruct (Z.eqb_spec id boot) as [->|Hne]; cbn [negb existsb].
  - fold (others boot ids). rewrite IH. destruct (Z.eqb_spec i boot), (existsb (Z.eqb i) ids); done.
  - fold (others boot ids). rewrite IH. destruct (Z.eqb_spec i id) as [->|]; [|done].
    by rewrite (proj2 (Z.eqb_neq id boot) Hne).
Qed.

(** Where [core_is_active] starts. *)
Definition first_active : list bool := true :: repeat false 11.

Lemma all_marked boot ids : Forall (fun id => 0 <= id < 12) ids -> 0 <= boot ->
  forallb (is_marked (mark true first_active (others boot ids))) ids = (boot =? 0) || negb (existsb (Z.eqb boot) ids).
Proof.
  intros Hids Hboot.
  assert (Hin : Forall (fun id => 0 <= id < Z.of_nat (length first_active)) (others boot ids)).
  { apply List.Forall_forall. intros id Hin. apply List.filter_In in Hin as [Hin _].
    rewrite List.Forall_forall in Hids. exact (Hids id Hin). }
  assert (Hm : forall id, In id ids ->
    is_marked (mark true first_active (others boot ids)) id = negb (id =? boot) || (id =? 0)).
  { intros id Hid. rewrite List.Forall_forall in Hids. pose proof (Hids id Hid) as Hr. unfold is_marked.
    rewrite lookup_mark; [|exact Hin|lia]. rewrite in_others.
    assert (He : existsb (Z.eqb id) ids = true).
    { apply existsb_exists. exists id. split; [exact Hid|apply Z.eqb_refl]. }
    rewrite He. cbn [andb]. destruct (negb (id =? boot)); [done|].
    assert (Hrange : id = 0 \/ 0 < id < 12) by lia. destruct Hrange as [->|Hp]; [done|].
    rewrite (proj2 (Z.eqb_neq id 0)) by lia. unfold first_active.
    destruct (Z.to_nat id) as [|n] eqn:En; [lia|]. cbn [lookup list_lookup].
    do 11 (destruct n as [|n]; [done|]). lia. }
  destruct (existsb (Z.eqb boot) ids) eqn:Eb.
  - apply existsb_exists in Eb as (x & Hx & He). apply Z.eqb_eq in He. subst x. rewrite orb_false_r.
    destruct (Z.eqb_spec boot 0) as [->|Hne].
    + apply List.forallb_forall. intros id Hid. rewrite (Hm id Hid). by destruct (id =? 0).
    + apply not_true_is_false. intros Hall. rewrite List.forallb_forall in Hall.
      specialize (Hall boot Hx). rewrite (Hm boot Hx), Z.eqb_refl in Hall. cbn in Hall. lia.
  - rewrite orb_true_r. apply List.forallb_forall. intros id Hid. rewrite (Hm id Hid).
    destruct (Z.eqb_spec id boot) as [->|]; [|done].
    assert (Ht : existsb (Z.eqb boot) ids = true).
    { apply existsb_exists. exists boot. split; [exact Hid|apply Z.eqb_refl]. }
    by rewrite Ht in Eb.
Qed.

(** C12: On a machine that accepts commands at once, whose timer ticks and whose other processors
    obey ([CoresObey]: INIT makes one ready, the start-up command starts a ready one, which sets its
    flag some looks later and, told to, is in its main function some looks after that; all flags are
    false before), for processors with ids below 12 and as long as there are free places for the
    messages of their timeouts (32 in all, one each): [wake_all] returns or aborts, never hangs.  It
    sends INIT, its deassertion and one start-up command to every processor of the table but the boot
    processor, in the order of the table and nothing else to the command registers, leaves their
    main function and mark, and when it is done every one of them is in its main function.  Then it
    passes its assertion exactly when the boot processor's id is 0 or not in the table. *)
Theorem all_processors_woken d g parsed boot :
  let entries := take (Z.to_nat (runtime_core_count (lapic_of g))) (parsed processor_local_apic) in
  let ids := core_ids entries in
  let r := (wake_all DEBUG mem finished core_bootstrap core_main wakeups parsed boot : K unit) d g in
  Forall (fun id => 0 <= id < 12) ids -> 0 <= boot -> messages_ok (of_pit (lapic_of g)) ->
  pit_write_index (of_pit (lapic_of g)) + Z.of_nat (length ids) <= 32 ->
  length (core_mains (lapic_of g)) = 12%nat ->
  icr (o_events r) = others boot ids ≫= wake_commands core_bootstrap /\
  core_mains (lapic_of (o_glob r)) = mark core_main (core_mains (lapic_of g)) (others boot ids) /\
  master_tells_core_to_start (lapic_of (o_glob r)) =
    mark true (master_tells_core_to_start (lapic_of g)) (others boot ids) /\
  Forall (fun id => stage (latency:=latency) id (o_dev r) = InMain) (others boot ids) /\
  o_exit r = if (boot =? 0) || negb (existsb (Z.eqb boot) ids) then Done tt else Aborted.
Proof.
  intros entries ids r Hids Hboot Hok Hn Hl.
  assert (Hlen : (length (others boot ids) <= length ids)%nat) by apply filter_length_le.
  destruct (wake_cores_succeeds boot entries (pit_write_index (of_pit (lapic_of g))) g first_active [] Hids
    ltac:(split; [split; [exact Hok|done]|exact Hl]) ltac:(fold ids; lia) eq_refl d)
    as (a & He & (Ha & Hm & Ht & Hi) & Hin); [by constructor|].
  unfold r, wake_all.
  rewrite (bind_done (on_lapic (gets runtime_core_count)) _ d g d g [] (runtime_core_count (lapic_of g)))
    by (by destruct g as [[? ?] ? ?]).
  rewrite (bind_done (kprintf _ _) _ d g d g [EPrint "runtime count : %u\n" [PNum (runtime_core_count (lapic_of g))]] tt) by done.
  rewrite (bind_done (on_gdt (gets fs_selector)) _ d g d g [] (fs_selector (of_gdt g))) by (by destruct g).
  rewrite (bind_done (kprintf _ _) _ d g d g [EPrint "fs = 0x%hx\n" [PNum (fs_selector (of_gdt g))]] tt) by done.
  fold entries. change (true :: repeat false _) with first_active.
  destruct ((wake_cores DEBUG mem finished core_bootstrap core_main wakeups entries boot first_active : K _) d g)
    as [d1 g1 es1 e1] eqn:E. cbn [o_exit o_glob o_events o_dev] in *. subst e1.
  rewrite (bind_done _ _ d g d1 g1 es1 a E).
  rewrite (bind_done (kprintf _ _) _ d1 g1 d1 g1 [EPrint "Tried to activate all the cores\n" []] tt) by done.
  destruct (check_active_run entries 0 a d1 g1 Hids ltac:(by rewrite Ha, length_mark)) as (He2 & Hg2 & Hd2 & Hi2).
  cbv zeta. cbn [o_exit o_glob o_events o_dev]. rewrite Hg2, He2, Hd2. split; [|split; [exact Hm|split; [exact Ht|split; [exact Hin|]]]].
  - rewrite !icr_app, Hi, Hi2. exact (app_nil_r _).
  - by rewrite Ha, all_marked.
Qed.
End wake_all.

(** ** The routes of the interrupts *)

Section overrides.
Context {D : Type} (mem : Z -> Z).
Local Abbreviation K T := (M D kernel_globals T).

Definition irq_of (ios : Z) : Z := u8_at mem (ios + 3).
Definition gsi_of (ios : Z) : Z := u8 (u32_at mem (ios + 4)).
Definition bus_of (ios : Z) : Z := u8_at mem (ios + 2).

(** The last override of an interrupt counts. *)
Definition route (entries : list Z) (irq : Z) : Z :=
  foldl (fun gsi ios => if irq_of ios =? irq then gsi_of ios else gsi) irq entries.

(** The first override that the code does not take. *)
Definition refused (ios : Z) : bool := negb ((irq_of ios <? 24) && (bus_of ios =? 0)).

Lemma u8_at_range addr : 0 <= u8_at mem addr < 256.
Proof. unfold u8_at. cbn [load_at]. unfold byte_at. pose proof (u8_range (mem (u32 addr))) as Hr. unfold is_u8 in Hr. lia. Qed.

Lemma apply_overrides_run entries : forall t d g, length t = 24%nat ->
  let r := (apply_overrides mem entries t : K (list Z)) d g in
  (o_dev r = d /\ o_glob r = g) /\
  match List.find refused entries with
  | Some ios => o_exit r = if irq_of ios <? 24 then Aborted else Undefined
  | None => exists t', o_exit r = Done t' /\ length t' = 24%nat /\
      forall irq, 0 <= irq -> t' !! Z.to_nat irq =
        (fun gsi => foldl (fun gsi ios => if irq_of ios =? irq then gsi_of ios else gsi) gsi entries) <$> t !! Z.to_nat irq
  end.
Proof.
  induction entries as [|ios entries IH]; intros t d g Ht.
  { split; [done|]. exists t. split; [done|]. split; [done|]. intros irq _. cbn. by destruct (t !! _). }
  pose proof (u8_at_range (ios + 3)) as Hr. cbn [apply_overrides List.find]. unfold refused at 1.
  fold (irq_of ios) (gsi_of ios) (bus_of ios) in *.
  destruct (Z.ltb_spec (irq_of ios) 24) as [Hi|Hi]; cbn [andb negb].
  2:{ rewrite (proj2 (Z.ltb_ge _ _) Hi). rewrite (lookup_ge_None_2 t (Z.to_nat (irq_of ios))) by lia. done. }
  destruct (lookup_lt_is_Some_2 t (Z.to_nat (irq_of ios))) as [v Hv]; [lia|].
  rewrite (bind_done _ _ d g d g [] v) by (by rewrite Hv).
  destruct (bus_of ios =? 0); cbn [negb].
  2:{ rewrite (proj2 (Z.ltb_lt _ _) Hi). done. }
  rewrite (bind_done (assert_handler_fmt true _ _) _ d g d g [] tt) by done.
  rewrite (bind_done (kprintf _ _) _ d g d g [EPrint "Irq Source: %u -> GSI : %u\n" [PNum (irq_of ios); PNum (gsi_of ios)]] tt) by done.
  cbv zeta. cbn [o_dev o_exit o_glob].
  destruct (IH (<[Z.to_nat (irq_of ios) := gsi_of ios]> t) d g ltac:(by rewrite length_insert)) as [Hg Hm].
  split; [exact Hg|]. destruct (List.find refused entries); [exact Hm|].
  destruct Hm as (t' & He & Hl & Hw). exists t'. split; [exact He|]. split; [exact Hl|].
  intros irq Hirq. rewrite (Hw irq Hirq). destruct (Z.eqb_spec (irq_of ios) irq) as [<-|Hne].
  - rewrite list_lookup_insert_eq by lia. rewrite Hv. cbn. by rewrite Z.eqb_refl.
  - rewrite list_lookup_insert_ne by lia. cbn [foldl]. by rewrite (proj2 (Z.eqb_neq _ _) Hne).
Qed.

(** Without a bad entry the table of the interrupts sends every one of the 24 to the target of its
    last override, to itself where it has none; the first override from a bus other than ISA stops
    the kernel, and the first one for an interrupt from 24 on is a write outside the table. *)
Lemma irq_table_of_overrides d g entries :
  let r := (apply_overrides mem entries identity_irqs : K (list Z)) d g in
  (o_dev r = d /\ o_glob r = g) /\
  match List.find refused entries with
  | Some ios => o_exit r = if irq_of ios <? 24 then Aborted else Undefined
  | None => exists t, o_exit r = Done t /\ length t = 24%nat /\
      forall irq, 0 <= irq < 24 -> t !! Z.to_nat irq = Some (route entries irq)
  end.
Proof.
  intros r. destruct (apply_overrides_run entries identity_irqs d g eq_refl) as [Hs Hr]. fold r in Hr.
  split; [exact Hs|].
  destruct (List.find refused entries); [exact Hr|]. destruct Hr as (t & He & Hl & Hw).
  exists t. split; [exact He|]. split; [exact Hl|]. intros irq Hirq. rewrite (Hw irq) by lia.
  unfold identity_irqs. change ApicIo.number_of_apic_io_irq with 24.
  rewrite (lookup_seqZ_lt 0 24) by lia. cbn. unfold route. do 2 f_equal. lia.
Qed.

Lemma route_u8 entries irq : is_u8 irq -> is_u8 (route entries irq).
Proof.
  unfold route. revert irq. cut (forall gsi irq, is_u8 gsi ->
    is_u8 (foldl (fun gsi ios => if irq_of ios =? irq then gsi_of ios else gsi) gsi entries)); [auto|].
  induction entries as [|ios entries IH]; intros gsi irq Hg; [exact Hg|]. cbn. apply IH.
  destruct (_ =? _); [apply u8_range|exact Hg].
Qed.
End overrides.

(** The ports of the interrupt controllers are not those of the I/O APIC. *)
Class PortsApart (D : Type) `{PortDevice D} `{IoApicChip D} := {
  in_apart p d sel regs : holds d sel regs -> holds (snd (port_in p d)) sel regs;
  out_apart p v d sel regs : holds d sel regs -> holds (port_out p v d) sel regs;
}.

Section routes.
Context {D : Type} `{PortDevice D} `{IoApicChip D} `{!PortsApart D}.
Context (DEBUG : bool) (mem : Z -> Z).
Local Abbreviation K T := (M D kernel_globals T).

Lemma overrides_reach d g sel regs entries : holds d sel regs -> List.find (refused mem) entries = None ->
  exists t, (forall irq, 0 <= irq < 24 -> t !! Z.to_nat irq = Some (route mem entries irq)) /\
    reaches (apply_overrides mem entries identity_irqs : K (list Z)) d g t (fun d' => holds d' sel regs).
Proof.
  intros Hd Hf. destruct (irq_table_of_overrides mem d g entries) as [[Hdev Hg] Hr]. rewrite Hf in Hr.
  destruct Hr as (t & He & _ & Ht). exists t. split; [exact Ht|]. unfold reaches.
  destruct (apply_overrides _ _ _ d g) as [d' g' es e]. cbn in *. subst. by exists d, es.
Qed.

Lemma count_reaches d g sel regs : holds d sel regs ->
  reaches (get_max_redirection_entry_count : K Z) d g
    (get_field version "max_redirection_entry" (u32 (regs RegisterOffsets.version)))
    (fun d' => holds d' RegisterOffsets.version regs).
Proof.
  intros Hd. unfold get_max_redirection_entry_count. eapply reaches_bind.
  - by apply (register_reads (fun win => win) RegisterOffsets.version _ _ _ _ ltac:(done) Hd).
  - intros d1 Q1. apply reaches_same, Q1.
Qed.

Lemma mask_reaches d g sel regs : holds d sel regs ->
  reaches (IRQ_set_mask 0 : K unit) d g tt (fun d' => holds d' sel regs).
Proof.
  intros Hd. unfold IRQ_set_mask. change (31 <=? mask_line 0) with false. cbn iota.
  eapply (reaches_bind _ _ _ _ (u8 (fst (port_in (mask_port 0) d))) _ (fun d' => holds d' sel regs)).
  - pose proof (in_apart (mask_port 0) d sel regs Hd) as Hi. unfold reaches, inb.
    destruct (port_in (mask_port 0) d) as [v d1]. by exists d1, [EIn (mask_port 0) (u8 v)].
  - intros d1 Q1. eexists _, _. split; [reflexivity|]. by apply out_apart.
Qed.

(** C35: From the table of the firmware to the registers of the chip: with one I/O APIC and acceptable
    overrides the timer, the keyboard and the mouse are routed to their vectors on processor 0 at
    the inputs that the overrides name, provided that these are three different ones, processor 0 becomes the owner, and every other register
    keeps its value. *)
Theorem madt_routes_interrupts d g sel regs parsed io : holds d sel regs -> parsed io_apic = [io] ->
  let overrides := parsed io_apic_interrupt_source_override in
  let input irq := route mem overrides irq in
  List.find (refused mem) overrides = None ->
  input 0 <> input 1 -> input 0 <> input 12 -> input 1 <> input 12 ->
  reaches (route_interrupts DEBUG mem parsed : K unit) d g tt (fun d' => exists sel' regs', holds d' sel' regs' /\
    get_field id "apic_id" (u32 (regs' 0)) = 0 /\
    (forall irq vector, In (irq, vector) [(0, 32); (1, 33); (12, 44)] ->
       (regs' (16 + 2 * input irq), regs' (17 + 2 * input irq)) = (vector, 0)) /\
    forall i, i <> 0 -> (forall irq, In irq [0; 1; 12] -> entry_of (input irq) i = false) -> regs' i = regs i).
Proof.
  intros Hd Hio overrides input Hf N01 N02 N12. unfold route_interrupts. rewrite Hio.
  eapply reaches_bind; [apply reaches_kprintf, Hd|]. intros d1 Q1.
  eapply reaches_bind; [apply reaches_same, Q1|]. intros d2 Q2. cbn beta.
  eapply reaches_bind; [by apply (count_reaches _ _ _ _ Q2)|]. intros d3 Q3.
  eapply reaches_bind; [apply reaches_kprintf, Q3|]. intros d4 Q4.
  eapply reaches_bind; [apply reaches_same, Q4|]. intros d5 Q5.
  destruct (overrides_reach d5 g _ _ overrides Q5 Hf) as (t & Ht & Hr).
  eapply reaches_bind; [exact Hr|]. intros d6 Q6.
  eapply reaches_bind; [apply reaches_kprintf, Q6|]. intros d7 Q7.
  eapply reaches_bind.
  { apply (init_io_apic_routes DEBUG d7 g _ _ t (input 0) (input 1) (input 12) Q7 (Ht 0 ltac:(lia)) (Ht 1 ltac:(lia))
      (Ht 12 ltac:(lia))); try done; apply route_u8; unfold is_u8; lia. }
  intros d8 (sel8 & regs8 & Q8 & Ho & Hp & Hk & Hm & Hrest).
  eapply reaches_bind; [by apply mask_reaches|]. intros d9 Q9.
  eapply reaches_weaken; [apply reaches_kprintf, Q9|]. intros d10 Q10.
  exists sel8, regs8. split; [exact Q10|]. split; [exact Ho|]. split.
  - intros irq vector [[= <- <-]|[[= <- <-]|[[= <- <-]|[]]]]; assumption.
  - intros i Hi He. apply Hrest; [exact Hi|apply He; cbn; tauto..].
Qed.
End routes.

(** ** The theorem at a concrete input

    A machine whose other processors are off, take three looks to start and three to enter their
    main functions; and three processors, which the firmware's table lists at the addresses 0, 8
    and 16. *)
Record cores_machine := mk_cores { icr_high : Z; cores : Z -> core_stage }.

Definition put_core (id : Z) (s : core_stage) (d : cores_machine) : cores_machine :=
  mk_cores (icr_high d) (fun i => if i =? id then s else cores d i).
Definition one_look (s : core_stage) : core_stage :=
  match s with
  | Starting (S n) => Starting n
  | Starting O => Booted
  | Entering (S n) => Entering n
  | Entering O => InMain
  | s => s
  end.
Definition on_command (low : Z) (s : core_stage) : core_stage :=
  if low =? INIT then Ready
  else if low =? SIPI 0x8000 then match s with Ready => Starting 2 | s => s end
  else s.

#[local] Instance cores_ports : PortDevice cores_machine := {
  port_in := fun _ d => (0, d);
  port_out := fun _ _ d => d
}.
#[local] Instance cores_registers : RegisterDevice cores_machine := {
  register_in := fun _ d => (0, d);
  register_out := fun a v d =>
    if a =? ICR_HIGH then mk_cores v (cores d)
    else if a =? ICR_LOW then
      let id := icr_high d / 2 ^ 24 in put_core id (on_command v (cores d id)) d
    else d
}.
#[local] Instance cores_ticking : Interrupts cores_machine := {
  next_interrupt := fun d => (Some IRQ0, d);
  passing := fun d => (None, d)
}.
(** Waking uses none of the special instructions. *)
#[local] Instance cores_processor : Processor cores_machine := {
  cpuid_in := fun _ _ _ => mk_regs 0 0 0 0;
  cr_in := fun _ _ => 0; cr_out := fun _ _ d => d;
  msr_in := fun _ _ => (0, 0); msr_out := fun _ _ _ d => d;
  xcr0_in := fun _ => (0, 0); xcr0_out := fun _ _ d => d;
  fpu_cw_in := fun _ => 0; fpu_cw_out := fun _ d => d;
  mxcsr_in := fun _ => 0; mxcsr_out := fun _ d => d;
  fs_word := fun _ => 0
}.
#[local] Instance cores_start : OtherCores cores_machine := {
  core_has_booted := fun id d => (has_booted (cores d id), put_core id (one_look (cores d id)) d);
  told_to_start := fun id d =>
    put_core id (match cores d id with Booted => Entering 2 | s => s end) d;
  sent_meanwhile := fun d => ([], d)
}.
#[local] Instance cores_enter : CoreMains cores_machine := {
  fs_out := fun _ d => d;
  entered_main := fun id d => (in_main (cores d id), put_core id (one_look (cores d id)) d)
}.

Lemma one_look_looked s : looked s (one_look s).
Proof. destruct s as [| |[|n]| |[|n]|]; cbn; try done; try (by left); right; exists n; split; (lia || done). Qed.

#[local] Instance cores_obey : CoresObey cores_machine 0x8000 3.
Proof.
  refine {| stage := fun id d => cores d id |}; try done.
  - intros a v d id Ha. cbn. destruct (a =? ICR_HIGH); [by left|].
    rewrite (proj2 (Z.eqb_neq a ICR_LOW) Ha). by left.
  - intros core_id low d id. cbn -[Z.div Z.pow Z.mul]. rewrite Z.div_mul by done.
    unfold put_core. cbn [cores]. destruct (decide (id = core_id)) as [->|Hne].
    + rewrite Z.eqb_refl. split; [by intros ->|]. split; [intros ->; by left|].
      intros -> ->. by exists 2%nat; split; [lia|].
    + rewrite (proj2 (Z.eqb_neq id core_id) Hne). by left.
  - intros core_id d id. cbn. unfold put_core. cbn [cores]. destruct (decide (id = core_id)) as [->|Hne].
    + rewrite Z.eqb_refl. split; [done|apply one_look_looked].
    + rewrite (proj2 (Z.eqb_neq id core_id) Hne). by left.
  - intros core_id d id. cbn. unfold put_core. cbn [cores]. destruct (decide (id = core_id)) as [->|Hne].
    + rewrite Z.eqb_refl. split; [done|apply one_look_looked].
    + rewrite (proj2 (Z.eqb_neq id core_id) Hne). by left.
  - intros core_id d id. cbn. unfold put_core. cbn [cores]. destruct (decide (id = core_id)) as [->|Hne].
    + rewrite Z.eqb_refl. intros ->. by exists 2%nat; split; [lia|].
    + rewrite (proj2 (Z.eqb_neq id core_id) Hne). by left.
Defined.

Definition all_off : cores_machine := mk_cores 0 (fun _ => Off).
Definition three_processors : Z -> Z := fun a => if a =? 11 then 1 else if a =? 19 then 2 else 0.
Definition parsed_three : MADTParseResult := fun k => match k with processor_local_apic => [0; 8; 16] | _ => [] end.

Definition kernel_boot : kernel_globals :=
  mk_kernel (mk_timer (mk_apic false (repeat (repeat 0 12) 12) 0 (repeat false 12) (repeat 0 12) 3 pit_boot maxima_known) 0)
    (mk_gdt_globals 31 [] 0 0) before_rounds.

Lemma all_processors_woken_witness :
  let wake boot := wake_all (D:=cores_machine) true three_processors 4096 0x8000 0x100000 4 parsed_three boot all_off kernel_boot in
  icr (o_events (wake 0)) = wake_commands 0x8000 1 ++ wake_commands 0x8000 2 /\
  stage 1 (o_dev (wake 0)) = InMain /\ stage 2 (o_dev (wake 0)) = InMain /\
  o_exit (wake 0) = Done tt /\ o_exit (wake 2) = Aborted.
Proof.
  assert (Hb : 0 <= 0x8000 < 0xFF000 /\ 0x8000 mod 0x1000 = 0) by (split; [lia|done]).
  assert (Hids : Forall (fun id => 0 <= id < 12) (core_ids three_processors [0; 8; 16])).
  { repeat constructor; vm_compute; congruence. }
  pose proof (fun boot Hboot => all_processors_woken (D:=cores_machine) true three_processors 4096 0x8000 0x100000 4 3
    (fun _ => I) (fun _ => eq_refl) ltac:(lia) Hb all_off kernel_boot parsed_three boot
    Hids Hboot ltac:(by repeat split) ltac:(by vm_compute) eq_refl) as Hw.
  destruct (Hw 0 ltac:(lia)) as (Hi & _ & _ & Hin & He). destruct (Hw 2 ltac:(lia)) as (_ & _ & _ & _ & He2).
  rewrite List.Forall_forall in Hin. intros wake. split; [etransitivity; [exact Hi|by vm_compute]|].
  split; [exact (Hin 1 ltac:(vm_compute; tauto))|]. split; [exact (Hin 2 ltac:(vm_compute; tauto))|].
  split; [etransitivity; [exact He|by vm_compute]|etransitivity; [exact He2|by vm_compute]].
Defined.

(** A chip beside ports that do nothing; the firmware routes the timer to input 2, as most do. *)
#[local] Existing Instance chip_device.
#[local] Existing Instance chip_laws.
#[local] Instance chip_ports : PortDevice chip := {
  port_in := fun _ d => (0, d);
  port_out := fun _ _ d => d
}.
#[local] Instance chip_apart : PortsApart chip.
Proof. split; intros; assumption. Defined.

Definition timer_override : Z -> Z := fun a => if a =? 100 then 2 else if a =? 101 then 10 else if a =? 104 then 2 else 0.
Definition parsed_override : MADTParseResult := fun k =>
  match k with io_apic => [200] | io_apic_interrupt_source_override => [100] | _ => [] end.

Lemma madt_routes_interrupts_witness :
  exists d' es, route_interrupts true timer_override parsed_override (Chip 0 (fun _ => 0)) kernel_boot =
    Outcome d' kernel_boot es (Done tt) /\
    registers d' 20 = 32 /\ registers d' 18 = 33 /\ registers d' 40 = 44 /\ registers d' 16 = 0.
Proof.
  assert (Hf : List.find (refused timer_override) [100] = None) by (by vm_compute).
  assert (Hh : holds (Chip 0 (fun _ => 0)) 0 (fun _ => 0)) by exact (conj (eq_refl 0) (fun _ => eq_refl 0)).
  destruct (madt_routes_interrupts (D:=chip) true timer_override (Chip 0 (fun _ => 0)) kernel_boot 0 (fun _ => 0)
    parsed_override 200 Hh eq_refl Hf ltac:(by vm_compute) ltac:(by vm_compute)
    ltac:(by vm_compute)) as (d' & es & He & sel' & regs' & [_ Hr] & _ & Hin & Hrest).
  exists d', es. split; [exact He|]. rewrite !Hr.
  pose proof (Hin 0 32 ltac:(cbn; tauto)) as [= Ht _]. pose proof (Hin 1 33 ltac:(cbn; tauto)) as [= Hk _].
  pose proof (Hin 12 44 ltac:(cbn; tauto)) as [= Hm _].
  split; [exact Ht|]. split; [exact Hk|]. split; [exact Hm|]. apply Hrest; [lia|].
  intros irq [<-|[<-|[<-|[]]]]; by vm_compute.
Defined.
