(* ===== verification/SpinLock.v ===== *)
(** * The simple spin lock ([stdlib/atomic.h])

    [spin_trylock], [simple_spin_lock] and [simple_spin_unlock] as the interleaved accesses of any
    number of cores to the word of the lock.  A weak compare-and-swap may fail although the word is
    the expected one. *)

From stdpp Require Import relations.
From S2P Require Import Prelude.

(** Where a core is: before the access named.  [expected] is 0 at every swap. *)
Inductive spin_point :=
| Elsewhere
| SpinFirst       (* simple_spin_lock, phase 1: the load of the read-only loop *)
| SpinSwap        (* simple_spin_lock, phase 2: the swap *)
| SpinAgain       (* simple_spin_lock, phase 2: the load of the inner loop *)
| TryOnce         (* spin_trylock: the swap *)
| Storing.        (* simple_spin_unlock: the store *)
#[export] Instance spin_point_eq : EqDecision spin_point.
Proof. solve_decision. Defined.

(** What is seen of a step: [simple_spin_lock] returns or [spin_trylock] returns true; [spin_trylock]
    returns false; the store of [simple_spin_unlock]. *)
Inductive spin_label := Inside | Taken | NotTaken | Freed.

(** [__atomic_compare_exchange_n(lock, &expected, desired, true, ...)]: the word afterwards and the
    result. *)
Inductive weak_swap (w expected desired : Z) : Z -> bool -> Prop :=
| swap_succeeds : w = expected -> weak_swap w expected desired desired true
| swap_fails : weak_swap w expected desired w false.

Section cores.
Context {core : Type} `{EqDecision core}.

Record spin_machine := mk_spin { lock_word : Z; place_of : core -> spin_point }.

Definition go (c : core) (p : spin_point) (w : Z) (m : spin_machine) : spin_machine :=
  mk_spin w (fun o => if decide (o = c) then p else place_of m o).

Inductive spin_step (c : core) : spin_machine -> spin_label -> spin_machine -> Prop :=
| call_lock m : place_of m c = Elsewhere -> spin_step c m Inside (go c SpinFirst (lock_word m) m)
| call_trylock m : place_of m c = Elsewhere -> spin_step c m Inside (go c TryOnce (lock_word m) m)
| call_unlock m : place_of m c = Elsewhere -> spin_step c m Inside (go c Storing (lock_word m) m)
| first_busy m : place_of m c = SpinFirst -> lock_word m <> 0 -> spin_step c m Inside (go c SpinFirst (lock_word m) m)
| first_free m : place_of m c = SpinFirst -> lock_word m = 0 -> spin_step c m Inside (go c SpinSwap (lock_word m) m)
| lock_swaps m w : place_of m c = SpinSwap -> weak_swap (lock_word m) 0 1 w true ->
    spin_step c m Taken (go c Elsewhere w m)
| lock_fails m w : place_of m c = SpinSwap -> weak_swap (lock_word m) 0 1 w false ->
    spin_step c m Inside (go c SpinAgain w m)
| again_busy m : place_of m c = SpinAgain -> lock_word m <> 0 -> spin_step c m Inside (go c SpinAgain (lock_word m) m)
| again_free m : place_of m c = SpinAgain -> lock_word m = 0 -> spin_step c m Inside (go c SpinSwap (lock_word m) m)
| try_swaps m w : place_of m c = TryOnce -> weak_swap (lock_word m) 0 1 w true ->
    spin_step c m Taken (go c Elsewhere w m)
| try_fails m w : place_of m c = TryOnce -> weak_swap (lock_word m) 0 1 w false ->
    spin_step c m NotTaken (go c Elsewhere w m)
| stores m : place_of m c = Storing -> spin_step c m Freed (go c Elsewhere 0 m).

(** A lock that nobody holds, every core outside of its functions. *)
Definition spin_boot : spin_machine := mk_spin 0 (fun _ => Elsewhere).

(** What a machine reaches from the start, the last step at the end. *)
Inductive reaches : list (core * spin_label) -> spin_machine -> Prop :=
| at_boot : reaches [] spin_boot
| one_more h m c l m' : reaches h m -> spin_step c m l m' -> reaches (h ++ [(c, l)]) m'.

(** ** The lock as a set of one holder *)

(** How often a core has taken the lock and not freed it. *)
Definition balance (l : spin_label) : Z := match l with Taken => 1 | Freed => -1 | _ => 0 end.
Definition holds (c : core) (h : list (core * spin_label)) : Z :=
  foldr (fun e n => (if decide (fst e = c) then balance (snd e) else 0) + n) 0 h.

(** The discipline of the callers: only a core that holds the lock frees it. *)
Definition well_used (h : list (core * spin_label)) : Prop :=
  forall h1 c h2, h = h1 ++ (c, Freed) :: h2 -> 0 < holds c h1.

Definition exclusive_step (c : core) (l : spin_label) (a : option core) : option (option core) :=
  match l, a with
  | Inside, _ | NotTaken, _ => Some a
  | Taken, None => Some (Some c)
  | Taken, Some _ => None
  | Freed, Some o => if decide (o = c) then Some None else None
  | Freed, None => None
  end.
Fixpoint exclusive_run (h : list (core * spin_label)) (a : option core) : option (option core) :=
  match h with [] => Some a | (c, l) :: h => a ← exclusive_step c l a; exclusive_run h a end.

Lemma holds_app c h h' : holds c (h ++ h') = holds c h + holds c h'.
Proof. unfold holds. induction h as [|e h IH]; cbn; [done|]. rewrite IH. lia. Qed.

Lemma exclusive_app h h' a : exclusive_run (h ++ h') a = (exclusive_run h a ≫= exclusive_run h').
Proof.
  revert a. induction h as [|[c l] h IH]; intros a; cbn; [done|].
  destruct (exclusive_step c l a) as [a'|]; cbn; [apply IH|done].
Qed.

Lemma well_used_app h h' : well_used (h ++ h') -> well_used h.
Proof. intros Hw h1 c h2 ->. apply (Hw h1 c (h2 ++ h')). by rewrite <- (assoc_L (++)). Qed.

Definition word_of (a : option core) : Z := match a with Some _ => 1 | None => 0 end.

(** What is known of the word, the holder and the counts. *)
Definition agrees (h : list (core * spin_label)) (a : option core) (m : spin_machine) : Prop :=
  exclusive_run h None = Some a /\ lock_word m = word_of a /\
  forall c, holds c h = if decide (a = Some c) then 1 else 0.

Lemma agrees_step h a m c l m' : agrees h a m -> spin_step c m l m' -> well_used (h ++ [(c, l)]) ->
  exists a', agrees (h ++ [(c, l)]) a' m'.
Proof.
  intros (Hr & Hw & Hh) Hs Hu.
  (* the step taken gives the new holder; word and counts follow *)
  assert (Hgo : forall a', exclusive_step c l a = Some a' -> lock_word m' = word_of a' ->
    (forall o, (if decide (a = Some o) then 1 else 0) + (if decide (c = o) then balance l else 0) =
      if decide (a' = Some o) then 1 else 0) -> agrees (h ++ [(c, l)]) a' m').
  { intros a' He Hw' Hc. unfold agrees. rewrite exclusive_app, Hr. cbn. rewrite He. split; [done|].
    split; [exact Hw'|]. intros o. rewrite holds_app, Hh. cbn. rewrite Z.add_0_r. apply Hc. }
  assert (Hsame : l = Inside \/ l = NotTaken -> lock_word m' = lock_word m -> agrees (h ++ [(c, l)]) a m').
  { intros Hl Hm. apply Hgo; [by destruct Hl as [-> | ->]|congruence|].
    intros o. destruct Hl as [-> | ->]; cbn; destruct (decide (c = o)); lia. }
  assert (Htake : l = Taken -> lock_word m = 0 -> lock_word m' = 1 -> agrees (h ++ [(c, l)]) (Some c) m').
  { intros -> H0 H1. destruct a as [o|]; [rewrite Hw in H0; discriminate|]. apply Hgo; [done|done|].
    intros o. cbn. repeat case_decide; congruence || lia. }
  destruct Hs as [m Hp|m Hp|m Hp|m Hp Hb|m Hp Hf|m w Hp Hx|m w Hp Hx|m Hp Hb|m Hp Hf|m w Hp Hx|m w Hp Hx|m Hp];
    try (inversion Hx; subst); try (exists a; apply Hsame; [tauto|done]); try (exists (Some c); by apply Htake).
  pose proof (Hu h c [] eq_refl) as Hpos. rewrite Hh in Hpos. case_decide as E; [|lia]. subst a.
  exists None. apply Hgo; [cbn; by rewrite decide_True|done|].
  intros o. cbn. repeat case_decide; congruence || lia.
Qed.

(** C14: While only holders free the lock, every interleaving of any number of cores is a history of a
    lock with one holder: a core takes it only when nobody holds it, the word is 1 exactly while
    it is held, and no two cores ever hold it together. *)
Theorem spin_lock_excludes h m : reaches h m -> well_used h ->
  exists a, exclusive_run h None = Some a /\ lock_word m = word_of a /\
    (forall c, holds c h = if decide (a = Some c) then 1 else 0) /\
    (forall c c', 0 < holds c h -> 0 < holds c' h -> c = c').
Proof.
  intros Hr Hu. cut (exists a, agrees h a m).
  { intros [a (He & Hw & Hh)]. exists a. split; [done|]. split; [done|]. split; [done|].
    intros c c' Hc Hc'. rewrite Hh in Hc, Hc'. repeat case_decide; congruence || lia. }
  induction Hr as [|h m c l m' Hr IH Hs].
  - exists None. split; [done|]. split; [done|]. intros c. by rewrite decide_False.
  - destruct (IH (well_used_app _ _ Hu)) as [a Ha]. by apply (agrees_step h a m c l m').
Qed.

(** ** One core alone *)

(** The runs of one core. *)
Inductive alone (c : core) : spin_machine -> list spin_label -> spin_machine -> Prop :=
| alone_nil m : alone c m [] m
| alone_cons m l m1 ls m' : spin_step c m l m1 -> alone c m1 ls m' -> alone c m (l :: ls) m'.

(** It is inside [simple_spin_lock]. *)
Definition locking (p : spin_point) : Prop := p = SpinFirst \/ p = SpinSwap \/ p = SpinAgain.

Lemma place_go c p w m : place_of (go c p w m) c = p.
Proof. cbn. by rewrite decide_True. Qed.

Lemma busy_step c m l m' : locking (place_of m c) -> lock_word m <> 0 -> spin_step c m l m' ->
  l = Inside /\ locking (place_of m' c) /\ lock_word m' = lock_word m.
Proof.
  intros Hl Hw Hs. unfold locking in *.
  destruct Hs as [m Hp|m Hp|m Hp|m Hp Hb|m Hp Hf|m w Hp Hx|m w Hp Hx|m Hp Hb|m Hp Hf|m w Hp Hx|m w Hp Hx|m Hp];
    rewrite ?place_go; try (destruct Hl as [?|[?|?]]; congruence); try (inversion Hx; subst); auto; done.
Qed.

Lemma busy_alone c m ls m' : alone c m ls m' -> locking (place_of m c) -> lock_word m <> 0 ->
  Forall (eq Inside) ls /\ locking (place_of m' c) /\ lock_word m' = lock_word m.
Proof.
  induction 1 as [m|m l m1 ls m' Hs Ha IH]; intros Hl Hw; [done|].
  destruct (busy_step c m l m1 Hl Hw Hs) as (-> & Hl1 & Hw1).
  destruct IH as (Hf & Hl' & Hw'); [exact Hl1|congruence|]. split; [by constructor|]. split; [done|congruence].
Qed.

Lemma free_alone c m : locking (place_of m c) -> lock_word m = 0 ->
  exists ls m', alone c m (ls ++ [Taken]) m' /\ Forall (eq Inside) ls /\ (length ls <= 1)%nat /\
    lock_word m' = 1 /\ place_of m' c = Elsewhere.
Proof.
  intros Hl Hw.
  assert (Hswap : forall m1, place_of m1 c = SpinSwap -> lock_word m1 = 0 -> alone c m1 [Taken] (go c Elsewhere 1 m1)).
  { intros m1 Hp H1. eapply alone_cons; [|constructor]. apply lock_swaps; [exact Hp|]. by constructor. }
  destruct Hl as [Hp|[Hp|Hp]].
  - exists [Inside]. eexists. split; [eapply alone_cons; [by apply first_free|apply Hswap; [apply place_go|exact Hw]]|].
    repeat split; try apply place_go. all: repeat constructor.
  - exists []. eexists. split; [by apply Hswap|]. repeat split; try apply place_go. all: cbn; try constructor; lia.
  - exists [Inside]. eexists. split; [eapply alone_cons; [by apply again_free|apply Hswap; [apply place_go|exact Hw]]|].
    repeat split; try apply place_go. all: repeat constructor.
Qed.
End cores.

Arguments spin_machine : clear implicits.

(** ** A history at concrete steps

    Two cores: the first takes the lock, the second is refused, the first frees it and the second
    takes it. *)
Definition sample_history : list (bool * spin_label) :=
  [(true, Inside); (true, Inside); (false, Inside); (true, Taken); (false, NotTaken); (true, Inside);
   (true, Freed); (false, Inside); (false, Taken)].

(** One more step of core [c], by the rule [rule]. *)
Tactic Notation "step_of" constr(c) uconstr(rule) :=
  match goal with R : reaches ?h ?m |- _ =>
    eapply (one_more (core:=bool) h m c) in R; [|eapply rule; first [reflexivity | by constructor]]; cbn [app] in R
  end.

Lemma sample_reached : exists m, reaches sample_history m.
Proof.
  pose proof (at_boot (core:=bool)) as R.
  step_of true call_lock. step_of true first_free. step_of false call_trylock. step_of true lock_swaps.
  step_of false try_fails. step_of true call_unlock. step_of true stores. step_of false call_trylock.
  step_of false try_swaps. eexists. exact R.
Qed.

(** The history has one free, of the core that holds the lock. *)
Lemma sample_well_used : well_used sample_history.
Proof.
  intros h1 c h2 E. unfold sample_history in E.
  do 6 (destruct h1 as [|? h1]; [discriminate E|injection E as <- E]).
  destruct h1 as [|? h1]; [by injection E as <- _|injection E as <- E].
  do 2 (destruct h1 as [|? h1]; [discriminate E|injection E as <- E]). by destruct h1.
Qed.

Lemma spin_lock_excludes_witness :
  exclusive_run sample_history None = Some (Some false) /\ ~ 0 < holds true sample_history.
Proof.
  destruct sample_reached as [m Hm].
  destruct (spin_lock_excludes sample_history m Hm sample_well_used) as (a & He & _ & Hh & _).
  vm_compute in He. injection He as <-. split; [reflexivity|]. rewrite Hh. by vm_compute.
Defined.
