(* ===== verification/SpinLockFacts.v ===== *)
(** * The spin locks of a single processor

    The interval timer and the driver of the local APIC take their locks as one step
    ([Pit.simple_spin_lock], [Apic.lock_received]).  That is what the accesses of
    [simple_spin_lock] come to when one core runs alone. *)

From stdpp Require Import gmap.
From S2P Require Import Prelude Machine SpinLock Terminal BitHex FloatText Lapic Pit Phys Processor Cpuid Apic.
From S2P Require Import Machine.

Section sequential.
Context {D core : Type} `{EqDecision core} (c : core).
Context `{PortDevice D} `{RegisterDevice D} `{Interrupts D} `{Processor D} `{OtherCores D}.

(** [m], which starts from [g], is what the lock with the word [word] does for a core alone: it
    leaves the word of the run that ends with the lock taken, or spins as the core does for ever. *)
Definition alone_agrees {G} (m : M D G unit) (word : G -> Z) (g : G) : Prop :=
  forall d s, locking (place_of s c) -> lock_word s = word g ->
  match o_exit (m d g) with
  | Done _ => exists ls s', alone c s (ls ++ [Taken]) s' /\ Forall (eq Inside) ls /\
      lock_word s' = word (o_glob (m d g)) /\ place_of s' c = Elsewhere
  | Spinning => forall ls s', alone c s ls s' -> Forall (eq Inside) ls /\ locking (place_of s' c)
  | _ => False
  end.

Lemma word_agrees {G} (word : G -> Z) (take : G -> G) g : word (take g) = 1 ->
  alone_agrees (lock ← gets word; if lock =? 0 then modify take else stop Spinning) word g.
Proof.
  intros Ht d s Hl Hw. unfold mbind, M_bind, gets. cbn. destruct (Z.eqb_spec (word g) 0) as [E|E]; cbn.
  - destruct (free_alone c s Hl ltac:(congruence)) as (ls & s' & Ha & Hi & _ & Hw' & Hp).
    exists ls, s'. repeat split; [exact Ha|exact Hi|congruence|exact Hp].
  - intros ls s' Ha. destruct (busy_alone c s ls s' Ha Hl ltac:(congruence)) as (Hi & Hp & _). done.
Qed.

(** C38: The one-step locks of the timer and of the local APIC do what the interleaved lock does for a
    processor that runs alone: a free lock is taken, the words agree and the core is out of the lock;
    with a taken one the processor spins for ever. *)
Theorem sequential_locks_agree (p : pit_globals) (g : apic_globals) :
  alone_agrees (Pit.simple_spin_lock : M D pit_globals unit) quick_pit_lock p /\
  alone_agrees (lock_received : M D apic_globals unit) last_interrupt_received_spin_lock g.
Proof.
  split.
  - exact (word_agrees quick_pit_lock (fun g => set_quick (quick_pit g) 1 g) p eq_refl).
  - exact (word_agrees last_interrupt_received_spin_lock
      (fun g => set_received (last_interrupt_received g) 1 g) g eq_refl).
Qed.
End sequential.
