(* ===== verification/Tss.v ===== *)
(** * Task state segments and interrupt frames ([cpu/idt/tss.h])

    The structs of the header as layouts, the frames that the processor pushes at an interrupt, and
    the functions that push them in software. *)

From S2P Require Import Prelude BitStruct SegmentDescriptor.

(** [sizeof] *)
Definition size_of (l : layout) : Z := total_width (map snd l) / 8.

(** ** The structs *)

Definition tss_descriptor_64 : layout :=
  [("limit_low", 16); ("base_low", 16); ("base_middle1", 8); ("type", 4); ("s", 1); ("dpl", 2); ("p", 1);
   ("limit_high", 4); ("avl", 1); ("l", 1); ("db", 1); ("g", 1); ("base_middle2", 8); ("base_high", 32);
   ("reserved", 32)].

Definition tss16 : layout :=
  [("prev_tss", 16); ("sp0", 16); ("ss0", 16); ("sp1", 16); ("ss1", 16); ("sp2", 16); ("ss2", 16); ("ip", 16);
   ("flags", 16); ("ax", 16); ("cx", 16); ("dx", 16); ("bx", 16); ("sp", 16); ("bp", 16); ("si", 16); ("di", 16);
   ("es", 16); ("cs", 16); ("ss", 16); ("ds", 16); ("ldt_selector", 16)].

Definition tss32 : layout :=
  [("prev_tss", 16); ("reserved0", 16); ("esp0", 32); ("ss0", 16); ("reserved1", 16); ("esp1", 32); ("ss1", 16);
   ("reserved2", 16); ("esp2", 32); ("ss2", 16); ("reserved3", 16); ("cr3", 32); ("eip", 32); ("eflags", 32);
   ("eax", 32); ("ecx", 32); ("edx", 32); ("ebx", 32); ("esp", 32); ("ebp", 32); ("esi", 32); ("edi", 32);
   ("es", 16); ("reserved4", 16); ("cs", 16); ("reserved5", 16); ("ss", 16); ("reserved6", 16); ("ds", 16);
   ("reserved7", 16); ("fs", 16); ("reserved8", 16); ("gs", 16); ("reserved9", 16); ("ldt_selector", 16);
   ("reserved10", 16); ("trap", 16); ("io_map_base", 16)].

Definition tss64 : layout :=
  [("reserved0", 32); ("rsp0", 64); ("rsp1", 64); ("rsp2", 64); ("reserved1", 64); ("ist1", 64); ("ist2", 64);
   ("ist3", 64); ("ist4", 64); ("ist5", 64); ("ist6", 64); ("ist7", 64); ("reserved2", 64); ("reserved3", 16);
   ("iomap_base", 16)].

Definition interrupt_information_32 : layout := [("eip", 32); ("cs", 16); ("_padding", 16); ("eflags", 32)].
Definition interrupt_information_32_error : layout :=
  [("eflags", 32); ("cs", 16); ("_padding", 16); ("eip", 32); ("error_code", 32)].
Definition interrupt_information_32_cplchange : layout :=
  [("old_ss", 16); ("_pad0", 16); ("old_esp", 32); ("eflags", 32); ("cs", 16); ("_pad1", 16); ("eip", 32)].
Definition interrupt_information_32_error_cplchange : layout :=
  interrupt_information_32_cplchange ++ [("error_code", 32)].
Definition interrupt_information_64 : layout :=
  [("old_ss", 16); ("_pad_ss", 16); ("_pad_ss2", 32); ("old_rsp", 64); ("rflags", 64); ("cs", 16); ("_pad_cs", 16);
   ("_pad_cs2", 32); ("rip", 64)].
Definition interrupt_information_64_error : layout :=
  interrupt_information_64 ++ [("error_code", 32); ("_pad_error", 32)].

(** [segment_descriptor_read], and the address [tss_descriptor_64_fast] returns. *)
Definition segment_descriptor_read (gdt : list segment_descriptor_t) (index : Z) : option segment_descriptor_t :=
  gdt !! Z.to_nat index.
Definition tss_descriptor_64_fast (gdt_address index : Z) : Z := u32 (gdt_address + 8 * index).

(** ** Pushing

    Memory is a function from addresses to bytes; the stack grows down from [esp]. *)
Definition store (n addr v : Z) (mem : Z -> Z) : Z -> Z := fun a =>
  if (addr <=? a) && (a <? addr + n) then (v / 256 ^ (a - addr)) mod 256 else mem a.

Definition push_struct (l : layout) (stack_base information : Z) (s : Z * (Z -> Z)) : Z * (Z -> Z) :=
  let esp := u32 (fst s - size_of l) in
  (esp, store (size_of l) (u32 (stack_base + esp)) information (snd s)).
Definition push (stack_base information : Z) := push_struct interrupt_information_32 stack_base information.
Definition push_cpl_change (stack_base information : Z) :=
  push_struct interrupt_information_32_cplchange stack_base information.

(** *** What the processor does: a push of 32 bits, and the values of an interrupt in their order. *)
Definition hardware_push (stack_base : Z) (s : Z * (Z -> Z)) (v : Z) : Z * (Z -> Z) :=
  let esp := u32 (fst s - 4) in (esp, store 4 (u32 (stack_base + esp)) v (snd s)).

Record interrupted := mk_interrupted { i_ss : Z; i_sp : Z; i_flags : Z; i_cs : Z; i_ip : Z; i_error : Z }.
Definition pushed (cpl_change error : bool) (i : interrupted) : list Z :=
  (if cpl_change then [i_ss i; i_sp i] else []) ++ [i_flags i; i_cs i; i_ip i] ++ (if error then [i_error i] else []).

(** What lies on the stack from its top on, in slots of [w] bits: the last value pushed first. *)
Definition slots (w : Z) (vs : list Z) : Z := pack (map (fun v => (w, v)) vs).
Definition on_stack (w : Z) (vs : list Z) : Z := slots w (rev vs).

(** ** Sizes and places *)

(** The sizes that the header asserts; the fields of the segments lie where the processor reads
    them (byte offsets of the architecture manual). *)
Lemma tss_layouts :
  map size_of [tss_descriptor_64; tss16; tss32; tss64] = [16; 44; 104; 104] /\
  map size_of [interrupt_information_32; interrupt_information_32_error; interrupt_information_32_cplchange;
    interrupt_information_32_error_cplchange; interrupt_information_64; interrupt_information_64_error] =
    [12; 16; 20; 24; 40; 48] /\
  map (place tss16) ["sp0"; "ss0"; "ip"; "ldt_selector"] = map (fun o => Some (8 * o, 16)) [2; 4; 14; 42] /\
  map (place tss32) ["esp0"; "cr3"; "eip"; "edi"] = map (fun o => Some (8 * o, 32)) [4; 28; 32; 68] /\
  map (place tss32) ["ss0"; "ldt_selector"; "io_map_base"] = map (fun o => Some (8 * o, 16)) [8; 96; 102] /\
  map (place tss64) ["rsp0"; "rsp2"; "ist1"; "ist7"] = map (fun o => Some (8 * o, 64)) [4; 20; 36; 84] /\
  place tss64 "iomap_base" = Some (8 * 102, 16).
Proof. repeat split; by vm_compute. Qed.

(** ** The frames *)

Lemma slots_nonneg w vs : 0 <= w -> 0 <= slots w vs.
Proof.
  intros Hw. unfold slots. assert (Ho : widths_ok (map fst (map (fun v => (w, v)) vs))).
  { unfold widths_ok. rewrite map_map. apply List.Forall_forall. intros x Hx. apply in_map_iff in Hx as (v & <- & _). done. }
  pose proof (pack_range _ Ho). lia.
Qed.

Lemma slot_reads w vs : forall i k, 0 < w -> 0 <= k <= w -> Forall (fun v => 0 <= v < 2 ^ w) vs ->
  (slots w vs / 2 ^ (w * Z.of_nat i)) mod 2 ^ k = default 0 (vs !! i) mod 2 ^ k.
Proof.
  induction vs as [|v vs IH]; intros i k Hw Hk Hvs.
  { unfold slots. cbn. rewrite Z.div_0_l by lia. by destruct i. }
  apply Forall_cons_iff in Hvs as [Hv Hvs]. change (slots w (v :: vs)) with (v mod 2 ^ w + 2 ^ w * slots w vs).
  rewrite (Z.mod_small v) by done. destruct i as [|i].
  - rewrite Z.mul_0_r, Z.div_1_r. cbn [lookup list_lookup default].
    replace (2 ^ w) with (2 ^ (w - k) * 2 ^ k) by (rewrite <- Z.pow_add_r by lia; f_equal; lia).
    replace (v + 2 ^ (w - k) * 2 ^ k * slots w vs) with (v + (2 ^ (w - k) * slots w vs) * 2 ^ k) by ring.
    apply Z.mod_add. lia.
  - replace (w * Z.of_nat (S i)) with (w + w * Z.of_nat i) by lia. rewrite Z.pow_add_r, <- Z.div_div by lia.
    replace (v + 2 ^ w * slots w vs) with (v + slots w vs * 2 ^ w) by ring.
    rewrite Z.div_add, (Z.div_small v), Z.add_0_l by lia. by apply IH.
Qed.

(** A field of a struct that lies at the start of a slot reads the value of that slot. *)
Lemma field_reads w l name i k vs : 0 < w -> 0 <= k <= w -> Forall (fun v => 0 <= v < 2 ^ w) vs ->
  place l name = Some (w * Z.of_nat i, k) -> get_field l name (slots w vs) = default 0 (vs !! i) mod 2 ^ k.
Proof. intros Hw Hk Hvs Hp. unfold get_field. rewrite Hp. by apply slot_reads. Qed.

Definition values_ok (w : Z) (i : interrupted) : Prop :=
  Forall (fun v => 0 <= v < 2 ^ w) [i_ss i; i_sp i; i_flags i; i_cs i; i_ip i; i_error i].

Lemma pushed_ok w cpl error i : values_ok w i -> Forall (fun v => 0 <= v < 2 ^ w) (rev (pushed cpl error i)).
Proof.
  intros Hv. unfold values_ok in Hv. repeat (apply Forall_cons_iff in Hv as [? Hv]).
  destruct cpl, error; repeat constructor; assumption || lia.
Qed.

(** All the fields named read the values given. *)
Definition reads (l : layout) (frame : Z) (fields : list (string * Z)) : Prop :=
  Forall (fun f => get_field l (fst f) frame = snd f) fields.

(** C40: Of the six structs only [interrupt_information_32_t] describes what lies on the stack: the
    others list the values in the order in which the processor pushes them, but the stack grows
    down.  Read through them the flags are the error code, the instruction pointer is the stack
    pointer, a segment or its low half, and so on. *)
Theorem interrupt_frames i : values_ok 32 i ->
  let low v := v mod 2 ^ 16 in
  let frame cpl error := on_stack 32 (pushed cpl error i) in
  let frame64 error := on_stack 64 (pushed true error i) in
  reads interrupt_information_32 (frame false false)
    [("eip", i_ip i); ("cs", low (i_cs i)); ("eflags", i_flags i)] /\
  reads interrupt_information_32_error (frame false true)
    [("eflags", i_error i); ("cs", low (i_ip i)); ("eip", i_cs i); ("error_code", i_flags i)] /\
  reads interrupt_information_32_cplchange (frame true false)
    [("old_ss", low (i_ip i)); ("old_esp", i_cs i); ("eflags", i_flags i); ("cs", low (i_sp i)); ("eip", i_ss i)] /\
  reads interrupt_information_32_error_cplchange (frame true true)
    [("old_ss", low (i_error i)); ("old_esp", i_ip i); ("eflags", i_cs i); ("cs", low (i_flags i));
     ("eip", i_sp i); ("error_code", i_ss i)] /\
  reads interrupt_information_64 (frame64 false)
    [("old_ss", low (i_ip i)); ("old_rsp", i_cs i); ("rflags", i_flags i); ("cs", low (i_sp i)); ("rip", i_ss i)] /\
  reads interrupt_information_64_error (frame64 true)
    [("old_ss", low (i_error i)); ("old_rsp", i_ip i); ("rflags", i_cs i); ("cs", low (i_flags i));
     ("rip", i_sp i); ("error_code", i_ss i)].
Proof.
  intros Hv low frame frame64.
  assert (Hw : values_ok 64 i).
  { eapply List.Forall_impl; [|exact Hv]. cbn beta. lia. }
  assert (Hr32 : forall l name cpl error j k v, 0 <= k <= 32 -> place l name = Some (32 * Z.of_nat j, k) ->
    rev (pushed cpl error i) !! j = Some v -> get_field l name (frame cpl error) = v mod 2 ^ k).
  { intros l name cpl error j k v Hk Hp Hl. unfold frame, on_stack.
    rewrite (field_reads 32 l name j k); [by rewrite Hl|lia|lia|by apply pushed_ok|exact Hp]. }
  assert (Hr64 : forall l name error j k v, 0 <= k <= 64 -> place l name = Some (64 * Z.of_nat j, k) ->
    rev (pushed true error i) !! j = Some v -> get_field l name (frame64 error) = v mod 2 ^ k).
  { intros l name error j k v Hk Hp Hl. unfold frame64, on_stack.
    rewrite (field_reads 64 l name j k); [by rewrite Hl|lia|lia|by apply pushed_ok|exact Hp]. }
  unfold values_ok in Hv. repeat (apply Forall_cons_iff in Hv as [? Hv]). cbn beta in *.
  repeat split; repeat constructor; cbn [fst snd]; unfold low;
    lazymatch goal with
    | |- get_field ?l ?name _ = _ =>
        let p := eval vm_compute in (place l name) in
        lazymatch p with Some (?o, ?k) =>
          first [ let j := eval vm_compute in (Z.to_nat (o / 32)) in
                  erewrite (Hr32 l name _ _ j k); [|lia|reflexivity|reflexivity]
                | let j := eval vm_compute in (Z.to_nat (o / 64)) in
                  erewrite (Hr64 l name _ j k); [|lia|reflexivity|reflexivity] ]
        end
    end; first [reflexivity | apply Z.mod_small; lia].
Qed.

(** ** Pushing in software *)

(** The bytes of [v] in [n] places are those of its low and of its high part. *)
Lemma store_split n k addr v rest mem a : 0 <= n -> 0 <= k -> 0 <= v < 256 ^ n ->
  store (n + k) addr (v + 256 ^ n * rest) mem a = store n addr v (store k (addr + n) rest mem) a.
Proof.
  intros Hn Hk Hv. unfold store.
  destruct (Z.leb_spec addr a), (Z.ltb_spec a (addr + n)), (Z.ltb_spec a (addr + (n + k))),
    (Z.leb_spec (addr + n) a), (Z.ltb_spec a (addr + n + k)); cbn [andb]; try lia; try done.
  - (* in the low part *)
    set (j := a - addr). assert (Hj : 0 <= j < n) by lia.
    replace (256 ^ n) with (256 ^ (n - j - 1) * 256 * 256 ^ j)
      by (rewrite <- Z.mul_assoc, <- Z.pow_succ_r, <- Z.pow_add_r by lia; f_equal; lia).
    replace (v + _ * rest) with (v + (256 ^ (n - j - 1) * rest * 256) * 256 ^ j) by ring.
    rewrite Z.div_add by lia. apply Z.mod_add. lia.
  - (* in the high part *)
    replace (a - addr) with (n + (a - (addr + n))) by lia.
    pose proof (Z.pow_pos_nonneg 256 n ltac:(lia) Hn). rewrite Z.pow_add_r, <- Z.div_div by lia.
    rewrite (Z.mul_comm (256 ^ n) rest), Z.div_add, (Z.div_small v), Z.add_0_l by lia. done.
Qed.

(** A stack below [esp] without wrap-around. *)
Definition room (stack_base esp n : Z) : Prop :=
  0 <= stack_base /\ n <= esp < 2 ^ 32 /\ stack_base + esp <= 2 ^ 32.

Definition same_stack (s s' : Z * (Z -> Z)) : Prop := fst s = fst s' /\ forall a, snd s a = snd s' a.

Lemma pushes_stored stack_base esp mem vs : Forall (fun v => 0 <= v < 2 ^ 32) vs ->
  room stack_base esp (4 * Z.of_nat (length vs)) ->
  same_stack (foldl (hardware_push stack_base) (esp, mem) vs)
    (esp - 4 * Z.of_nat (length vs), store (4 * Z.of_nat (length vs))
      (stack_base + (esp - 4 * Z.of_nat (length vs))) (on_stack 32 vs) mem).
Proof.
  induction vs as [|v vs IH] using rev_ind; intros Hvs Hroom.
  { split; cbn [foldl fst snd length]; [lia|]. intros a. unfold store.
    destruct (Z.leb_spec (stack_base + (esp - 4 * Z.of_nat 0)) a), (Z.ltb_spec a
      (stack_base + (esp - 4 * Z.of_nat 0) + 4 * Z.of_nat 0)); cbn [andb]; done || lia. }
  apply Forall_app in Hvs as [Hvs Hv]. apply Forall_cons_iff in Hv as [Hv _]. cbn beta in Hv.
  rewrite length_app in Hroom |- *. cbn [length] in *.
  destruct Hroom as (Hb & He & Hbe). destruct IH as [IHe IHm]; [exact Hvs|unfold room; lia|].
  rewrite foldl_app. cbn [foldl]. destruct (foldl _ (esp, mem) vs) as [e1 m1]. cbn [fst snd] in IHe, IHm. subst e1.
  unfold hardware_push. cbn [fst snd]. set (n := Z.of_nat (length vs)) in *.
  rewrite u32_small by (unfold is_u32; lia). rewrite (u32_small (stack_base + _)) by (unfold is_u32; lia).
  split; cbn [fst snd]; [lia|]. intros a. unfold on_stack. rewrite rev_app_distr. cbn [rev app].
  change (slots 32 (v :: rev vs)) with (v mod 2 ^ 32 + 256 ^ 4 * on_stack 32 vs). rewrite (Z.mod_small v) by lia.
  replace (4 * Z.of_nat (length vs + 1)) with (4 + 4 * n) by lia.
  rewrite store_split by lia.
  replace (stack_base + (esp - (4 + 4 * n))) with (stack_base + (esp - 4 * n - 4)) by lia.
  replace (stack_base + (esp - 4 * n - 4) + 4) with (stack_base + (esp - 4 * n)) by lia.
  unfold store at 1 2. destruct (_ && _); [done|]. apply IHm.
Qed.

(** [push] does the three pushes of the processor; [push_cpl_change] of the struct with the same
    values does its five pushes in the opposite order. *)
Theorem push_as_hardware stack_base esp mem i : values_ok 32 i -> room stack_base esp 20 ->
  let s := (esp, mem) in
  same_stack (push stack_base (slots 32 [i_ip i; i_cs i; i_flags i]) s)
    (foldl (hardware_push stack_base) s (pushed false false i)) /\
  same_stack (push_cpl_change stack_base (slots 32 (pushed true false i)) s)
    (foldl (hardware_push stack_base) s (rev (pushed true false i))).
Proof.
  intros Hv Hroom s. pose proof Hroom as (Hb & He & Hbe).
  assert (H3 : Forall (fun v => 0 <= v < 2 ^ 32) (pushed false false i)).
  { rewrite <- (rev_involutive (pushed false false i)). apply List.Forall_rev. by apply pushed_ok. }
  destruct (pushes_stored stack_base esp mem _ H3 ltac:(unfold room; cbn; lia)) as [E3 M3].
  destruct (pushes_stored stack_base esp mem _ (pushed_ok 32 true false i Hv) ltac:(unfold room; cbn; lia))
    as [E5 M5].
  unfold push, push_cpl_change, push_struct. cbn [fst snd s].
  change (size_of interrupt_information_32) with 12. change (size_of interrupt_information_32_cplchange) with 20.
  rewrite !(u32_small (esp - _)) by (unfold is_u32; lia). rewrite !(u32_small (stack_base + _)) by (unfold is_u32; lia).
  unfold s. split; split; cbn [fst snd].
  - rewrite E3. cbn. lia.
  - intros a. rewrite M3. done.
  - rewrite E5. cbn. lia.
  - intros a. rewrite M5. done.
Qed.

(** ** The theorems at concrete inputs *)

Definition page_fault : interrupted := mk_interrupted 0x23 0xBFFFF000 0x202 0x1B 0xC0DE 6.
Lemma page_fault_ok : values_ok 32 page_fault.
Proof. repeat constructor; cbn; lia. Qed.

Lemma interrupt_frames_witness :
  get_field interrupt_information_32_error "error_code" (on_stack 32 (pushed false true page_fault)) = 0x202 /\
  get_field interrupt_information_32_error "eip" (on_stack 32 (pushed false true page_fault)) = 0x1B.
Proof.
  destruct (interrupt_frames page_fault page_fault_ok) as (_ & He & _). unfold reads in He.
  rewrite !Forall_cons_iff in He. destruct He as (_ & _ & Hip & Hec & _). split; [exact Hec|exact Hip].
Defined.

Lemma push_as_hardware_witness :
  snd (push 0 (slots 32 [0xC0DE; 0x1B; 0x202]) (0x1000, fun _ => 0)) 0xFF4 = 0xDE.
Proof.
  destruct (push_as_hardware 0 0x1000 (fun _ => 0) page_fault page_fault_ok ltac:(unfold room; lia)) as [[_ Hm] _].
  specialize (Hm 0xFF4). etransitivity; [exact Hm|]. by vm_compute.
Defined.
