(* ===== verification/MadtLayout.v ===== *)
(** * The structs of the MADT entries ([firmware/acpi/madt/madt.hpp])

    Where the compiler (i386) places the fields of the structs, packed or not, against where the
    ACPI tables have them; the parser of [Acpi] reads at the compiler's places. *)

From S2P Require Import Prelude Machine Phys Acpi.

(** ** Struct layout

    A field has a size and an alignment, in bytes; a struct without [packed] pads every field to
    its alignment and its end to the largest one. *)
Record cfield := mk_field { f_name : string; f_size : Z; f_align : Z }.
Record cstruct := mk_struct { is_packed : bool; fields : list cfield }.

Definition align_up (offset a : Z) : Z := (offset + (a - 1)) / a * a.

Fixpoint offsets_from (packed : bool) (offset : Z) (fs : list cfield) : list (string * Z) * Z :=
  match fs with
  | [] => ([], offset)
  | f :: fs =>
      let start := if packed then offset else align_up offset (f_align f) in
      let '(l, end_) := offsets_from packed (start + f_size f) fs in ((f_name f, start) :: l, end_)
  end.
Definition offsets (s : cstruct) : list (string * Z) := fst (offsets_from (is_packed s) 0 (fields s)).
Definition max_align (s : cstruct) : Z := foldr Z.max 1 (map f_align (fields s)).
Definition sizeof (s : cstruct) : Z :=
  let end_ := snd (offsets_from (is_packed s) 0 (fields s)) in
  if is_packed s then end_ else align_up end_ (max_align s).

Definition uint8 (name : string) : cfield := mk_field name 1 1.
Definition uint16 (name : string) : cfield := mk_field name 2 2.
Definition uint32 (name : string) : cfield := mk_field name 4 4.
(** 64 bits are aligned to four bytes inside of a struct. *)
Definition uint64 (name : string) : cfield := mk_field name 8 4.
(** [entry_header] is packed: an enumeration of a byte and a length. *)
Definition header : cfield := mk_field "header" 2 1.

(** ** The structs of the header *)

Definition entry_header : cstruct := mk_struct true [uint8 "entry_type"; uint8 "record_length"].
Definition MADT : cstruct := mk_struct true [mk_field "header" 36 1; uint32 "lapic_address"; uint32 "flags"].
Definition entry_processor_local_apic : cstruct :=
  mk_struct true [header; uint8 "acpi_processor_id"; uint8 "apic_id"; uint32 "flags"].
Definition entry_io_apic : cstruct :=
  mk_struct true [header; uint8 "io_apic_id"; uint8 "reserved"; uint32 "io_apic_address";
    uint32 "global_system_interrupt_base"].
Definition entry_io_apic_interrupt_source_override : cstruct :=
  mk_struct false [header; uint8 "bus_source"; uint8 "irq_source"; uint32 "global_system_interrupt"; uint16 "flags"].
Definition entry_io_apic_nmi_source : cstruct :=
  mk_struct false [header; uint8 "nmi_source"; uint8 "reserved"; uint16 "flags"; uint32 "global_system_interrupt"].
Definition entry_local_apic_nmi : cstruct :=
  mk_struct false [header; uint8 "acpi_processor_id"; uint16 "flags"; uint8 "LINT"].
Definition entry_local_apic_address_override : cstruct :=
  mk_struct false [uint16 "reserved"; uint64 "local_apic_address_64b"].
Definition entry_processor_local_x2apic : cstruct :=
  mk_struct false [uint16 "reserved"; uint32 "processor_local_x2apic_id"; uint32 "flags"; uint32 "acpi_id"].

Definition struct_of_entry (k : EntryType) : cstruct :=
  match k with
  | processor_local_apic => entry_processor_local_apic
  | io_apic => entry_io_apic
  | io_apic_interrupt_source_override => entry_io_apic_interrupt_source_override
  | io_apic_non_maskable_interrupt_source => entry_io_apic_nmi_source
  | local_apic_non_maskable_interrupt => entry_local_apic_nmi
  | local_apic_address_override => entry_local_apic_address_override
  | processor_local_x2apic => entry_processor_local_x2apic
  end.

(** The places of the same fields in an entry of the table (ACPI specification). *)
Definition table_places (k : EntryType) : list (string * Z) :=
  match k with
  | processor_local_apic => [("acpi_processor_id", 2); ("apic_id", 3); ("flags", 4)]
  | io_apic => [("io_apic_id", 2); ("io_apic_address", 4); ("global_system_interrupt_base", 8)]
  | io_apic_interrupt_source_override =>
      [("bus_source", 2); ("irq_source", 3); ("global_system_interrupt", 4); ("flags", 8)]
  | io_apic_non_maskable_interrupt_source =>
      [("nmi_source", 2); ("reserved", 3); ("flags", 4); ("global_system_interrupt", 6)]
  | local_apic_non_maskable_interrupt => [("acpi_processor_id", 2); ("flags", 3); ("LINT", 5)]
  | local_apic_address_override => [("local_apic_address_64b", 4)]
  | processor_local_x2apic => [("processor_local_x2apic_id", 4); ("flags", 8); ("acpi_id", 12)]
  end.

Definition offset_of (s : cstruct) (name : string) : option Z :=
  snd <$> List.find (fun f => bool_decide (fst f = name)) (offsets s).

(** The fields whose place in the struct is not the one in the table, with both. *)
Definition misplaced (k : EntryType) : list (string * option Z * Z) :=
  List.filter (fun f => negb (bool_decide (snd (fst f) = Some (snd f))))
    (map (fun f => (fst f, offset_of (struct_of_entry k) (fst f), snd f)) (table_places k)).

Lemma misplaced_fields k : misplaced k =
  match k with
  | io_apic_non_maskable_interrupt_source => [("global_system_interrupt", Some 8, 6)]
  | local_apic_non_maskable_interrupt => [("flags", Some 4, 3); ("LINT", Some 6, 5)]
  | _ => []
  end.
Proof. destruct k; by vm_compute. Qed.

(** ** What the parser reads of the entries of non-maskable interrupts *)

Definition local_nmi_bytes (id flags lint : Z) : list Z := [4; 6; id] ++ le_bytes 2 flags ++ [lint].
Definition io_nmi_bytes (source reserved flags gsi : Z) : list Z :=
  [3; 10; source; reserved] ++ le_bytes 2 flags ++ le_bytes 4 gsi.

Lemma u8_lies mem a v : 0 <= v < 256 -> lies mem a [v] -> u8_at mem a = v.
Proof. intros Hv Hl. apply (load_at_lies mem 1); [exact Hv|]. cbn. unfold u8. by rewrite Z.mod_small. Qed.

(** A byte, and two of them, in the middle of bytes that lie somewhere. *)
Lemma u8_inside mem a l i v : lies mem a l -> 0 <= v < 256 -> l !! i = Some v -> u8_at mem (a + Z.of_nat i) = v.
Proof. intros Hl Hv Hi. unfold u8_at. cbn [load_at]. by rewrite (Hl i v Hi), Z.mul_0_r, Z.add_0_r. Qed.
Lemma u16_inside mem a l i v v' : lies mem a l -> l !! i = Some v -> l !! S i = Some v' ->
  u16_at mem (a + Z.of_nat i) = v + 256 * v'.
Proof.
  intros Hl Hi Hi'. unfold u16_at. cbn [load_at]. rewrite (Hl i v Hi).
  replace (a + Z.of_nat i + 1) with (a + Z.of_nat (S i)) by lia. rewrite (Hl (S i) v' Hi'). lia.
Qed.
Lemma u32_inside mem a l i v0 v1 v2 v3 : lies mem a l -> l !! i = Some v0 -> l !! S i = Some v1 ->
  l !! S (S i) = Some v2 -> l !! S (S (S i)) = Some v3 ->
  u32_at mem (a + Z.of_nat i) = v0 + 256 * v1 + 256 ^ 2 * v2 + 256 ^ 3 * v3.
Proof.
  intros Hl H0 H1 H2 H3. unfold u32_at. cbn [load_at]. rewrite (Hl i v0 H0).
  replace (a + Z.of_nat i + 1) with (a + Z.of_nat (S i)) by lia. rewrite (Hl _ v1 H1).
  replace (a + Z.of_nat (S i) + 1) with (a + Z.of_nat (S (S i))) by lia. rewrite (Hl _ v2 H2).
  replace (a + Z.of_nat (S (S i)) + 1) with (a + Z.of_nat (S (S (S i)))) by lia. rewrite (Hl _ v3 H3). lia.
Qed.

(** C39: The structs of five kinds of entries have their fields where the table has them; those of the
    two kinds of non-maskable interrupts do not.  Of a local one the parser takes the high byte of
    the flags with the pin for the flags and the type of the next entry for the pin; of one of the
    I/O APIC it takes the upper half of the interrupt with the head of the next entry. *)
Theorem nmi_entries_misread {D G} mem a next (g : G) :
  Forall (fun v => 0 <= v < 256) next -> (2 <= length next)%nat ->
  (forall k, misplaced k = [] <->
     k <> io_apic_non_maskable_interrupt_source /\ k <> local_apic_non_maskable_interrupt) /\
  (forall id flags lint, is_u8 id -> is_u8 lint -> is_u16 flags ->
     lies mem a (local_nmi_bytes id flags lint ++ next) ->
     yields (print_entry mem local_apic_non_maskable_interrupt a : M D G unit) g tt g
       [EPrint "ACPI Processor ID : %u\n" [PNum id];
        EPrint "flags = %u\n" [PNum (flags / 256 + 256 * lint)];
        EPrint "LINT = %u\n" [PNum (nth 0 next 0)]]) /\
  (forall source reserved flags gsi, is_u8 source -> is_u8 reserved -> is_u16 flags -> is_u32 gsi ->
     lies mem a (io_nmi_bytes source reserved flags gsi ++ next) ->
     yields (print_entry mem io_apic_non_maskable_interrupt_source a : M D G unit) g tt g
       [EPrint "nmi source = %u\n" [PNum source]; EPrint "reserved = %u\n" [PNum reserved];
        EPrint "flags = %u\n" [PNum flags];
        EPrint "global system interrupt = %u\n"
          [PNum (gsi / 2 ^ 16 + 2 ^ 16 * (nth 0 next 0 + 256 * nth 1 next 0))]]).
Proof.
  intros Hn Hl. destruct next as [|n0 [|n1 next]]; cbn in Hl; [lia|lia|].
  apply Forall_cons_iff in Hn as [Hn0 Hn]. cbn [nth].
  split; [|split].
  - intros k. rewrite misplaced_fields. destruct k; split; try done; try (by intros [? ?]); by intros ?.
  - intros id flags lint Hid Hli Hf Hlies. unfold is_u8, is_u16 in *.
    pose proof (u8_inside mem a _ 2 id Hlies Hid eq_refl) as E2.
    pose proof (u16_inside mem a _ 4 _ _ Hlies eq_refl eq_refl) as E4.
    pose proof (u8_inside mem a _ 6 n0 Hlies Hn0 eq_refl) as E6.
    change (Z.of_nat 2) with 2 in E2. change (Z.of_nat 4) with 4 in E4. change (Z.of_nat 6) with 6 in E6.
    cbn [print_entry]. rewrite E2, E4, E6.
    replace (u8 (flags / 256)) with (flags / 256); [by intros d|].
    unfold u8. rewrite Z.mod_small; [done|]. split; [apply Z.div_pos; lia|apply Z.div_lt_upper_bound; lia].
  - intros source reserved flags gsi Hs Hr Hf Hg Hlies. unfold is_u8, is_u16, is_u32 in *.
    pose proof (u8_inside mem a _ 2 source Hlies Hs eq_refl) as E2.
    pose proof (u8_inside mem a _ 3 reserved Hlies Hr eq_refl) as E3.
    pose proof (u16_inside mem a _ 4 _ _ Hlies eq_refl eq_refl) as E4.
    pose proof (u32_inside mem a _ 8 _ _ _ _ Hlies eq_refl eq_refl eq_refl eq_refl) as E8.
    change (Z.of_nat 2) with 2 in E2. change (Z.of_nat 3) with 3 in E3. change (Z.of_nat 4) with 4 in E4.
    change (Z.of_nat 8) with 8 in E8. cbn [print_entry]. rewrite E2, E3, E4, E8. unfold u8.
    replace (flags mod 2 ^ 8 + 256 * ((flags / 256) mod 2 ^ 8)) with flags by (change (2 ^ 8) with 256; Z.to_euclidean_division_equations; lia).
    replace ((gsi / 256 / 256) mod 2 ^ 8 + 256 * ((gsi / 256 / 256 / 256) mod 2 ^ 8) + 256 ^ 2 * n0 + 256 ^ 3 * n1)
      with (gsi / 2 ^ 16 + 2 ^ 16 * (n0 + 256 * n1)); [by intros d|].
    change (2 ^ 8) with 256. change (2 ^ 16) with 65536. change (256 ^ 2) with 65536. change (256 ^ 3) with 16777216.
    Z.to_euclidean_division_equations. lia.
Qed.

(** An entry for the pin 1 of all processors, edge-triggered and active high, and a processor behind it. *)
Definition nmi_bytes : list Z := local_nmi_bytes 255 5 1 ++ [0; 8].
Definition nmi_memory (a : Z) : Z := default 0 (nmi_bytes !! Z.to_nat (a - 0x1000)).

Lemma nmi_entries_misread_witness :
  o_events (print_entry (D:=no_device) (G:=unit) nmi_memory local_apic_non_maskable_interrupt 0x1000 ND tt) =
    [EPrint "ACPI Processor ID : %u\n" [PNum 255]; EPrint "flags = %u\n" [PNum 256];
     EPrint "LINT = %u\n" [PNum 0]].
Proof.
  assert (Hl : lies nmi_memory 0x1000 nmi_bytes).
  { intros i b Hi. pose proof (lookup_lt_Some _ _ _ Hi) as Hb. change (length nmi_bytes) with 8%nat in Hb.
    do 8 (destruct i as [|i]; [injection Hi as <-; by vm_compute|]). lia. }
  destruct (nmi_entries_misread (D:=no_device) nmi_memory 0x1000 [0; 8] tt ltac:(repeat constructor; lia)
    ltac:(cbn; lia)) as (_ & Hlocal & _).
  destruct (Hlocal 255 5 1 ltac:(done) ltac:(done) ltac:(done) Hl ND) as (_ & _ & He). exact He.
Defined.
