(* ===== verification/KernelMain.v ===== *)
(** * What the kernel makes of the boot information ([kernel/kernel.c])

    The parts of [kernel_main] that look at the multiboot information: the framebuffer, the root
    pointer of the ACPI tables and the 64-bit kernel among the modules. *)

From S2P Require Import Prelude Machine Phys Multiboot Elf Framebuffer.

(** Division by zero is undefined. *)
Definition round_up_div (top bot : Z) : option Z :=
  if bot =? 0 then None
  else Some (if negb (top mod bot =? 0) then u32 (top / bot + 1) else top / bot).

Section kernel_main.
Context {D : Type} `{PortDevice D}.
(** Built with [-DDEBUG] or not; in a debug build the framebuffer is left alone. *)
Context (DEBUG : bool) (mem : Z -> Z).
(** The tags looked at before the model gives up. *)
Context (fuel : nat).
Local Abbreviation K A := (M D FrameBuffer A).

(** From the framebuffer's tag to the first drawing.  [bool type = grub_fb_info.type]. *)
Definition use_framebuffer (info : framebuffer_info_t) : K unit :=
  let bpp := bit_per_pixel info in
  let type := if type_ info =? 0 then 0 else 1 in
  kprintf "\n\n\n" [];;
  kprintf "FB addr: %h %h, pitch=%u, w=%u, h=%u, bpp=%u, type=%u\n"
    [PNum (base_addr_high info); PNum (base_addr_low info); PNum (pitch info); PNum (Multiboot.width info);
     PNum (Multiboot.height info); PNum bpp; PNum (type_ info)];;
  assert_handler_fmt (bpp =? 32) "Need 32 bit per pixel, else we are fucked!\n" [];;
  assert_handler_fmt (type =? 1) "Need color support\n" [];;
  kprintf "\n\n\n" [];;
  do_test_c DEBUG (base_addr_low info) (Multiboot.width info) (Multiboot.height info) (pitch info).

Definition framebuffer_part (mb2_info_addr : Z) : K unit :=
  if DEBUG then mret tt else
  info ← get_framebuffer mem fuel mb2_info_addr; use_framebuffer info.

(** [rsdp_type_names] *)
Definition rsdp_type_names : list string := ["NULL"; "OLD"; "NEW"].
Definition rsdp_part (mb2_info_addr : Z) : K Z :=
  kprintf "tryng to get rsdp\n" [];;
  '(new_or_old, rsdp_v) ← get_rsdp_grub mem fuel mb2_info_addr;
  name ← read_cell (rsdp_type_names !! Z.to_nat new_or_old);
  kprintf "rsdp = %h, type=%s\n" [PNum rsdp_v; PStr name];;
  mret rsdp_v.

(** The halves of a 64-bit number, and the first bytes of the module. *)
Definition print_first_bytes (address : Z) : K unit :=
  for_range 8 0 (fun i => kprintf "byte = %h\n" [PNum (u8_at mem (address + i))]).
Definition report_kernel64 (kernel64_bit : entry_point_c) : K unit :=
  let high v := u32 (v / 2 ^ 32) in
  kprintf "\n\nThe kernel 64 bit (Long Mode) Entry point:\n" [];;
  kprintf "Entry physical : %h\n" [PNum (entry_physical kernel64_bit)];;
  kprintf "Entry virtual : %h%h\n" [PNum (high (entry_virtual kernel64_bit)); PNum (u32 (entry_virtual kernel64_bit))];;
  kprintf "Kernel Size : %h%h\n" [PNum (high (entry_size kernel64_bit)); PNum (u32 (entry_size kernel64_bit))];;
  pages ← read_cell (round_up_div (u32 (entry_size kernel64_bit)) 0x1024);
  kprintf "Kernel Page Count : %h\n\n" [PNum pages];;
  print_first_bytes (entry_physical kernel64_bit).

(** These parts in their order, up to the module; [get_module_location] does not return a value. *)
Definition boot_information (mb2_info_addr : Z) : K unit :=
  framebuffer_part mb2_info_addr;;
  rsdp_v ← rsdp_part mb2_info_addr;
  get_module_location mem fuel mb2_info_addr 0;;
  kprintf "Found a module\n" [].
End kernel_main.

(** ** Rounding *)

Lemma round_up_div_spec top bot : is_u32 top -> 0 < bot ->
  exists q, round_up_div top bot = Some q /\ top <= q * bot < top + bot.
Proof.
  intros Ht Hb. unfold is_u32 in Ht. unfold round_up_div. rewrite (proj2 (Z.eqb_neq bot 0)) by lia.
  pose proof (Z.div_mod top bot ltac:(lia)) as Hd. pose proof (Z.mod_pos_bound top bot Hb) as Hm.
  eexists. split; [reflexivity|]. destruct (Z.eqb_spec (top mod bot) 0) as [E|E]; cbn [negb]; [lia|].
  unfold u32. rewrite Z.mod_small; [lia|].
  assert (top / bot <= top) by (apply Z.div_le_upper_bound; nia). split; [pose proof (Z.div_pos top bot); lia|].
  destruct (decide (bot = 1)) as [->|]; [rewrite Z.mod_1_r in E; lia|].
  assert (top / bot <= top / 2) by (apply Z.div_le_compat_l; lia).
  assert (2 * (top / 2) <= top) by (apply Z.mul_div_le; lia). lia.
Qed.

(** The page count of the 64-bit kernel divides by 0x1024 in place of the page size 0x1000: from
    470130 bytes on the pages it counts do not hold the kernel. *)
Lemma page_count_short size : is_u32 size -> 470130 <= size ->
  exists pages, round_up_div size 0x1024 = Some pages /\ pages * 0x1000 < size.
Proof.
  intros Hs Hl. destruct (round_up_div_spec size 0x1024 Hs ltac:(lia)) as (q & Hq & Hb).
  exists q. split; [exact Hq|]. lia.
Qed.

(** The colour test lets every type but 0 through, text mode (2) too. *)
Lemma framebuffer_refused {D} `{PortDevice D} DEBUG info (d : D) g :
  bit_per_pixel info <> 32 \/ type_ info = 0 ->
  o_exit ((use_framebuffer DEBUG info : M D FrameBuffer unit) d g) = Aborted.
Proof.
  intros Hi. unfold use_framebuffer. do 2 rewrite (bind_done (kprintf _ _) _ d g d g [EPrint _ _] tt) by done.
  destruct (Z.eqb_spec (bit_per_pixel info) 32); [|done]. destruct Hi as [|Ht]; [done|]. by rewrite Ht.
Qed.
Lemma framebuffer_taken {D} `{PortDevice D} DEBUG info (d : D) g :
  bit_per_pixel info = 32 -> type_ info <> 0 ->
  o_exit ((use_framebuffer DEBUG info : M D FrameBuffer unit) d g) =
  o_exit ((do_test_c DEBUG (base_addr_low info) (Multiboot.width info) (Multiboot.height info) (pitch info)
    : M D FrameBuffer unit) d g).
Proof.
  intros Hb Ht. unfold use_framebuffer. rewrite Hb, (proj2 (Z.eqb_neq (type_ info) 0) Ht).
  repeat first [ rewrite (bind_done (kprintf _ _) _ d g d g [EPrint _ _] tt) by done
               | rewrite (bind_done (assert_handler_fmt true _ _) _ d g d g [] tt) by done ]. done.
Qed.
